(** * CROSSCON Hypervisor: the VM manager bootstrap core ([src/core/vmm.c])

    A shallow embedding of [vmm.c] and the properties of its boot protocol.

    Conventions of the embedding:
    - C unsigned 64-bit integers ([size_t], [uint64_t], [cpumap_t], [pte_t])
      are [Z] with the wrap-around of [++] written out;
    - physical CPU identifiers and array indices are [nat];
    - every region of code between [spin_lock] and [spin_unlock] is one
      atomic step of the CPU executing it; a run of the system is a
      schedule, the list of the CPUs taking the successive steps;
    - [cpu_sync_barrier] lets a CPU through once every participant has
      arrived;
    - calls to collaborators outside [vmm.c] ([vm_init], [ipc_init],
      [mem_alloc_vpage], ...) are recorded as events. *)

From Stdlib Require Import ZArith Lia Bool List Permutation.
From stdpp Require Import base tactics option list.

Set Warnings "-register-all".
Local Open Scope Z_scope.

(* ================================================================== *)
(** * 1. Data model *)
(* ================================================================== *)

(** [struct vm_config]: the fields [vmm.c] reads.  [platform.cpu_num] is
    [cpu_num]; [children_num] is the length of [children]. *)
Inductive vm_config : Type :=
  VmConfig { cpu_affinity : Z; cpu_num : Z; children : list vm_config }.

(** [struct config]: [vmlist_size] is the length of [vmlist]. *)
Record config : Type := Config { vmlist : list vm_config }.

Definition vmlist_size (cfg : config) : nat := length (vmlist cfg).

Definition U64 : Z := 2 ^ 64.

(** [x++] on a 64-bit unsigned integer. *)
Definition incr64 (x : Z) : Z := (x + 1) mod U64.

(** [(1UL << cpu.id)]; the C expression is defined for [id < 64] only. *)
Definition cpu_bit (id : nat) : Z := Z.shiftl 1 (Z.of_nat id).

(** [config->cpu_affinity & (1UL << cpu.id)] as a C truth value. *)
Definition affine (vc : vm_config) (id : nat) : bool :=
  negb (Z.land (cpu_affinity vc) (cpu_bit id) =? 0).

(* ================================================================== *)
(** * 2. VMID allocator: [vmm_alloc_vmid] *)
(* ================================================================== *)

(** The state is the function's [static uint64_t id]; the lock makes the
    pre-increment atomic.  Returns the issued identifier and the new
    counter. *)
Definition vmm_alloc_vmid (id : Z) : Z * Z :=
  let id' := incr64 id in (id', id').

(** The initial value of the static counter. *)
Definition vmid_init : Z := 0.

(** A sequence of calls; [callers] lists the calling CPU of each call, in
    the order in which the calls take the lock. *)
Fixpoint vmid_calls (callers : list nat) (id : Z) : list Z * Z :=
  match callers with
  | [] => ([], id)
  | _ :: rest =>
      let '(vmid, id1) := vmm_alloc_vmid id in
      let '(vmids, id2) := vmid_calls rest id1 in
      (vmid :: vmids, id2)
  end.

(** Strictly increasing in issue order. *)
Fixpoint increasing (l : list Z) : Prop :=
  match l with
  | [] => True
  | x :: l' => match l' with [] => True | y :: _ => x < y end /\ increasing l'
  end.

(* ================================================================== *)
(** * 3. Boot protocol: [vmm_init] *)
(* ================================================================== *)

(** [struct vm_assignment], without its lock. *)
Record vm_assignment : Type := VmAssign {
  va_master : bool;
  va_ncpus : Z;
  va_cpus : Z;
  va_shared_table : Z
}.

(** An entry after [memset(vm_assign, 0, ...)]. *)
Definition va_zero : vm_assignment := VmAssign false 0 0 0.

(** What the platform and the collaborators decide. *)
Record platform : Type := Platform {
  CPU_MASTER : nat;
  (** does [mem_alloc_page] return the assignment table? *)
  table_alloc_ok : bool;
  (** the level-0 page-table entry at [CROSSCONHYP_VM_BASE] that CPU [c]
      reads back through [pt_get_pte] after [mem_map] *)
  mapped_pte : nat -> Z
}.

(** Calls a CPU issues to collaborators, in program order. *)
Inductive boot_event : Type :=
| EvInfoNoVms
| EvArchInit
| EvIommuInit
| EvErrorNoTable
| EvPartitionInit (sync_count : Z)
| EvPteInstall (pte : Z)
| EvTableFree
| EvIpcInit (vm : option nat) (master : bool)
| EvCreateVms (vm_id : nat)
| EvVcpuRun
| EvIdle.

(** Program points of [vmm_init]. *)
Inductive pc_t : Type :=
| PcStart              (* line 162 *)
| PcBarrier1           (* line 191 *)
| PcPass1 (i : nat)    (* line 201, loop head with index [i] *)
| PcBarrier2           (* line 222 *)
| PcPass2 (i : nat)    (* line 228, loop head with index [i] *)
| PcBarrier3           (* line 250 *)
| PcPublish            (* lines 259-271, master *)
| PcSpin               (* line 273, follower *)
| PcInstall            (* lines 274-276, follower *)
| PcBarrier4           (* line 280 *)
| PcTail               (* lines 282-289 *)
| PcCreateVms          (* lines 290-293 *)
| PcRun                (* inside vcpu_run *)
| PcIdle               (* inside cpu_idle *)
| PcError.             (* inside ERROR *)

(** The local variables of one CPU in [vmm_init], its own page-table
    entry for the partition, and the calls it has issued. *)
Record cpu_state : Type := CpuState {
  pc : pc_t;
  l_master : bool;
  l_assigned : bool;
  l_vm_id : nat;
  l_pte : Z;
  l_trace : list boot_event
}.

Definition cpu_init : cpu_state := CpuState PcStart false false 0%nat 0 [].

Record boot_state : Type := BootState {
  table : list vm_assignment;   (* vm_assign[] *)
  cpus : list cpu_state         (* indexed by cpu.id *)
}.

Definition boot_init (ncpu : nat) : boot_state :=
  BootState [] (replicate ncpu cpu_init).

(** How far a CPU has come, for the barriers on [cpu_glb_sync]. *)
Definition phase (p : pc_t) : nat :=
  match p with
  | PcStart => 0 | PcError => 0
  | PcBarrier1 => 1
  | PcPass1 _ => 2
  | PcBarrier2 => 3
  | PcPass2 _ => 4
  | PcBarrier3 => 5
  | PcPublish => 6 | PcSpin => 6 | PcInstall => 6
  | PcBarrier4 => 7
  | PcTail => 8
  | PcCreateVms => 9
  | PcRun => 10 | PcIdle => 10
  end.

(** Barrier number [k] (the one a CPU waits at in phase [k]) opens when
    every CPU is at it or past it. *)
Definition all_arrived (k : nat) (cs : list cpu_state) : bool :=
  forallb (fun l => (k <=? phase (pc l))%nat) cs.

Definition set_pc (p : pc_t) (l : cpu_state) : cpu_state :=
  CpuState p (l_master l) (l_assigned l) (l_vm_id l) (l_pte l) (l_trace l).

Definition emit (evs : list boot_event) (l : cpu_state) : cpu_state :=
  CpuState (pc l) (l_master l) (l_assigned l) (l_vm_id l) (l_pte l)
           (l_trace l ++ evs).

(** [master = true; assigned = true; vm_id = i] *)
Definition claim_master (i : nat) (l : cpu_state) : cpu_state :=
  CpuState (pc l) true true i (l_pte l) (l_trace l).

(** [assigned = true; vm_id = i] *)
Definition claim_slot (i : nat) (l : cpu_state) : cpu_state :=
  CpuState (pc l) (l_master l) true i (l_pte l) (l_trace l).

(** [vm_assign[i].ncpus++; vm_assign[i].cpus |= (1UL << cpu.id)], with
    [vm_assign[i].master = m]. *)
Definition va_claim (m : bool) (c : nat) (e : vm_assignment) : vm_assignment :=
  VmAssign m (incr64 (va_ncpus e)) (Z.lor (va_cpus e) (cpu_bit c))
           (va_shared_table e).

(** The critical section of the affinity pass, lines 203-218. *)
Definition pass1_section (vc : vm_config) (c i : nat) (e : vm_assignment)
    (l : cpu_state) : vm_assignment * cpu_state :=
  if negb (va_master e) then
    (va_claim true c e, claim_master i l)
  else if va_ncpus e <? cpu_num vc then
    (va_claim (va_master e) c e, claim_slot i l)
  else (e, l).

(** The critical section of the fallback pass, lines 229-246. *)
Definition pass2_section (vc : vm_config) (c i : nat) (e : vm_assignment)
    (l : cpu_state) : vm_assignment * cpu_state :=
  if va_ncpus e <? cpu_num vc then
    if negb (va_master e) then
      (va_claim true c e, claim_master i l)
    else
      (va_claim (va_master e) c e, claim_slot i l)
  else (e, l).

(** One iteration of the loop of a pass, from its loop head: the loop
    condition [i < vmlist_size && !assigned], the body, [i++].  [guard]
    is the test made before taking the lock, [section] what is done under
    it.  An index outside the table is not accessed. *)
Definition pass_iter (cfg : config) (next : pc_t) (here : nat -> pc_t)
    (guard : vm_config -> bool)
    (section : vm_config -> nat -> vm_assignment -> cpu_state ->
               vm_assignment * cpu_state)
    (i : nat) (tbl : list vm_assignment) (l : cpu_state)
    : list vm_assignment * cpu_state :=
  if (i <? vmlist_size cfg)%nat && negb (l_assigned l) then
    match vmlist cfg !! i, tbl !! i with
    | Some vc, Some e =>
        if guard vc then
          let '(e', l') := section vc i e l in
          (<[i := e']> tbl, set_pc (here (S i)) l')
        else (tbl, set_pc (here (S i)) l)
    | _, _ => (tbl, set_pc (here (S i)) l)
    end
  else (tbl, set_pc next l).

(** The master path of the partition bootstrap, lines 259-271: the
    partition is allocated, mapped and initialised, then the page-table
    entry is published in the assignment table. *)
Definition publish (pf : platform) (c : nat) (tbl : list vm_assignment)
    (l : cpu_state) : list vm_assignment * cpu_state :=
  match tbl !! l_vm_id l with
  | Some e =>
      let pte := mapped_pte pf c in
      (<[l_vm_id l := VmAssign (va_master e) (va_ncpus e) (va_cpus e) pte]> tbl,
       CpuState PcBarrier4 (l_master l) (l_assigned l) (l_vm_id l) pte
                (l_trace l ++ [EvPartitionInit (va_ncpus e)]))
  | None => (tbl, set_pc PcBarrier4 l)
  end.

(** [vm_assign[vm_id].vm_shared_table], as a follower reads it. *)
Definition shared_table (tbl : list vm_assignment) (i : nat) : Z :=
  match tbl !! i with Some e => va_shared_table e | None => 0 end.

(** One step of CPU [c] of [vmm_init]: from one program point to the next.
    [cs] are the states of all CPUs, read by the barriers only. *)
Definition cpu_step (cfg : config) (pf : platform) (c : nat)
    (tbl : list vm_assignment) (cs : list cpu_state) (l : cpu_state)
    : list vm_assignment * cpu_state :=
  match pc l with
  | PcStart =>
      if (vmlist_size cfg =? 0)%nat then
        (tbl, set_pc PcIdle
                (emit ((if (c =? CPU_MASTER pf)%nat then [EvInfoNoVms] else [])
                       ++ [EvIdle]) l))
      else if (c =? CPU_MASTER pf)%nat then
        if table_alloc_ok pf then
          (replicate (vmlist_size cfg) va_zero,
           set_pc PcBarrier1 (emit [EvArchInit; EvIommuInit] l))
        else
          (tbl, set_pc PcError (emit [EvArchInit; EvIommuInit; EvErrorNoTable] l))
      else (tbl, set_pc PcBarrier1 (emit [EvArchInit] l))
  | PcBarrier1 =>
      if all_arrived 1 cs then (tbl, set_pc (PcPass1 0) l) else (tbl, l)
  | PcPass1 i =>
      pass_iter cfg PcBarrier2 PcPass1 (fun vc => affine vc c)
                (fun vc => pass1_section vc c) i tbl l
  | PcBarrier2 =>
      if all_arrived 3 cs then
        (tbl, set_pc (if l_assigned l then PcBarrier3 else PcPass2 0) l)
      else (tbl, l)
  | PcPass2 i =>
      pass_iter cfg PcBarrier3 PcPass2 (fun _ => true)
                (fun vc => pass2_section vc c) i tbl l
  | PcBarrier3 =>
      if all_arrived 5 cs then
        (tbl, set_pc (if l_assigned l
                      then if l_master l then PcPublish else PcSpin
                      else PcBarrier4) l)
      else (tbl, l)
  | PcPublish => publish pf c tbl l
  | PcSpin =>
      if shared_table tbl (l_vm_id l) =? 0 then (tbl, l)
      else (tbl, set_pc PcInstall l)
  | PcInstall =>
      let pte := shared_table tbl (l_vm_id l) in
      (tbl, CpuState PcBarrier4 (l_master l) (l_assigned l) (l_vm_id l) pte
                     (l_trace l ++ [EvPteInstall pte]))
  | PcBarrier4 =>
      if all_arrived 7 cs then (tbl, set_pc PcTail l) else (tbl, l)
  | PcTail =>
      let free := if (c =? CPU_MASTER pf)%nat then [EvTableFree] else [] in
      let ipc := EvIpcInit (if l_assigned l then Some (l_vm_id l) else None)
                           (l_master l) in
      if l_assigned l then (tbl, set_pc PcCreateVms (emit (free ++ [ipc]) l))
      else (tbl, set_pc PcIdle (emit (free ++ [ipc; EvIdle]) l))
  | PcCreateVms =>
      (tbl, set_pc PcRun (emit [EvCreateVms (l_vm_id l); EvVcpuRun] l))
  | PcRun => (tbl, l)
  | PcIdle => (tbl, l)
  | PcError => (tbl, l)
  end.

(** CPU [c] takes a step. *)
Definition boot_step (cfg : config) (pf : platform) (c : nat)
    (s : boot_state) : boot_state :=
  match cpus s !! c with
  | Some l =>
      let '(tbl', l') := cpu_step cfg pf c (table s) (cpus s) l in
      BootState tbl' (<[c := l']> (cpus s))
  | None => s
  end.

(** A run: the CPUs of the schedule step one after the other. *)
Fixpoint boot_run (cfg : config) (pf : platform) (sched : list nat)
    (s : boot_state) : boot_state :=
  match sched with
  | [] => s
  | c :: rest => boot_run cfg pf rest (boot_step cfg pf c s)
  end.

(** The states some interleaving of [ncpu] CPUs reaches. *)
Definition boot_reachable (cfg : config) (pf : platform) (ncpu : nat)
    (s : boot_state) : Prop :=
  exists sched, s = boot_run cfg pf sched (boot_init ncpu).

(** [vm_assign[i].ncpus] and [vm_assign[i].master]. *)
Definition ncpus_at (s : boot_state) (i : nat) : Z :=
  match table s !! i with Some e => va_ncpus e | None => 0 end.

Definition master_at (s : boot_state) (i : nat) : bool :=
  match table s !! i with Some e => va_master e | None => false end.

(** CPU [c] took the master branch for entry [i]. *)
Definition is_master_of (s : boot_state) (c i : nat) : Prop :=
  exists l, cpus s !! c = Some l /\ l_master l = true /\ l_vm_id l = i.

(** CPU [c] claimed a slot of entry [i]. *)
Definition is_assigned_to (s : boot_state) (c i : nat) : Prop :=
  exists l, cpus s !! c = Some l /\ l_assigned l = true /\ l_vm_id l = i.

(** How often [vm_assign[i].master] goes from false to true in a run. *)
Fixpoint master_flips (cfg : config) (pf : platform) (i : nat)
    (sched : list nat) (s : boot_state) : nat :=
  match sched with
  | [] => 0
  | c :: rest =>
      let s' := boot_step cfg pf c s in
      ((if negb (master_at s i) && master_at s' i then 1 else 0)
       + master_flips cfg pf i rest s')%nat
  end.

(** Round-robin schedule: [rounds] times the CPUs [0 .. ncpu-1]. *)
Fixpoint round_robin (ncpu rounds : nat) : list nat :=
  match rounds with
  | O => []
  | S r => seq 0 ncpu ++ round_robin ncpu r
  end.

(* ================================================================== *)
(** * 4. Node pool and child lists *)
(* ================================================================== *)

(** [struct vcpu]: its VM, the physical CPU it runs on and the list
    [vmstack_children] of child-relationship nodes.  A node ([struct
    node_data]) is the pool slot it occupies and its [data], the child's
    virtual CPU. *)
Inductive vcpu : Type :=
  Vcpu { vcpu_vm : nat; vcpu_cpu : nat; vmstack_children : list (nat * vcpu) }.

Definition node_data : Type := (nat * vcpu)%type.

(** Modelled from the spec: [objcache.h] is not part of the sources.  The
    Node Pool is a fixed-size-slot allocator with a count of free slots;
    allocation takes one free slot, release gives one back.  With no free
    slot [objcache_alloc] has no node to return. *)
Record objcache : Type := ObjCache { oc_free : list nat }.

Definition free_slots (oc : objcache) : nat := length (oc_free oc).

Definition objcache_alloc (oc : objcache) : option (nat * objcache) :=
  match oc_free oc with
  | [] => None
  | slot :: rest => Some (slot, ObjCache rest)
  end.

Definition objcache_free (oc : objcache) (slot : nat) : objcache :=
  ObjCache (slot :: oc_free oc).

(** Modelled from the spec: [list.h] is not part of the sources.
    [list_push] appends a node to a list, [list_rm] unlinks the node with the
    given address, [list_foreach] visits the nodes in list order. *)
Definition list_push (l : list node_data) (n : node_data) : list node_data :=
  l ++ [n].

Fixpoint list_rm (l : list node_data) (slot : nat) : list node_data :=
  match l with
  | [] => []
  | n :: rest => if (fst n =? slot)%nat then rest else n :: list_rm rest slot
  end.

(* ================================================================== *)
(** * 5. Hypervisor state shared by the tree builder and the dynamic
      VM manager *)
(* ================================================================== *)

(** The fields of [struct partition] that [vmm.c] uses.  [reset_ahead] is
    not a field of the struct: it records that the partition master has
    already executed line 68 for the next level, which it does without the
    lock and which no barrier keeps behind the fallback pass of the level
    before. *)
Record partition_t : Type := Partition {
  part_master : nat;     (* partition->master *)
  curr_vm : nat;         (* partition->init.curr_vm *)
  init_ncpus : Z;        (* partition->init.ncpus *)
  nodes : objcache;      (* partition->nodes *)
  reset_ahead : bool     (* line 68 of the next level has run already *)
}.

(** Calls to the collaborators of the tree builder and of the dynamic VM
    manager. *)
Inductive hyp_event : Type :=
| EvEnter (cpu : nat) (config : vm_config) (nested : bool)
| EvAllocVm (cpu : nat) (vm : nat)
| EvVmInit (cpu : nat) (vm : nat) (config : vm_config) (master : bool)
           (vm_id : Z)
| EvListPush (cpu : nat) (parent_vm : nat) (slot : nat) (child_vm : nat)
| EvVmInitDynamic (cpu : nat) (vm : nat) (vm_id : Z)
| EvVmDestroyDynamic (vm : nat)
| EvZeroVm (vm : nat)
| EvFreeVm (vm : nat).

Record hyp_state : Type := HypState {
  part : partition_t;
  vmid_counter : Z;                  (* the static [id] of vmm_alloc_vmid *)
  vm_structs : list nat;             (* VM struct pages currently allocated *)
  cpu_children : nat -> list node_data;  (* cpu.vcpu->vmstack_children *)
  events : list hyp_event;
  ticks : nat                        (* lock acquisitions rounds so far *)
}.

(** What the environment decides: the order in which the CPUs of a cohort
    get the partition lock in each round, the address [mem_alloc_vpage]
    returns given the pages in use, and how far the partition master runs
    ahead of the others.  No barrier follows the fallback pass (lines
    98-104): a partition master that has its slot goes on to [vm_init] and
    to the first child, where line 68 resets [partition->init.ncpus]
    without the lock.  [reset_at t cohort = Some k] says that in lock round
    [t] this reset takes effect when [k] CPUs of the cohort have been
    through the fallback pass; [None] that it comes after all of them. *)
Record environment : Type := Environment {
  lock_order : nat -> list nat -> list nat;
  vm_page : list nat -> nat;
  reset_at : nat -> list nat -> option nat
}.

(** The environment in which the CPUs get the lock in the order of their
    cohort, the pages are handed out at increasing addresses and the
    partition master never runs ahead. *)
Definition env_in_order : environment :=
  Environment (fun _ l => l) (fun l => S (list_max l)) (fun _ _ => None).

Definition upd {A : Type} (f : nat -> A) (c : nat) (v : A) : nat -> A :=
  fun x => if (x =? c)%nat then v else f x.

Definition set_part (p : partition_t) (st : hyp_state) : hyp_state :=
  HypState p (vmid_counter st) (vm_structs st) (cpu_children st) (events st)
           (ticks st).

Definition log (evs : list hyp_event) (st : hyp_state) : hyp_state :=
  HypState (part st) (vmid_counter st) (vm_structs st) (cpu_children st)
           (events st ++ evs) (ticks st).

(** [vmm_alloc_vm_struct], lines 35-42, called by CPU [c]. *)
Definition vmm_alloc_vm_struct (env : environment) (c : nat)
    (st : hyp_state) : nat * hyp_state :=
  let va := vm_page env (vm_structs st) in
  (va, HypState (part st) (vmid_counter st) (va :: vm_structs st)
                (cpu_children st) (events st ++ [EvAllocVm c va]) (ticks st)).

(** [vmm_free_vm_struct], lines 44-49: the pages are zeroed, then freed. *)
Definition vmm_free_vm_struct (vm : nat) (st : hyp_state) : hyp_state :=
  HypState (part st) (vmid_counter st)
           (List.filter (fun a => negb (a =? vm)%nat) (vm_structs st))
           (cpu_children st) (events st ++ [EvZeroVm vm; EvFreeVm vm])
           (ticks st).

(* ================================================================== *)
(** * 6. VM tree builder: [vmm_create_vms] *)
(* ================================================================== *)

(** The locals [assigned] and [master] of one CPU. *)
Record claim : Type := Claim { assigned : bool; master : bool }.

Definition claim_init : claim := Claim false false.

(** Lines 83-90, the affinity pass under the partition lock: from the
    counter [n] and the locals [k] of CPU [c] to the new ones. *)
Definition claim_affinity (vc : vm_config) (c : nat) (n : Z) (k : claim)
    : Z * claim :=
  if (n <? cpu_num vc) && affine vc c then
    (incr64 n, Claim true (if n =? 0 then true else master k))
  else (n, k).

(** Lines 98-104, the fallback pass under the partition lock. *)
Definition claim_fallback (vc : vm_config) (c : nat) (n : Z) (k : claim)
    : Z * claim :=
  if negb (assigned k) && (n <? cpu_num vc) then
    (incr64 n, Claim true (if n =? 0 then true else master k))
  else (n, k).

(** One pass: the CPUs take the lock in the given order. *)
Fixpoint claim_pass (section : vm_config -> nat -> Z -> claim -> Z * claim)
    (vc : vm_config) (order : list nat) (n : Z) (ks : nat -> claim)
    : Z * (nat -> claim) :=
  match order with
  | [] => (n, ks)
  | c :: rest =>
      let '(n', k') := section vc c n (ks c) in
      claim_pass section vc rest n' (upd ks c k')
  end.

(** The partition master [pm] can be at line 68 of the first child while
    the CPUs of [later] are still before their fallback pass: it is one of
    the cohort, it has been through its own fallback pass (it is among
    [done]), it has a slot (line 106) and the configuration has a child
    (line 111). *)
Definition runs_ahead (vc : vm_config) (pm : nat) (cohort done : list nat)
    (ks : nat -> claim) : bool :=
  existsb (fun c => (c =? pm)%nat) cohort &&
  existsb (fun c => (c =? pm)%nat) done &&
  assigned (ks pm) &&
  match children vc with [] => false | _ :: _ => true end.

(** Lines 80-104: both passes of a cohort, with the barrier between them,
    from the counter value [n0].  Round [t] of the lock is the affinity
    pass, round [t+1] the fallback pass.  Where the environment lets the
    partition master [pm] run ahead, the CPUs that come to the fallback
    pass after its reset of line 68 find the counter at 0.  The result is
    the counter, the locals of the CPUs, and whether the reset of the next
    level has taken place. *)
Definition level_claim (env : environment) (vc : vm_config) (pm : nat)
    (cohort : list nat) (t : nat) (n0 : Z) : Z * (nat -> claim) * bool :=
  let '(n1, ks1) :=
    claim_pass claim_affinity vc (lock_order env t cohort) n0
               (fun _ => claim_init) in
  let order := lock_order env (S t) cohort in
  match reset_at env (S t) cohort with
  | None =>
      (claim_pass claim_fallback vc order n1 ks1, false)
  | Some k =>
      let '(n2, ks2) := claim_pass claim_fallback vc (firstn k order) n1 ks1 in
      if runs_ahead vc pm cohort (firstn k order) ks2 then
        (claim_pass claim_fallback vc (skipn k order) 0 ks2, true)
      else
        (claim_pass claim_fallback vc (skipn k order) n2 ks2, false)
  end.

(** Lines 66-69 for every CPU of the cohort: the partition master
    allocates the VM struct and resets the counter, unless it has done so
    while the level before was still claiming: then the counter holds the
    claims made since. *)
Definition level_enter (env : environment) (vc : vm_config) (nested : bool)
    (cohort : list nat) (st : hyp_state) : hyp_state :=
  let st1 := log (map (fun c => EvEnter c vc nested) cohort) st in
  if existsb (fun c => (c =? part_master (part st1))%nat) cohort then
    let '(va, st2) := vmm_alloc_vm_struct env (part_master (part st1)) st1 in
    let p := part st2 in
    set_part (Partition (part_master p) va
                        (if reset_ahead p then init_ncpus p else 0)
                        (nodes p) false) st2
  else st1.

(** [size_t vm_id = -1] *)
Definition NO_VMID : Z := U64 - 1.

(** Lines 107-110 for the CPUs that claimed a slot: the level-master gets
    a VMID, every CPU calls [vm_init]. *)
Fixpoint level_vm_init (vc : vm_config) (vm : nat) (ks : nat -> claim)
    (team : list nat) (st : hyp_state) : hyp_state :=
  match team with
  | [] => st
  | c :: rest =>
      if master (ks c) then
        let '(vmid, id') := vmm_alloc_vmid (vmid_counter st) in
        level_vm_init vc vm ks rest
          (HypState (part st) id' (vm_structs st) (cpu_children st)
                    (events st ++ [EvVmInit c vm vc true vmid]) (ticks st))
      else
        level_vm_init vc vm ks rest (log [EvVmInit c vm vc false NO_VMID] st)
  end.

(** Lines 114-119 for every CPU back from the recursive call: a CPU whose
    call returned a virtual CPU takes a node from the pool and pushes it on
    the child list of its own virtual CPU ([lists c]).  A CPU that gets no
    node writes through a null pointer: the run has no result. *)
Fixpoint record_children (vm : nat) (rs : list (nat * option vcpu))
    (lists : nat -> list node_data) (st : hyp_state)
    : option ((nat -> list node_data) * hyp_state) :=
  match rs with
  | [] => Some (lists, st)
  | (c, None) :: rest => record_children vm rest lists st
  | (c, Some child) :: rest =>
      match objcache_alloc (nodes (part st)) with
      | None => None
      | Some (slot, oc) =>
          let p := part st in
          record_children vm rest
            (upd lists c (list_push (lists c) (slot, child)))
            (log [EvListPush c vm slot (vcpu_vm child)]
               (set_part (Partition (part_master p) (curr_vm p)
                                    (init_ncpus p) oc (reset_ahead p)) st))
      end
  end.

(** Lines 111-121: the loop over [config->children], run by the CPUs of
    [team]; [rec] is [vmm_create_vms]. *)
Definition children_loop
    (rec : vm_config -> bool -> list nat -> hyp_state ->
           option (list (nat * option vcpu) * hyp_state))
    (vm : nat) (team : list nat)
    : list vm_config -> (nat -> list node_data) -> hyp_state ->
      option ((nat -> list node_data) * hyp_state) :=
  fix loop kids lists st :=
    match kids with
    | [] => Some (lists, st)
    | kid :: rest =>
        match rec kid true team st with
        | None => None
        | Some (rs, st1) =>
            match record_children vm rs lists st1 with
            | None => None
            | Some (lists', st2) => loop rest lists' st2
            end
        end
    end.

(** The counter as the two passes leave it, with [ahead] telling whether
    the reset of the next level is part of it; [dt] lock rounds have
    passed. *)
Definition set_ncpus (n : Z) (ahead : bool) (dt : nat) (st : hyp_state)
    : hyp_state :=
  let p := part st in
  HypState (Partition (part_master p) (curr_vm p) n (nodes p) ahead)
           (vmid_counter st) (vm_structs st) (cpu_children st) (events st)
           (ticks st + dt).

(** [vmm_create_vms(config, parent)] run by the CPUs of [cohort], which
    call it together: for each of them, the virtual CPU it returns (or
    NULL).  [nested] says whether [parent] is non-null. *)
Fixpoint vmm_create_vms (env : environment) (config : vm_config)
    (nested : bool) (cohort : list nat) (st : hyp_state)
    : option (list (nat * option vcpu) * hyp_state) :=
  match config with
  | VmConfig _ _ kids =>
      let st1 := level_enter env config nested cohort st in
      let vm := curr_vm (part st1) in
      let '(n, ks, ahead) :=
        level_claim env config (part_master (part st1)) cohort (ticks st1)
                    (init_ncpus (part st1)) in
      let st2 := set_ncpus n ahead 2 st1 in
      let team := List.filter (fun c => assigned (ks c)) cohort in
      let st3 := level_vm_init config vm ks team st2 in
      match children_loop (vmm_create_vms env) vm team kids (fun _ => []) st3
      with
      | None => None
      | Some (lists, st4) =>
          Some (map (fun c => (c, if assigned (ks c)
                                  then Some (Vcpu vm c (lists c))
                                  else None)) cohort,
                st4)
      end
  end.

(** The partition as [vmm_init] leaves it for master CPU [m]: zeroed, with
    [partition->master = m] and an initialised pool. *)
Definition hyp_init (m : nat) (pool : list nat) : hyp_state :=
  HypState (Partition m 0 0 (ObjCache pool) false) vmid_init [] (fun _ => [])
           [] 0.

(** Number of configuration nodes and edges of a configuration tree. *)
Fixpoint config_nodes (vc : vm_config) : nat :=
  match vc with
  | VmConfig _ _ kids => S (list_sum (map config_nodes kids))
  end.

Definition config_edges (vc : vm_config) : nat := pred (config_nodes vc).

(** Number of child-relationship nodes in the lists of a virtual CPU and
    of its descendants. *)
Fixpoint vcpu_nodes (v : vcpu) : nat :=
  match v with
  | Vcpu _ _ ns => list_sum (map (fun n => S (vcpu_nodes (snd n))) ns)
  end.

(* ================================================================== *)
(** * 7. Dynamic VM manager *)
(* ================================================================== *)

(** [vmm_init_dynamic], lines 127-143, called on CPU [c]: the new VM, or no
    result when the pool has no node (the null node is written through). *)
Definition vmm_init_dynamic (env : environment) (c : nat) (st : hyp_state)
    : option (nat * hyp_state) :=
  let '(vm, st1) := vmm_alloc_vm_struct env c st in
  let '(vmid, id') := vmm_alloc_vmid (vmid_counter st1) in
  match objcache_alloc (nodes (part st1)) with
  | None => None
  | Some (slot, oc) =>
      let p := part st1 in
      let child := Vcpu vm c [] in          (* vm_get_vcpu(vm, 0) *)
      Some (vm,
            HypState (Partition (part_master p) (curr_vm p) (init_ncpus p) oc
                                (reset_ahead p))
                     id' (vm_structs st1)
                     (upd (cpu_children st1) c
                          (list_push (cpu_children st1 c) (slot, child)))
                     (events st1 ++ [EvVmInitDynamic c vm vmid])
                     (ticks st1))
  end.

(** Modelled from the spec: the loop of lines 147-154 is a [list_foreach],
    defined in [list.h], which is not part of the sources.  [todo] are the
    nodes still to visit, [l] is the list as it is now, [oc] the pool.  The
    body unlinks and frees the node it is visiting, and the loop has no
    [break]: where it would go on from is read from the node just unlinked
    and given back to the pool.  The spec says that the scan removes and
    frees exactly that one node: the scan ends with the first node that
    refers to [vm]. *)
Fixpoint destroy_scan (vm : nat) (todo l : list node_data) (oc : objcache)
    : list node_data * objcache :=
  match todo with
  | [] => (l, oc)
  | n :: rest =>
      if (vcpu_vm (snd n) =? vm)%nat then
        (list_rm l (fst n), objcache_free oc (fst n))
      else destroy_scan vm rest l oc
  end.

(** [vmm_destroy_dynamic], lines 145-158, called on CPU [c]. *)
Definition vmm_destroy_dynamic (c : nat) (vm : nat) (st : hyp_state)
    : hyp_state :=
  let p := part st in
  let '(l, oc) := destroy_scan vm (cpu_children st c) (cpu_children st c)
                               (nodes p) in
  vmm_free_vm_struct vm
    (HypState (Partition (part_master p) (curr_vm p) (init_ncpus p) oc
                         (reset_ahead p))
              (vmid_counter st) (vm_structs st) (upd (cpu_children st) c l)
              (events st ++ [EvVmDestroyDynamic vm]) (ticks st)).

(** Number of nodes of a list whose virtual CPU belongs to [vm]. *)
Definition refs_to (vm : nat) (l : list node_data) : nat :=
  length (List.filter (fun n => (vcpu_vm (snd n) =? vm)%nat) l).

(* ================================================================== *)
(** * 8'. Vocabulary for the properties of the tree builder *)
(* ================================================================== *)

(** The CPU that issued a call. *)
Definition event_cpu (ev : hyp_event) : option nat :=
  match ev with
  | EvEnter c _ _ | EvAllocVm c _ | EvVmInit c _ _ _ _ | EvListPush c _ _ _
  | EvVmInitDynamic c _ _ => Some c
  | _ => None
  end.

Definition is_alloc (ev : hyp_event) : bool :=
  match ev with EvAllocVm _ _ => true | _ => false end.

(** [vm_init] called with [master = true]: the VM is initialised. *)
Definition is_master_init (ev : hyp_event) : bool :=
  match ev with EvVmInit _ _ _ true _ => true | _ => false end.

Definition is_push (ev : hyp_event) : bool :=
  match ev with EvListPush _ _ _ _ => true | _ => false end.

Definition count_events (f : hyp_event -> bool) (evs : list hyp_event) : nat :=
  length (List.filter f evs).

(** Every virtual CPU of the tree under [v] runs on CPU [c]. *)
Inductive owned_by (c : nat) : vcpu -> Prop :=
| OwnedBy vm nodes :
    Forall (fun n => owned_by c (snd n)) nodes ->
    owned_by c (Vcpu vm c nodes).

(** The second list goes with a part of the first, in order, under
    [R]. *)
Inductive covers {A B : Type} (R : A -> B -> Prop)
    : list A -> list B -> Prop :=
| covers_nil : covers R [] []
| covers_take a l b m :
    R a b -> covers R l m -> covers R (a :: l) (b :: m)
| covers_skip a l m :
    covers R l m -> covers R (a :: l) m.

(** The child lists under [v] record edges of the configuration tree, in
    the order of the configuration and each at most once. *)
Inductive records : vm_config -> vcpu -> Prop :=
| Records a n kids vm c nodes :
    covers records kids (map snd nodes) ->
    records (VmConfig a n kids) (Vcpu vm c nodes).

(** The number of CPUs that a VM takes from a cohort of [k] CPUs. *)
Definition vm_width (k : nat) (vc : vm_config) : nat :=
  Nat.min k (Z.to_nat (cpu_num vc)).

(** For each edge of the configuration tree, the number of CPUs that its
    child VM takes, the tree being built by a cohort of [k] CPUs: the
    children of a VM are built by the CPUs that the VM has taken. *)
Fixpoint edge_nodes (k : nat) (vc : vm_config) : nat :=
  match vc with
  | VmConfig _ n kids =>
      list_sum (map (fun kid =>
                       (vm_width (Nat.min k (Z.to_nat n)) kid
                        + edge_nodes (Nat.min k (Z.to_nat n)) kid)%nat)
                    kids)
  end.

(** The number of CPUs of [cs] with affinity to the VM. *)
Definition naffine (vc : vm_config) (cs : list nat) : nat :=
  length (List.filter (affine vc) cs).

(** A configuration tree that [k] CPUs out of [cs], the partition master
    [pm] among them, build whole whichever they are and in whichever order
    they get the lock: every VM requires a CPU, and a VM with children is
    sure to take the partition master, either because it takes all the
    CPUs that reach it or because the partition master has affinity to it
    and it can take all the CPUs that have (the counts are [size_t]). *)
Inductive builds (pm : nat) (cs : list nat) : nat -> vm_config -> Prop :=
| Builds k a n kids :
    1 <= n < U64 ->
    (kids <> [] ->
     Z.of_nat k <= n
     \/ (affine (VmConfig a n kids) pm = true
         /\ Z.of_nat (naffine (VmConfig a n kids) cs) <= n)) ->
    Forall (builds pm cs (Nat.min k (Z.to_nat n))) kids ->
    builds pm cs k (VmConfig a n kids).

(* ================================================================== *)
(** * 8. Properties of the VMID allocator *)
(* ================================================================== *)

Section VmidAllocator.

Lemma incr64_small (x : Z) : 0 <= x -> x + 1 < U64 -> incr64 x = x + 1.
Proof. intros H0 H1. unfold incr64. apply Z.mod_small. lia. Qed.

Lemma vmm_alloc_vmid_small (id : Z) :
  0 <= id -> id + 1 < U64 -> vmm_alloc_vmid id = (id + 1, id + 1).
Proof.
  intros H0 H1. unfold vmm_alloc_vmid. now rewrite incr64_small.
Qed.

(** The identifiers of a sequence of calls lie above the counter the
    sequence started from, in increasing order. *)
Lemma vmid_calls_range (callers : list nat) :
  forall id, 0 <= id -> id + Z.of_nat (length callers) < U64 ->
    let ids := fst (vmid_calls callers id) in
    Forall (fun v => id < v <= id + Z.of_nat (length callers)) ids
    /\ increasing ids
    /\ snd (vmid_calls callers id) = id + Z.of_nat (length callers).
Proof.
  induction callers as [|c rest IH]; intros id H0 Hlen; cbn [vmid_calls].
  - cbn. repeat split; [constructor | lia].
  - cbn [length] in Hlen.
    rewrite Nat2Z.inj_succ in Hlen.
    rewrite vmm_alloc_vmid_small by lia.
    destruct (IH (id + 1)) as (Hall & Hinc & Hsnd); [lia | lia |].
    destruct (vmid_calls rest (id + 1)) as [vmids id2] eqn:E.
    cbn [fst snd] in *. repeat split.
    + cbn [length]. rewrite Nat2Z.inj_succ. constructor; [lia |].
      eapply List.Forall_impl; [| exact Hall]. cbn beta. intros v Hv. lia.
    + destruct vmids as [|y ys]; [trivial |].
      apply Forall_cons in Hall. cbn in Hall. lia.
    + exact Hinc.
    + cbn [length]. rewrite Nat2Z.inj_succ. lia.
Qed.

Lemma increasing_lower_bound (l : list Z) (x : Z) :
  increasing (x :: l) -> Forall (fun v => x < v) l.
Proof.
  revert x. induction l as [|y l IH]; intros x H; [constructor |].
  destruct H as [Hxy Hrest]. constructor; [exact Hxy |].
  eapply List.Forall_impl; [| apply (IH y Hrest)]. cbn. intros; lia.
Qed.

Lemma increasing_NoDup (l : list Z) : increasing l -> List.NoDup l.
Proof.
  induction l as [|x l IH]; intros H; [constructor |].
  constructor.
  - intros Hin. apply increasing_lower_bound in H.
    rewrite List.Forall_forall in H. specialize (H x Hin). lia.
  - apply IH. destruct H as [_ H]. exact H.
Qed.

End VmidAllocator.

(** C6.  Any sequence of calls of [vmm_alloc_vmid], from whichever CPUs,
    that is shorter than 2^64 calls returns identifiers that are pairwise
    distinct, strictly increasing in issue order and never zero, and the
    first identifier ever issued is 1. *)
Theorem vmid_distinct_increasing_nonzero (callers : list nat) :
  Z.of_nat (length callers) < U64 ->
  let ids := fst (vmid_calls callers vmid_init) in
  List.NoDup ids
  /\ increasing ids
  /\ Forall (fun v => v <> 0) ids
  /\ (callers <> [] -> head ids = Some 1).
Proof.
  intros Hlen ids.
  destruct (vmid_calls_range callers vmid_init) as (Hall & Hinc & _);
    [unfold vmid_init; lia | unfold vmid_init; lia |].
  fold ids in Hall, Hinc. repeat split.
  - now apply increasing_NoDup.
  - exact Hinc.
  - eapply List.Forall_impl; [| exact Hall]. unfold vmid_init. cbn. intros; lia.
  - intros Hne. subst ids. destruct callers as [|c rest]; [congruence |].
    cbn [vmid_calls]. rewrite vmm_alloc_vmid_small by (unfold vmid_init, U64; lia).
    destruct (vmid_calls rest (vmid_init + 1)). reflexivity.
Qed.

Lemma vmid_distinct_increasing_nonzero_witness :
  let ids := fst (vmid_calls [0; 3; 1; 0]%nat vmid_init) in
  ids = [1; 2; 3; 4]
  /\ List.NoDup ids /\ increasing ids /\ Forall (fun v => v <> 0) ids
  /\ ([0; 3; 1; 0]%nat <> [] -> head ids = Some 1).
Proof.
  split; [reflexivity |].
  apply (vmid_distinct_increasing_nonzero [0; 3; 1; 0]%nat).
  vm_compute. reflexivity.
Defined.

(* ================================================================== *)
(** * 9. The steps of [vmm_init] as a transition relation *)
(* ================================================================== *)

Section BootTransitions.

Variable cfg : config.
Variable pf : platform.

Local Abbreviation N := (vmlist_size cfg).

(** A CPU with state [l]: new program point, page-table entry and
    emitted calls, the locals [master], [assigned], [vm_id] kept. *)
Definition moved (l : cpu_state) (p : pc_t) (pte : Z)
    (evs : list boot_event) : cpu_state :=
  CpuState p (l_master l) (l_assigned l) (l_vm_id l) pte (l_trace l ++ evs).

(** The steps that touch neither the assignment table nor the locals
    [master], [assigned] and [vm_id]. *)
Inductive local_move (c : nat) (tbl : list vm_assignment)
    (cs : list cpu_state) (l : cpu_state)
    : pc_t -> Z -> list boot_event -> Prop :=
| M_idle0 :
    pc l = PcStart -> N = 0%nat ->
    local_move c tbl cs l PcIdle (l_pte l)
      ((if (c =? CPU_MASTER pf)%nat then [EvInfoNoVms] else []) ++ [EvIdle])
| M_error :
    pc l = PcStart -> N <> 0%nat -> c = CPU_MASTER pf ->
    table_alloc_ok pf = false ->
    local_move c tbl cs l PcError (l_pte l)
      [EvArchInit; EvIommuInit; EvErrorNoTable]
| M_start :
    pc l = PcStart -> N <> 0%nat -> c <> CPU_MASTER pf ->
    local_move c tbl cs l PcBarrier1 (l_pte l) [EvArchInit]
| M_barrier1 :
    pc l = PcBarrier1 -> all_arrived 1 cs = true ->
    local_move c tbl cs l (PcPass1 0) (l_pte l) []
| M_pass1_next i :
    pc l = PcPass1 i -> l_assigned l = false ->
    local_move c tbl cs l (PcPass1 (S i)) (l_pte l) []
| M_pass1_done i :
    pc l = PcPass1 i ->
    local_move c tbl cs l PcBarrier2 (l_pte l) []
| M_barrier2 :
    pc l = PcBarrier2 -> all_arrived 3 cs = true ->
    local_move c tbl cs l (if l_assigned l then PcBarrier3 else PcPass2 0)
      (l_pte l) []
| M_pass2_next i :
    pc l = PcPass2 i -> l_assigned l = false ->
    local_move c tbl cs l (PcPass2 (S i)) (l_pte l) []
| M_pass2_done i :
    pc l = PcPass2 i ->
    local_move c tbl cs l PcBarrier3 (l_pte l) []
| M_barrier3 :
    pc l = PcBarrier3 -> all_arrived 5 cs = true ->
    local_move c tbl cs l
      (if l_assigned l then if l_master l then PcPublish else PcSpin
       else PcBarrier4)
      (l_pte l) []
| M_publish_none :
    pc l = PcPublish -> tbl !! l_vm_id l = None ->
    local_move c tbl cs l PcBarrier4 (l_pte l) []
| M_spin_exit :
    pc l = PcSpin -> shared_table tbl (l_vm_id l) <> 0 ->
    local_move c tbl cs l PcInstall (l_pte l) []
| M_install :
    pc l = PcInstall ->
    local_move c tbl cs l PcBarrier4 (shared_table tbl (l_vm_id l))
      [EvPteInstall (shared_table tbl (l_vm_id l))]
| M_barrier4 :
    pc l = PcBarrier4 -> all_arrived 7 cs = true ->
    local_move c tbl cs l PcTail (l_pte l) []
| M_tail_run :
    pc l = PcTail -> l_assigned l = true ->
    local_move c tbl cs l PcCreateVms (l_pte l)
      ((if (c =? CPU_MASTER pf)%nat then [EvTableFree] else [])
       ++ [EvIpcInit (Some (l_vm_id l)) (l_master l)])
| M_tail_idle :
    pc l = PcTail -> l_assigned l = false ->
    local_move c tbl cs l PcIdle (l_pte l)
      ((if (c =? CPU_MASTER pf)%nat then [EvTableFree] else [])
       ++ [EvIpcInit None (l_master l); EvIdle])
| M_create :
    pc l = PcCreateVms ->
    local_move c tbl cs l PcRun (l_pte l)
      [EvCreateVms (l_vm_id l); EvVcpuRun].

(** The loop head of a pass at index [i]. *)
Inductive pass_head (vc : vm_config) (c : nat) (e : vm_assignment)
    : pc_t -> (nat -> pc_t) -> Prop :=
| PH_affinity i :
    affine vc c = true -> pass_head vc c e (PcPass1 i) PcPass1
| PH_fallback i :
    va_ncpus e < cpu_num vc -> pass_head vc c e (PcPass2 i) PcPass2.

Definition head_index (p : pc_t) : nat :=
  match p with PcPass1 i => i | PcPass2 i => i | _ => 0%nat end.

(** One step of CPU [c]. *)
Inductive boot_trans (c : nat) (tbl : list vm_assignment)
    (cs : list cpu_state) (l : cpu_state)
    : list vm_assignment -> cpu_state -> Prop :=
| BT_stay : boot_trans c tbl cs l tbl l
| BT_move p pte evs :
    local_move c tbl cs l p pte evs ->
    boot_trans c tbl cs l tbl (moved l p pte evs)
| BT_reset :
    pc l = PcStart -> N <> 0%nat -> c = CPU_MASTER pf ->
    boot_trans c tbl cs l (replicate N va_zero)
      (moved l PcBarrier1 (l_pte l) [EvArchInit; EvIommuInit])
| BT_claim_master vc e here :
    pass_head vc c e (pc l) here ->
    l_assigned l = false ->
    vmlist cfg !! head_index (pc l) = Some vc ->
    tbl !! head_index (pc l) = Some e ->
    va_master e = false ->
    boot_trans c tbl cs l
      (<[head_index (pc l) := va_claim true c e]> tbl)
      (set_pc (here (S (head_index (pc l))))
              (claim_master (head_index (pc l)) l))
| BT_claim_slot vc e here :
    (pc l = PcPass1 (head_index (pc l)) /\ here = PcPass1
     \/ pc l = PcPass2 (head_index (pc l)) /\ here = PcPass2) ->
    l_assigned l = false ->
    vmlist cfg !! head_index (pc l) = Some vc ->
    tbl !! head_index (pc l) = Some e ->
    va_master e = true ->
    va_ncpus e < cpu_num vc ->
    boot_trans c tbl cs l
      (<[head_index (pc l) := va_claim true c e]> tbl)
      (set_pc (here (S (head_index (pc l))))
              (claim_slot (head_index (pc l)) l))
| BT_publish e :
    pc l = PcPublish ->
    tbl !! l_vm_id l = Some e ->
    boot_trans c tbl cs l
      (<[l_vm_id l := VmAssign (va_master e) (va_ncpus e) (va_cpus e)
                               (mapped_pte pf c)]> tbl)
      (moved l PcBarrier4 (mapped_pte pf c)
             [EvPartitionInit (va_ncpus e)]).

Lemma moved_nil (l : cpu_state) (p : pc_t) :
  set_pc p l = moved l p (l_pte l) [].
Proof. unfold set_pc, moved. now rewrite app_nil_r. Qed.

Lemma moved_emit (l : cpu_state) (p : pc_t) (evs : list boot_event) :
  set_pc p (emit evs l) = moved l p (l_pte l) evs.
Proof. reflexivity. Qed.

(** The step function takes the steps of the relation. *)
Lemma cpu_step_trans (c : nat) (tbl : list vm_assignment)
    (cs : list cpu_state) (l : cpu_state) :
  boot_trans c tbl cs l (cpu_step cfg pf c tbl cs l).1
                        (cpu_step cfg pf c tbl cs l).2.
Proof.
  unfold cpu_step.
  destruct (pc l) eqn:Hpc; cbn [fst snd].
  - (* PcStart *)
    destruct (N =? 0)%nat eqn:HN.
    + apply Nat.eqb_eq in HN. cbn [fst snd]. rewrite moved_emit.
      apply BT_move. now apply M_idle0.
    + apply Nat.eqb_neq in HN.
      destruct (c =? CPU_MASTER pf)%nat eqn:Hc.
      * apply Nat.eqb_eq in Hc.
        destruct (table_alloc_ok pf) eqn:Hok; cbn [fst snd];
          rewrite moved_emit.
        -- now apply BT_reset.
        -- apply BT_move. now apply M_error.
      * apply Nat.eqb_neq in Hc. cbn [fst snd]. rewrite moved_emit.
        apply BT_move. now apply M_start.
  - destruct (all_arrived 1 cs) eqn:Hb; cbn [fst snd]; [| apply BT_stay].
    rewrite moved_nil. apply BT_move. now apply M_barrier1.
  - (* PcPass1 *)
    unfold pass_iter.
    destruct ((i <? N)%nat && negb (l_assigned l)) eqn:Hloop; cbn [fst snd].
    2:{ rewrite moved_nil. apply BT_move. now apply (M_pass1_done _ _ _ _ i). }
    apply andb_prop in Hloop as [Hi Hna]. apply negb_true_iff in Hna.
    assert (Hnext : boot_trans c tbl cs l tbl (set_pc (PcPass1 (S i)) l)).
    { rewrite moved_nil. apply BT_move. now apply M_pass1_next. }
    destruct (vmlist cfg !! i) as [vc|] eqn:Hvc; [| exact Hnext].
    destruct (tbl !! i) as [e|] eqn:He; [| exact Hnext].
    destruct (affine vc c) eqn:Haff; [| exact Hnext].
    unfold pass1_section.
    destruct (va_master e) eqn:Hm; cbn [negb fst snd].
    + destruct (va_ncpus e <? cpu_num vc) eqn:Hcap; cbn [fst snd];
        [| rewrite (list_insert_id tbl i e He); exact Hnext].
      apply Z.ltb_lt in Hcap.
      pose proof (BT_claim_slot c tbl cs l vc e PcPass1) as H.
      rewrite Hpc in H. cbn [head_index] in H. apply H; auto.
    + pose proof (BT_claim_master c tbl cs l vc e PcPass1) as H.
      rewrite Hpc in H. cbn [head_index] in H. apply H; auto.
      now apply PH_affinity.
  - destruct (all_arrived 3 cs) eqn:Hb; cbn [fst snd]; [| apply BT_stay].
    rewrite moved_nil. apply BT_move. now apply M_barrier2.
  - (* PcPass2 *)
    unfold pass_iter.
    destruct ((i <? N)%nat && negb (l_assigned l)) eqn:Hloop; cbn [fst snd].
    2:{ rewrite moved_nil. apply BT_move. now apply (M_pass2_done _ _ _ _ i). }
    apply andb_prop in Hloop as [Hi Hna]. apply negb_true_iff in Hna.
    assert (Hnext : boot_trans c tbl cs l tbl (set_pc (PcPass2 (S i)) l)).
    { rewrite moved_nil. apply BT_move. now apply M_pass2_next. }
    destruct (vmlist cfg !! i) as [vc|] eqn:Hvc; [| exact Hnext].
    destruct (tbl !! i) as [e|] eqn:He; [| exact Hnext].
    unfold pass2_section.
    destruct (va_ncpus e <? cpu_num vc) eqn:Hcap; cbn [fst snd];
      [| rewrite (list_insert_id tbl i e He); exact Hnext].
    apply Z.ltb_lt in Hcap.
    destruct (va_master e) eqn:Hm; cbn [negb fst snd].
    + pose proof (BT_claim_slot c tbl cs l vc e PcPass2) as H.
      rewrite Hpc in H. cbn [head_index] in H. apply H; auto.
    + pose proof (BT_claim_master c tbl cs l vc e PcPass2) as H.
      rewrite Hpc in H. cbn [head_index] in H. apply H; auto.
      now apply PH_fallback.
  - destruct (all_arrived 5 cs) eqn:Hb; cbn [fst snd]; [| apply BT_stay].
    rewrite moved_nil. apply BT_move. now apply M_barrier3.
  - (* PcPublish *)
    unfold publish. destruct (tbl !! l_vm_id l) as [e|] eqn:He; cbn [fst snd].
    + now apply BT_publish.
    + rewrite moved_nil. apply BT_move. now apply M_publish_none.
  - destruct (shared_table tbl (l_vm_id l) =? 0) eqn:Hz; cbn [fst snd];
      [apply BT_stay |].
    apply Z.eqb_neq in Hz. rewrite moved_nil. apply BT_move.
    now apply M_spin_exit.
  - apply (BT_move c tbl cs l PcBarrier4). now apply M_install.
  - destruct (all_arrived 7 cs) eqn:Hb; cbn [fst snd]; [| apply BT_stay].
    rewrite moved_nil. apply BT_move. now apply M_barrier4.
  - destruct (l_assigned l) eqn:Ha; cbn [fst snd]; rewrite moved_emit;
      apply BT_move.
    + now apply M_tail_run.
    + now apply M_tail_idle.
  - rewrite moved_emit. apply BT_move. now apply M_create.
  - apply BT_stay.
  - apply BT_stay.
  - apply BT_stay.
Qed.

End BootTransitions.

(* ================================================================== *)
(** * 10. Invariants of the boot protocol *)
(* ================================================================== *)

(** Calls that only a CPU with an assignment issues. *)
Definition boot_activity (ev : boot_event) : Prop :=
  match ev with
  | EvPartitionInit _ | EvPteInstall _ | EvCreateVms _ | EvVcpuRun => True
  | _ => False
  end.

Section BootInvariants.

Variable cfg : config.
Variable pf : platform.

Local Abbreviation N := (vmlist_size cfg).

(** What holds of one entry of the assignment table. *)
Definition entry_ok (vc : vm_config) (e : vm_assignment) : Prop :=
  0 <= va_ncpus e
  /\ (va_master e = false -> va_ncpus e = 0)
  /\ va_ncpus e <= Z.max (cpu_num vc) 1.

(** What holds of one CPU, whatever the others do. *)
Record cpu_ok (c : nat) (l : cpu_state) : Prop := CpuOk {
  ok_master : l_master l = true -> l_assigned l = true;
  ok_publish : pc l = PcPublish -> l_assigned l = true /\ l_master l = true;
  ok_follow : pc l = PcSpin \/ pc l = PcInstall ->
              l_assigned l = true /\ l_master l = false;
  ok_run : pc l = PcCreateVms \/ pc l = PcRun -> l_assigned l = true;
  ok_idle : pc l = PcIdle -> N = 0%nat \/ l_assigned l = false;
  ok_error : pc l = PcError ->
             c = CPU_MASTER pf /\ table_alloc_ok pf = false /\ N <> 0%nat;
  ok_trace : forall ev, In ev (l_trace l) -> boot_activity ev ->
             l_assigned l = true;
  ok_claimed : l_assigned l = true ->
               (2 <= phase (pc l))%nat /\ (l_vm_id l < N)%nat;
  ok_novms : N = 0%nat ->
             (pc l = PcStart /\ l_trace l = [])
             \/ (pc l = PcIdle /\
                 forall ev, In ev (l_trace l) ->
                            ev = EvIdle \/ ev = EvInfoNoVms)
}.

Record boot_inv (s : boot_state) : Prop := BootInv {
  inv_cpu : forall c l, cpus s !! c = Some l -> cpu_ok c l;
  inv_size : table s = [] \/ length (table s) = N;
  inv_start : forall lm, cpus s !! CPU_MASTER pf = Some lm ->
              pc lm = PcStart -> table s = [];
  inv_empty : table s = [] ->
              forall c l, cpus s !! c = Some l -> l_assigned l = false;
  inv_entry : forall i e vc, table s !! i = Some e ->
              vmlist cfg !! i = Some vc -> entry_ok vc e;
  inv_claimed : forall c l, cpus s !! c = Some l -> l_assigned l = true ->
                master_at s (l_vm_id l) = true;
  inv_unique : forall c1 c2 l1 l2,
               cpus s !! c1 = Some l1 -> cpus s !! c2 = Some l2 ->
               l_master l1 = true -> l_master l2 = true ->
               l_vm_id l1 = l_vm_id l2 -> c1 = c2;
  inv_elected : forall i, master_at s i = true ->
                exists c, is_master_of s c i;
  inv_published : forall m lm, cpus s !! m = Some lm ->
                  l_master lm = true -> (7 <= phase (pc lm))%nat ->
                  shared_table (table s) (l_vm_id lm) = mapped_pte pf m;
  inv_shared : forall i, shared_table (table s) i <> 0 ->
               exists m lm, cpus s !! m = Some lm /\ l_master lm = true
                            /\ l_vm_id lm = i /\ (7 <= phase (pc lm))%nat;
  inv_install : forall c l, cpus s !! c = Some l -> pc l = PcInstall ->
                shared_table (table s) (l_vm_id l) <> 0;
  inv_follower : forall c l, cpus s !! c = Some l ->
                 l_assigned l = true -> l_master l = false ->
                 (7 <= phase (pc l))%nat ->
                 l_pte l = shared_table (table s) (l_vm_id l)
                 /\ l_pte l <> 0
}.

Lemma lookup_upd {A : Type} (cs : list A) (c c0 : nat) (l' l0 : A) :
  <[c := l']> cs !! c0 = Some l0 ->
  (c0 = c /\ l0 = l') \/ (c0 <> c /\ cs !! c0 = Some l0).
Proof.
  intros H. apply list_lookup_insert_Some in H.
  destruct H as [(-> & -> & _) | (Hne & H)]; [left | right]; auto.
Qed.

Lemma lookup_upd_eq {A : Type} (cs : list A) (c : nat) (l l' : A) :
  cs !! c = Some l -> <[c := l']> cs !! c = Some l'.
Proof.
  intros H. apply list_lookup_insert_eq. now apply lookup_lt_Some in H.
Qed.

Lemma boot_init_inv (ncpu : nat) : boot_inv (boot_init ncpu).
Proof.
  assert (Hl : forall c l, replicate ncpu cpu_init !! c = Some l ->
                           l = cpu_init).
  { intros c l H. apply lookup_replicate in H. tauto. }
  split; cbn [boot_init table cpus]; unfold master_at, shared_table;
    cbn [table];
    try (intros; repeat match goal with
           | H : replicate _ _ !! _ = Some _ |- _ => apply Hl in H; subst
           | H : [] !! _ = Some _ |- _ => rewrite lookup_nil in H
           end; cbn in *; try rewrite lookup_nil in *;
         first [ discriminate | congruence | lia | tauto ]).
  intros c l H. apply Hl in H. subst l.
  split; cbn;
    try (intros; first [discriminate | tauto | intuition discriminate]).
Qed.

End BootInvariants.

Section BootPreservation.

Variable cfg : config.
Variable pf : platform.

Local Abbreviation N := (vmlist_size cfg).

Ltac split_in :=
  repeat match goal with
    | H : In _ (_ ++ _) |- _ => apply in_app_or in H; destruct H
    | H : In _ (if ?b then _ else _) |- _ => destruct b
    | H : In _ (_ :: _) |- _ => destruct H; subst
    | H : In _ [] |- _ => destruct H
    end.

Ltac crush_ok :=
  try (match goal with
       | H : pc ?l = _ |- _ =>
           rewrite H in *;
           let Ea := fresh "Ea" in
           let Em := fresh "Em" in
           destruct (l_assigned l) eqn:Ea; destruct (l_master l) eqn:Em;
           rewrite ?Ea, ?Em in *
       end);
  cbn [phase] in *; split_in; cbn [boot_activity] in *;
  rewrite ?app_nil_r in *;
  intuition (subst; try congruence; try discriminate; try lia; eauto).

Lemma cpu_ok_move (c : nat) tbl cs l p pte evs :
  cpu_ok cfg pf c l -> local_move cfg pf c tbl cs l p pte evs ->
  cpu_ok cfg pf c (moved l p pte evs).
Proof.
  intros Hok Hm. destruct Hok.
  destruct Hm; split; cbn [moved pc l_master l_assigned l_vm_id l_pte l_trace];
    intros.
  all: try solve [crush_ok].
  right. split; [reflexivity |]. intros ev Hin.
  destruct (ok_novms0 H0) as [[_ Ht] | [Hp _]]; [| congruence].
  rewrite Ht in Hin. cbn in Hin.
  destruct (c =? CPU_MASTER pf)%nat; cbn in Hin; intuition.
Qed.

Lemma cpu_ok_reset (c : nat) l :
  cpu_ok cfg pf c l -> pc l = PcStart -> N <> 0%nat ->
  cpu_ok cfg pf c (moved l PcBarrier1 (l_pte l) [EvArchInit; EvIommuInit]).
Proof.
  intros Hok Hpc HN. destruct Hok.
  split; cbn [moved pc l_master l_assigned l_vm_id l_pte l_trace]; intros;
    crush_ok.
Qed.

Lemma cpu_ok_claim (c : nat) l (m : bool) (i : nat) (here : nat -> pc_t) :
  cpu_ok cfg pf c l -> l_assigned l = false ->
  here = PcPass1 \/ here = PcPass2 -> (i < N)%nat ->
  cpu_ok cfg pf c
    (set_pc (here (S i))
            (if m then claim_master i l else claim_slot i l)).
Proof.
  intros Hok Hna Hh Hi. destruct Hok.
  assert (Hnm : l_master l = false).
  { destruct (l_master l) eqn:E; [| reflexivity].
    rewrite ok_master0 in Hna; [discriminate | reflexivity]. }
  destruct Hh as [-> | ->]; destruct m;
    split; cbn [set_pc claim_master claim_slot pc l_master l_assigned
                l_vm_id l_pte l_trace phase]; intros;
    try discriminate; try (intuition (try discriminate; try lia; fail)).
Qed.

Lemma cpu_ok_publish (c : nat) l n :
  cpu_ok cfg pf c l -> pc l = PcPublish ->
  cpu_ok cfg pf c (moved l PcBarrier4 (mapped_pte pf c) [EvPartitionInit n]).
Proof.
  intros Hok Hpc. destruct Hok.
  split; cbn [moved pc l_master l_assigned l_vm_id l_pte l_trace]; intros;
    crush_ok.
Qed.

(** Lookups in the CPU list after CPU [c] stepped. *)
Ltac upd_cases :=
  repeat match goal with
    | H : <[_ := _]> _ !! _ = Some _ |- _ =>
        apply lookup_upd in H; destruct H as [[? ?] | [? H]]; subst
    end.

Lemma assigned_in_table (s : boot_state) (c : nat) (l : cpu_state) :
  boot_inv cfg pf s -> cpus s !! c = Some l -> l_assigned l = true ->
  exists e, table s !! l_vm_id l = Some e.
Proof.
  intros Hinv Hc Ha.
  pose proof (inv_claimed _ _ _ Hinv c l Hc Ha) as Hm.
  unfold master_at in Hm. destruct (table s !! l_vm_id l); [eauto | discriminate].
Qed.

Lemma move_mono (c : nat) tbl cs l p pte evs :
  local_move cfg pf c tbl cs l p pte evs -> (phase (pc l) <= phase p)%nat.
Proof.
  intros Hm. destruct Hm;
    match goal with H : pc _ = _ |- _ => rewrite H end; cbn;
    try destruct (l_assigned l); try destruct (l_master l); cbn; lia.
Qed.

Lemma move_install (c : nat) tbl cs l p pte evs :
  local_move cfg pf c tbl cs l p pte evs -> p = PcInstall ->
  shared_table tbl (l_vm_id l) <> 0.
Proof.
  intros Hm Hp. destruct Hm; try discriminate; try assumption;
    destruct (l_assigned l); try destruct (l_master l); discriminate.
Qed.

(** How a CPU gets behind the fourth barrier. *)
Lemma move_late (c : nat) tbl cs l p pte evs :
  cpu_ok cfg pf c l -> local_move cfg pf c tbl cs l p pte evs ->
  (7 <= phase p)%nat ->
  ((7 <= phase (pc l))%nat /\ pte = l_pte l)
  \/ (pc l = PcInstall /\ pte = shared_table tbl (l_vm_id l))
  \/ l_assigned l = false
  \/ (pc l = PcPublish /\ tbl !! l_vm_id l = None).
Proof.
  intros Hok Hm Hp. destruct Hok.
  destruct Hm;
    match goal with H : pc _ = _ |- _ => rewrite H in * end;
    destruct (l_assigned l) eqn:Ea; try destruct (l_master l) eqn:Em;
    cbn [phase] in *; try lia; auto;
    try (left; split; [lia | reflexivity]).
  all: destruct ok_claimed0; [reflexivity | lia].
Qed.

Lemma boot_inv_move (s : boot_state) (c : nat) l p pte evs :
  boot_inv cfg pf s -> cpus s !! c = Some l ->
  local_move cfg pf c (table s) (cpus s) l p pte evs ->
  boot_inv cfg pf (BootState (table s) (<[c := moved l p pte evs]> (cpus s))).
Proof.
  intros Hinv Hc Hm.
  pose proof (inv_cpu _ _ _ Hinv c l Hc) as Hok.
  pose proof (cpu_ok_move c _ _ _ _ _ _ Hok Hm) as Hok'.
  split; unfold master_at, is_master_of in *; cbn [table cpus].
  2: apply (inv_size _ _ _ Hinv).
  4: intros; eapply inv_entry; eauto.
  5:{ intros c1 c2 l1 l2 H1 H2 Hm1 Hm2 Hv.
      apply lookup_upd in H1, H2.
      destruct H1 as [[-> ->] | [Hn1 H1]], H2 as [[-> ->] | [Hn2 H2]];
        cbn in *; try reflexivity.
      - eapply (inv_unique _ _ _ Hinv c c2); eauto.
      - eapply (inv_unique _ _ _ Hinv c1 c); eauto.
      - eapply inv_unique; eauto. }
  all: intros.
  - upd_cases; [exact Hok' | eapply inv_cpu; eauto].
  - upd_cases.
    + exfalso. destruct Hm; cbn in *; try discriminate;
        destruct (l_assigned l); try destruct (l_master l); discriminate.
    + eapply inv_start; eauto.
  - upd_cases; cbn; eapply inv_empty; eauto.
  - upd_cases; [apply (inv_claimed _ _ _ Hinv c l Hc) | eapply inv_claimed];
      eauto.
  - destruct (inv_elected _ _ _ Hinv i H) as (c0 & l0 & Hc0 & Hm0 & Hv0).
    destruct (decide (c0 = c)) as [-> | Hne].
    + exists c, (moved l p pte evs). rewrite (lookup_upd_eq _ _ _ _ Hc).
      assert (l0 = l) by congruence. subst l0. auto.
    + exists c0, l0. rewrite list_lookup_insert_ne by auto. auto.
  - (* inv_published *)
    upd_cases; [| eapply inv_published; eauto].
    cbn in *.
    destruct (move_late c _ _ _ _ _ _ Hok Hm) as
      [[Hl _] | [[Hpc _] | [Hna | [Hpc Hnone]]]]; auto.
    + eapply inv_published; eauto.
    + destruct (ok_follow _ _ _ _ Hok) as [_ Hf]; [auto | congruence].
    + rewrite (ok_master _ _ _ _ Hok) in Hna; [discriminate | auto].
    + destruct (assigned_in_table s c l Hinv Hc) as [e He];
        [apply (ok_master _ _ _ _ Hok); auto | congruence].
  - (* inv_shared *)
    destruct (inv_shared _ _ _ Hinv i H) as (m & lm & Hcm & Hmm & Hvm & Hpm).
    destruct (decide (m = c)) as [-> | Hne].
    + assert (lm = l) by congruence. subst lm.
      exists c, (moved l p pte evs). rewrite (lookup_upd_eq _ _ _ _ Hc).
      cbn. repeat split; auto.
      pose proof (move_mono _ _ _ _ _ _ _ Hm). lia.
    + exists m, lm. rewrite list_lookup_insert_ne by auto. auto.
  - (* inv_install *)
    upd_cases; [| eapply inv_install; eauto].
    cbn in *. eapply move_install; eauto.
  - (* inv_follower *)
    upd_cases; [| eapply inv_follower; eauto].
    cbn in *.
    destruct (move_late c _ _ _ _ _ _ Hok Hm) as
      [[Hl ->] | [[Hpc ->] | [Hna | [Hpc Hnone]]]]; auto.
    + eapply inv_follower; eauto.
    + split; [reflexivity |]. eapply inv_install; eauto.
    + congruence.
    + destruct (ok_publish _ _ _ _ Hok Hpc). congruence.
Qed.

Lemma boot_inv_stay (s : boot_state) (c : nat) (l : cpu_state) :
  boot_inv cfg pf s -> cpus s !! c = Some l ->
  boot_inv cfg pf (BootState (table s) (<[c := l]> (cpus s))).
Proof.
  intros Hinv Hc. rewrite list_insert_id by exact Hc. now destruct s.
Qed.

Lemma boot_inv_reset (s : boot_state) (c : nat) (l : cpu_state) :
  boot_inv cfg pf s -> cpus s !! c = Some l ->
  pc l = PcStart -> N <> 0%nat -> c = CPU_MASTER pf ->
  boot_inv cfg pf
    (BootState (replicate N va_zero)
       (<[c := moved l PcBarrier1 (l_pte l) [EvArchInit; EvIommuInit]]>
          (cpus s))).
Proof.
  intros Hinv Hc Hpc HN ->.
  pose proof (inv_cpu _ _ _ Hinv _ l Hc) as Hok.
  pose proof (inv_start _ _ _ Hinv l Hc Hpc) as Hnil.
  pose proof (inv_empty _ _ _ Hinv Hnil) as Hnone.
  assert (Hnone' : forall c0 l0,
             <[CPU_MASTER pf := moved l PcBarrier1 (l_pte l)
                                  [EvArchInit; EvIommuInit]]> (cpus s) !! c0
             = Some l0 -> l_assigned l0 = false).
  { intros c0 l0 H. apply lookup_upd in H.
    destruct H as [[-> ->] | [_ H]]; cbn; eauto. }
  assert (Hzero : forall i e, replicate N va_zero !! i = Some e -> e = va_zero).
  { intros i e H. apply lookup_replicate in H. tauto. }
  assert (Hnm : forall c0 l0,
             <[CPU_MASTER pf := moved l PcBarrier1 (l_pte l)
                                  [EvArchInit; EvIommuInit]]> (cpus s) !! c0
             = Some l0 -> cpu_ok cfg pf c0 l0).
  { intros c0 l0 H. apply lookup_upd in H.
    destruct H as [[-> ->] | [_ H]]; [now apply cpu_ok_reset |].
    eapply inv_cpu; eauto. }
  split; unfold master_at, shared_table; cbn [table cpus].
  - exact Hnm.
  - right. apply length_replicate.
  - intros lm H Hp. rewrite (lookup_upd_eq _ _ _ _ Hc) in H.
    inversion H; subst lm. discriminate Hp.
  - intros H. destruct N; [congruence | discriminate H].
  - intros i e vc H _. apply Hzero in H. subst e.
    unfold entry_ok. cbn. lia.
  - intros c0 l0 H Ha. rewrite (Hnone' _ _ H) in Ha. discriminate.
  - intros c1 c2 l1 l2 H1 _ Hm1 _ _.
    pose proof (ok_master _ _ _ _ (Hnm _ _ H1) Hm1) as Ha.
    rewrite (Hnone' _ _ H1) in Ha. discriminate.
  - intros i H. destruct (replicate N va_zero !! i) eqn:E; [| discriminate].
    apply Hzero in E. subst. discriminate.
  - intros m lm H Hm _.
    pose proof (ok_master _ _ _ _ (Hnm _ _ H) Hm) as Ha.
    rewrite (Hnone' _ _ H) in Ha. discriminate.
  - intros i H. destruct (replicate N va_zero !! i) eqn:E; [| congruence].
    apply Hzero in E. subst. cbn in H. congruence.
  - intros c0 l0 H Hp.
    destruct (ok_follow _ _ _ _ (Hnm _ _ H)) as [Ha _]; [auto |].
    rewrite (Hnone' _ _ H) in Ha. discriminate.
  - intros c0 l0 H Ha. rewrite (Hnone' _ _ H) in Ha. discriminate.
Qed.

Lemma shared_table_claim tbl (i j c : nat) (e : vm_assignment) :
  tbl !! i = Some e ->
  shared_table (<[i := va_claim true c e]> tbl) j = shared_table tbl j.
Proof.
  intros He. unfold shared_table.
  destruct (decide (i = j)) as [-> | Hne].
  - rewrite (lookup_upd_eq _ _ _ _ He), He. reflexivity.
  - now rewrite list_lookup_insert_ne.
Qed.

Lemma incr64_bounds (n : Z) : 0 <= n -> 0 <= incr64 n <= n + 1.
Proof.
  intros Hn. unfold incr64, U64. split.
  - apply Z.mod_pos_bound. lia.
  - apply Z.mod_le; lia.
Qed.

Lemma boot_inv_claim (s : boot_state) (c i : nat) (l : cpu_state)
    (m : bool) (here : nat -> pc_t) (vc : vm_config) (e : vm_assignment) :
  boot_inv cfg pf s -> cpus s !! c = Some l ->
  l_assigned l = false ->
  here = PcPass1 \/ here = PcPass2 ->
  vmlist cfg !! i = Some vc ->
  table s !! i = Some e ->
  (m = true /\ va_master e = false)
  \/ (m = false /\ va_master e = true /\ va_ncpus e < cpu_num vc) ->
  boot_inv cfg pf
    (BootState (<[i := va_claim true c e]> (table s))
       (<[c := set_pc (here (S i))
                      (if m then claim_master i l else claim_slot i l)]>
          (cpus s))).
Proof.
  intros Hinv Hc Hna Hh Hvc He Hcase.
  pose proof (inv_cpu _ _ _ Hinv _ l Hc) as Hok.
  assert (Hi : (i < N)%nat) by (now apply lookup_lt_Some in Hvc).
  assert (Hnm : l_master l = false).
  { destruct (l_master l) eqn:E; [| reflexivity].
    rewrite (ok_master _ _ _ _ Hok E) in Hna. discriminate. }
  set (l' := set_pc (here (S i))
                    (if m then claim_master i l else claim_slot i l)).
  assert (Hl' : l_assigned l' = true /\ l_vm_id l' = i /\ l_master l' = m
                /\ (phase (pc l') < 7)%nat /\ pc l' <> PcStart
                /\ pc l' <> PcInstall).
  { subst l'. destruct Hh as [-> | ->], m; cbn; rewrite ?Hnm;
      repeat split; try lia; discriminate. }
  destruct Hl' as (Ha' & Hv' & Hm' & Hph' & Hps' & Hpi').
  assert (Hne : table s <> []).
  { intros E. rewrite E in He. discriminate. }
  assert (Hmi : forall j, master_at s j = true ->
            master_at (BootState (<[i := va_claim true c e]> (table s))
                                 (<[c := l']> (cpus s))) j = true).
  { intros j. unfold master_at. cbn [table].
    destruct (decide (i = j)) as [-> | Hij].
    - now rewrite (lookup_upd_eq _ _ _ _ He).
    - now rewrite list_lookup_insert_ne. }
  split; unfold is_master_of; cbn [table cpus].
  - intros c0 l0 H. apply lookup_upd in H.
    destruct H as [[-> ->] | [_ H]]; [| eapply inv_cpu; eauto].
    now apply cpu_ok_claim.
  - right. rewrite length_insert.
    destruct (inv_size _ _ _ Hinv); [contradiction | assumption].
  - intros lm H Hp. apply lookup_upd in H.
    destruct H as [[_ ->] | [_ H]]; [contradiction |].
    exfalso. apply Hne. eapply inv_start; eauto.
  - intros E. exfalso. apply (f_equal length) in E.
    rewrite length_insert in E. destruct (table s); [congruence | discriminate].
  - intros j e0 vc0 H Hvc0. apply lookup_upd in H.
    destruct H as [[-> ->] | [_ H]]; [| eapply inv_entry; eauto].
    assert (vc0 = vc) by congruence. subst vc0.
    destruct (inv_entry _ _ _ Hinv i e vc He Hvc) as (H0 & Hz & Hmax).
    unfold entry_ok. cbn.
    pose proof (incr64_bounds (va_ncpus e) H0).
    repeat split; [lia | discriminate |].
    destruct Hcase as [[_ Hf] | (_ & _ & Hlt)]; [rewrite (Hz Hf) in * |]; lia.
  - intros c0 l0 H Ha. apply lookup_upd in H.
    destruct H as [[-> ->] | [_ H]].
    + rewrite Hv'. unfold master_at. cbn [table].
      now rewrite (lookup_upd_eq _ _ _ _ He).
    + apply Hmi. eapply inv_claimed; eauto.
  - intros c1 c2 l1 l2 H1 H2 Hm1 Hm2 Hv.
    assert (Hother : forall c0 l0, cpus s !! c0 = Some l0 ->
              l_master l0 = true -> l_vm_id l0 = i -> m = true -> False).
    { intros c0 l0 H0 Hm0 Hv0 ->.
      destruct Hcase as [[_ Hf] | (Hf & _)]; [| discriminate].
      pose proof (inv_claimed _ _ _ Hinv c0 l0 H0
                    (ok_master _ _ _ _ (inv_cpu _ _ _ Hinv _ _ H0) Hm0)) as Hx.
      rewrite Hv0 in Hx. unfold master_at in Hx. rewrite He in Hx. congruence. }
    apply lookup_upd in H1, H2.
    destruct H1 as [[-> ->] | [Hn1 H1]], H2 as [[-> ->] | [Hn2 H2]];
      try reflexivity.
    + exfalso. rewrite Hv' in Hv. eapply (Hother c2 l2); eauto; congruence.
    + exfalso. rewrite Hv' in Hv. eapply (Hother c1 l1); eauto; congruence.
    + eapply inv_unique; eauto.
  - intros j Hj. destruct (decide (j = i)) as [-> | Hji].
    + destruct Hcase as [[-> _] | (_ & Hmt & _)].
      * exists c, l'. rewrite (lookup_upd_eq _ _ _ _ Hc). auto.
      * destruct (inv_elected _ _ _ Hinv i) as (c0 & l0 & Hc0 & Hm0 & Hv0).
        { unfold master_at. now rewrite He. }
        assert (c0 <> c) by (intros ->; congruence).
        exists c0, l0. rewrite list_lookup_insert_ne by auto. auto.
    + destruct (inv_elected _ _ _ Hinv j) as (c0 & l0 & Hc0 & Hm0 & Hv0).
      { revert Hj. unfold master_at. cbn [table].
        now rewrite list_lookup_insert_ne by auto. }
      assert (c0 <> c) by (intros ->; congruence).
      exists c0, l0. rewrite list_lookup_insert_ne by auto. auto.
  - intros m0 lm H Hmm Hp. rewrite shared_table_claim by exact He.
    apply lookup_upd in H. destruct H as [[-> ->] | [_ H]]; [lia |].
    eapply inv_published; eauto.
  - intros j Hj. rewrite shared_table_claim in Hj by exact He.
    destruct (inv_shared _ _ _ Hinv j Hj) as (m0 & lm & Hc0 & Hm0 & Hv0 & Hp0).
    assert (m0 <> c) by (intros ->; congruence).
    exists m0, lm. rewrite list_lookup_insert_ne by auto. auto.
  - intros c0 l0 H Hp. rewrite shared_table_claim by exact He.
    apply lookup_upd in H. destruct H as [[-> ->] | [_ H]]; [contradiction |].
    eapply inv_install; eauto.
  - intros c0 l0 H Ha Hm0 Hp. rewrite shared_table_claim by exact He.
    apply lookup_upd in H. destruct H as [[-> ->] | [_ H]]; [lia |].
    eapply inv_follower; eauto.
Qed.

Lemma boot_inv_publish (s : boot_state) (c : nat) (l : cpu_state)
    (e : vm_assignment) :
  boot_inv cfg pf s -> cpus s !! c = Some l ->
  pc l = PcPublish -> table s !! l_vm_id l = Some e ->
  boot_inv cfg pf
    (BootState
       (<[l_vm_id l := VmAssign (va_master e) (va_ncpus e) (va_cpus e)
                                (mapped_pte pf c)]> (table s))
       (<[c := moved l PcBarrier4 (mapped_pte pf c)
                     [EvPartitionInit (va_ncpus e)]]> (cpus s))).
Proof.
  intros Hinv Hc Hpc He.
  pose proof (inv_cpu _ _ _ Hinv _ l Hc) as Hok.
  destruct (ok_publish _ _ _ _ Hok Hpc) as [Ha Hm].
  set (e' := VmAssign (va_master e) (va_ncpus e) (va_cpus e)
                      (mapped_pte pf c)).
  set (l' := moved l PcBarrier4 (mapped_pte pf c)
                   [EvPartitionInit (va_ncpus e)]).
  assert (Hne : table s <> []).
  { intros E. rewrite E in He. discriminate. }
  assert (Hmi : forall j,
            master_at (BootState (<[l_vm_id l := e']> (table s))
                                 (<[c := l']> (cpus s))) j = master_at s j).
  { intros j. unfold master_at. cbn [table].
    destruct (decide (l_vm_id l = j)) as [<- | Hij].
    - now rewrite (lookup_upd_eq _ _ _ _ He), He.
    - now rewrite list_lookup_insert_ne. }
  assert (Hsh : forall j, j <> l_vm_id l ->
            shared_table (<[l_vm_id l := e']> (table s)) j
            = shared_table (table s) j).
  { intros j Hj. unfold shared_table. now rewrite list_lookup_insert_ne. }
  assert (Hmine : shared_table (<[l_vm_id l := e']> (table s)) (l_vm_id l)
                  = mapped_pte pf c).
  { unfold shared_table. now rewrite (lookup_upd_eq _ _ _ _ He). }
  (* while [c] is about to publish, the field of its entry is zero *)
  assert (Hzero : shared_table (table s) (l_vm_id l) = 0).
  { destruct (Z.eq_dec (shared_table (table s) (l_vm_id l)) 0) as [E | E];
      [exact E | exfalso].
    destruct (inv_shared _ _ _ Hinv _ E) as (m0 & lm & Hc0 & Hm0 & Hv0 & Hp0).
    assert (m0 = c) by (eapply inv_unique; eauto). subst m0.
    assert (lm = l) by congruence. subst lm. rewrite Hpc in Hp0.
    cbn in Hp0. lia. }
  split; unfold is_master_of; cbn [table cpus].
  - intros c0 l0 H. apply lookup_upd in H.
    destruct H as [[-> ->] | [_ H]]; [| eapply inv_cpu; eauto].
    now apply cpu_ok_publish.
  - right. rewrite length_insert.
    destruct (inv_size _ _ _ Hinv); [contradiction | assumption].
  - intros lm H Hp. apply lookup_upd in H.
    destruct H as [[_ ->] | [_ H]]; [discriminate Hp |].
    exfalso. apply Hne. eapply inv_start; eauto.
  - intros E. exfalso. apply (f_equal length) in E.
    rewrite length_insert in E. destruct (table s); [congruence | discriminate].
  - intros j e0 vc0 H Hvc0. apply lookup_upd in H.
    destruct H as [[-> ->] | [_ H]]; [| eapply inv_entry; eauto].
    apply (inv_entry _ _ _ Hinv _ e vc0 He Hvc0).
  - intros c0 l0 H Ha0. rewrite Hmi. apply lookup_upd in H.
    destruct H as [[-> ->] | [_ H]]; [| eapply inv_claimed; eauto].
    apply (inv_claimed _ _ _ Hinv c l Hc Ha).
  - intros c1 c2 l1 l2 H1 H2 Hm1 Hm2 Hv.
    apply lookup_upd in H1, H2.
    destruct H1 as [[-> ->] | [Hn1 H1]], H2 as [[-> ->] | [Hn2 H2]];
      cbn in *; try reflexivity.
    + eapply (inv_unique _ _ _ Hinv c c2); eauto.
    + eapply (inv_unique _ _ _ Hinv c1 c); eauto.
    + eapply inv_unique; eauto.
  - intros j Hj. rewrite Hmi in Hj.
    destruct (inv_elected _ _ _ Hinv j Hj) as (c0 & l0 & Hc0 & Hm0 & Hv0).
    destruct (decide (c0 = c)) as [-> | Hn].
    + assert (l0 = l) by congruence. subst l0.
      exists c, l'. rewrite (lookup_upd_eq _ _ _ _ Hc). auto.
    + exists c0, l0. rewrite list_lookup_insert_ne by auto. auto.
  - intros m0 lm H Hmm Hp. apply lookup_upd in H.
    destruct H as [[-> ->] | [Hn H]]; [exact Hmine |].
    rewrite Hsh; [eapply inv_published; eauto |].
    intros Hv. apply Hn. eapply (inv_unique _ _ _ Hinv m0 c); eauto.
  - intros j Hj. destruct (decide (j = l_vm_id l)) as [-> | Hn].
    + exists c, l'. rewrite (lookup_upd_eq _ _ _ _ Hc). cbn. auto.
    + rewrite Hsh in Hj by auto.
      destruct (inv_shared _ _ _ Hinv j Hj) as (m0 & lm & Hc0 & Hm0 & Hv0 & Hp0).
      assert (m0 <> c).
      { intros ->. assert (lm = l) by congruence. subst lm. rewrite Hpc in Hp0.
        cbn in Hp0. lia. }
      exists m0, lm. rewrite list_lookup_insert_ne by auto. auto.
  - intros c0 l0 H Hp. apply lookup_upd in H.
    destruct H as [[-> ->] | [_ H]]; [discriminate Hp |].
    pose proof (inv_install _ _ _ Hinv c0 l0 H Hp) as Hx.
    rewrite Hsh; [exact Hx |]. intros E. rewrite E in Hx. contradiction.
  - intros c0 l0 H Ha0 Hm0 Hp. apply lookup_upd in H.
    destruct H as [[-> ->] | [_ H]]; [cbn in Hm0; congruence |].
    destruct (inv_follower _ _ _ Hinv c0 l0 H Ha0 Hm0 Hp) as [Hx Hy].
    rewrite Hsh; [auto |]. intros E. rewrite E, Hzero in Hx. contradiction.
Qed.

(** Every step keeps the invariant. *)
Lemma boot_step_inv (s : boot_state) (c : nat) :
  boot_inv cfg pf s -> boot_inv cfg pf (boot_step cfg pf c s).
Proof.
  intros Hinv. unfold boot_step.
  destruct (cpus s !! c) as [l|] eqn:Hc; [| exact Hinv].
  pose proof (cpu_step_trans cfg pf c (table s) (cpus s) l) as Ht.
  destruct (cpu_step cfg pf c (table s) (cpus s) l) as [tbl' l'].
  cbn [fst snd] in Ht. destruct Ht.
  - now apply boot_inv_stay.
  - now apply boot_inv_move.
  - now apply boot_inv_reset.
  - match goal with H : pass_head _ _ _ _ _ |- _ => inversion H end;
      subst; apply (boot_inv_claim s c _ l true _ vc e); auto; congruence.
  - match goal with H : _ \/ _ |- _ => destruct H as [[_ ->] | [_ ->]] end;
      apply (boot_inv_claim s c _ l false _ vc e); auto.
  - now apply boot_inv_publish.
Qed.

Lemma boot_run_inv (sched : list nat) :
  forall s, boot_inv cfg pf s -> boot_inv cfg pf (boot_run cfg pf sched s).
Proof.
  induction sched as [|c rest IH]; intros s Hinv; cbn [boot_run];
    [exact Hinv |].
  apply IH. now apply boot_step_inv.
Qed.

Lemma boot_reachable_inv (ncpu : nat) (s : boot_state) :
  boot_reachable cfg pf ncpu s -> boot_inv cfg pf s.
Proof.
  intros [sched ->]. apply boot_run_inv. apply boot_init_inv.
Qed.

End BootPreservation.

(* ================================================================== *)
(** * 11. Properties of the boot protocol *)
(* ================================================================== *)

Section BootProperties.

Variable cfg : config.
Variable pf : platform.
Variable ncpu : nat.

(** The counter of an entry never exceeds the required count of its
    configuration, provided that count is at least one: the master branch
    of the affinity pass counts its CPU without looking at the count. *)
Lemma ncpus_bounded (s : boot_state) (i : nat) (vc : vm_config) :
  boot_reachable cfg pf ncpu s -> vmlist cfg !! i = Some vc ->
  0 <= ncpus_at s i <= Z.max (cpu_num vc) 1.
Proof.
  intros Hr Hvc. apply boot_reachable_inv in Hr.
  unfold ncpus_at. destruct (table s !! i) as [e|] eqn:He; [| lia].
  destruct (inv_entry _ _ _ Hr i e vc He Hvc) as (H0 & _ & Hmax). lia.
Qed.

Lemma ncpus_bounded_positive (s : boot_state) (i : nat) (vc : vm_config) :
  boot_reachable cfg pf ncpu s -> vmlist cfg !! i = Some vc ->
  1 <= cpu_num vc -> ncpus_at s i <= cpu_num vc.
Proof.
  intros Hr Hvc Hpos. pose proof (ncpus_bounded s i vc Hr Hvc). lia.
Qed.

(** The master flag of an entry is never cleared. *)
Lemma master_at_step (s : boot_state) (c i : nat) :
  boot_inv cfg pf s -> master_at s i = true ->
  master_at (boot_step cfg pf c s) i = true.
Proof.
  intros Hinv Hm.
  destruct (inv_elected _ _ _ Hinv i Hm) as (m & lm & Hcm & Hmm & Hvm).
  pose proof (boot_step_inv cfg pf s c Hinv) as Hinv'.
  unfold boot_step in *.
  destruct (cpus s !! c) as [l|] eqn:Hc; [| exact Hm].
  pose proof (cpu_step_trans cfg pf c (table s) (cpus s) l) as Ht.
  destruct (cpu_step cfg pf c (table s) (cpus s) l) as [tbl' l'].
  cbn [fst snd] in Ht.
  assert (Hkeep : l_master l = true -> l_master l' = true /\ l_vm_id l' = l_vm_id l).
  { intros Hl.
    pose proof (ok_master _ _ _ _ (inv_cpu _ _ _ Hinv _ _ Hc) Hl) as Ha.
    destruct Ht; cbn; auto; congruence. }
  subst i. destruct (decide (m = c)) as [-> | Hne].
  - assert (lm = l) by congruence. subst lm.
    destruct (Hkeep Hmm) as [Hm' Hv']. rewrite <- Hv'.
    apply (inv_claimed _ _ _ Hinv' c l').
    + cbn [cpus]. now apply (lookup_upd_eq _ _ l).
    + apply (ok_master cfg pf c l'); [| exact Hm'].
      apply (inv_cpu _ _ _ Hinv'). cbn [cpus]. now apply (lookup_upd_eq _ _ l).
  - apply (inv_claimed _ _ _ Hinv' m lm).
    + cbn [cpus]. now rewrite list_lookup_insert_ne by auto.
    + apply (ok_master cfg pf m lm); [| exact Hmm].
      apply (inv_cpu cfg pf s Hinv m lm Hcm).
Qed.

Lemma master_flips_count (i : nat) (sched : list nat) :
  forall s, boot_inv cfg pf s ->
    ((if master_at s i then 1 else 0) + master_flips cfg pf i sched s
     = if master_at (boot_run cfg pf sched s) i then 1 else 0)%nat.
Proof.
  induction sched as [|c rest IH]; intros s Hinv;
    cbn [master_flips boot_run]; [lia |].
  rewrite <- (IH (boot_step cfg pf c s)) by now apply boot_step_inv.
  destruct (master_at s i) eqn:Hm.
  - rewrite (master_at_step s c i Hinv Hm). cbn. lia.
  - cbn [negb andb]. destruct (master_at (boot_step cfg pf c s) i); lia.
Qed.

(** In every reachable state, at most one CPU took the master branch of
    an entry; the entry's flag tells whether one did; an entry with a CPU
    assigned has its master. *)
Lemma top_level_master (s : boot_state) (i : nat) :
  boot_reachable cfg pf ncpu s ->
  (forall c1 c2, is_master_of s c1 i -> is_master_of s c2 i -> c1 = c2)
  /\ (master_at s i = true <-> exists m, is_master_of s m i)
  /\ ((exists c, is_assigned_to s c i) -> exists m, is_master_of s m i).
Proof.
  intros Hr. apply boot_reachable_inv in Hr. repeat split.
  - intros c1 c2 (l1 & H1 & Hm1 & Hv1) (l2 & H2 & Hm2 & Hv2).
    eapply inv_unique; eauto. congruence.
  - apply (inv_elected _ _ _ Hr).
  - intros (m & lm & Hc & Hm & <-).
    apply (inv_claimed _ _ _ Hr m lm Hc).
    apply (ok_master cfg pf m lm); [eapply inv_cpu; eauto | exact Hm].
  - intros (c & l & Hc & Ha & <-).
    apply (inv_elected _ _ _ Hr). eapply inv_claimed; eauto.
Qed.

End BootProperties.

(** C1.  The counter of a top-level entry exceeds the required count of
    its configuration when that count is zero and a CPU of the affinity mask
    arrives: the master branch of the affinity pass (line 204) increments
    the counter without the test against [platform.cpu_num] that the other
    branch and the fallback pass make.  With one VM of affinity {CPU0}
    requiring 0 CPUs and one physical CPU, after three steps of CPU0 the
    counter is 1, and it still is when the protocol has run to its end. *)
Theorem ncpus_exceeds_required_count :
  let cfg := Config [VmConfig 1 0 []] in
  let pf := Platform 0 true (fun _ => 4096) in
  let s3 := boot_run cfg pf [0; 0; 0]%nat (boot_init 1) in
  let s := boot_run cfg pf (round_robin 1 12) (boot_init 1) in
  boot_reachable cfg pf 1 s3 /\ boot_reachable cfg pf 1 s
  /\ ncpus_at s3 0 = 1 /\ ncpus_at s 0 = 1
  /\ is_master_of s 0 0
  /\ (exists l, cpus s !! 0%nat = Some l /\ pc l = PcRun)
  /\ (forall vc, vmlist cfg !! 0%nat = Some vc ->
                 cpu_num vc = 0 /\ cpu_num vc < ncpus_at s 0).
Proof.
  cbv zeta. repeat split.
  - now exists [0; 0; 0]%nat.
  - now exists (round_robin 1 12).
  - eexists. vm_compute. repeat split; reflexivity.
  - eexists. vm_compute. repeat split; reflexivity.
  - cbn in H. now inversion H.
  - cbn in H. inversion H; subst. vm_compute. reflexivity.
Qed.

(* ================================================================== *)
(** * 12. The claiming passes of [vmm_create_vms] *)
(* ================================================================== *)

(** The states of the counter and of the locals that the two passes of a
    level reach from the counter value [n0], whichever CPUs take the lock
    and in whichever order, with the resets of line 68 that the partition
    master [pm] can make in between: once it has a slot and the
    configuration has a child, nothing keeps it from entering that child.
    The first index counts these resets. *)
Inductive claim_reach (vc : vm_config) (pm : nat) (n0 : Z)
    : nat -> Z -> (nat -> claim) -> Prop :=
| CR_start : claim_reach vc pm n0 0 n0 (fun _ => claim_init)
| CR_affinity c r n ks :
    claim_reach vc pm n0 r n ks ->
    claim_reach vc pm n0 r (claim_affinity vc c n (ks c)).1
                (upd ks c (claim_affinity vc c n (ks c)).2)
| CR_fallback c r n ks :
    claim_reach vc pm n0 r n ks ->
    claim_reach vc pm n0 r (claim_fallback vc c n (ks c)).1
                (upd ks c (claim_fallback vc c n (ks c)).2)
| CR_reset r n ks :
    claim_reach vc pm n0 r n ks ->
    assigned (ks pm) = true -> children vc <> [] ->
    claim_reach vc pm n0 (S r) 0 ks.

(** The two passes when no reset falls between them: what [level_claim]
    computes when the partition master does not run ahead. *)
Definition claim_passes (env : environment) (vc : vm_config)
    (cohort : list nat) (t : nat) (n0 : Z) : Z * (nat -> claim) :=
  let '(n1, ks1) :=
    claim_pass claim_affinity vc (lock_order env t cohort) n0
               (fun _ => claim_init) in
  claim_pass claim_fallback vc (lock_order env (S t) cohort) n1 ks1.

(** The partition master never runs ahead. *)
Definition in_step (env : environment) : Prop :=
  forall t l, reset_at env t l = None.

(** The environment of [env_in_order] in which, in addition, the partition
    master is at line 68 of the first child as soon as one CPU is through
    the fallback pass. *)
Definition env_ahead : environment :=
  Environment (fun _ l => l) (fun l => S (list_max l)) (fun _ _ => Some 1%nat).

Definition nmasters (ks : nat -> claim) (cs : list nat) : nat :=
  length (List.filter (fun c => master (ks c)) cs).

Lemma upd_same {A : Type} (f : nat -> A) (c : nat) (v : A) : upd f c v c = v.
Proof. unfold upd. now rewrite Nat.eqb_refl. Qed.

Lemma upd_other {A : Type} (f : nat -> A) (c c' : nat) (v : A) :
  c' <> c -> upd f c v c' = f c'.
Proof. intros H. unfold upd. apply Nat.eqb_neq in H. now rewrite H. Qed.

Lemma claim_pass_app section (vc : vm_config) (o1 o2 : list nat) :
  forall n ks,
    claim_pass section vc (o1 ++ o2) n ks
    = claim_pass section vc o2 (claim_pass section vc o1 n ks).1
                 (claim_pass section vc o1 n ks).2.
Proof.
  induction o1 as [|c o1 IH]; intros n ks; cbn [claim_pass app fst snd];
    [reflexivity |].
  destruct (section vc c n (ks c)) as [n' k']. apply IH.
Qed.

Lemma level_claim_in_step (env : environment) (vc : vm_config) (pm : nat)
    (cohort : list nat) (t : nat) (n0 : Z) :
  reset_at env (S t) cohort = None ->
  level_claim env vc pm cohort t n0 = (claim_passes env vc cohort t n0, false).
Proof.
  intros Hnone. unfold level_claim, claim_passes. rewrite Hnone.
  now destruct (claim_pass claim_affinity vc (lock_order env t cohort) n0
                  (fun _ => claim_init)) as [n1 ks1].
Qed.

(** Without the conditions of [runs_ahead] the passes are undisturbed
    wherever the environment puts the reset. *)
Lemma level_claim_calm (env : environment) (vc : vm_config) (pm : nat)
    (cohort : list nat) (t : nat) (n0 : Z) :
  children vc = [] \/ ~ In pm cohort ->
  level_claim env vc pm cohort t n0 = (claim_passes env vc cohort t n0, false).
Proof.
  intros Hcalm. unfold level_claim, claim_passes.
  destruct (claim_pass claim_affinity vc (lock_order env t cohort) n0
              (fun _ => claim_init)) as [n1 ks1].
  destruct (reset_at env (S t) cohort) as [k |]; [| reflexivity].
  assert (E : claim_pass claim_fallback vc (lock_order env (S t) cohort) n1 ks1
              = claim_pass claim_fallback vc
                  (skipn k (lock_order env (S t) cohort))
                  (claim_pass claim_fallback vc
                     (firstn k (lock_order env (S t) cohort)) n1 ks1).1
                  (claim_pass claim_fallback vc
                     (firstn k (lock_order env (S t) cohort)) n1 ks1).2).
  { now rewrite <- claim_pass_app, firstn_skipn. }
  rewrite E. clear E.
  destruct (claim_pass claim_fallback vc
              (firstn k (lock_order env (S t) cohort)) n1 ks1) as [n2 ks2].
  cbn [fst snd].
  assert (Hoff : runs_ahead vc pm cohort
                   (firstn k (lock_order env (S t) cohort)) ks2 = false).
  { unfold runs_ahead. destruct Hcalm as [-> | Hnin].
    - now rewrite andb_false_r.
    - assert (E : existsb (fun c => (c =? pm)%nat) cohort = false).
      { destruct (existsb (fun c => (c =? pm)%nat) cohort) eqn:E;
          [| reflexivity].
        apply existsb_exists in E. destruct E as (x & Hx & E).
        apply Nat.eqb_eq in E. subst x. contradiction. }
      now rewrite E. }
  now rewrite Hoff.
Qed.

(** The three cases in which no reset falls into the fallback pass. *)
Lemma level_claim_undisturbed (env : environment) (vc : vm_config) (pm : nat)
    (cohort : list nat) (t : nat) (n0 : Z) :
  children vc = [] \/ ~ In pm cohort \/ reset_at env (S t) cohort = None ->
  level_claim env vc pm cohort t n0 = (claim_passes env vc cohort t n0, false).
Proof.
  intros [H | [H | H]].
  - apply level_claim_calm. now left.
  - apply level_claim_calm. now right.
  - now apply level_claim_in_step.
Qed.

Section ClaimPasses.

Variable vc : vm_config.

(** Under the lock a CPU either leaves everything as it is, or finds the
    counter below the required count, increments it and claims. *)
Definition guarded
    (section : vm_config -> nat -> Z -> claim -> Z * claim) : Prop :=
  forall c n k,
    section vc c n k = (n, k)
    \/ (n < cpu_num vc
        /\ section vc c n k
           = (incr64 n, Claim true (if n =? 0 then true else master k))).

Lemma claim_affinity_guarded : guarded claim_affinity.
Proof.
  intros c n k. unfold claim_affinity.
  destruct (n <? cpu_num vc) eqn:Hlt; cbn [andb]; [| now left].
  apply Z.ltb_lt in Hlt. destruct (affine vc c); [right | left]; auto.
Qed.

Lemma claim_fallback_guarded : guarded claim_fallback.
Proof.
  intros c n k. unfold claim_fallback.
  destruct (negb (assigned k)); cbn [andb]; [| now left].
  destruct (n <? cpu_num vc) eqn:Hlt; [right | left]; auto.
  apply Z.ltb_lt in Hlt. auto.
Qed.

Variable pm : nat.
Variable n0 : Z.
Hypothesis n0_nonneg : 0 <= n0.
Hypothesis cpu_num_u64 : cpu_num vc < U64.

(** What holds of the counter and the locals after [r] resets. *)
Record claim_inv (r : nat) (n : Z) (ks : nat -> claim) : Prop := ClaimInv {
  ci_nonneg : 0 <= n;
  ci_bound : n <= Z.max n0 (cpu_num vc);
  ci_mono : r = 0%nat -> n0 <= n;
  ci_masters : forall cs, List.NoDup cs ->
      (nmasters ks cs + (if (n =? 0)%Z then 1 else 0) <= S r)%nat;
  ci_master : forall c, master (ks c) = true -> assigned (ks c) = true;
  ci_first : r = 0%nat -> forall c, master (ks c) = true -> n0 = 0 /\ 0 < n;
  ci_elected : n0 = 0 -> 0 < n \/ (exists c, assigned (ks c) = true) ->
               exists m, master (ks m) = true;
  ci_assigned : r = 0%nat -> forall c, assigned (ks c) = true -> n0 < n
}.

Lemma nmasters_none (ks : nat -> claim) (cs : list nat) :
  (forall c, master (ks c) = false) -> nmasters ks cs = 0%nat.
Proof.
  intros H. unfold nmasters. induction cs as [|a cs IH]; [reflexivity |].
  cbn [List.filter]. now rewrite H.
Qed.

Lemma nmasters_ext (ks ks' : nat -> claim) (cs : list nat) :
  (forall x, ks' x = ks x) -> nmasters ks' cs = nmasters ks cs.
Proof.
  intros He. unfold nmasters. induction cs as [|a cs IH]; [reflexivity |].
  cbn [List.filter]. rewrite He.
  destruct (master (ks a)); cbn [length]; now rewrite IH.
Qed.

(** One more CPU with the master flag raises the count by one at most. *)
Lemma nmasters_upd (ks : nat -> claim) (c : nat) (k : claim) (cs : list nat) :
  List.NoDup cs ->
  (nmasters (upd ks c k) cs <= S (nmasters ks cs))%nat
  /\ (master k = master (ks c) ->
      nmasters (upd ks c k) cs = nmasters ks cs).
Proof.
  intros Hnd. unfold nmasters.
  induction cs as [|a cs IH]; [cbn; split; [lia | reflexivity] |].
  inversion Hnd as [| ? ? Hnin Hnd']; subst.
  specialize (IH Hnd'). cbn [List.filter].
  destruct (decide (a = c)) as [-> | Hne].
  - assert (Hsame : List.filter (fun x => master (upd ks c k x)) cs
                    = List.filter (fun x => master (ks x)) cs).
    { clear IH Hnd Hnd'. induction cs as [|b cs IH]; [reflexivity |].
      cbn [List.filter].
      rewrite upd_other by (intros ->; apply Hnin; now left).
      rewrite IH by (intros H; apply Hnin; now right). reflexivity. }
    rewrite upd_same, Hsame. split.
    + destruct (master k), (master (ks c)); cbn [length]; lia.
    + intros ->. reflexivity.
  - rewrite upd_other by exact Hne. destruct IH as [IH1 IH2].
    destruct (master (ks a)); cbn [length]; split; try lia; intros E;
      now rewrite IH2.
Qed.

Lemma claim_inv_start : claim_inv 0 n0 (fun _ => claim_init).
Proof.
  split; cbn; intros; try discriminate; try lia.
  - rewrite nmasters_none by reflexivity. destruct (n0 =? 0); cbn; lia.
  - destruct H0 as [H0 | [c H0]]; [lia | discriminate].
Qed.

Lemma claim_inv_ext (r : nat) (n : Z) (ks ks' : nat -> claim) :
  (forall x, ks' x = ks x) -> claim_inv r n ks -> claim_inv r n ks'.
Proof.
  intros He Hinv. destruct Hinv.
  split; intros; repeat rewrite He in *; eauto.
  - rewrite (nmasters_ext ks ks') by exact He. auto.
  - destruct ci_elected0 as [m Hm]; [exact H | |].
    + destruct H0 as [H0 | [c H0]]; [now left | right].
      exists c. now rewrite <- He.
    + exists m. now rewrite He.
Qed.

Lemma claim_inv_step section (c : nat) (r : nat) (n : Z)
    (ks : nat -> claim) :
  guarded section -> claim_inv r n ks ->
  claim_inv r (section vc c n (ks c)).1 (upd ks c (section vc c n (ks c)).2).
Proof.
  intros Hg Hinv. destruct (Hg c n (ks c)) as [-> | [Hlt ->]]; cbn [fst snd].
  - apply (claim_inv_ext r n ks); [| exact Hinv].
    intros x. destruct (decide (x = c)) as [-> | ?];
      [now rewrite upd_same | now rewrite upd_other].
  - destruct Hinv.
    assert (Hn : incr64 n = n + 1).
    { apply incr64_small; lia. }
    rewrite Hn.
    split.
    + lia.
    + lia.
    + intros Hr. specialize (ci_mono0 Hr). lia.
    + intros cs Hnd. specialize (ci_masters0 cs Hnd).
      destruct (nmasters_upd ks c
                  (Claim true (if n =? 0 then true else master (ks c)))
                  cs Hnd) as [Hle Hsame].
      assert (E1 : (n + 1 =? 0) = false) by (apply Z.eqb_neq; lia).
      rewrite E1. destruct (n =? 0) eqn:E.
      * lia.
      * rewrite Hsame by reflexivity. lia.
    + intros c'. destruct (decide (c' = c)) as [-> | H1];
        rewrite ?upd_same, ?upd_other by auto; cbn; auto.
    + intros Hr c'. destruct (decide (c' = c)) as [-> | H1];
        rewrite ?upd_same, ?upd_other by auto; cbn.
      * destruct (n =? 0) eqn:E; [apply Z.eqb_eq in E |].
        -- intros _. specialize (ci_mono0 Hr). split; lia.
        -- intros H. destruct (ci_first0 Hr c H). split; lia.
      * intros H. destruct (ci_first0 Hr c' H). split; lia.
    + intros H0 _. destruct (n =? 0) eqn:E.
      * exists c. now rewrite upd_same.
      * apply Z.eqb_neq in E.
        destruct ci_elected0 as [m Hm]; [auto | left; lia |].
        exists m. destruct (decide (m = c)) as [-> | ?];
          rewrite ?upd_same, ?upd_other by auto; auto.
    + intros Hr c' _. specialize (ci_mono0 Hr). lia.
Qed.

Lemma claim_inv_reset (r : nat) (n : Z) (ks : nat -> claim) :
  assigned (ks pm) = true -> claim_inv r n ks -> claim_inv (S r) 0 ks.
Proof.
  intros Hpm Hinv. destruct Hinv.
  split; try discriminate; auto; try lia.
  - intros cs Hnd. specialize (ci_masters0 cs Hnd). cbn.
    destruct (n =? 0); lia.
  - intros H0 _. apply ci_elected0; [exact H0 |]. right. now exists pm.
Qed.

Lemma claim_reach_inv (r : nat) (n : Z) (ks : nat -> claim) :
  claim_reach vc pm n0 r n ks -> claim_inv r n ks.
Proof.
  induction 1 as [| c r n ks _ IH | c r n ks _ IH | r n ks _ IH Hpm _].
  - apply claim_inv_start.
  - apply claim_inv_step; [apply claim_affinity_guarded | exact IH].
  - apply claim_inv_step; [apply claim_fallback_guarded | exact IH].
  - now apply (claim_inv_reset r n ks).
Qed.

(** Without a reset at most one CPU has taken the master branch. *)
Lemma claim_inv_unique (n : Z) (ks : nat -> claim) :
  claim_inv 0 n ks ->
  forall c1 c2, master (ks c1) = true -> master (ks c2) = true -> c1 = c2.
Proof.
  intros Hinv c1 c2 H1 H2. destruct (decide (c1 = c2)) as [| Hne]; [auto |].
  exfalso. destruct Hinv.
  assert (Hnd : List.NoDup [c1; c2]).
  { constructor; [intros [-> | []]; congruence |].
    constructor; [intros [] | constructor]. }
  specialize (ci_masters0 _ Hnd). unfold nmasters in ci_masters0.
  cbn [List.filter] in ci_masters0. rewrite H1, H2 in ci_masters0.
  cbn [length] in ci_masters0. lia.
Qed.

Lemma claim_pass_affinity_reach (r : nat) (order : list nat) :
  forall n ks, claim_reach vc pm n0 r n ks ->
    claim_reach vc pm n0 r (claim_pass claim_affinity vc order n ks).1
                (claim_pass claim_affinity vc order n ks).2.
Proof.
  induction order as [|c rest IH]; intros n ks Hr; cbn [claim_pass];
    [exact Hr |].
  pose proof (CR_affinity vc pm n0 c r n ks Hr) as Hs.
  destruct (claim_affinity vc c n (ks c)) as [n' k']. now apply IH.
Qed.

Lemma claim_pass_fallback_reach (r : nat) (order : list nat) :
  forall n ks, claim_reach vc pm n0 r n ks ->
    claim_reach vc pm n0 r (claim_pass claim_fallback vc order n ks).1
                (claim_pass claim_fallback vc order n ks).2.
Proof.
  induction order as [|c rest IH]; intros n ks Hr; cbn [claim_pass];
    [exact Hr |].
  pose proof (CR_fallback vc pm n0 c r n ks Hr) as Hs.
  destruct (claim_fallback vc c n (ks c)) as [n' k']. now apply IH.
Qed.

Lemma claim_passes_reach (env : environment) (cohort : list nat) (t : nat) :
  claim_reach vc pm n0 0 (claim_passes env vc cohort t n0).1
              (claim_passes env vc cohort t n0).2.
Proof.
  unfold claim_passes.
  pose proof (claim_pass_affinity_reach 0 (lock_order env t cohort) n0
                (fun _ => claim_init) (CR_start vc pm n0)) as H1.
  destruct (claim_pass claim_affinity vc (lock_order env t cohort) n0
              (fun _ => claim_init)) as [n1 ks1].
  now apply claim_pass_fallback_reach.
Qed.

(** What [level_claim] computes is reached with one reset when the
    partition master ran ahead, and with none otherwise. *)
Lemma level_claim_reach (env : environment) (cohort : list nat) (t : nat) :
  claim_reach vc pm n0
    (if (level_claim env vc pm cohort t n0).2 then 1 else 0)
    (level_claim env vc pm cohort t n0).1.1
    (level_claim env vc pm cohort t n0).1.2.
Proof.
  unfold level_claim.
  pose proof (claim_pass_affinity_reach 0 (lock_order env t cohort) n0
                (fun _ => claim_init) (CR_start vc pm n0)) as H1.
  destruct (claim_pass claim_affinity vc (lock_order env t cohort) n0
              (fun _ => claim_init)) as [n1 ks1].
  cbn [fst snd] in H1.
  destruct (reset_at env (S t) cohort) as [k |]; cbn [fst snd].
  - pose proof (claim_pass_fallback_reach 0
                  (firstn k (lock_order env (S t) cohort)) n1 ks1 H1) as H2.
    destruct (claim_pass claim_fallback vc
                (firstn k (lock_order env (S t) cohort)) n1 ks1)
      as [n2 ks2].
    cbn [fst snd] in H2.
    destruct (runs_ahead vc pm cohort
                (firstn k (lock_order env (S t) cohort)) ks2) eqn:Ha;
      cbn [fst snd].
    + apply claim_pass_fallback_reach. unfold runs_ahead in Ha.
      apply andb_prop in Ha. destruct Ha as [Ha Hkids].
      apply andb_prop in Ha. destruct Ha as [_ Hpm].
      apply (CR_reset vc pm n0 0 n2 ks2 H2 Hpm).
      destruct (children vc); [discriminate | discriminate].
    + now apply claim_pass_fallback_reach.
  - now apply claim_pass_fallback_reach.
Qed.

End ClaimPasses.

(* ================================================================== *)
(** * 13. Master election and capacity of a level *)
(* ================================================================== *)

(** C2, as the code has it.  In every run of the boot protocol, under any
    interleaving, at most one CPU takes the master branch of a top-level
    entry, the entry's flag is set exactly when one did and goes from false
    to true at most once, and an entry to which a CPU is assigned has its
    master.  In the claiming of a level of [vmm_create_vms], whatever the
    order in which the CPUs get the lock and whatever the counter started
    from, the CPUs that take the master branch are at most one more than
    the resets of the counter that fall into the claiming (line 68 of the
    next level, which the partition master executes without the lock): at
    most one without such a reset, at most two in what [level_claim]
    computes; when the counter started from zero and some CPU claims a
    slot, some CPU is level-master. *)
Theorem one_master_per_vm (cfg : config) (pf : platform) (ncpu : nat)
    (sched : list nat) (i : nat)
    (vc : vm_config) (pm : nat) (n0 : Z) (r : nat) (n : Z)
    (ks : nat -> claim) (cs : list nat)
    (env : environment) (cohort : list nat) (t : nat) :
  0 <= n0 -> cpu_num vc < U64 ->
  claim_reach vc pm n0 r n ks -> List.NoDup cs ->
  let s := boot_run cfg pf sched (boot_init ncpu) in
  let out := level_claim env vc pm cohort t n0 in
  ((forall c1 c2, is_master_of s c1 i -> is_master_of s c2 i -> c1 = c2)
   /\ ((exists c, is_assigned_to s c i) -> exists m, is_master_of s m i)
   /\ (master_at s i = true <-> exists m, is_master_of s m i)
   /\ master_flips cfg pf i sched (boot_init ncpu)
      = (if master_at s i then 1 else 0)%nat)
  /\ ((nmasters ks cs <= S r)%nat
      /\ (r = 0%nat -> forall c1 c2,
            master (ks c1) = true -> master (ks c2) = true -> c1 = c2)
      /\ (n0 = 0 -> (exists c, assigned (ks c) = true) ->
          exists m, master (ks m) = true))
  /\ ((nmasters out.1.2 cs <= (if out.2 then 2 else 1))%nat
      /\ (out.2 = false -> forall c1 c2,
            master (out.1.2 c1) = true -> master (out.1.2 c2) = true ->
            c1 = c2)
      /\ (n0 = 0 -> (exists c, assigned (out.1.2 c) = true) ->
          exists m, master (out.1.2 m) = true)).
Proof.
  intros Hn0 Hu64 Hreach Hnd s out.
  assert (Hlevel : forall r' n' ks', claim_reach vc pm n0 r' n' ks' ->
            (nmasters ks' cs <= S r')%nat
            /\ (r' = 0%nat -> forall c1 c2,
                  master (ks' c1) = true -> master (ks' c2) = true -> c1 = c2)
            /\ (n0 = 0 -> (exists c, assigned (ks' c) = true) ->
                exists m, master (ks' m) = true)).
  { intros r' n' ks' Hr.
    pose proof (claim_reach_inv vc pm n0 Hn0 Hu64 r' n' ks' Hr) as Hinv.
    split; [| split].
    - pose proof (ci_masters _ _ _ _ _ Hinv cs Hnd). lia.
    - intros ->. eapply claim_inv_unique; eassumption.
    - intros Hz Hc. apply (ci_elected _ _ _ _ _ Hinv Hz). now right. }
  split; [| split].
  - assert (Hr : boot_reachable cfg pf ncpu s) by now exists sched.
    destruct (top_level_master cfg pf ncpu s i Hr) as (Hu & Hiff & Ha).
    repeat split; try apply Hiff; auto.
    subst s. rewrite <- (master_flips_count cfg pf i sched (boot_init ncpu))
      by apply boot_init_inv.
    reflexivity.
  - now apply (Hlevel r n ks).
  - destruct (Hlevel _ _ _ (level_claim_reach vc pm n0 env cohort t))
      as (H1 & H2 & H3).
    fold out in H1, H2, H3. split; [| split].
    + destruct (out.2); exact H1.
    + intros E. apply H2. now rewrite E.
    + exact H3.
Qed.

Lemma one_master_per_vm_witness :
  let cfg := Config [VmConfig 3 2 []] in
  let pf := Platform 0 true (fun _ => 4096) in
  let s := boot_run cfg pf (round_robin 4 12) (boot_init 4) in
  let vc := VmConfig 1 2 [VmConfig 3 1 []] in
  let ks := (level_claim env_ahead vc 0 [0; 1]%nat 0 0).1.2 in
  let n := (level_claim env_ahead vc 0 [0; 1]%nat 0 0).1.1 in
  let out := level_claim env_in_order vc 0 [0; 1]%nat 0 0 in
  (0 <= 0 /\ 2 < U64 /\ claim_reach vc 0 0 1 n ks
   /\ List.NoDup [0; 1]%nat)
  /\ ((forall c1 c2, is_master_of s c1 0 -> is_master_of s c2 0 -> c1 = c2)
      /\ ((exists c, is_assigned_to s c 0) -> exists m, is_master_of s m 0)
      /\ (master_at s 0 = true <-> exists m, is_master_of s m 0)
      /\ master_flips cfg pf 0 (round_robin 4 12) (boot_init 4)
         = (if master_at s 0 then 1 else 0)%nat)
  /\ ((nmasters ks [0; 1]%nat <= 2)%nat
      /\ (1%nat = 0%nat -> forall c1 c2,
            master (ks c1) = true -> master (ks c2) = true -> c1 = c2)
      /\ (0 = 0 -> (exists c, assigned (ks c) = true) ->
          exists m, master (ks m) = true))
  /\ ((nmasters out.1.2 [0; 1]%nat <= (if out.2 then 2 else 1))%nat
      /\ (out.2 = false -> forall c1 c2,
            master (out.1.2 c1) = true -> master (out.1.2 c2) = true ->
            c1 = c2)
      /\ (0 = 0 -> (exists c, assigned (out.1.2 c) = true) ->
          exists m, master (out.1.2 m) = true)).
Proof.
  cbv zeta.
  assert (Hreach : claim_reach (VmConfig 1 2 [VmConfig 3 1 []]) 0 0 1
            (level_claim env_ahead (VmConfig 1 2 [VmConfig 3 1 []]) 0
               [0; 1]%nat 0 0).1.1
            (level_claim env_ahead (VmConfig 1 2 [VmConfig 3 1 []]) 0
               [0; 1]%nat 0 0).1.2).
  { exact (level_claim_reach (VmConfig 1 2 [VmConfig 3 1 []]) 0 0 env_ahead
             [0; 1]%nat 0). }
  assert (Hnd : List.NoDup [0; 1]%nat).
  { constructor; [intros [H | []]; discriminate |].
    constructor; [intros [] | constructor]. }
  split; [repeat split; [lia | exact Hreach | exact Hnd] |].
  apply (one_master_per_vm (Config [VmConfig 3 2 []])
           (Platform 0 true (fun _ => 4096)) 4 (round_robin 4 12) 0
           (VmConfig 1 2 [VmConfig 3 1 []]) 0%nat 0 1%nat
           (level_claim env_ahead (VmConfig 1 2 [VmConfig 3 1 []]) 0
              [0; 1]%nat 0 0).1.1
           (level_claim env_ahead (VmConfig 1 2 [VmConfig 3 1 []]) 0
              [0; 1]%nat 0 0).1.2
           [0; 1]%nat env_in_order [0; 1]%nat 0%nat);
    [lia | reflexivity | exact Hreach | exact Hnd].
Defined.

(** C2 as stated fails in both directions.  With two top-level VMs, the
    first requiring both CPUs of a two-CPU machine, the protocol runs to
    its end (both CPUs are in [vcpu_run]) and no CPU has taken the master
    branch of the second entry, whose flag never left false.  And in
    [vmm_create_vms], for a VM that requires two CPUs and has a child,
    built by CPUs 0 (the partition master, affine) and 1: CPU 0 claims in
    the affinity pass as level-master, passes the fallback pass and enters
    the child, where it resets the counter; CPU 1 then comes to its
    fallback pass, finds the counter at zero and is level-master too: the
    VM is initialised twice, with two VMIDs, and the child, entered with
    the counter at one, gets no CPU and no master. *)
Lemma master_missing_or_doubled :
  let cfg := Config [VmConfig 3 2 []; VmConfig 0 1 []] in
  let pf := Platform 0 true (fun _ => 4096) in
  let sched := round_robin 2 14 in
  let s := boot_run cfg pf sched (boot_init 2) in
  let kid := VmConfig 3 1 [] in
  let vc := VmConfig 1 2 [kid] in
  (Forall (fun l => pc l = PcRun) (cpus s)
   /\ length (cpus s) = 2%nat
   /\ master_at s 1 = false
   /\ master_flips cfg pf 1 sched (boot_init 2) = 0%nat
   /\ ~ (exists m, is_master_of s m 1))
  /\ (exists rs st',
        vmm_create_vms env_ahead vc false [0; 1]%nat
          (hyp_init 0 [10; 11; 12]%nat) = Some (rs, st')
        /\ List.filter is_master_init (events st')
           = [EvVmInit 0 1 vc true 1; EvVmInit 1 1 vc true 2]
        /\ List.filter (fun ev => match ev with
                                  | EvVmInit _ 2 _ _ _ => true
                                  | _ => false
                                  end) (events st') = []
        /\ In (EvAllocVm 0 2) (events st')
        /\ master ((level_claim env_ahead vc 0 [0; 1]%nat 0 0).1.2 0%nat)
           = true
        /\ master ((level_claim env_ahead vc 0 [0; 1]%nat 0 0).1.2 1%nat)
           = true).
Proof.
  cbv zeta. split.
  - repeat split.
    + vm_compute. repeat constructor.
    + intros [m (l & Hl & Hm & Hv)]. revert Hl Hm Hv. vm_compute.
      destruct m as [|[|m]]; intros Hl Hm Hv; inversion Hl; subst;
        cbn in *; discriminate.
  - remember (vmm_create_vms env_ahead (VmConfig 1 2 [VmConfig 3 1 []]) false
                [0; 1]%nat (hyp_init 0 [10; 11; 12]%nat)) as run eqn:E.
    vm_compute in E. subst run. eexists _, _.
    split; [reflexivity |]. vm_compute. repeat split. tauto.
Qed.

(** C9, as the code has it.  Both passes of the claiming of a level test
    the counter against [platform.cpu_num] before they increment it, also
    for the CPU that becomes level-master: a CPU that claims, or becomes
    master, found the counter below the required count and leaves it at
    most equal to it.  So, at whichever point of the two passes and with
    whatever resets in between, the counter does not exceed the larger of
    the required count and the value it had when the level was entered:
    it stays within the required count where it started within it, as
    from the zero that line 68 writes; as long as no reset falls into the
    passes, a level entered with the counter at or above the required
    count leaves it there, and no CPU claims. *)
Theorem level_counter_bounded (vc : vm_config) (pm : nat) (n0 : Z)
    (r : nat) (n : Z) (ks : nat -> claim) :
  0 <= cpu_num vc -> 0 <= n0 ->
  claim_reach vc pm n0 r n ks ->
  (forall c n k, 0 <= n ->
     assigned (claim_affinity vc c n k).2 <> assigned k
     \/ master (claim_affinity vc c n k).2 <> master k
     \/ (claim_affinity vc c n k).1 <> n ->
     n < cpu_num vc /\ (claim_affinity vc c n k).1 = incr64 n
     /\ (claim_affinity vc c n k).1 <= cpu_num vc)
  /\ (forall c n k, 0 <= n ->
     assigned (claim_fallback vc c n k).2 <> assigned k
     \/ master (claim_fallback vc c n k).2 <> master k
     \/ (claim_fallback vc c n k).1 <> n ->
     n < cpu_num vc /\ (claim_fallback vc c n k).1 = incr64 n
     /\ (claim_fallback vc c n k).1 <= cpu_num vc)
  /\ 0 <= n <= Z.max n0 (cpu_num vc)
  /\ (n0 <= cpu_num vc -> n <= cpu_num vc)
  /\ (cpu_num vc <= n0 -> r = 0%nat ->
      n = n0 /\ forall c, assigned (ks c) = false).
Proof.
  intros Hnum Hn0 Hreach.
  assert (Hstep : forall section, guarded vc section ->
            forall c n k, 0 <= n ->
              assigned (section vc c n k).2 <> assigned k
              \/ master (section vc c n k).2 <> master k
              \/ (section vc c n k).1 <> n ->
              n < cpu_num vc /\ (section vc c n k).1 = incr64 n
              /\ (section vc c n k).1 <= cpu_num vc).
  { intros section Hg c m k Hm H.
    destruct (Hg c m k) as [E | [Hlt E]]; rewrite E in *; cbn [fst snd] in *.
    - exfalso. destruct H as [H | [H | H]]; now apply H.
    - pose proof (incr64_bounds m Hm). repeat split; auto; lia. }
  assert (Hsec : forall section, guarded vc section ->
            forall c m k, 0 <= m <= Z.max n0 (cpu_num vc) ->
              0 <= (section vc c m k).1 <= Z.max n0 (cpu_num vc)).
  { intros section Hg c m k Hm.
    destruct (Hg c m k) as [-> | [Hlt ->]]; cbn [fst]; [exact Hm |].
    pose proof (incr64_bounds m (proj1 Hm)). lia. }
  assert (Hkeep : forall section, guarded vc section ->
            forall c (k : claim), cpu_num vc <= n0 ->
              section vc c n0 k = (n0, k)).
  { intros section Hg c k Hfull.
    destruct (Hg c n0 k) as [E | [Hlt _]]; [exact E | lia]. }
  assert (Hall : 0 <= n <= Z.max n0 (cpu_num vc)
                 /\ (cpu_num vc <= n0 -> r = 0%nat ->
                     n = n0 /\ forall c, assigned (ks c) = false)).
  { induction Hreach as [| c r n ks _ IH | c r n ks _ IH | r n ks _ IH _ _].
    - split; [lia |]. intros _ _. split; reflexivity.
    - destruct IH as [IHb IHf]. split.
      + apply Hsec; [apply claim_affinity_guarded | exact IHb].
      + intros Hfull Hr. destruct (IHf Hfull Hr) as [-> IHk].
        rewrite (Hkeep _ (claim_affinity_guarded vc) c (ks c) Hfull).
        cbn [fst snd]. split; [reflexivity |].
        intros x. destruct (decide (x = c)) as [-> | ?];
          rewrite ?upd_same, ?upd_other by auto; auto.
    - destruct IH as [IHb IHf]. split.
      + apply Hsec; [apply claim_fallback_guarded | exact IHb].
      + intros Hfull Hr. destruct (IHf Hfull Hr) as [-> IHk].
        rewrite (Hkeep _ (claim_fallback_guarded vc) c (ks c) Hfull).
        cbn [fst snd]. split; [reflexivity |].
        intros x. destruct (decide (x = c)) as [-> | ?];
          rewrite ?upd_same, ?upd_other by auto; auto.
    - split; [lia |]. intros _ Hr. discriminate Hr. }
  destruct Hall as [Hbound Hfull].
  split; [apply Hstep, claim_affinity_guarded |].
  split; [apply Hstep, claim_fallback_guarded |].
  split; [exact Hbound |].
  split; [lia | exact Hfull].
Qed.

Lemma level_counter_bounded_witness :
  let vc := VmConfig 3 1 [] in
  let out := claim_passes env_in_order vc [0; 1]%nat 0 0 in
  (0 <= cpu_num vc /\ 0 <= 0 /\ claim_reach vc 0 0 0 out.1 out.2)
  /\ out.1 = 1
  /\ master (out.2 0%nat) = true
  /\ 0 <= out.1 <= Z.max 0 (cpu_num vc)
  /\ (0 <= cpu_num vc -> out.1 <= cpu_num vc).
Proof.
  cbv zeta.
  pose proof (claim_passes_reach (VmConfig 3 1 []) 0 0 env_in_order
                [0; 1]%nat 0) as Hreach.
  split; [split; [cbn; lia | split; [lia | exact Hreach]] |].
  split; [reflexivity |]. split; [reflexivity |].
  assert (Hnum : 0 <= cpu_num (VmConfig 3 1 [])) by (cbn; lia).
  destruct (level_counter_bounded (VmConfig 3 1 []) 0 0 0
              (claim_passes env_in_order (VmConfig 3 1 []) [0; 1]%nat 0 0).1
              (claim_passes env_in_order (VmConfig 3 1 []) [0; 1]%nat 0 0).2
              Hnum (Z.le_refl 0) Hreach) as (_ & _ & Hb & Hc & _).
  split; [exact Hb | exact Hc].
Defined.

(** C9 as stated fails at a level that the partition master does not
    enter.  A VM requiring three CPUs has a child requiring two, affine to
    CPUs 1 and 2, which has a child requiring one.  CPUs 0 (the partition
    master), 1 and 2 build the tree: all three get a slot in the first VM;
    in its child CPUs 1 and 2 claim in the affinity pass and CPU 0 finds
    the VM full; CPUs 1 and 2 enter the grandchild without the partition
    master, line 68 is skipped, and through both passes of that level the
    counter is 2 where one CPU is required: no CPU claims, and no VM struct
    is allocated for the grandchild. *)
Lemma counter_above_cpu_num_without_reset :
  let vg := VmConfig 6 1 [] in
  let vk := VmConfig 6 2 [vg] in
  let vp := VmConfig 7 3 [vk] in
  exists rs st',
    vmm_create_vms env_in_order vp false [0; 1; 2]%nat
      (hyp_init 0 [10; 11; 12]%nat) = Some (rs, st')
    /\ List.filter (fun ev => match ev with
                              | EvEnter _ (VmConfig 6 1 []) _ => true
                              | _ => false
                              end) (events st')
       = [EvEnter 1 vg true; EvEnter 2 vg true]
    /\ count_events is_alloc (events st') = 2%nat
    /\ init_ncpus (part st') = 2
    /\ cpu_num vg = 1
    /\ level_claim env_in_order vg 0 [1; 2]%nat 4 2
       = (claim_passes env_in_order vg [1; 2]%nat 4 2, false)
    /\ (claim_passes env_in_order vg [1; 2]%nat 4 2).1 = 2
    /\ assigned ((claim_passes env_in_order vg [1; 2]%nat 4 2).2 1%nat)
       = false
    /\ assigned ((claim_passes env_in_order vg [1; 2]%nat 4 2).2 2%nat)
       = false.
Proof.
  cbv zeta.
  remember (vmm_create_vms env_in_order
              (VmConfig 7 3 [VmConfig 6 2 [VmConfig 6 1 []]]) false
              [0; 1; 2]%nat (hyp_init 0 [10; 11; 12]%nat)) as run eqn:E.
  vm_compute in E. subst run. eexists _, _.
  split; [reflexivity |]. vm_compute. repeat split.
Qed.

(* ================================================================== *)
(** * 14. Partition bootstrap and the idle path *)
(* ================================================================== *)

(** C5.  Let the page-table entry a master reads back after mapping the
    partition be non-zero.  For a follower CPU of any reachable state of
    the boot protocol there is one master [m] of its entry, the only CPU
    that publishes there, and: the follower leaves its spin loop only on a
    non-zero field; the field is zero exactly as long as [m] has not
    published; once the follower is out of the loop the field holds the
    value [m] published; and the value the follower installed in its own
    page table is that value, never zero. *)
Theorem follower_installs_published_pte (cfg : config) (pf : platform)
    (ncpu : nat) (s : boot_state) (c : nat) (l : cpu_state) :
  (forall m, mapped_pte pf m <> 0) ->
  boot_reachable cfg pf ncpu s ->
  cpus s !! c = Some l -> l_assigned l = true -> l_master l = false ->
  let field := shared_table (table s) (l_vm_id l) in
  let l' := (cpu_step cfg pf c (table s) (cpus s) l).2 in
  exists m lm,
    cpus s !! m = Some lm /\ l_master lm = true /\ l_vm_id lm = l_vm_id l
    /\ (forall m', is_master_of s m' (l_vm_id l) -> m' = m)
    /\ (pc l = PcSpin -> (field = 0 -> pc l' = PcSpin)
                         /\ (pc l' <> PcSpin -> pc l' = PcInstall /\ field <> 0))
    /\ (field = 0 <-> (phase (pc lm) < 7)%nat)
    /\ (field <> 0 -> field = mapped_pte pf m)
    /\ (pc l = PcInstall \/ (7 <= phase (pc l))%nat ->
        field = mapped_pte pf m /\ field <> 0)
    /\ ((7 <= phase (pc l))%nat ->
        l_pte l = mapped_pte pf m /\ l_pte l <> 0).
Proof.
  intros Hpte Hr Hc Ha Hm field l'.
  apply boot_reachable_inv in Hr.
  destruct (inv_elected _ _ _ Hr (l_vm_id l)) as (m & lm & Hcm & Hmm & Hvm).
  { eapply inv_claimed; eauto. }
  assert (Hpub : field <> 0 ->
                 (7 <= phase (pc lm))%nat /\ field = mapped_pte pf m).
  { intros Hf.
    destruct (inv_shared _ _ _ Hr _ Hf) as (m0 & lm0 & Hc0 & Hm0 & Hv0 & Hp0).
    assert (m0 = m) by (eapply inv_unique; eauto; congruence). subst m0.
    assert (lm0 = lm) by congruence. subst lm0. split; [exact Hp0 |].
    subst field. rewrite <- Hvm. eapply inv_published; eauto. }
  exists m, lm. repeat split; auto.
  - intros m' (lm' & Hc' & Hm' & Hv'). eapply inv_unique; eauto. congruence.
  - intros Hz. subst l'. unfold cpu_step. rewrite H. fold field. rewrite Hz.
    cbn. exact H.
  - subst l'. revert H0. unfold cpu_step. rewrite H. fold field.
    destruct (field =? 0); cbn; [congruence | reflexivity].
  - subst l'. revert H0. unfold cpu_step. rewrite H. fold field.
    destruct (field =? 0) eqn:E; cbn; [congruence |].
    intros _. now apply Z.eqb_neq in E.
  - intros Hz. destruct (le_lt_dec 7 (phase (pc lm))) as [Hge | Hlt];
      [exfalso | exact Hlt].
    pose proof (inv_published _ _ _ Hr m lm Hcm Hmm Hge) as Hx.
    rewrite Hvm in Hx. fold field in Hx. apply (Hpte m). congruence.
  - intros Hlt. destruct (Z.eq_dec field 0) as [E | E]; [exact E | exfalso].
    destruct (Hpub E). lia.
  - intros Hf. now destruct (Hpub Hf).
  - assert (Hf : field <> 0).
    { destruct H as [H | H]; [eapply inv_install; eauto |].
      destruct (inv_follower _ _ _ Hr c l Hc Ha Hm H) as [Hx Hy]. subst field.
      congruence. }
    now destruct (Hpub Hf).
  - destruct H as [H | H]; [eapply inv_install; eauto |].
    destruct (inv_follower _ _ _ Hr c l Hc Ha Hm H) as [Hx Hy]. subst field.
    congruence.
  - destruct (inv_follower _ _ _ Hr c l Hc Ha Hm H) as [Hx Hy].
    rewrite Hx. fold field. apply Hpub. fold field in Hx. congruence.
  - now destruct (inv_follower _ _ _ Hr c l Hc Ha Hm H).
Qed.

Lemma follower_installs_published_pte_witness :
  let cfg := Config [VmConfig 3 2 []] in
  let pf := Platform 0 true (fun c => 4096 + Z.of_nat c) in
  let s := boot_run cfg pf (round_robin 4 12) (boot_init 4) in
  exists l, cpus s !! 1%nat = Some l
            /\ l_pte l = mapped_pte pf 0 /\ l_pte l <> 0.
Proof.
  cbv zeta.
  set (cfg := Config [VmConfig 3 2 []]).
  set (pf := Platform 0 true (fun c => 4096 + Z.of_nat c)).
  set (s := boot_run cfg pf (round_robin 4 12) (boot_init 4)).
  set (l := CpuState PcCreateVms false true 0 4096
              [EvArchInit; EvPteInstall 4096; EvIpcInit (Some 0%nat) false]).
  assert (Hl : cpus s !! 1%nat = Some l) by (vm_compute; reflexivity).
  exists l. split; [exact Hl |].
  destruct (follower_installs_published_pte cfg pf 4 s 1 l)
    as (m & lm & Hcm & Hmm & Hvm & Hone & _ & _ & _ & _ & Hinst).
  - intros m. cbn. lia.
  - now exists (round_robin 4 12).
  - exact Hl.
  - reflexivity.
  - reflexivity.
  - assert (m = 0%nat) as ->.
    { symmetry. apply Hone. exists (CpuState PcCreateVms true true 0 4096
        [EvArchInit; EvIommuInit; EvPartitionInit 2; EvTableFree;
         EvIpcInit (Some 0%nat) true]).
      repeat split; vm_compute; reflexivity. }
    apply Hinst. vm_compute. lia.
Defined.

(** C8.  A CPU without an assignment ends in [cpu_idle], not in an error.
    With no VM in the configuration the assignment table is never
    allocated, a CPU is at the entry of [vmm_init] or idle, and its first
    step takes it to [cpu_idle] having called nothing else.  A CPU that
    claimed no VM in either pass is at the third or fourth barrier, behind
    it or idle; it never runs the partition bootstrap nor the tree
    builder, and its steps lead through the barriers, once they open, and
    through [ipc_init] to [cpu_idle].  [ERROR] is entered only by the
    global master when the assignment table cannot be allocated. *)
Theorem unassigned_cpu_idles (cfg : config) (pf : platform) (ncpu : nat)
    (s : boot_state) (c : nat) (l : cpu_state) :
  boot_reachable cfg pf ncpu s -> cpus s !! c = Some l ->
  let l' := (cpu_step cfg pf c (table s) (cpus s) l).2 in
  (vmlist_size cfg = 0%nat ->
     table s = []
     /\ (pc l = PcStart \/ pc l = PcIdle)
     /\ pc l' = PcIdle
     /\ forall ev, In ev (l_trace l') -> ev = EvIdle \/ ev = EvInfoNoVms)
  /\ (l_assigned l = false -> (5 <= phase (pc l))%nat ->
     (pc l = PcBarrier3 \/ pc l = PcBarrier4 \/ pc l = PcTail \/ pc l = PcIdle)
     /\ l_assigned l' = false
     /\ (forall ev, In ev (l_trace l') -> ~ boot_activity ev)
     /\ (pc l = PcBarrier3 -> all_arrived 5 (cpus s) = true ->
         pc l' = PcBarrier4)
     /\ (pc l = PcBarrier4 -> all_arrived 7 (cpus s) = true -> pc l' = PcTail)
     /\ (pc l = PcTail ->
         pc l' = PcIdle /\ last (l_trace l') = Some EvIdle)
     /\ (pc l = PcIdle -> l' = l))
  /\ (pc l = PcError -> c = CPU_MASTER pf /\ table_alloc_ok pf = false)
  /\ (pc l' = PcError -> c = CPU_MASTER pf /\ table_alloc_ok pf = false).
Proof.
  intros Hr Hc l'.
  assert (Hr' : boot_reachable cfg pf ncpu (boot_step cfg pf c s)).
  { destruct Hr as [sched ->]. exists (sched ++ [c]).
    clear Hc l'. generalize (boot_init ncpu).
    induction sched as [|x rest IH]; intros s0; cbn; auto. }
  apply boot_reachable_inv in Hr, Hr'.
  pose proof (inv_cpu _ _ _ Hr c l Hc) as Hok.
  assert (Hok' : cpu_ok cfg pf c l').
  { apply (inv_cpu _ _ _ Hr' c l'). unfold boot_step. rewrite Hc.
    subst l'. destruct (cpu_step cfg pf c (table s) (cpus s) l) as [tbl' l1].
    cbn [cpus snd]. now apply (lookup_upd_eq _ _ l). }
  split; [| split; [| split]].
  - intros HN.
    assert (Ht : table s = []).
    { destruct (inv_size _ _ _ Hr) as [E | E]; [exact E |].
      rewrite HN in E. now destruct (table s). }
    assert (Hpc : pc l = PcStart \/ pc l = PcIdle).
    { destruct (ok_novms _ _ _ _ Hok HN) as [[H _] | [H _]]; auto. }
    assert (Hpc' : pc l' = PcIdle).
    { subst l'. unfold cpu_step. destruct Hpc as [H | H]; rewrite H;
        [rewrite HN; reflexivity | exact H]. }
    repeat split; auto.
    destruct (ok_novms _ _ _ _ Hok' HN) as [[H _] | [_ H]]; [congruence | exact H].
  - intros Hna Hph.
    assert (Hpc : pc l = PcBarrier3 \/ pc l = PcBarrier4 \/ pc l = PcTail
                  \/ pc l = PcIdle).
    { destruct Hok. destruct (pc l) eqn:E; cbn in Hph; try lia; auto;
        exfalso.
      - destruct ok_publish0; congruence.
      - destruct ok_follow0; auto; congruence.
      - destruct ok_follow0; auto; congruence.
      - rewrite ok_run0 in Hna; auto; discriminate.
      - rewrite ok_run0 in Hna; auto; discriminate. }
    assert (Hna' : l_assigned l' = false).
    { subst l'. unfold cpu_step.
      destruct Hpc as [H | [H | [H | H]]]; rewrite H; rewrite ?Hna;
        repeat match goal with |- context [if ?b then _ else _] =>
                 destruct b end; cbn; exact Hna. }
    repeat split; auto.
    + intros ev Hin Hact.
      rewrite (ok_trace _ _ _ _ Hok' ev Hin Hact) in Hna'. discriminate.
    + intros H Hb. subst l'. unfold cpu_step. rewrite H, Hb, Hna. reflexivity.
    + intros H Hb. subst l'. unfold cpu_step. rewrite H, Hb. reflexivity.
    + subst l'. unfold cpu_step. rewrite H, Hna. reflexivity.
    + subst l'. unfold cpu_step. rewrite H, Hna. cbn.
      rewrite app_assoc.
      change [EvIpcInit None (l_master l); EvIdle]
        with ([EvIpcInit None (l_master l)] ++ [EvIdle]).
      rewrite app_assoc. apply last_snoc.
    + intros H. subst l'. unfold cpu_step. rewrite H. reflexivity.
  - intros H. destruct (ok_error _ _ _ _ Hok H) as (? & ? & _). auto.
  - intros H. destruct (ok_error _ _ _ _ Hok' H) as (? & ? & _). auto.
Qed.

Lemma unassigned_cpu_idles_witness :
  let cfg := Config [VmConfig 3 2 []] in
  let pf := Platform 0 true (fun c => 4096 + Z.of_nat c) in
  let s := boot_run cfg pf (round_robin 4 10) (boot_init 4) in
  exists l, cpus s !! 3%nat = Some l
            /\ pc l = PcTail
            /\ pc (cpu_step cfg pf 3 (table s) (cpus s) l).2 = PcIdle.
Proof.
  cbv zeta.
  set (cfg := Config [VmConfig 3 2 []]).
  set (pf := Platform 0 true (fun c => 4096 + Z.of_nat c)).
  set (s := boot_run cfg pf (round_robin 4 10) (boot_init 4)).
  set (l := CpuState PcTail false false 0 0 [EvArchInit]).
  assert (Hl : cpus s !! 3%nat = Some l) by (vm_compute; reflexivity).
  exists l. split; [exact Hl |]. split; [reflexivity |].
  destruct (unassigned_cpu_idles cfg pf 4 s 3 l) as (_ & Hun & _).
  - now exists (round_robin 4 10).
  - exact Hl.
  - destruct Hun as (_ & _ & _ & _ & _ & Htail & _).
    + reflexivity.
    + cbn. lia.
    + now apply Htail.
Defined.

(* ================================================================== *)
(** * 15. Dynamic VM manager *)
(* ================================================================== *)

Section DynamicManager.

Variable vm : nat.

Definition refers (n : node_data) : bool := (vcpu_vm (snd n) =? vm)%nat.

Lemma filter_all {A : Type} (f : A -> bool) (l : list A) :
  (forall x, In x l -> f x = true) -> List.filter f l = l.
Proof.
  induction l as [|a l IH]; intros H; simpl; [reflexivity |].
  rewrite (H a (or_introl eq_refl)). f_equal. apply IH.
  intros x Hx. apply H. now right.
Qed.

Lemma filter_none {A : Type} (f : A -> bool) (l : list A) :
  (forall x, In x l -> f x = false) -> List.filter f l = [].
Proof.
  induction l as [|a l IH]; intros H; simpl; [reflexivity |].
  rewrite (H a (or_introl eq_refl)). apply IH.
  intros x Hx. apply H. now right.
Qed.

Lemma refs_to_app (l1 l2 : list node_data) :
  refs_to vm (l1 ++ l2) = (refs_to vm l1 + refs_to vm l2)%nat.
Proof. unfold refs_to. now rewrite List.filter_app, length_app. Qed.

Lemma refs_to_cons (n : node_data) (l : list node_data) :
  refs_to vm (n :: l)
  = ((if refers n then 1 else 0) + refs_to vm l)%nat.
Proof.
  unfold refs_to, refers. cbn [List.filter].
  now destruct (vcpu_vm n.2 =? vm)%nat.
Qed.

(** The loop over nodes none of which refers to the VM changes nothing. *)
Lemma destroy_scan_none (todo l : list node_data) (oc : objcache) :
  refs_to vm todo = 0%nat -> destroy_scan vm todo l oc = (l, oc).
Proof.
  induction todo as [|n todo IH]; intros Hz; [reflexivity |].
  rewrite refs_to_cons in Hz. cbn [destroy_scan]. unfold refers in Hz.
  destruct (vcpu_vm (snd n) =? vm)%nat; [discriminate Hz |].
  now apply IH.
Qed.

(** The loop unlinks and frees the first node that refers to the VM. *)
Lemma destroy_scan_first (l1 l2 l : list node_data) (n : node_data)
    (oc : objcache) :
  refs_to vm l1 = 0%nat -> vcpu_vm (snd n) = vm ->
  destroy_scan vm (l1 ++ n :: l2) l oc
  = (list_rm l (fst n), objcache_free oc (fst n)).
Proof.
  intros Hnone Hn. induction l1 as [|x l1 IH]; cbn [app destroy_scan].
  - now rewrite Hn, Nat.eqb_refl.
  - rewrite refs_to_cons in Hnone. unfold refers in Hnone.
    destruct (vcpu_vm x.2 =? vm)%nat; [discriminate | now apply IH].
Qed.

(** A list with a node that refers to the VM has a first such node. *)
Lemma first_ref (l : list node_data) :
  refs_to vm l <> 0%nat ->
  exists l1 n l2, l = l1 ++ n :: l2 /\ refs_to vm l1 = 0%nat
                  /\ vcpu_vm (snd n) = vm.
Proof.
  induction l as [|x l IH]; intros Hne; [now contradict Hne |].
  destruct (vcpu_vm x.2 =? vm)%nat eqn:E.
  - exists [], x, l. repeat split. now apply Nat.eqb_eq.
  - rewrite refs_to_cons in Hne. unfold refers in Hne. rewrite E in Hne.
    destruct (IH Hne) as (l1 & n & l2 & -> & Hz & Hn).
    exists (x :: l1), n, l2. repeat split; [| exact Hn].
    rewrite refs_to_cons. unfold refers. now rewrite E.
Qed.

(** The loop frees one node if some node refers to the VM, and none
    otherwise. *)
Lemma destroy_scan_free (todo l : list node_data) (oc : objcache) :
  free_slots (destroy_scan vm todo l oc).2
  = (free_slots oc + Nat.min 1 (refs_to vm todo))%nat.
Proof.
  destruct (Nat.eq_dec (refs_to vm todo) 0%nat) as [Hz | Hnz].
  - rewrite destroy_scan_none by exact Hz. rewrite Hz. cbn. lia.
  - destruct (first_ref todo Hnz) as (l1 & n & l2 & -> & Hz & Hn).
    rewrite destroy_scan_first by assumption.
    rewrite refs_to_app, Hz, refs_to_cons. unfold refers.
    rewrite Hn, Nat.eqb_refl. unfold free_slots, objcache_free. cbn. lia.
Qed.

(** Unlinking a node by its address, the addresses before it being other
    ones. *)
Lemma list_rm_middle (l1 l2 : list node_data) (n : node_data) :
  ~ In (fst n) (map fst l1) -> list_rm (l1 ++ n :: l2) (fst n) = l1 ++ l2.
Proof.
  induction l1 as [|x l1 IH]; intros Hnin; cbn [app list_rm].
  - now rewrite Nat.eqb_refl.
  - destruct (fst x =? fst n)%nat eqn:E.
    + apply Nat.eqb_eq in E. exfalso. apply Hnin. now left.
    + f_equal. apply IH. intros H. apply Hnin. now right.
Qed.

(** The loop over a list whose only node referring to the VM is the
    last one. *)
Lemma destroy_scan_fresh (l l0 : list node_data) (slot : nat) (child : vcpu)
    (oc : objcache) :
  refs_to vm l = 0%nat -> vcpu_vm child = vm ->
  destroy_scan vm (l ++ [(slot, child)]) l0 oc
  = (list_rm l0 slot, objcache_free oc slot).
Proof.
  intros Hnone Hchild.
  now apply (destroy_scan_first l [] l0 (slot, child) oc).
Qed.

End DynamicManager.

(** C10, as the code has it.  [vmm_destroy_dynamic] tears the VM down,
    zeroes its struct pages and releases them whatever the child list of
    the calling virtual CPU holds, also when no node refers to the VM:
    then the list and the pool stay as they are.  When nodes of the list
    refer to the VM it unlinks and frees the first of them, and that one
    only: the nodes after it that refer to the VM stay on the list.  The
    lists of the other CPUs are not touched. *)
Theorem destroy_dynamic_unconditional (c vm : nat) (st : hyp_state) :
  let st' := vmm_destroy_dynamic c vm st in
  events st' = events st ++ [EvVmDestroyDynamic vm; EvZeroVm vm; EvFreeVm vm]
  /\ ~ In vm (vm_structs st')
  /\ free_slots (nodes (part st'))
     = (free_slots (nodes (part st))
        + Nat.min 1 (refs_to vm (cpu_children st c)))%nat
  /\ (refs_to vm (cpu_children st c) = 0%nat ->
      cpu_children st' c = cpu_children st c
      /\ nodes (part st') = nodes (part st))
  /\ (forall l1 n l2,
        cpu_children st c = l1 ++ n :: l2 ->
        refs_to vm l1 = 0%nat -> vcpu_vm (snd n) = vm ->
        ~ In (fst n) (map fst l1) ->
        cpu_children st' c = l1 ++ l2
        /\ nodes (part st') = objcache_free (nodes (part st)) (fst n)
        /\ refs_to vm (cpu_children st' c) = refs_to vm l2)
  /\ (forall c', c' <> c -> cpu_children st' c' = cpu_children st c').
Proof.
  intros st'. subst st'. unfold vmm_destroy_dynamic.
  pose proof (destroy_scan_free vm (cpu_children st c) (cpu_children st c)
                (nodes (part st))) as Hfree.
  pose proof (destroy_scan_none vm (cpu_children st c) (cpu_children st c)
                (nodes (part st))) as Hnone.
  assert (Hfirst : forall l1 n l2,
            cpu_children st c = l1 ++ n :: l2 ->
            refs_to vm l1 = 0%nat -> vcpu_vm (snd n) = vm ->
            destroy_scan vm (cpu_children st c) (cpu_children st c)
                         (nodes (part st))
            = (list_rm (cpu_children st c) (fst n),
               objcache_free (nodes (part st)) (fst n))).
  { intros l1 n l2 Hl Hz Hn. rewrite Hl at 1. now apply destroy_scan_first. }
  destruct (destroy_scan vm (cpu_children st c) (cpu_children st c)
              (nodes (part st))) as [l oc].
  cbn [fst snd] in *. unfold vmm_free_vm_struct.
  cbn [events vm_structs part nodes cpu_children].
  split; [now rewrite <- app_assoc |].
  split.
  { intros Hin. apply List.filter_In in Hin as [_ Hne].
    now rewrite Nat.eqb_refl in Hne. }
  split; [exact Hfree |].
  split.
  { intros Hz. specialize (Hnone Hz). inversion Hnone; subst.
    now rewrite upd_same. }
  split.
  { intros l1 n l2 Hl Hz Hn Hnin.
    specialize (Hfirst l1 n l2 Hl Hz Hn). inversion Hfirst; subst l oc.
    rewrite upd_same, Hl, list_rm_middle by exact Hnin.
    repeat split. now rewrite refs_to_app, Hz. }
  intros c' Hne. now rewrite upd_other.
Qed.

Lemma destroy_dynamic_unconditional_witness :
  let v := fun vm => Vcpu vm 0 [] in
  let st := HypState (Partition 0 0 0 (ObjCache [5]%nat) false) 3 [7; 8]%nat
              (fun _ => [(1, v 8); (2, v 7); (3, v 7)]%nat) [] 0 in
  let st' := vmm_destroy_dynamic 0 7 st in
  (refs_to 7 [(1, v 8)]%nat = 0%nat /\ vcpu_vm (v 7%nat) = 7%nat
   /\ ~ In 2%nat (map fst [(1, v 8)]%nat))
  /\ oc_free (nodes (part st')) = [2; 5]%nat
  /\ cpu_children st' 0%nat = [(1, v 8); (3, v 7)]%nat
  /\ nodes (part st') = objcache_free (nodes (part st)) 2
  /\ refs_to 7 (cpu_children st' 0%nat) = refs_to 7 [(3, v 7)]%nat.
Proof.
  cbv zeta.
  assert (Hnin : ~ In 2%nat (map fst [(1%nat, Vcpu 8 0 [])])).
  { cbn. intros [H | []]. discriminate H. }
  split; [split; [reflexivity | split; [reflexivity | exact Hnin]] |].
  split; [reflexivity |].
  pose proof (destroy_dynamic_unconditional 0 7
                (HypState (Partition 0 0 0 (ObjCache [5]%nat) false) 3
                   [7; 8]%nat
                   (fun _ => [(1, Vcpu 8 0 []); (2, Vcpu 7 0 []);
                              (3, Vcpu 7 0 [])]%nat) [] 0)) as H.
  cbv zeta in H. destruct H as (_ & _ & _ & _ & Hfirst & _).
  exact (Hfirst [(1, Vcpu 8 0 [])]%nat (2, Vcpu 7 0 [])%nat
           [(3, Vcpu 7 0 [])]%nat eq_refl eq_refl eq_refl Hnin).
Defined.

(** C10 as stated fails where the list holds several nodes that refer to
    the VM.  CPU 0 creates a dynamic VM; CPU 1 destroys it, which releases
    the struct and leaves the node on the list of CPU 0; CPU 0 creates a
    dynamic VM again and gets the struct at the same address: its list
    holds two nodes that refer to it.  [vmm_destroy_dynamic] on CPU 0 frees
    one node and leaves the other on the list. *)
Lemma destroy_leaves_second_node :
  let st := hyp_init 0 [10; 11; 12]%nat in
  exists vm st1 st3,
    vmm_init_dynamic env_in_order 0 st = Some (vm, st1)
    /\ vmm_init_dynamic env_in_order 0 (vmm_destroy_dynamic 1 vm st1)
       = Some (vm, st3)
    /\ cpu_children st3 0%nat = [(10, Vcpu vm 0 []); (11, Vcpu vm 0 [])]%nat
    /\ refs_to vm (cpu_children st3 0%nat) = 2%nat
    /\ cpu_children (vmm_destroy_dynamic 0 vm st3) 0%nat
       = [(11%nat, Vcpu vm 0 [])]
    /\ refs_to vm (cpu_children (vmm_destroy_dynamic 0 vm st3) 0%nat) = 1%nat
    /\ free_slots (nodes (part (vmm_destroy_dynamic 0 vm st3)))
       = (free_slots (nodes (part st3)) + 1)%nat.
Proof.
  cbv zeta. eexists _, _, _.
  split; [lazy; reflexivity |]. split; [lazy; reflexivity |].
  lazy. repeat split.
Qed.

(** C7, as the code has it.  When [vmm_init_dynamic] returns a VM it took
    one node from the pool and pushed it on the child list of the calling
    CPU, and [vmm_destroy_dynamic] on that VM from the same CPU frees one
    node: the count of free slots is as it was before the create, from
    every starting state.  The node it unlinks and frees is the first node
    of the list that refers to the VM.  It is the node that the create
    allocated when no older node of the list refers to the VM (as when
    [mem_alloc_vpage] returns pages that are not in use and every node
    refers to a VM whose struct is allocated) and the address of the new
    node is not on the list: then the list and the pool are as before the
    create. *)
Theorem create_destroy_restores_pool (env : environment) (c : nat)
    (st st1 : hyp_state) (vm : nat) :
  vmm_init_dynamic env c st = Some (vm, st1) ->
  let st2 := vmm_destroy_dynamic c vm st1 in
  (free_slots (nodes (part st1)) + 1)%nat = free_slots (nodes (part st))
  /\ free_slots (nodes (part st2)) = free_slots (nodes (part st))
  /\ (exists slot,
        objcache_alloc (nodes (part st)) = Some (slot, nodes (part st1))
        /\ cpu_children st1 c = cpu_children st c ++ [(slot, Vcpu vm c [])]
        /\ (refs_to vm (cpu_children st c) = 0%nat ->
            ~ In slot (map fst (cpu_children st c)) ->
            cpu_children st2 c = cpu_children st c
            /\ nodes (part st2) = nodes (part st)))
  /\ ((forall l, ~ In (vm_page env l) l) ->
      Forall (fun n => In (vcpu_vm (snd n)) (vm_structs st))
             (cpu_children st c) ->
      refs_to vm (cpu_children st c) = 0%nat).
Proof.
  intros Hcreate st2.
  unfold vmm_init_dynamic, vmm_alloc_vm_struct in Hcreate.
  cbn [part vmid_counter vm_structs cpu_children events ticks] in Hcreate.
  unfold objcache_alloc in Hcreate.
  destruct (oc_free (nodes (part st))) as [|slot rest] eqn:Hpool;
    [discriminate |].
  inversion Hcreate; subst vm st1; clear Hcreate.
  set (vm := vm_page env (vm_structs st)) in *.
  assert (Hnew : refs_to vm (list_push (cpu_children st c)
                                       (slot, Vcpu vm c [])) <> 0%nat).
  { unfold list_push. rewrite refs_to_app, refs_to_cons. unfold refers.
    cbn [snd vcpu_vm]. rewrite Nat.eqb_refl. lia. }
  pose proof (destroy_scan_free vm
                (list_push (cpu_children st c) (slot, Vcpu vm c []))
                (list_push (cpu_children st c) (slot, Vcpu vm c []))
                (ObjCache rest)) as Hfree.
  assert (Hscan : refs_to vm (cpu_children st c) = 0%nat ->
            destroy_scan vm
              (list_push (cpu_children st c) (slot, Vcpu vm c []))
              (list_push (cpu_children st c) (slot, Vcpu vm c []))
              (ObjCache rest)
            = (list_rm (list_push (cpu_children st c) (slot, Vcpu vm c []))
                       slot,
               ObjCache (slot :: rest))).
  { intros Hold. unfold list_push at 1. now apply destroy_scan_fresh. }
  subst st2. unfold vmm_destroy_dynamic, vmm_free_vm_struct.
  cbn [part vmid_counter vm_structs cpu_children events ticks nodes
       part_master curr_vm init_ncpus reset_ahead].
  rewrite upd_same.
  destruct (destroy_scan vm
              (list_push (cpu_children st c) (slot, Vcpu vm c []))
              (list_push (cpu_children st c) (slot, Vcpu vm c []))
              (ObjCache rest)) as [l oc].
  cbn [fst snd part nodes cpu_children] in *.
  unfold objcache_alloc. rewrite Hpool.
  unfold free_slots in *. cbn [oc_free length] in *.
  split; [rewrite Hpool; cbn [length]; lia |].
  split; [rewrite Hpool; cbn [length]; lia |].
  split.
  - exists slot. split; [reflexivity |]. split; [reflexivity |].
    intros Hold Hnin. specialize (Hscan Hold). inversion Hscan; subst l oc.
    rewrite upd_same. split.
    + unfold list_push.
      pose proof (list_rm_middle (cpu_children st c) []
                    (slot, Vcpu vm c []) Hnin) as Hrm.
      cbn [fst] in Hrm. rewrite Hrm. apply app_nil_r.
    + destruct (nodes (part st)) as [fr]. cbn in Hpool. now subst fr.
  - intros Hfresh Hlive. unfold refs_to.
    rewrite List.Forall_forall in Hlive.
    rewrite filter_none; [reflexivity |].
    intros x Hx. apply Nat.eqb_neq. intros E.
    apply (Hfresh (vm_structs st)). fold vm. rewrite <- E. now apply Hlive.
Qed.

Lemma create_destroy_restores_pool_witness :
  let v := fun vm => Vcpu vm 0 [] in
  let st := HypState (Partition 0 0 0 (ObjCache [5; 6]%nat) false) 3
              [7; 8]%nat (fun _ => [(1, v 7); (2, v 8)]%nat) [] 0 in
  exists vm st1,
    vmm_init_dynamic env_in_order 0 st = Some (vm, st1)
    /\ free_slots (nodes (part st1)) = 1%nat
    /\ free_slots (nodes (part (vmm_destroy_dynamic 0 vm st1))) = 2%nat
    /\ cpu_children (vmm_destroy_dynamic 0 vm st1) 0%nat
       = cpu_children st 0%nat
    /\ nodes (part (vmm_destroy_dynamic 0 vm st1)) = nodes (part st).
Proof.
  cbv zeta.
  set (v := fun vm => Vcpu vm 0 []).
  set (st := HypState (Partition 0 0 0 (ObjCache [5; 6]%nat) false) 3
               [7; 8]%nat (fun _ => [(1, v 7); (2, v 8)]%nat) [] 0).
  destruct (vmm_init_dynamic env_in_order 0 st) as [[vm st1]|] eqn:Hc;
    [| vm_compute in Hc; discriminate Hc].
  exists vm, st1. split; [reflexivity |].
  destruct (create_destroy_restores_pool env_in_order 0 st st1 vm Hc)
    as (Hone & Hcount & (slot & Hslot & Hpush & Hsame) & _).
  assert (Hvm : vm = 9%nat) by (vm_compute in Hc; congruence).
  assert (Hs : slot = 5%nat) by (vm_compute in Hslot; congruence).
  subst vm slot.
  destruct Hsame as [Hlist Hpool].
  - reflexivity.
  - cbn. intros [H | [H | []]]; discriminate H.
  - split; [| split; [exact Hcount | split; [exact Hlist | exact Hpool]]].
    change (free_slots (nodes (part st))) with 2%nat in Hone. lia.
Defined.

(** C7 as stated fails for the node that is removed.  CPU 0 creates a
    dynamic VM and CPU 1 destroys it: the struct is released and the node
    stays on the list of CPU 0.  From this state, CPU 0 creates a dynamic
    VM, which gets the struct at the same address and a new node, and
    destroys it: the count of free slots is as before the create, but the
    node that was unlinked and freed is the old one; the node that the
    create allocated is on the list, referring to the released struct, and
    the pool holds another slot than before. *)
Lemma destroy_frees_an_older_node :
  let st0 := hyp_init 0 [10; 11; 12]%nat in
  exists vm st1 st3,
    vmm_init_dynamic env_in_order 0 st0 = Some (vm, st1)
    /\ let st := vmm_destroy_dynamic 1 vm st1 in
       let st4 := vmm_destroy_dynamic 0 vm st3 in
       vmm_init_dynamic env_in_order 0 st = Some (vm, st3)
       /\ cpu_children st 0%nat = [(10%nat, Vcpu vm 0 [])]
       /\ oc_free (nodes (part st)) = [11; 12]%nat
       /\ oc_free (nodes (part st3)) = [12]%nat
       /\ cpu_children st4 0%nat = [(11%nat, Vcpu vm 0 [])]
       /\ oc_free (nodes (part st4)) = [10; 12]%nat
       /\ free_slots (nodes (part st4)) = free_slots (nodes (part st))
       /\ nodes (part st4) <> nodes (part st)
       /\ cpu_children st4 0%nat <> cpu_children st 0%nat
       /\ ~ In vm (vm_structs st4).
Proof.
  cbv zeta. eexists _, _, _.
  split; [lazy; reflexivity |]. split; [lazy; reflexivity |].
  lazy. repeat split; try discriminate. intros [].
Qed.

(* ================================================================== *)
(** * 16. The VM tree builder: structure of a run *)
(* ================================================================== *)

(** Induction on configuration trees. *)
Lemma vm_config_tree_ind (P : vm_config -> Prop) :
  (forall a n kids, List.Forall P kids -> P (VmConfig a n kids)) ->
  forall vc, P vc.
Proof.
  intros H. fix IH 1. intros [a n kids]. apply H.
  induction kids as [|k kids IHk]; constructor; [apply IH | exact IHk].
Qed.

Section TreeBuilderSteps.

Variable env : environment.

Lemma level_enter_events (vc : vm_config) (nested : bool)
    (cohort : list nat) (st : hyp_state) :
  let st1 := level_enter env vc nested cohort st in
  let pm := part_master (part st) in
  events st1
  = events st ++ map (fun c => EvEnter c vc nested) cohort
    ++ (if existsb (fun c => (c =? pm)%nat) cohort
        then [EvAllocVm pm (curr_vm (part st1))] else [])
  /\ part_master (part st1) = pm
  /\ nodes (part st1) = nodes (part st)
  /\ (existsb (fun c => (c =? pm)%nat) cohort = true ->
      init_ncpus (part st1)
      = (if reset_ahead (part st) then init_ncpus (part st) else 0)
      /\ reset_ahead (part st1) = false)
  /\ (existsb (fun c => (c =? pm)%nat) cohort = false ->
      part st1 = part st).
Proof.
  unfold level_enter, log, vmm_alloc_vm_struct, set_part.
  cbn [part events part_master fst snd].
  destruct (existsb _ cohort); cbn; repeat split; auto; try discriminate.
  - now rewrite <- app_assoc.
  - now rewrite app_nil_r.
Qed.

(** The calls of [vm_init] of a level. *)
Lemma level_vm_init_events (vc : vm_config) (vm : nat) (ks : nat -> claim)
    (team : list nat) :
  forall st, exists evs,
    events (level_vm_init vc vm ks team st) = events st ++ evs
    /\ part (level_vm_init vc vm ks team st) = part st
    /\ (forall ev, In ev evs ->
          exists c id, In c team /\ ev = EvVmInit c vm vc (master (ks c)) id)
    /\ (forall c, In c team ->
          exists id, In (EvVmInit c vm vc (master (ks c)) id) evs)
    /\ count_events is_alloc evs = 0%nat
    /\ count_events is_push evs = 0%nat
    /\ count_events is_master_init evs
       = length (List.filter (fun c => master (ks c)) team).
Proof.
  induction team as [|c rest IH]; intros st; cbn [level_vm_init].
  - exists []. rewrite app_nil_r. repeat split; auto; intros ? [].
  - destruct (master (ks c)) eqn:Hm.
    + unfold vmm_alloc_vmid.
      destruct (IH (HypState (part st) (incr64 (vmid_counter st))
                      (vm_structs st) (cpu_children st)
                      (events st ++
                       [EvVmInit c vm vc true (incr64 (vmid_counter st))])
                      (ticks st)))
        as (evs & He & Hp & Hin & Hall & Ha & Hpu & Hmi).
      exists (EvVmInit c vm vc true (incr64 (vmid_counter st)) :: evs).
      cbn [events part] in He, Hp. rewrite He, Hp, <- app_assoc.
      repeat split; auto.
      * intros ev [<- | Hev].
        -- exists c, (incr64 (vmid_counter st)). rewrite Hm. auto with datatypes.
        -- destruct (Hin ev Hev) as (c' & id & Hc' & ->).
           exists c', id. auto with datatypes.
      * intros c' [<- | Hc'].
        -- exists (incr64 (vmid_counter st)). rewrite Hm. now left.
        -- destruct (Hall c' Hc') as [id Hid]. exists id. now right.
      * unfold count_events in *. cbn. rewrite Hm. cbn. now rewrite Hmi.
    + destruct (IH (log [EvVmInit c vm vc false NO_VMID] st))
        as (evs & He & Hp & Hin & Hall & Ha & Hpu & Hmi).
      exists (EvVmInit c vm vc false NO_VMID :: evs).
      cbn [log events part] in He, Hp. rewrite He, Hp, <- app_assoc.
      repeat split; auto.
      * intros ev [<- | Hev].
        -- exists c, NO_VMID. rewrite Hm. auto with datatypes.
        -- destruct (Hin ev Hev) as (c' & id & Hc' & ->).
           exists c', id. auto with datatypes.
      * intros c' [<- | Hc'].
        -- exists NO_VMID. rewrite Hm. now left.
        -- destruct (Hall c' Hc') as [id Hid]. exists id. now right.
      * unfold count_events in *. cbn. rewrite Hm. exact Hmi.
Qed.

(** The nodes pushed after a child's construction. *)
Lemma record_children_events (vm : nat) (rs : list (nat * option vcpu)) :
  forall lists st lists' st',
    record_children vm rs lists st = Some (lists', st') ->
    exists evs,
      events st' = events st ++ evs
      /\ part_master (part st') = part_master (part st)
      /\ (forall ev, In ev evs ->
            exists c child slot,
              In (c, Some child) rs
              /\ ev = EvListPush c vm slot (vcpu_vm child))
      /\ (forall c child, In (c, Some child) rs ->
            exists slot, In (EvListPush c vm slot (vcpu_vm child)) evs).
Proof.
  induction rs as [|[c [child|]] rest IH]; intros lists st lists' st' H;
    cbn [record_children] in H.
  - inversion H; subst. exists []. rewrite app_nil_r.
    repeat split; auto; intros; contradiction.
  - destruct (objcache_alloc (nodes (part st))) as [[slot oc]|]; [| discriminate].
    apply IH in H as (evs & He & Hp & Hin & Hall).
    cbn [log set_part events part part_master] in He, Hp.
    exists (EvListPush c vm slot (vcpu_vm child) :: evs).
    rewrite He, <- app_assoc. repeat split; auto.
    + intros ev [<- | Hev].
      * exists c, child, slot. auto with datatypes.
      * destruct (Hin ev Hev) as (c' & ch & sl & Hc' & ->).
        exists c', ch, sl. auto with datatypes.
    + intros c' ch [Heq | Hc'].
      * inversion Heq; subst. exists slot. now left.
      * destruct (Hall _ _ Hc') as [sl Hsl]. exists sl. now right.
  - apply IH in H as (evs & He & Hp & Hin & Hall).
    exists evs. repeat split; auto.
    + intros ev Hev. destruct (Hin ev Hev) as (c' & ch & sl & Hc' & ->).
      exists c', ch, sl. auto with datatypes.
    + intros c' ch [Heq | Hc']; [discriminate Heq | eauto].
Qed.

(** What a CPU finds in its list after the nodes were pushed: its old
    list, and behind it nodes whose virtual CPUs the calls returned to it. *)
Lemma record_children_lists (vm : nat) (rs : list (nat * option vcpu)) :
  forall lists st lists' st',
    record_children vm rs lists st = Some (lists', st') ->
    forall c, exists added,
      lists' c = lists c ++ added
      /\ Forall (fun n => In (c, Some (snd n)) rs) added.
Proof.
  induction rs as [|[c0 [child|]] rest IH]; intros lists st lists' st' H c;
    cbn [record_children] in H.
  - inversion H; subst. exists []. now rewrite app_nil_r.
  - destruct (objcache_alloc (nodes (part st))) as [[slot oc]|]; [| discriminate].
    destruct (IH _ _ _ _ H c) as (added & Hl & Hall).
    destruct (decide (c = c0)) as [-> | Hne].
    + rewrite upd_same in Hl. unfold list_push in Hl.
      exists ((slot, child) :: added). rewrite Hl, <- app_assoc.
      split; [reflexivity |]. constructor; [now left |].
      eapply List.Forall_impl; [| exact Hall]. cbn. auto with datatypes.
    + rewrite upd_other in Hl by auto. exists added. split; [exact Hl |].
      eapply List.Forall_impl; [| exact Hall]. cbn. auto with datatypes.
  - destruct (IH _ _ _ _ H c) as (added & Hl & Hall).
    exists added. split; [exact Hl |].
    eapply List.Forall_impl; [| exact Hall]. cbn. auto with datatypes.
Qed.

End TreeBuilderSteps.

(* ================================================================== *)
(** * 17. Who iterates the child list and who appends the nodes *)
(* ================================================================== *)

(** The calls [evs] of a run of [vmm_create_vms config] by [cohort], with
    results [rs]. *)
Record run_roles (config : vm_config) (nested : bool) (cohort : list nat)
    (rs : list (nat * option vcpu)) (evs : list hyp_event) : Prop := RunRoles {
  rr_cpus : map fst rs = cohort;
  rr_enter : forall c, In c cohort -> In (EvEnter c config nested) evs;
  rr_cohort : forall ev, In ev evs ->
              exists c, In c cohort /\ event_cpu ev = Some c;
  rr_vcpu : forall c v, In (c, Some v) rs ->
            owned_by c v
            /\ exists m id, In (EvVmInit c (vcpu_vm v) config m id) evs;
  rr_iterate : forall c vm cfg m id kid,
               In (EvVmInit c vm cfg m id) evs -> In kid (children cfg) ->
               In (EvEnter c kid true) evs;
  rr_push : forall c pvm slot cvm,
            In (EvListPush c pvm slot cvm) evs ->
            (exists pcfg m id, In (EvVmInit c pvm pcfg m id) evs)
            /\ (exists ccfg m id, In (EvVmInit c cvm ccfg m id) evs);
  rr_appended : forall c cvm ccfg m id,
                In (EvVmInit c cvm ccfg m id) evs ->
                (exists v, In (c, Some v) rs /\ vcpu_vm v = cvm)
                \/ exists pvm slot, In (EvListPush c pvm slot cvm) evs;
  rr_idle : forall c, In (c, None) rs ->
            forall ev, In ev evs -> event_cpu ev = Some c ->
            ev = EvEnter c config nested \/ exists vm, ev = EvAllocVm c vm
}.

Section TreeBuilderRoles.

Variable env : environment.

Definition roles_hold (kid : vm_config) : Prop :=
  forall nested cohort st rs st',
    vmm_create_vms env kid nested cohort st = Some (rs, st') ->
    exists evs, events st' = events st ++ evs
                /\ run_roles kid nested cohort rs evs.

(** The calls of the loop over the children of a VM at address [vm], run
    by the CPUs of [team]. *)
Record loop_roles (vm : nat) (team : list nat) (kids : list vm_config)
    (lists lists' : nat -> list node_data) (evs : list hyp_event)
    : Prop := LoopRoles {
  lr_enter : forall kid c, In kid kids -> In c team ->
             In (EvEnter c kid true) evs;
  lr_team : forall ev, In ev evs ->
            exists c, In c team /\ event_cpu ev = Some c;
  lr_iterate : forall c vm' cfg m id kid,
               In (EvVmInit c vm' cfg m id) evs -> In kid (children cfg) ->
               In (EvEnter c kid true) evs;
  lr_push : forall c pvm slot cvm,
            In (EvListPush c pvm slot cvm) evs ->
            ((pvm = vm /\ In c team)
             \/ exists pcfg m id, In (EvVmInit c pvm pcfg m id) evs)
            /\ (exists ccfg m id, In (EvVmInit c cvm ccfg m id) evs);
  lr_appended : forall c cvm ccfg m id,
                In (EvVmInit c cvm ccfg m id) evs ->
                exists pvm slot, In (EvListPush c pvm slot cvm) evs;
  lr_lists : forall c, exists added,
             lists' c = lists c ++ added
             /\ Forall (fun n => owned_by c (snd n)) added
}.

Lemma children_loop_roles (vm : nat) (team : list nat)
    (kids : list vm_config) :
  List.Forall roles_hold kids ->
  forall lists st lists' st',
    children_loop (vmm_create_vms env) vm team kids lists st
    = Some (lists', st') ->
    exists evs, events st' = events st ++ evs
                /\ loop_roles vm team kids lists lists' evs.
Proof.
  induction 1 as [|kid rest Hkid _ IH]; intros lists st lists' st' Hrun;
    cbn [children_loop] in Hrun.
  - inversion Hrun; subst. exists []. rewrite app_nil_r. split; [reflexivity |].
    split; try (intros; contradiction).
    intros c. exists []. now rewrite app_nil_r.
  - destruct (vmm_create_vms env kid true team st) as [[rs st1]|] eqn:Hk;
      [| discriminate].
    destruct (record_children vm rs lists st1) as [[lists1 st2]|] eqn:Hrec;
      [| discriminate].
    destruct (Hkid _ _ _ _ _ Hk) as (e1 & He1 & R1).
    destruct (record_children_events vm rs _ _ _ _ Hrec)
      as (e2 & He2 & _ & Hp2 & Hall2).
    pose proof (record_children_lists vm rs _ _ _ _ Hrec) as Hl2.
    destruct (IH _ _ _ _ Hrun) as (e3 & He3 & R3).
    exists (e1 ++ e2 ++ e3). split.
    { rewrite He3, He2, He1. now rewrite <- !app_assoc. }
    destruct R1, R3.
    assert (Hteam : forall c child, In (c, Some child) rs -> In c team).
    { intros c child Hin. rewrite <- rr_cpus0.
      change c with (fst (c, Some child)). now apply in_map. }
    split.
    + intros k c [<- | Hk'] Hc.
      * apply in_or_app. left. auto.
      * apply in_or_app. right. apply in_or_app. right. eauto.
    + intros ev Hev. apply in_app_or in Hev as [Hev | Hev]; [eauto |].
      apply in_app_or in Hev as [Hev | Hev]; [| eauto].
      destruct (Hp2 ev Hev) as (c & child & slot & Hin & ->).
      exists c. split; [eapply Hteam; eauto | reflexivity].
    + intros c vm' cfg m id k Hev Hk'.
      apply in_app_or in Hev as [Hev | Hev].
      * apply in_or_app. left. eauto.
      * apply in_app_or in Hev as [Hev | Hev].
        -- destruct (Hp2 _ Hev) as (? & ? & ? & _ & Heq). discriminate Heq.
        -- apply in_or_app. right. apply in_or_app. right. eauto.
    + intros c pvm slot cvm Hev.
      apply in_app_or in Hev as [Hev | Hev].
      * destruct (rr_push0 _ _ _ _ Hev) as [(pc & m & id & H1) (cc & m' & id' & H2)].
        split; [right |]; do 3 eexists; apply in_or_app; left; eauto.
      * apply in_app_or in Hev as [Hev | Hev].
        -- destruct (Hp2 _ Hev) as (c' & child & sl & Hin & Heq).
           inversion Heq; subst. split; [left; split; eauto |].
           destruct (rr_vcpu0 _ _ Hin) as [_ (m & id & Hinit)].
           do 3 eexists. apply in_or_app. left. eauto.
        -- destruct (lr_push0 _ _ _ _ Hev) as [Hpar (cc & m' & id' & H2)].
           split.
           ++ destruct Hpar as [Hpar | (pc & m & id & H1)]; [now left | right].
              do 3 eexists. apply in_or_app. right. apply in_or_app. right.
              eauto.
           ++ do 3 eexists. apply in_or_app. right. apply in_or_app. right.
              eauto.
    + intros c cvm ccfg m id Hev.
      apply in_app_or in Hev as [Hev | Hev].
      * destruct (rr_appended0 _ _ _ _ _ Hev) as [(v & Hv & <-) | (pvm & sl & Hp)].
        -- destruct (Hall2 _ _ Hv) as [sl Hsl]. exists vm, sl.
           apply in_or_app. right. apply in_or_app. now left.
        -- exists pvm, sl. apply in_or_app. now left.
      * apply in_app_or in Hev as [Hev | Hev].
        -- destruct (Hp2 _ Hev) as (? & ? & ? & _ & Heq). discriminate Heq.
        -- destruct (lr_appended0 _ _ _ _ _ Hev) as (pvm & sl & Hp).
           exists pvm, sl. apply in_or_app. right. apply in_or_app. now right.
    + intros c. destruct (Hl2 c) as (a2 & Hl & Hal2).
      destruct (lr_lists0 c) as (a3 & Hl3 & Hall3).
      exists (a2 ++ a3). rewrite Hl3, Hl, <- app_assoc. split; [reflexivity |].
      apply List.Forall_app. split; [| exact Hall3].
      eapply List.Forall_impl; [| exact Hal2]. cbn.
      intros n Hn. now destruct (rr_vcpu0 _ _ Hn).
Qed.

Lemma in_team (ks : nat -> claim) (cohort : list nat) (c : nat) :
  In c (List.filter (fun c => assigned (ks c)) cohort)
  <-> In c cohort /\ assigned (ks c) = true.
Proof. apply List.filter_In. Qed.

(** Every run of [vmm_create_vms] has these roles. *)
Lemma vmm_create_vms_roles (config : vm_config) : roles_hold config.
Proof.
  induction config as [a n kids IHkids] using vm_config_tree_ind.
  intros nested cohort st rs st' Hrun. cbn [vmm_create_vms] in Hrun.
  set (config := VmConfig a n kids) in *.
  set (st1 := level_enter env config nested cohort st) in *.
  destruct (level_enter_events env config nested cohort st)
    as (He1 & Hpm1 & _ & _). fold st1 in He1, Hpm1.
  set (vm := curr_vm (part st1)) in *.
  destruct (level_claim env config (part_master (part st1)) cohort (ticks st1)
              (init_ncpus (part st1))) as [[n' ks] ahead].
  set (team := List.filter (fun c => assigned (ks c)) cohort) in *.
  destruct (level_vm_init_events config vm ks team (set_ncpus n' ahead 2 st1))
    as (e2 & He2 & _ & Hin2 & Hall2 & _).
  destruct (children_loop (vmm_create_vms env) vm team kids (fun _ => [])
              (level_vm_init config vm ks team (set_ncpus n' ahead 2 st1)))
    as [[lists st4]|] eqn:Hloop; [| discriminate].
  inversion Hrun; subst rs st'; clear Hrun.
  destruct (children_loop_roles vm team kids IHkids _ _ _ _ Hloop)
    as (e3 & He3 & R3). destruct R3.
  set (e1 := map (fun c => EvEnter c config nested) cohort
             ++ (if existsb (fun c => (c =? part_master (part st))%nat) cohort
                 then [EvAllocVm (part_master (part st)) vm] else [])) in *.
  assert (Hin1 : forall ev, In ev e1 ->
            exists c, In c cohort
                      /\ (ev = EvEnter c config nested
                          \/ ev = EvAllocVm c vm)).
  { intros ev Hev. subst e1. apply in_app_or in Hev as [Hev | Hev].
    - apply in_map_iff in Hev as (c & <- & Hc). eauto.
    - destruct (existsb _ cohort) eqn:Hex; [| destruct Hev].
      destruct Hev as [<- | []].
      apply existsb_exists in Hex as (c & Hc & Heq).
      apply Nat.eqb_eq in Heq. subst c. eauto. }
  exists (e1 ++ e2 ++ e3). split.
  { rewrite He3, He2. cbn [set_ncpus events]. rewrite He1.
    subst e1. now rewrite <- !app_assoc. }
  split.
  - rewrite map_map. cbn. apply map_id.
  - intros c Hc. apply in_or_app. left. subst e1. apply in_or_app. left.
    apply in_map_iff. eauto.
  - intros ev Hev. apply in_app_or in Hev as [Hev | Hev].
    + destruct (Hin1 ev Hev) as (c & Hc & [-> | ->]); eauto.
    + apply in_app_or in Hev as [Hev | Hev].
      * destruct (Hin2 ev Hev) as (c & id & Hc & ->).
        apply in_team in Hc as [Hc _]. eauto.
      * destruct (lr_team0 ev Hev) as (c & Hc & Hcpu).
        apply in_team in Hc as [Hc _]. eauto.
  - intros c v Hin. apply in_map_iff in Hin as (c' & Heq & Hc').
    destruct (assigned (ks c')) eqn:Ha; inversion Heq; subst c' v.
    split.
    + constructor. destruct (lr_lists0 c) as (added & -> & Hall). exact Hall.
    + destruct (Hall2 c) as [id Hid]; [now apply in_team |].
      exists (master (ks c)), id. cbn [vcpu_vm].
      apply in_or_app. right. apply in_or_app. now left.
  - intros c vm' cfg m id kid Hev Hkid.
    apply in_app_or in Hev as [Hev | Hev].
    + destruct (Hin1 _ Hev) as (? & _ & [Heq | Heq]); discriminate Heq.
    + apply in_or_app. right. apply in_or_app. right.
      apply in_app_or in Hev as [Hev | Hev]; [| eauto].
      destruct (Hin2 _ Hev) as (c' & id' & Hc' & Heq). inversion Heq; subst.
      apply lr_enter0; auto.
  - intros c pvm slot cvm Hev.
    apply in_app_or in Hev as [Hev | Hev].
    { destruct (Hin1 _ Hev) as (? & _ & [Heq | Heq]); discriminate Heq. }
    apply in_app_or in Hev as [Hev | Hev].
    { destruct (Hin2 _ Hev) as (? & ? & _ & Heq); discriminate Heq. }
    destruct (lr_push0 _ _ _ _ Hev) as [Hpar (cc & m' & id' & H2)]. split.
    + destruct Hpar as [[-> Hc] | (pc & m & id & H1)].
      * destruct (Hall2 c Hc) as [id Hid].
        do 3 eexists. apply in_or_app. right. apply in_or_app. left. eauto.
      * do 3 eexists. apply in_or_app. right. apply in_or_app. right. eauto.
    + do 3 eexists. apply in_or_app. right. apply in_or_app. right. eauto.
  - intros c cvm ccfg m id Hev.
    apply in_app_or in Hev as [Hev | Hev].
    { destruct (Hin1 _ Hev) as (? & _ & [Heq | Heq]); discriminate Heq. }
    apply in_app_or in Hev as [Hev | Hev].
    + left. destruct (Hin2 _ Hev) as (c' & id' & Hc' & Heq).
      injection Heq as E1 E2 _ _ _. subst c cvm.
      exists (Vcpu vm c' (lists c')). split; [| reflexivity].
      apply in_map_iff. exists c'. apply in_team in Hc' as [Hc' Ha].
      now rewrite Ha.
    + right. destruct (lr_appended0 _ _ _ _ _ Hev) as (pvm & sl & Hp).
      exists pvm, sl. apply in_or_app. right. apply in_or_app. now right.
  - intros c Hin ev Hev Hcpu.
    apply in_map_iff in Hin as (c' & Heq & Hc').
    destruct (assigned (ks c')) eqn:Ha; inversion Heq; subst c'.
    assert (Hnot : ~ In c team).
    { intros Hc. apply in_team in Hc as [_ Hc]. congruence. }
    apply in_app_or in Hev as [Hev | Hev].
    + destruct (Hin1 _ Hev) as (c' & _ & [-> | ->]); cbn in Hcpu;
        inversion Hcpu; subst; eauto.
    + exfalso. apply Hnot. apply in_app_or in Hev as [Hev | Hev].
      * destruct (Hin2 _ Hev) as (c' & id & Hc & ->). cbn in Hcpu.
        now inversion Hcpu; subst.
      * destruct (lr_team0 _ Hev) as (c' & Hc & Hcpu'). congruence.
Qed.

End TreeBuilderRoles.

(** C4, as the code has it.  In a run of [vmm_create_vms], every CPU that
    claimed a slot of a VM, level-master or not, enters [vmm_create_vms]
    for each child of that VM's configuration; a child-relationship node is
    pushed by a CPU that claimed a slot of the parent VM and of the child
    VM, and every CPU that claimed a slot of a child VM pushes one for it;
    the virtual CPU a CPU gets back, and those in its child lists, are its
    own; and a CPU that claimed no slot at the level of the call does
    nothing but enter the call (and allocate the VM struct, when it is the
    partition master): it neither iterates the child list nor appends a
    node. *)
Theorem assigned_cpus_iterate_and_append (env : environment)
    (config : vm_config) (nested : bool) (cohort : list nat)
    (st st' : hyp_state) (rs : list (nat * option vcpu)) :
  vmm_create_vms env config nested cohort st = Some (rs, st') ->
  exists evs,
    events st' = events st ++ evs
    /\ (forall c vm cfg m id kid,
          In (EvVmInit c vm cfg m id) evs -> In kid (children cfg) ->
          In (EvEnter c kid true) evs)
    /\ (forall c pvm slot cvm,
          In (EvListPush c pvm slot cvm) evs ->
          (exists pcfg m id, In (EvVmInit c pvm pcfg m id) evs)
          /\ (exists ccfg m id, In (EvVmInit c cvm ccfg m id) evs))
    /\ (forall c cvm ccfg m id,
          In (EvVmInit c cvm ccfg m id) evs ->
          (exists v, In (c, Some v) rs /\ vcpu_vm v = cvm)
          \/ exists pvm slot, In (EvListPush c pvm slot cvm) evs)
    /\ (forall c v, In (c, Some v) rs ->
          owned_by c v
          /\ exists m id, In (EvVmInit c (vcpu_vm v) config m id) evs)
    /\ (forall c, In (c, None) rs ->
          forall ev, In ev evs -> event_cpu ev = Some c ->
          ev = EvEnter c config nested \/ exists vm, ev = EvAllocVm c vm).
Proof.
  intros Hrun.
  destruct (vmm_create_vms_roles env config _ _ _ _ _ Hrun) as (evs & He & R).
  destruct R. exists evs.
  split; [exact He |]. split; [exact rr_iterate0 |].
  split; [exact rr_push0 |]. split; [exact rr_appended0 |].
  split; [exact rr_vcpu0 | exact rr_idle0].
Qed.

Definition two_cpu_child : vm_config := VmConfig 3 2 [].
Definition two_cpu_parent : vm_config := VmConfig 3 2 [two_cpu_child].

Lemma assigned_cpus_iterate_and_append_witness :
  exists rs st',
    vmm_create_vms env_in_order two_cpu_parent false [0; 1]%nat
                   (hyp_init 0 [10; 11; 12; 13]%nat) = Some (rs, st')
    /\ exists evs,
         events st' = events (hyp_init 0 [10; 11; 12; 13]%nat) ++ evs
         /\ (forall c pvm slot cvm,
               In (EvListPush c pvm slot cvm) evs ->
               (exists pcfg m id, In (EvVmInit c pvm pcfg m id) evs)
               /\ (exists ccfg m id, In (EvVmInit c cvm ccfg m id) evs)).
Proof.
  destruct (vmm_create_vms env_in_order two_cpu_parent false [0; 1]%nat
              (hyp_init 0 [10; 11; 12; 13]%nat)) as [[rs st']|] eqn:Hrun;
    [| vm_compute in Hrun; discriminate Hrun].
  exists rs, st'. split; [reflexivity |].
  destruct (assigned_cpus_iterate_and_append env_in_order two_cpu_parent false
              [0; 1]%nat (hyp_init 0 [10; 11; 12; 13]%nat) st' rs Hrun)
    as (evs & He & _ & Hpush & _).
  exists evs. split; [exact He | exact Hpush].
Defined.

(** C4 as stated fails: parent and child VM both require two CPUs and
    CPU0 and CPU1 build them.  CPU0 is the level-master of the parent VM
    and CPU1 is not, yet CPU1 enters [vmm_create_vms] for the child, takes
    node 11 from the pool and pushes it on the child list of its own
    virtual CPU. *)
Lemma non_master_iterates_and_appends :
  exists rs st',
    vmm_create_vms env_in_order two_cpu_parent false [0; 1]%nat
                   (hyp_init 0 [10; 11; 12; 13]%nat) = Some (rs, st')
    /\ In (EvVmInit 0 1 two_cpu_parent true 1) (events st')
    /\ In (EvVmInit 1 1 two_cpu_parent false NO_VMID) (events st')
    /\ In (EvEnter 1 two_cpu_child true) (events st')
    /\ In (EvListPush 1 1 11 2) (events st')
    /\ In (1%nat, Some (Vcpu 1 1 [(11%nat, Vcpu 2 1 [])])) rs.
Proof.
  remember (vmm_create_vms env_in_order two_cpu_parent false [0; 1]%nat
              (hyp_init 0 [10; 11; 12; 13]%nat)) as run eqn:Hrun.
  vm_compute in Hrun. subst run.
  eexists. eexists. split; [reflexivity |].
  cbn [events]. unfold two_cpu_parent, two_cpu_child, NO_VMID, U64.
  repeat split; cbn; tauto.
Qed.

(* ================================================================== *)
(** * 18. Building the whole configuration tree *)
(* ================================================================== *)

Section CountingLists.

Context {A : Type}.

Lemma filter_length_le (f : A -> bool) (l : list A) :
  (length (List.filter f l) <= length l)%nat.
Proof. induction l as [|a l IH]; simpl; [lia |]. destruct (f a); simpl; lia. Qed.

Lemma filter_length_lt (f : A -> bool) (l : list A) (c : A) :
  In c l -> f c = false -> (length (List.filter f l) < length l)%nat.
Proof.
  induction l as [|a l IH]; simpl; intros Hin Hf; [destruct Hin |].
  destruct Hin as [-> | Hin].
  - rewrite Hf. pose proof (filter_length_le f l). lia.
  - specialize (IH Hin Hf). destruct (f a); simpl; lia.
Qed.

Lemma filter_length_same (f g : A -> bool) (l : list A) :
  (forall x, In x l -> g x = f x) ->
  length (List.filter g l) = length (List.filter f l).
Proof.
  intros H. f_equal. apply List.filter_ext_in. exact H.
Qed.

(** One more element passes the test. *)
Lemma filter_length_succ (f g : A -> bool) (l : list A) (c : A) :
  List.NoDup l -> In c l -> f c = false -> g c = true ->
  (forall x, x <> c -> g x = f x) ->
  length (List.filter g l) = S (length (List.filter f l)).
Proof.
  induction l as [|a l IH]; simpl; intros Hnd Hin Hf Hg Hother;
    [destruct Hin |].
  inversion Hnd as [| ? ? Hnin Hnd']; subst.
  destruct Hin as [-> | Hin].
  - rewrite Hf, Hg. simpl. f_equal. apply filter_length_same.
    intros x Hx. apply Hother. intros ->. contradiction.
  - assert (a <> c) by (intros ->; contradiction).
    rewrite (Hother a) by assumption.
    destruct (f a); simpl; rewrite IH; auto.
Qed.

(** Exactly one element passes the test. *)
Lemma filter_length_one (f : A -> bool) (l : list A) (m : A) :
  List.NoDup l -> In m l -> f m = true ->
  (forall x, In x l -> f x = true -> x = m) ->
  length (List.filter f l) = 1%nat.
Proof.
  induction l as [|a l IH]; simpl; intros Hnd Hin Hf Huniq; [destruct Hin |].
  inversion Hnd as [| ? ? Hnin Hnd']; subst.
  destruct Hin as [-> | Hin].
  - rewrite Hf. simpl. f_equal.
    rewrite filter_none; [reflexivity |].
    intros x Hx. destruct (f x) eqn:E; [| reflexivity].
    exfalso. apply Hnin. rewrite <- (Huniq x); auto.
  - destruct (f a) eqn:E.
    + exfalso. apply Hnin. rewrite (Huniq a); auto.
    + apply IH; auto.
Qed.

End CountingLists.

Section FilterCompare.

Context {A : Type}.

Lemma filter_length_sub (f g : A -> bool) (l : list A) :
  (forall x, In x l -> f x = true -> g x = true) ->
  (length (List.filter f l) <= length (List.filter g l))%nat.
Proof.
  induction l as [|a l IH]; intros H; simpl; [lia |].
  assert (IH' := IH (fun x Hx => H x (or_intror Hx))).
  destruct (f a) eqn:Hf.
  - rewrite (H a (or_introl eq_refl) Hf). simpl. lia.
  - destruct (g a); simpl; lia.
Qed.

Lemma filter_length_sub_lt (f g : A -> bool) (l : list A) (c : A) :
  (forall x, In x l -> f x = true -> g x = true) ->
  In c l -> g c = true -> f c = false ->
  (length (List.filter f l) < length (List.filter g l))%nat.
Proof.
  induction l as [|a l IH]; intros H Hin Hg Hf; [destruct Hin |].
  simpl.
  pose proof (filter_length_sub f g l (fun x Hx => H x (or_intror Hx))) as Hs.
  destruct Hin as [-> | Hin].
  - rewrite Hf, Hg. simpl. lia.
  - specialize (IH (fun x Hx => H x (or_intror Hx)) Hin Hg Hf).
    destruct (f a) eqn:Hfa.
    + rewrite (H a (or_introl eq_refl) Hfa). simpl. lia.
    + destruct (g a); simpl; lia.
Qed.

End FilterCompare.


Section LevelCapacity.

Variable vc : vm_config.
Variable cohort : list nat.
Hypothesis cohort_nodup : List.NoDup cohort.
Hypothesis cpu_num_size : 0 <= cpu_num vc < U64.

Definition nassigned (ks : nat -> claim) : nat :=
  length (List.filter (fun c => assigned (ks c)) cohort).

Lemma upd_id (ks : nat -> claim) (c x : nat) : upd ks c (ks c) x = ks x.
Proof.
  destruct (decide (x = c)) as [-> | ?];
    [apply upd_same | now apply upd_other].
Qed.

(** The counter counts the CPUs of the cohort that claimed a slot, and is
    not above the required count. *)
Definition capped (n : Z) (ks : nat -> claim) : Prop :=
  n = Z.of_nat (nassigned ks)
  /\ n <= cpu_num vc
  /\ forall c, assigned (ks c) = true -> In c cohort.

Lemma capped_claim (n : Z) (ks : nat -> claim) (c : nat) (m : bool) :
  capped n ks -> In c cohort -> assigned (ks c) = false ->
  n < cpu_num vc ->
  incr64 n = n + 1 /\ capped (n + 1) (upd ks c (Claim true m)).
Proof.
  intros (Hn & Hle & Hin) Hc Ha Hlt.
  assert (H0 : 0 <= n) by lia.
  split; [apply incr64_small; lia |]. split; [| split].
  - unfold nassigned.
    rewrite (filter_length_succ (fun c => assigned (ks c))
               (fun x => assigned (upd ks c (Claim true m) x)) cohort c);
      auto.
    + fold (nassigned ks). lia.
    + now rewrite upd_same.
    + intros x Hx. now rewrite upd_other.
  - lia.
  - intros x. destruct (decide (x = c)) as [-> | Hne]; [auto |].
    rewrite upd_other by auto. apply Hin.
Qed.

Lemma capped_ext (n : Z) (ks ks' : nat -> claim) :
  (forall x, ks' x = ks x) -> capped n ks -> capped n ks'.
Proof.
  intros He (Hn & Hle & Hin). split; [| split].
  - rewrite Hn. unfold nassigned. f_equal. apply filter_length_same.
    intros x _. now rewrite He.
  - exact Hle.
  - intros c. rewrite He. apply Hin.
Qed.

(** The affinity pass, each CPU of [order] taking the lock once. *)
Lemma affinity_pass_capped (order : list nat) :
  List.NoDup order -> (forall c, In c order -> In c cohort) ->
  forall n ks,
    capped n ks -> (forall c, In c order -> assigned (ks c) = false) ->
    let r := claim_pass claim_affinity vc order n ks in
    capped r.1 r.2
    /\ n <= r.1
    /\ (forall c, assigned (r.2 c) = true ->
          assigned (ks c) = true \/ (In c order /\ affine vc c = true))
    /\ (forall c, assigned (ks c) = true -> assigned (r.2 c) = true)
    /\ (forall c, In c order -> affine vc c = true ->
          assigned (r.2 c) = true \/ r.1 = cpu_num vc).
Proof.
  induction order as [|c rest IH]; intros Hnd Hsub n ks Hcap Hun;
    cbn [claim_pass].
  { cbn. split; [exact Hcap |]. split; [lia |]. split; [auto |].
    split; [auto |]. intros c []. }
  inversion Hnd as [| ? ? Hnin Hnd']; subst.
  assert (Hc : In c cohort) by (apply Hsub; now left).
  assert (Ha : assigned (ks c) = false) by (apply Hun; now left).
  assert (Hsub' : forall x, In x rest -> In x cohort)
    by (intros x Hx; apply Hsub; now right).
  unfold claim_affinity at 1 3 5 7 9 11 13.
  destruct (n <? cpu_num vc) eqn:Hlt; cbn [andb].
  - apply Z.ltb_lt in Hlt. destruct (affine vc c) eqn:Haff.
    + set (m := if n =? 0 then true else master (ks c)).
      destruct (capped_claim n ks c m Hcap Hc Ha Hlt) as [Hinc Hcap'].
      rewrite Hinc.
      destruct (IH Hnd' Hsub' (n + 1) (upd ks c (Claim true m)) Hcap')
        as (H1 & H2 & H3 & H4 & H5).
      { intros x Hx. rewrite upd_other by (intros ->; contradiction).
        apply Hun. now right. }
      cbv zeta. split; [exact H1 |]. split; [lia |]. split; [| split].
      * intros x Hx. destruct (decide (x = c)) as [-> | Hne].
        -- right. split; [now left | exact Haff].
        -- destruct (H3 x Hx) as [Hk | [Hr Hxa]].
           ++ rewrite upd_other in Hk by auto. now left.
           ++ right. split; [now right | exact Hxa].
      * intros x Hx. apply H4. destruct (decide (x = c)) as [-> | Hne];
          [now rewrite upd_same | now rewrite upd_other].
      * intros x [<- | Hx] Hxa.
        -- left. apply H4. now rewrite upd_same.
        -- now apply H5.
    + destruct (IH Hnd' Hsub' n (upd ks c (ks c))) as (H1 & H2 & H3 & H4 & H5).
      { apply (capped_ext n ks); [apply upd_id | exact Hcap]. }
      { intros x Hx. rewrite upd_id. apply Hun. now right. }
      cbv zeta. split; [exact H1 |]. split; [exact H2 |]. split; [| split].
      * intros x Hx. destruct (H3 x Hx) as [Hk | [Hr Hxa]].
        -- rewrite upd_id in Hk. now left.
        -- right. split; [now right | exact Hxa].
      * intros x Hx. apply H4. now rewrite upd_id.
      * intros x [<- | Hx] Hxa; [congruence | now apply H5].
  - apply Z.ltb_ge in Hlt.
    destruct (IH Hnd' Hsub' n (upd ks c (ks c))) as (H1 & H2 & H3 & H4 & H5).
    { apply (capped_ext n ks); [apply upd_id | exact Hcap]. }
    { intros x Hx. rewrite upd_id. apply Hun. now right. }
    cbv zeta. split; [exact H1 |]. split; [exact H2 |]. split; [| split].
    + intros x Hx. destruct (H3 x Hx) as [Hk | [Hr Hxa]].
      * rewrite upd_id in Hk. now left.
      * right. split; [now right | exact Hxa].
    + intros x Hx. apply H4. now rewrite upd_id.
    + intros x [<- | Hx] Hxa; [| now apply H5].
      right. destruct H1 as (_ & Hle & _). destruct Hcap as (_ & Hle0 & _).
      lia.
Qed.

(** The fallback pass. *)
Lemma fallback_pass_capped (order : list nat) :
  (forall c, In c order -> In c cohort) ->
  forall n ks,
    capped n ks ->
    let r := claim_pass claim_fallback vc order n ks in
    capped r.1 r.2
    /\ n <= r.1
    /\ (forall c, assigned (ks c) = true -> assigned (r.2 c) = true)
    /\ (forall c, In c order -> assigned (r.2 c) = true \/ r.1 = cpu_num vc)
    /\ (n = cpu_num vc -> forall c, assigned (r.2 c) = assigned (ks c)).
Proof.
  induction order as [|c rest IH]; intros Hsub n ks Hcap; cbn [claim_pass].
  { cbn. split; [exact Hcap |]. split; [lia |]. split; [auto |].
    split; [intros c [] | auto]. }
  assert (Hc : In c cohort) by (apply Hsub; now left).
  assert (Hsub' : forall x, In x rest -> In x cohort)
    by (intros x Hx; apply Hsub; now right).
  unfold claim_fallback at 1 3 5 7 9 11 13.
  destruct (assigned (ks c)) eqn:Ha; cbn [negb andb].
  - destruct (IH Hsub' n (upd ks c (ks c))) as (H1 & H2 & H3 & H4 & H5).
    { apply (capped_ext n ks); [apply upd_id | exact Hcap]. }
    cbv zeta. split; [exact H1 |]. split; [exact H2 |].
    split; [| split].
    + intros x Hx. apply H3. now rewrite upd_id.
    + intros x [<- | Hx]; [| now apply H4].
      left. apply H3. now rewrite upd_id.
    + intros Hn x. rewrite (H5 Hn). now rewrite upd_id.
  - destruct (n <? cpu_num vc) eqn:Hlt.
    + apply Z.ltb_lt in Hlt.
      set (m := if n =? 0 then true else master (ks c)).
      destruct (capped_claim n ks c m Hcap Hc Ha Hlt) as [Hinc Hcap'].
      rewrite Hinc.
      destruct (IH Hsub' (n + 1) (upd ks c (Claim true m)) Hcap')
        as (H1 & H2 & H3 & H4 & H5).
      cbv zeta. split; [exact H1 |]. split; [lia |]. split; [| split].
      * intros x Hx. apply H3. destruct (decide (x = c)) as [-> | Hne];
          [now rewrite upd_same | now rewrite upd_other].
      * intros x [<- | Hx]; [| now apply H4].
        left. apply H3. now rewrite upd_same.
      * intros Hn. lia.
    + apply Z.ltb_ge in Hlt.
      destruct (IH Hsub' n (upd ks c (ks c))) as (H1 & H2 & H3 & H4 & H5).
      { apply (capped_ext n ks); [apply upd_id | exact Hcap]. }
      cbv zeta. split; [exact H1 |]. split; [exact H2 |].
      split; [| split].
      * intros x Hx. apply H3. now rewrite upd_id.
      * intros x [<- | Hx]; [| now apply H4].
        right. destruct H1 as (_ & Hle & _). lia.
      * intros Hn x. rewrite (H5 Hn). now rewrite upd_id.
Qed.

Variable env : environment.
Hypothesis env_fair : forall t l, Permutation (lock_order env t l) l.

(** Both passes of a level, from the reset counter, when no reset falls
    between them. *)
Lemma claim_passes_capped (t : nat) :
  let n := (claim_passes env vc cohort t 0).1 in
  let ks := (claim_passes env vc cohort t 0).2 in
  capped n ks
  /\ (forall c, In c cohort -> assigned (ks c) = true \/ n = cpu_num vc)
  /\ ((exists c, In c cohort /\ affine vc c = true
                 /\ assigned (ks c) = false) ->
      forall c, assigned (ks c) = true -> affine vc c = true).
Proof.
  intros n ks. subst n ks. unfold claim_passes.
  assert (Hsub : forall t' c, In c (lock_order env t' cohort) -> In c cohort).
  { intros t' c. apply Permutation_in, env_fair. }
  assert (Hsup : forall t' c, In c cohort -> In c (lock_order env t' cohort)).
  { intros t' c. apply Permutation_in. symmetry. apply env_fair. }
  destruct (affinity_pass_capped (lock_order env t cohort)) with
    (n := 0) (ks := fun _ : nat => claim_init)
    as (Hc1 & _ & Hfrom1 & _ & Haff1).
  - eapply Permutation_NoDup; [symmetry; apply env_fair | exact cohort_nodup].
  - apply Hsub.
  - split; [| split; [lia | discriminate]]. unfold nassigned.
    rewrite filter_none; [reflexivity | reflexivity].
  - reflexivity.
  - destruct (claim_pass claim_affinity vc (lock_order env t cohort) 0
                (fun _ => claim_init)) as [n1 ks1].
    cbn [fst snd] in *.
    destruct (fallback_pass_capped (lock_order env (S t) cohort)
                (Hsub (S t)) n1 ks1 Hc1) as (Hc2 & Hle & Hkeep & Hall & Hfull).
    destruct (claim_pass claim_fallback vc (lock_order env (S t) cohort)
                n1 ks1) as [n2 ks2].
    cbn [fst snd] in *.
    split; [exact Hc2 |]. split.
    + intros c Hc. apply Hall. now apply Hsup.
    + intros (c & Hc & Hca & Hcu) x Hx.
      assert (Hn1 : n1 = cpu_num vc).
      { destruct (Haff1 c (Hsup t c Hc) Hca) as [Hk | Hk]; [| exact Hk].
        apply Hkeep in Hk. congruence. }
      rewrite (Hfull Hn1) in Hx.
      destruct (Hfrom1 x Hx) as [Hk | [_ Hk]]; [discriminate Hk | exact Hk].
Qed.

(** The CPUs that the two passes give a slot: as many as the VM can take,
    one of them the level-master, and the whole cohort when the VM
    requires that many. *)
Lemma claim_passes_team (t : nat) :
  cohort <> [] -> 1 <= cpu_num vc ->
  let ks := (claim_passes env vc cohort t 0).2 in
  let team := List.filter (fun c => assigned (ks c)) cohort in
  Z.of_nat (length team) = Z.min (Z.of_nat (length cohort)) (cpu_num vc)
  /\ length (List.filter (fun c => master (ks c)) team) = 1%nat
  /\ (Z.of_nat (length cohort) <= cpu_num vc -> team = cohort)
  /\ (Z.of_nat (length (List.filter (affine vc) cohort)) <= cpu_num vc ->
      forall c, In c cohort -> affine vc c = true -> In c team).
Proof.
  intros Hne Hone ks team.
  destruct (claim_passes_capped t) as ((Hn & Hle & Hin) & Hall & Hprio).
  pose proof (claim_reach_inv vc 0 0 (Z.le_refl 0) (proj2 cpu_num_size) _ _ _
                (claim_passes_reach vc 0 0 env cohort t)) as Hinv.
  fold ks in Hn, Hle, Hin, Hall, Hinv, Hprio. unfold nassigned in Hn.
  fold team in Hn.
  set (n := (claim_passes env vc cohort t 0).1) in *.
  assert (Haff : Z.of_nat (length (List.filter (affine vc) cohort))
                 <= cpu_num vc ->
                 forall c, In c cohort -> affine vc c = true -> In c team).
  { intros Hfew c Hc Hca. apply List.filter_In. split; [exact Hc |].
    destruct (assigned (ks c)) eqn:Hu; [reflexivity | exfalso].
    assert (Hsub : forall x, assigned (ks x) = true -> affine vc x = true).
    { apply Hprio. now exists c. }
    pose proof (filter_length_sub_lt (fun x => assigned (ks x)) (affine vc)
                  cohort c (fun x _ => Hsub x) Hc Hca Hu) as Hlt.
    fold team in Hlt.
    destruct (Hall c Hc) as [Ha | Hk]; [congruence |].
    clear Hinv Hall Hin Hprio Hsub. clearbody n team. lia. }
  pose proof (filter_length_le (fun c => assigned (ks c)) cohort) as Hlen.
  fold team in Hlen.
  assert (Hall' : Z.of_nat (length cohort) <= cpu_num vc \/ n <> cpu_num vc ->
                  team = cohort).
  { intros Hor. apply filter_all. intros c Hc.
    destruct (Hall c Hc) as [Ha | Hk]; [exact Ha |].
    destruct Hor as [Hk' | Hk']; [| contradiction].
    destruct (assigned (ks c)) eqn:Hu; [reflexivity | exfalso].
    pose proof (filter_length_lt (fun c => assigned (ks c)) cohort c Hc Hu)
      as Hlt.
    fold team in Hlt. clear Hinv Hall Hin. clearbody n team. lia. }
  assert (Hmin : Z.of_nat (length team)
                 = Z.min (Z.of_nat (length cohort)) (cpu_num vc)).
  { destruct (Z.eq_dec n (cpu_num vc)) as [Heq | Hneq].
    - clear Hall' Hinv Hall Hin. clearbody n team. lia.
    - rewrite (Hall' (or_intror Hneq)) in *. clear Hall' Hinv Hall Hin.
      clearbody n. lia. }
  split; [exact Hmin |].
  split; [| split; [intros Hk; apply Hall'; now left | exact Haff]].
  assert (Hpos : 0 < n).
  { assert (Hk : (0 < length cohort)%nat).
    { destruct cohort; [contradiction | cbn [length]; lia]. }
    clear Hall' Hinv Hall Hin. clearbody n team. lia. }
  destruct (ci_elected _ _ _ _ _ Hinv eq_refl (or_introl Hpos)) as [m Hm].
  pose proof (ci_master _ _ _ _ _ Hinv m Hm) as Hma.
  apply (filter_length_one _ team m).
  - now apply List.NoDup_filter.
  - apply List.filter_In. split; [now apply Hin | exact Hma].
  - exact Hm.
  - intros x _ Hx. now apply (claim_inv_unique vc 0 n ks).
Qed.

End LevelCapacity.

Lemma count_events_app (f : hyp_event -> bool) (e1 e2 : list hyp_event) :
  count_events f (e1 ++ e2) = (count_events f e1 + count_events f e2)%nat.
Proof. unfold count_events. now rewrite List.filter_app, length_app. Qed.

Lemma count_events_enter (f : hyp_event -> bool) (vc : vm_config)
    (nested : bool) (cohort : list nat) :
  (forall c, f (EvEnter c vc nested) = false) ->
  count_events f (map (fun c => EvEnter c vc nested) cohort) = 0%nat.
Proof.
  intros H. unfold count_events. rewrite filter_none; [reflexivity |].
  intros x Hx. apply in_map_iff in Hx as (c & <- & _). apply H.
Qed.

Lemma config_nodes_edges (vc : vm_config) :
  config_nodes vc = S (config_edges vc).
Proof. destruct vc. reflexivity. Qed.

(** A virtual CPU that records edges of a configuration tree has no more
    child-relationship nodes under it than the tree has edges. *)
Lemma records_nodes (vc : vm_config) :
  forall v, records vc v -> (vcpu_nodes v <= config_edges vc)%nat.
Proof.
  induction vc as [a n kids IH] using vm_config_tree_ind.
  intros v Hm. inversion Hm as [a' n' kids' vm c nodes Hall]; subst.
  unfold config_edges. cbn [config_nodes vcpu_nodes pred].
  clear Hm. revert nodes Hall.
  induction IH as [|kid rest Hkid _ IHrest]; intros nodes Hall.
  - inversion Hall as [Hnil | |]. destruct nodes; [cbn; lia | discriminate].
  - inversion Hall as [| kid' l b m Hr Hc Hk Hm | kid' l m Hc]; subst.
    + destruct nodes as [|nd nodes]; [discriminate |].
      cbn [map] in Hm. injection Hm as -> ->.
      specialize (Hkid _ Hr). specialize (IHrest _ Hc).
      simpl. rewrite (config_nodes_edges kid). lia.
    + specialize (IHrest _ Hc). simpl. lia.
Qed.

Lemma filter_length_incl (f : nat -> bool) (l1 l2 : list nat) :
  List.NoDup l1 -> incl l1 l2 ->
  (length (List.filter f l1) <= length (List.filter f l2))%nat.
Proof.
  intros Hnd Hincl. apply List.NoDup_incl_length.
  - now apply List.NoDup_filter.
  - intros x Hx. apply List.filter_In in Hx as [Hx Hf].
    apply List.filter_In. split; [now apply Hincl | exact Hf].
Qed.

(** The call returned a virtual CPU. *)
Definition got_vcpu (r : nat * option vcpu) : bool :=
  match snd r with Some _ => true | None => false end.

Definition nsome (rs : list (nat * option vcpu)) : nat :=
  length (List.filter got_vcpu rs).

Lemma nsome_cons (c : nat) (r : option vcpu)
    (rest : list (nat * option vcpu)) :
  nsome ((c, r) :: rest)
  = ((match r with Some _ => 1 | None => 0 end) + nsome rest)%nat.
Proof. unfold nsome. cbn [List.filter]. now destruct r. Qed.

Lemma nsome_team (ks : nat -> claim) (f : nat -> vcpu) (cohort : list nat) :
  nsome (map (fun c => (c, if assigned (ks c) then Some (f c) else None))
             cohort)
  = length (List.filter (fun c => assigned (ks c)) cohort).
Proof.
  unfold nsome. induction cohort as [|c l IH]; [reflexivity |].
  cbn [map List.filter]. unfold got_vcpu at 1. cbn [snd].
  destruct (assigned (ks c)); cbn [length]; now rewrite IH.
Qed.

Section TreeBuilderCounts.

Variable env : environment.
Hypothesis env_fair : forall t l, Permutation (lock_order env t l) l.
Hypothesis env_in_step : in_step env.

Variable pm : nat.
Variable cs : list nat.

(** The CPUs that got a virtual CPU from the child's construction push one
    node each on their own lists, when the pool has a node for each. *)
Lemma record_children_some (vm : nat) (rs : list (nat * option vcpu)) :
  List.NoDup (map fst rs) ->
  forall lists st,
    (nsome rs <= free_slots (nodes (part st)))%nat ->
    exists lists' st' evs,
      record_children vm rs lists st = Some (lists', st')
      /\ events st' = events st ++ evs
      /\ count_events is_alloc evs = 0%nat
      /\ count_events is_master_init evs = 0%nat
      /\ count_events is_push evs = nsome rs
      /\ part_master (part st') = part_master (part st)
      /\ reset_ahead (part st') = reset_ahead (part st)
      /\ (free_slots (nodes (part st')) + nsome rs)%nat
         = free_slots (nodes (part st))
      /\ (forall c v, In (c, Some v) rs ->
            exists slot, lists' c = lists c ++ [(slot, v)])
      /\ (forall c, In (c, None) rs -> lists' c = lists c)
      /\ (forall c, ~ In c (map fst rs) -> lists' c = lists c).
Proof.
  induction rs as [|[c r] rest IH]; intros Hnd lists st Hpool;
    cbn [record_children].
  - exists lists, st, []. rewrite app_nil_r. cbn.
    repeat split; auto; try lia; intros; contradiction.
  - cbn [map fst] in Hnd. inversion Hnd as [| ? ? Hnin Hnd']; subst.
    destruct r as [v |].
    + rewrite nsome_cons in Hpool |- *.
      unfold objcache_alloc.
      destruct (oc_free (nodes (part st))) as [|slot free] eqn:Hfree.
      { unfold free_slots in Hpool. rewrite Hfree in Hpool. cbn in Hpool.
        lia. }
      set (st1 := log [EvListPush c vm slot (vcpu_vm v)]
                    (set_part (Partition (part_master (part st))
                                 (curr_vm (part st)) (init_ncpus (part st))
                                 (ObjCache free) (reset_ahead (part st))) st)).
      destruct (IH Hnd' (upd lists c (list_push (lists c) (slot, v))) st1)
        as (lists' & st' & evs & Hrun & He & Ha & Hmi & Hpu & Hpm & Hfl & Hfs
            & Hin & Hnone & Hout).
      { subst st1. cbn. unfold free_slots in *. rewrite Hfree in Hpool.
        cbn in *. lia. }
      exists lists', st', (EvListPush c vm slot (vcpu_vm v) :: evs).
      split; [exact Hrun |]. subst st1. cbn [log set_part events part
        part_master nodes reset_ahead] in *.
      rewrite He, <- app_assoc.
      unfold count_events in *. cbn [List.filter is_alloc is_master_init
        is_push length].
      unfold free_slots in *. rewrite Hfree. cbn [oc_free length] in *.
      split; [reflexivity |]. split; [lia |]. split; [lia |].
      split; [lia |]. split; [exact Hpm |]. split; [exact Hfl |].
      split; [lia |]. split; [| split].
      * intros c' v' [Heq | Hc'].
        -- inversion Heq; subst c' v'. exists slot.
           rewrite Hout by assumption. now rewrite upd_same.
        -- destruct (Hin c' v' Hc') as (sl & Hl). exists sl.
           rewrite Hl. rewrite upd_other; [reflexivity |].
           intros ->. apply Hnin. apply in_map_iff. now exists (c, Some v').
      * intros c' [Heq | Hc']; [discriminate Heq |].
        rewrite (Hnone c' Hc'). apply upd_other.
        intros ->. apply Hnin. apply in_map_iff. now exists (c, None).
      * intros c' Hc'. rewrite Hout by (intros H; apply Hc'; now right).
        apply upd_other. intros ->. apply Hc'. now left.
    + rewrite nsome_cons in Hpool |- *. cbn [Nat.add] in Hpool |- *.
      destruct (IH Hnd' lists st Hpool)
        as (lists' & st' & evs & Hrun & He & Ha & Hmi & Hpu & Hpm & Hfl & Hfs
            & Hin & Hnone & Hout).
      exists lists', st', evs.
      split; [exact Hrun |]. split; [exact He |]. split; [exact Ha |].
      split; [exact Hmi |]. split; [exact Hpu |]. split; [exact Hpm |].
      split; [exact Hfl |]. split; [exact Hfs |]. split; [| split].
      * intros c' v' [Heq | Hc']; [discriminate Heq | now apply Hin].
      * intros c' [Heq | Hc']; [| now apply Hnone].
        inversion Heq; subst c'. now apply Hout.
      * intros c' Hc'. apply Hout. intros H. apply Hc'. now right.
Qed.

(** What a complete run of [vmm_create_vms] by the cohort [co] does on a
    configuration tree. *)
Record run_full (co : list nat) (config : vm_config) (st st' : hyp_state)
    (rs : list (nat * option vcpu)) (evs : list hyp_event) : Prop := RunFull {
  rf_events : events st' = events st ++ evs;
  rf_allocs : count_events is_alloc evs = config_nodes config;
  rf_inits : count_events is_master_init evs = config_nodes config;
  rf_pushes : count_events is_push evs = edge_nodes (length co) config;
  rf_pool : (free_slots (nodes (part st')) + edge_nodes (length co) config)%nat
            = free_slots (nodes (part st));
  rf_master : part_master (part st') = part_master (part st);
  rf_flag : reset_ahead (part st') = false;
  rf_cpus : map fst rs = co;
  rf_width : nsome rs = vm_width (length co) config;
  rf_records : forall c v, In (c, Some v) rs -> records config v
}.

(** The cohorts of [k] CPUs out of [cs] with the partition master. *)
Definition cohort_of (k : nat) (co : list nat) : Prop :=
  List.NoDup co /\ incl co cs /\ In pm co /\ length co = k.

Definition full_holds (k : nat) (config : vm_config) : Prop :=
  forall co nested st,
    cohort_of k co ->
    part_master (part st) = pm ->
    reset_ahead (part st) = false ->
    (edge_nodes k config <= free_slots (nodes (part st)))%nat ->
    exists rs st' evs,
      vmm_create_vms env config nested co st = Some (rs, st')
      /\ run_full co config st st' rs evs.

Definition kids_nodes (kids : list vm_config) : nat :=
  list_sum (map config_nodes kids).

Definition kids_edge_nodes (k : nat) (kids : list vm_config) : nat :=
  list_sum (map (fun kid => (vm_width k kid + edge_nodes k kid)%nat) kids).

Lemma children_loop_full (k : nat) (vm : nat) (team : list nat)
    (kids : list vm_config) :
  cohort_of k team ->
  List.Forall (full_holds k) kids ->
  forall lists st,
    part_master (part st) = pm ->
    reset_ahead (part st) = false ->
    (kids_edge_nodes k kids <= free_slots (nodes (part st)))%nat ->
    exists lists' st' evs,
      children_loop (vmm_create_vms env) vm team kids lists st
      = Some (lists', st')
      /\ events st' = events st ++ evs
      /\ count_events is_alloc evs = kids_nodes kids
      /\ count_events is_master_init evs = kids_nodes kids
      /\ count_events is_push evs = kids_edge_nodes k kids
      /\ (free_slots (nodes (part st')) + kids_edge_nodes k kids)%nat
         = free_slots (nodes (part st))
      /\ part_master (part st') = part_master (part st)
      /\ reset_ahead (part st') = false
      /\ forall c, In c team ->
           exists added,
             lists' c = lists c ++ added
             /\ covers records kids (map snd added).
Proof.
  intros Hteam.
  induction 1 as [|kid rest Hkid _ IH]; intros lists st Hpm Hflag Hpool;
    cbn [children_loop].
  - exists lists, st, []. rewrite app_nil_r.
    unfold kids_nodes, kids_edge_nodes. cbn.
    repeat split; auto; try lia.
    intros c _. exists []. rewrite app_nil_r. split; [reflexivity | constructor].
  - assert (Hk : kids_nodes (kid :: rest)
                 = (config_nodes kid + kids_nodes rest)%nat) by reflexivity.
    assert (Hke : kids_edge_nodes k (kid :: rest)
                  = (vm_width k kid + edge_nodes k kid
                     + kids_edge_nodes k rest)%nat) by reflexivity.
    rewrite Hk, Hke in *. clear Hk Hke.
    pose proof Hteam as (_ & _ & _ & Hlen).
    destruct (Hkid team true st Hteam Hpm Hflag) as (rs & st1 & e1 & Hrun & R1);
      [lia |].
    rewrite Hrun. destruct R1. rewrite Hlen in *.
    destruct (record_children_some vm rs) with (lists := lists) (st := st1)
      as (lists1 & st2 & e2 & Hrec & He2 & Ha2 & Hmi2 & Hpu2 & Hpm2 & Hfl2
          & Hfs2 & Hin2 & Hnone2 & _).
    { rewrite rf_cpus0. now destruct Hteam. }
    { rewrite rf_width0. lia. }
    rewrite Hrec.
    destruct (IH lists1 st2) as (lists' & st' & e3 & Hloop & He3 & Ha3 & Hmi3
                                 & Hpu3 & Hfs3 & Hpm3 & Hfl3 & Hl3).
    { congruence. }
    { congruence. }
    { lia. }
    exists lists', st', (e1 ++ e2 ++ e3). split; [exact Hloop |].
    rewrite !count_events_app.
    repeat split; try lia; try congruence.
    + rewrite He3, He2, rf_events0. now rewrite <- !app_assoc.
    + intros c Hc. destruct (Hl3 c Hc) as (added & Hl & Hall).
      assert (Hr : exists r, In (c, r) rs).
      { rewrite <- rf_cpus0 in Hc. apply in_map_iff in Hc as ([c' r] & E & Hc).
        cbn in E. subst c'. now exists r. }
      destruct Hr as [[v |] Hr].
      * destruct (Hin2 c v Hr) as (slot & Hl2).
        exists ((slot, v) :: added). rewrite Hl, Hl2, <- app_assoc.
        split; [reflexivity |]. cbn [map snd].
        apply covers_take; [now apply (rf_records0 c) | exact Hall].
      * exists added. rewrite Hl, (Hnone2 c Hr). split; [reflexivity |].
        now apply covers_skip.
Qed.

(** A configuration tree in which every VM requires a CPU, and every VM
    with children is sure to take the partition master, is built
    whole. *)
Lemma vmm_create_vms_full (config : vm_config) :
  forall k, builds pm cs k config -> full_holds k config.
Proof.
  induction config as [a n kids IHkids] using vm_config_tree_ind.
  intros k Hfits co nested st Hco Hpm Hflag Hpool.
  destruct Hco as (Hnd & Hincl & Hin & Hlen).
  inversion Hfits as [k0 a' n' kids' Hn Hinner Hkids]; subst k0 a' n' kids'.
  set (k' := Nat.min k (Z.to_nat n)) in *.
  assert (IH : List.Forall (full_holds k') kids).
  { rewrite List.Forall_forall in *. intros kid Hkid. auto. }
  clear IHkids. cbn [vmm_create_vms].
  set (config := VmConfig a n kids) in *.
  set (st1 := level_enter env config nested co st).
  destruct (level_enter_events env config nested co st)
    as (He1 & Hpm1 & Hn1 & Hz1 & _). fold st1 in He1, Hpm1, Hn1, Hz1.
  assert (Hex : existsb (fun c => (c =? part_master (part st))%nat) co
                = true).
  { apply existsb_exists. exists pm.
    split; [exact Hin | rewrite Hpm; apply Nat.eqb_refl]. }
  rewrite Hex in He1. destruct (Hz1 Hex) as [Hzero _]. clear Hz1.
  rewrite Hflag in Hzero. rewrite Hzero.
  set (vm := curr_vm (part st1)) in *.
  assert (Hne : co <> []) by (intros E; rewrite E in Hin; destruct Hin).
  rewrite (level_claim_in_step env config (part_master (part st1)) co
             (ticks st1) 0 (env_in_step _ _)).
  assert (Hsize : 0 <= cpu_num config < U64) by (cbn; lia).
  destruct (claim_passes_team config co Hnd Hsize env env_fair
              (ticks st1) Hne (proj1 Hn)) as (Hlent & Hone & Hall & Haff).
  destruct (claim_passes env config co (ticks st1) 0) as [n' ks].
  cbn [fst snd] in Hlent, Hone, Hall, Haff.
  set (team := List.filter (fun c => assigned (ks c)) co) in *.
  destruct (level_vm_init_events config vm ks team (set_ncpus n' false 2 st1))
    as (e2 & He2 & Hp2 & _ & _ & Ha2 & Hpu2 & Hmi2).
  rewrite Hone in Hmi2.
  set (st3 := level_vm_init config vm ks team (set_ncpus n' false 2 st1)) in *.
  assert (Hwidth : length team = k').
  { subst k'. change (cpu_num config) with n in Hlent.
    clear Hall Haff. clearbody team. lia. }
  assert (Hedges : edge_nodes k config = kids_edge_nodes k' kids)
    by reflexivity.
  assert (Hloop : exists lists st4 e3,
            children_loop (vmm_create_vms env) vm team kids (fun _ => []) st3
            = Some (lists, st4)
            /\ events st4 = events st3 ++ e3
            /\ count_events is_alloc e3 = kids_nodes kids
            /\ count_events is_master_init e3 = kids_nodes kids
            /\ count_events is_push e3 = edge_nodes k config
            /\ (free_slots (nodes (part st4)) + edge_nodes k config)%nat
               = free_slots (nodes (part st3))
            /\ part_master (part st4) = part_master (part st3)
            /\ reset_ahead (part st4) = false
            /\ (forall c, In c team ->
                  covers records kids (map snd (lists c)))).
  { assert (Hcase : kids = [] \/ kids <> [])
      by (destruct kids; [now left | now right]).
    destruct Hcase as [E | Hk].
    - exists (fun _ => []), st3, [].
      assert (Hen : edge_nodes k config = 0%nat)
        by (rewrite Hedges, E; reflexivity).
      rewrite Hen, E. cbn [children_loop].
      rewrite app_nil_r.
      split; [reflexivity |]. split; [reflexivity |].
      split; [reflexivity |]. split; [reflexivity |].
      split; [reflexivity |]. split; [cbn; lia |]. split; [reflexivity |].
      split; [subst st3; rewrite Hp2; reflexivity |].
      intros c _. constructor.
    - assert (Hteam : cohort_of k' team).
      { split; [now apply List.NoDup_filter |].
        split; [| split; [| exact Hwidth]].
        - intros x Hx. apply List.filter_In in Hx as [Hx _]. now apply Hincl.
        - destruct (Hinner Hk) as [Hall' | [Hpa Hfew]].
          + rewrite (Hall ltac:(rewrite Hlen; exact Hall')). exact Hin.
          + apply Haff; [| exact Hin | exact Hpa].
            pose proof (filter_length_incl (affine config) co cs Hnd Hincl)
              as Hle.
            unfold naffine in Hfew. cbn [cpu_num config]. lia. }
      destruct (children_loop_full k' vm team kids Hteam IH (fun _ => []) st3)
        as (lists & st4 & e3 & Hl & He3 & Ha3 & Hmi3 & Hpu3 & Hfs3 & Hpm3
            & Hfl3 & Hl3).
      { subst st3. rewrite Hp2. cbn. now rewrite Hpm1. }
      { subst st3. rewrite Hp2. reflexivity. }
      { subst st3. rewrite Hp2. cbn. rewrite Hn1, <- Hedges. exact Hpool. }
      exists lists, st4, e3. rewrite Hedges.
      split; [exact Hl |]. split; [exact He3 |]. split; [exact Ha3 |].
      split; [exact Hmi3 |]. split; [exact Hpu3 |]. split; [exact Hfs3 |].
      split; [exact Hpm3 |]. split; [exact Hfl3 |].
      intros c Hc.
      destruct (Hl3 c Hc) as (added & -> & Hcov). exact Hcov. }
  destruct Hloop as (lists & st4 & e3 & Hloop & He3 & Ha3 & Hmi3 & Hpu3
                     & Hfs3 & Hpm3 & Hfl3 & Hl3).
  rewrite Hloop.
  do 3 eexists. split; [reflexivity |].
  split with (evs := (map (fun c => EvEnter c config nested) co
                      ++ [EvAllocVm (part_master (part st)) vm]) ++ e2 ++ e3);
    rewrite ?Hlen.
  - rewrite He3. subst st3. rewrite He2. cbn [set_ncpus events]. rewrite He1.
    now rewrite <- !app_assoc.
  - rewrite !count_events_app, count_events_enter by reflexivity.
    rewrite Ha2, Ha3. cbn. reflexivity.
  - rewrite !count_events_app, count_events_enter by reflexivity.
    rewrite Hmi2, Hmi3. cbn. reflexivity.
  - rewrite !count_events_app, count_events_enter by reflexivity.
    rewrite Hpu2, Hpu3. cbn. lia.
  - rewrite Hfs3. subst st3. rewrite Hp2. cbn. now rewrite Hn1.
  - rewrite Hpm3. subst st3. rewrite Hp2. cbn. exact Hpm1.
  - exact Hfl3.
  - rewrite map_map. cbn. apply map_id.
  - rewrite nsome_team. exact Hwidth.
  - intros c v Hin'. apply in_map_iff in Hin' as (c' & Heq & Hc').
    destruct (assigned (ks c')) eqn:Ha; inversion Heq; subst c v.
    constructor. apply Hl3. apply List.filter_In. now split.
Qed.

(** Every edge is recorded at least once, and at most once by each CPU of
    the cohort. *)
Lemma edge_nodes_bounds (config : vm_config) :
  forall k, builds pm cs k config -> (1 <= k)%nat ->
  (config_edges config <= edge_nodes k config <= k * config_edges config)%nat.
Proof.
  induction config as [a n kids IH] using vm_config_tree_ind.
  intros k Hb Hk.
  inversion Hb as [k0 a' n' kids' Hn Hinner Hkids]; subst k0 a' n' kids'.
  unfold config_edges. cbn [config_nodes edge_nodes pred].
  set (k' := Nat.min k (Z.to_nat n)) in *.
  assert (Hk' : (1 <= k' <= k)%nat) by (subst k'; lia).
  clearbody k'. clear Hb Hinner.
  induction IH as [|kid rest Hkid _ IHrest]; [cbn; lia |].
  inversion Hkids as [| ? ? Hbk Hrest]; subst.
  specialize (Hkid k' Hbk (proj1 Hk')). specialize (IHrest Hrest).
  assert (Hw : (1 <= vm_width k' kid <= k')%nat).
  { inversion Hbk; subst. unfold vm_width. cbn [cpu_num]. lia. }
  simpl. rewrite (config_nodes_edges kid). simpl in IHrest. nia.
Qed.

End TreeBuilderCounts.


(** A VM requiring two CPUs with one child requiring one. *)
Definition pair_child : vm_config := VmConfig 3 1 [].
Definition pair_parent : vm_config := VmConfig 3 2 [pair_child].

(** A VM requiring two CPUs, with a child and a grandchild that require
    one CPU and have affinity to CPU 0 only. *)
Definition tower_grandchild : vm_config := VmConfig 1 1 [].
Definition tower_child : vm_config := VmConfig 1 1 [tower_grandchild].
Definition tower_parent : vm_config := VmConfig 3 2 [tower_child].


Definition stack_grandchild : vm_config := VmConfig 2 1 [].
Definition stack_child : vm_config := VmConfig 2 1 [stack_grandchild].
Definition stack_parent : vm_config := VmConfig 3 2 [stack_child].


(* ================================================================== *)
(** * 19. The barriers of [vmm_init] *)
(* ================================================================== *)

Section BootBarriers.

Variable cfg : config.
Variable pf : platform.

Local Abbreviation N := (vmlist_size cfg).

(** The four barriers on [cpu_glb_sync], by the phase in which a CPU waits
    at them. *)
Definition barrier_phases : list nat := [1; 3; 5; 7]%nat.

(** No CPU is past a barrier that another CPU has not reached. *)
Definition barriers_hold (cs : list cpu_state) : Prop :=
  forall k, In k barrier_phases ->
    (exists l, In l cs /\ (k < phase (pc l))%nat) ->
    all_arrived k cs = true.

Lemma all_arrived_spec (k : nat) (cs : list cpu_state) :
  all_arrived k cs = true <-> forall l, In l cs -> (k <= phase (pc l))%nat.
Proof.
  unfold all_arrived. rewrite forallb_forall. split; intros H l Hl.
  - apply Nat.leb_le. now apply H.
  - apply Nat.leb_le. now apply H.
Qed.

Lemma lookup_In {A : Type} (l : list A) (i : nat) (x : A) :
  l !! i = Some x -> In x l.
Proof. intros H. apply list_elem_of_In. eapply list_elem_of_lookup_2; eauto. Qed.

Lemma In_insert {A : Type} (l : list A) (i : nat) (x y : A) :
  In y (<[i := x]> l) -> y = x \/ In y l.
Proof.
  intros H. apply list_elem_of_In, list_elem_of_lookup_1 in H as [j Hj].
  apply lookup_upd in Hj as [[_ ->] | [_ Hj]]; [now left | right].
  eapply lookup_In; eauto.
Qed.

(** A step takes a CPU forward, and through a barrier only when the
    barrier is open. *)
Lemma trans_phase (c : nat) tbl cs l tbl' l' :
  boot_trans cfg pf c tbl cs l tbl' l' -> N <> 0%nat ->
  (phase (pc l) <= phase (pc l'))%nat
  /\ forall k, In k barrier_phases ->
       (phase (pc l) <= k)%nat -> (k < phase (pc l'))%nat ->
       all_arrived k cs = true.
Proof.
  intros Ht HN. unfold barrier_phases.
  destruct Ht as [| p pte evs Hm | Hpc _ _ | vc e here Hh | vc e here Hh | e Hpc].
  - split; [lia |]. intros; lia.
  - cbn [moved pc].
    destruct Hm;
      match goal with H : pc _ = _ |- _ => rewrite H end;
      try contradiction;
      destruct (l_assigned l); try destruct (l_master l); cbn [phase];
      (split; [lia |]);
      intros k Hk Hlo Hhi; cbn in Hk;
      repeat (destruct Hk as [<- | Hk]; [try lia; assumption |]);
      try destruct Hk; try lia.
  - cbn [moved pc]. rewrite Hpc. cbn. split; [lia |].
    intros k Hk Hlo Hhi. cbn in Hk. intuition lia.
  - inversion Hh; cbn; (split; [lia |]); intros k Hk Hlo Hhi; cbn in Hk; intuition lia.
  - destruct Hh as [[Hp ->] | [Hp ->]];
      destruct (pc l) eqn:Epc; try discriminate Hp; cbn;
      (split; [lia |]); intros k Hk Hlo Hhi; cbn in Hk; intuition lia.
  - cbn [moved pc]. rewrite Hpc. cbn. split; [lia |].
    intros k Hk Hlo Hhi. cbn in Hk. intuition lia.
Qed.

Lemma barriers_hold_step (s : boot_state) (c : nat) :
  N <> 0%nat -> barriers_hold (cpus s) ->
  barriers_hold (cpus (boot_step cfg pf c s)).
Proof.
  intros HN Hb. unfold boot_step.
  destruct (cpus s !! c) as [l|] eqn:Hc; [| exact Hb].
  pose proof (cpu_step_trans cfg pf c (table s) (cpus s) l) as Ht.
  destruct (cpu_step cfg pf c (table s) (cpus s) l) as [tbl' l'].
  cbn [fst snd cpus] in *.
  destruct (trans_phase _ _ _ _ _ _ Ht HN) as [Hmono Hcross].
  pose proof (lookup_In _ _ _ Hc) as Hl.
  intros k Hk (x & Hx & Hlt).
  assert (Hold : all_arrived k (cpus s) = true).
  { apply In_insert in Hx as [-> | Hx]; [| apply Hb; eauto].
    destruct (le_lt_dec (phase (pc l)) k) as [Hle | Hgt].
    - now apply Hcross.
    - apply Hb; eauto. }
  rewrite all_arrived_spec in *. intros y Hy.
  apply In_insert in Hy as [-> | Hy]; [| now apply Hold].
  specialize (Hold l Hl). lia.
Qed.

Lemma barriers_hold_run (sched : list nat) :
  N <> 0%nat -> forall s, barriers_hold (cpus s) ->
  barriers_hold (cpus (boot_run cfg pf sched s)).
Proof.
  intros HN. induction sched as [|c rest IH]; intros s Hb; cbn [boot_run];
    [exact Hb |].
  apply IH. now apply barriers_hold_step.
Qed.

Lemma barriers_hold_init (ncpu : nat) : barriers_hold (cpus (boot_init ncpu)).
Proof.
  intros k Hk (l & Hl & Hlt). cbn in Hl.
  apply list_elem_of_In, elem_of_replicate in Hl as [-> _].
  cbn in Hlt. lia.
Qed.

Lemma barriers_hold_reachable (ncpu : nat) (s : boot_state) :
  N <> 0%nat -> boot_reachable cfg pf ncpu s -> barriers_hold (cpus s).
Proof.
  intros HN [sched ->]. apply barriers_hold_run; [exact HN |].
  apply barriers_hold_init.
Qed.

End BootBarriers.

(* ================================================================== *)
(** * 20. What a CPU's own steps preserve *)
(* ================================================================== *)

Section BootLocal.

Variable cfg : config.
Variable pf : platform.
Variable P : nat -> cpu_state -> Prop.

Hypothesis P_init : forall c, P c cpu_init.
Hypothesis P_step : forall c tbl cs l,
  P c l -> P c (cpu_step cfg pf c tbl cs l).2.

Lemma local_inv_step (s : boot_state) (c0 : nat) :
  (forall c l, cpus s !! c = Some l -> P c l) ->
  forall c l, cpus (boot_step cfg pf c0 s) !! c = Some l -> P c l.
Proof.
  intros Hs c l. unfold boot_step.
  destruct (cpus s !! c0) as [l0|] eqn:Hc0; [| apply Hs].
  pose proof (P_step c0 (table s) (cpus s) l0 (Hs _ _ Hc0)) as Hp.
  destruct (cpu_step cfg pf c0 (table s) (cpus s) l0) as [tbl' l'].
  cbn [cpus snd] in *. intros Hl.
  apply lookup_upd in Hl as [[-> ->] | [_ Hl]]; [exact Hp | now apply Hs].
Qed.

Lemma local_inv_run (sched : list nat) :
  forall s, (forall c l, cpus s !! c = Some l -> P c l) ->
  forall c l, cpus (boot_run cfg pf sched s) !! c = Some l -> P c l.
Proof.
  induction sched as [|c0 rest IH]; intros s Hs; cbn [boot_run]; [exact Hs |].
  apply IH. now apply local_inv_step.
Qed.

Lemma local_inv_reachable (ncpu : nat) (s : boot_state) :
  boot_reachable cfg pf ncpu s ->
  forall c l, cpus s !! c = Some l -> P c l.
Proof.
  intros [sched ->]. apply local_inv_run. intros c l Hl. cbn in Hl.
  apply lookup_replicate in Hl as [-> _]. apply P_init.
Qed.

End BootLocal.

(** The call that frees the assignment table. *)
Definition is_table_free (ev : boot_event) : bool :=
  match ev with EvTableFree => true | _ => false end.

Section BootTraces.

Variable cfg : config.
Variable pf : platform.

Local Abbreviation N := (vmlist_size cfg).

(** What the calls a CPU has issued say about where it is and about its
    locals. *)
Record trace_ok (c : nat) (l : cpu_state) : Prop := TraceOk {
  tr_free : In EvTableFree (l_trace l) ->
            c = CPU_MASTER pf /\ (9 <= phase (pc l))%nat;
  tr_once : (length (List.filter is_table_free (l_trace l)) <= 1)%nat;
  tr_freed : N <> 0%nat -> c = CPU_MASTER pf -> (9 <= phase (pc l))%nat ->
             In EvTableFree (l_trace l);
  tr_part : forall n, In (EvPartitionInit n) (l_trace l) ->
            (7 <= phase (pc l))%nat;
  tr_install : forall p, In (EvPteInstall p) (l_trace l) ->
               l_pte l = p /\ (7 <= phase (pc l))%nat;
  tr_ipc : forall v m, In (EvIpcInit v m) (l_trace l) ->
           (9 <= phase (pc l))%nat /\ m = l_master l
           /\ v = (if l_assigned l then Some (l_vm_id l) else None);
  tr_create : forall i, In (EvCreateVms i) (l_trace l) ->
              pc l = PcRun /\ i = l_vm_id l
}.

Lemma trace_ok_init (c : nat) : trace_ok c cpu_init.
Proof. split; cbn; try tauto; try lia. Qed.

Lemma filter_free_app (t evs : list boot_event) :
  length (List.filter is_table_free (t ++ evs))
  = (length (List.filter is_table_free t)
     + length (List.filter is_table_free evs))%nat.
Proof. now rewrite List.filter_app, length_app. Qed.

Lemma filter_free_none (t : list boot_event) :
  ~ In EvTableFree t -> length (List.filter is_table_free t) = 0%nat.
Proof.
  induction t as [|ev t IH]; intros Hn; [reflexivity |].
  cbn. destruct ev; cbn; try (apply IH; intros H; apply Hn; now right).
  exfalso. apply Hn. now left.
Qed.

(** Before the last barrier a CPU has issued none of these calls. *)
Lemma trace_ok_early (c : nat) (l l' : cpu_state) (evs : list boot_event) :
  trace_ok c l -> (phase (pc l) < 7)%nat -> (phase (pc l') <= 7)%nat ->
  l_trace l' = l_trace l ++ evs ->
  (forall ev, In ev evs ->
     ev = EvArchInit \/ ev = EvIommuInit
     \/ (exists n, ev = EvPartitionInit n) /\ phase (pc l') = 7%nat) ->
  trace_ok c l'.
Proof.
  intros [Hfree Honce Hfreed Hpart Hinst Hipc Hcreate] Hlo Hlo' Ht Hevs.
  assert (Hnew : forall ev, In ev (l_trace l') ->
            In ev (l_trace l)
            \/ ev = EvArchInit \/ ev = EvIommuInit
            \/ (exists n, ev = EvPartitionInit n) /\ phase (pc l') = 7%nat).
  { intros ev Hin. rewrite Ht in Hin. apply in_app_or in Hin as [Hin | Hin];
      [now left | right; now apply Hevs]. }
  split.
  - intros Hin. apply Hnew in Hin as [Hin | [Hin | [Hin | [[n Hin] _]]]];
      try discriminate. apply Hfree in Hin. lia.
  - rewrite Ht, filter_free_app.
    rewrite (filter_free_none (l_trace l))
      by (intros Hin; apply Hfree in Hin; lia).
    rewrite (filter_free_none evs); [lia |].
    intros Hin. apply Hevs in Hin as [Hin | [Hin | [[n Hin] _]]];
      discriminate.
  - intros _ _ H9. lia.
  - intros n Hin. apply Hnew in Hin as [Hin | [Hin | [Hin | [_ H7]]]];
      try discriminate; [apply Hpart in Hin |]; lia.
  - intros q Hin. apply Hnew in Hin as [Hin | [Hin | [Hin | [[n Hin] _]]]];
      try discriminate. apply Hinst in Hin. lia.
  - intros v m Hin. apply Hnew in Hin as [Hin | [Hin | [Hin | [[n Hin] _]]]];
      try discriminate. apply Hipc in Hin. lia.
  - intros i Hin. apply Hnew in Hin as [Hin | [Hin | [Hin | [[n Hin] _]]]];
      try discriminate. apply Hcreate in Hin as [Hpc _].
    rewrite Hpc in Hlo. cbn in Hlo. lia.
Qed.

Lemma trace_ok_trans (c : nat) tbl cs l tbl' l' :
  boot_trans cfg pf c tbl cs l tbl' l' -> trace_ok c l -> trace_ok c l'.
Proof.
  intros Ht [Hfree Honce Hfreed Hpart Hinst Hipc Hcreate].
  destruct Ht as [| p pte evs Hm | Hpc HN Hc | vc e here Hh Hna
                  | vc e here Hh Hna | e Hpc].
  - now split.
  - assert (Hnofree : (phase (pc l) < 9)%nat -> ~ In EvTableFree (l_trace l)).
    { intros Hlt Hin. apply Hfree in Hin. lia. }
    destruct Hm;
      match goal with H : pc l = _ |- _ => rewrite H in * end;
      cbn [phase] in *;
      (split; cbn [moved pc l_master l_assigned l_vm_id l_pte l_trace phase];
       [ intros Hin; apply in_app_or in Hin as [Hin | Hin];
         [ apply Hfree in Hin; destruct Hin; split; [assumption | lia]
         | try (destruct (c =? CPU_MASTER pf)%nat eqn:Ec;
                [apply Nat.eqb_eq in Ec |]);
           cbn in Hin; intuition (try discriminate; try lia) ]
       | rewrite filter_free_app;
         try (rewrite (filter_free_none (l_trace l)) by (apply Hnofree; lia));
         destruct (c =? CPU_MASTER pf)%nat; cbn; lia
       | intros HN' Hc' Hph; apply in_or_app;
         try (left; apply Hfreed; [assumption | assumption | lia]);
         try (exfalso; destruct (l_assigned l); try destruct (l_master l);
              cbn in Hph; lia);
         try (right; subst c; rewrite Nat.eqb_refl; cbn; tauto);
         try (exfalso; congruence)
       | intros n Hin; apply in_app_or in Hin as [Hin | Hin];
         [ apply Hpart in Hin; lia
         | try (destruct (c =? CPU_MASTER pf)%nat);
           cbn in Hin; intuition (try discriminate) ]
       | intros q Hin; apply in_app_or in Hin as [Hin | Hin];
         [ apply Hinst in Hin; destruct Hin; split; [first [assumption | lia] | lia]
         | try (destruct (c =? CPU_MASTER pf)%nat);
           cbn in Hin; intuition (try discriminate; try congruence; try lia) ]
       | intros v m Hin; apply in_app_or in Hin as [Hin | Hin];
         [ apply Hipc in Hin; destruct Hin as (? & ? & ?);
           repeat split; try assumption; lia
         | try (destruct (c =? CPU_MASTER pf)%nat);
           cbn in Hin;
           repeat match goal with
                  | H : _ \/ _ |- _ => destruct H
                  | H : False |- _ => destruct H
                  | H : EvIpcInit _ _ = EvIpcInit _ _ |- _ =>
                      injection H as <- <-
                  end; try discriminate;
           match goal with H : l_assigned l = _ |- _ => rewrite H end;
           repeat split; lia ]
       | intros vi Hin; apply in_app_or in Hin as [Hin | Hin];
         [ apply Hcreate in Hin; destruct Hin as (? & ?); congruence
         | try (destruct (c =? CPU_MASTER pf)%nat);
           cbn in Hin;
           repeat match goal with
                  | H : _ \/ _ |- _ => destruct H
                  | H : False |- _ => destruct H
                  | H : EvCreateVms _ = EvCreateVms _ |- _ =>
                      injection H as <-
                  end; try discriminate;
           repeat split; try reflexivity ] ]).
  - apply (trace_ok_early c l _ [EvArchInit; EvIommuInit]);
      [now split | rewrite Hpc; cbn; lia | cbn; lia | reflexivity |].
    intros ev Hin. cbn in Hin. destruct Hin as [<- | [<- | []]]; tauto.
  - apply (trace_ok_early c l _ []);
      [now split | | | cbn; now rewrite app_nil_r | intros ev []];
      inversion Hh; cbn; lia.
  - apply (trace_ok_early c l _ []);
      [now split | | | cbn; now rewrite app_nil_r | intros ev []];
      destruct Hh as [[Hp ->] | [Hp ->]];
      destruct (pc l); try discriminate Hp; cbn; lia.
  - apply (trace_ok_early c l _ [EvPartitionInit (va_ncpus e)]);
      [now split | rewrite Hpc; cbn; lia | cbn; lia | reflexivity |].
    intros ev Hin. cbn in Hin. destruct Hin as [<- | []].
    right; right. split; [eauto | reflexivity].
Qed.

Lemma trace_ok_reachable (ncpu : nat) (s : boot_state) (c : nat)
    (l : cpu_state) :
  boot_reachable cfg pf ncpu s -> cpus s !! c = Some l -> trace_ok c l.
Proof.
  intros Hr. revert c l.
  apply (local_inv_reachable cfg pf trace_ok trace_ok_init) with (ncpu := ncpu);
    [| exact Hr].
  intros c tbl cs l.
  apply (trace_ok_trans c tbl cs l _ _ (cpu_step_trans cfg pf c tbl cs l)).
Qed.

End BootTraces.

(* ================================================================== *)
(** * 21. The assignment table between allocation and release *)
(* ================================================================== *)

Section BootTable.

Variable cfg : config.
Variable pf : platform.

Local Abbreviation N := (vmlist_size cfg).

(** Once [CPU_MASTER] is past the allocation, the table has one entry for
    each VM of the configuration. *)
Definition master_ready (s : boot_state) : Prop :=
  forall lm, cpus s !! CPU_MASTER pf = Some lm ->
    (1 <= phase (pc lm))%nat -> length (table s) = N.

Lemma master_ready_step (s : boot_state) (c : nat) :
  N <> 0%nat -> master_ready s -> master_ready (boot_step cfg pf c s).
Proof.
  intros HN Hs. unfold boot_step.
  destruct (cpus s !! c) as [l|] eqn:Hc; [| exact Hs].
  pose proof (cpu_step_trans cfg pf c (table s) (cpus s) l) as Ht.
  destruct (cpu_step cfg pf c (table s) (cpus s) l) as [tbl' l'].
  cbn [fst snd] in Ht. intros lm Hlm Hph. cbn [cpus table] in *.
  assert (Hkeep : (1 <= phase (pc l))%nat -> c = CPU_MASTER pf ->
                  length (table s) = N).
  { intros H1 ->. now apply (Hs l). }
  assert (Hother : c <> CPU_MASTER pf -> length (table s) = N).
  { intros Hne. apply (Hs lm); [| exact Hph].
    apply lookup_upd in Hlm as [[Heq _] | [_ Hlm]]; [congruence | exact Hlm]. }
  destruct (Nat.eq_dec c (CPU_MASTER pf)) as [Heq | Hne].
  2:{ destruct Ht; rewrite ?length_insert, ?length_replicate;
        auto; congruence. }
  rewrite <- Heq in Hlm. rewrite (lookup_upd_eq _ _ _ _ Hc) in Hlm.
  injection Hlm as <-.
  destruct Ht as [| p pte evs Hm | Hpc _ _ | vc e here Hh Hna
                  | vc e here Hh Hna | e Hpc];
    rewrite ?length_insert, ?length_replicate; try reflexivity.
  - auto.
  - destruct Hm; try (apply Hkeep; [| exact Heq];
      match goal with H : pc l = _ |- _ => rewrite H end; cbn; lia);
      cbn in Hph; try lia; congruence.
  - apply Hkeep; [| exact Heq]. inversion Hh; cbn; lia.
  - apply Hkeep; [| exact Heq].
    destruct Hh as [[Hp _] | [Hp _]]; rewrite Hp; cbn; lia.
  - apply Hkeep; [| exact Heq]. rewrite Hpc. cbn. lia.
Qed.

Lemma master_ready_reachable (ncpu : nat) (s : boot_state) :
  N <> 0%nat -> boot_reachable cfg pf ncpu s -> master_ready s.
Proof.
  intros HN [sched ->].
  assert (H : forall s0, master_ready s0 ->
                         master_ready (boot_run cfg pf sched s0)).
  { induction sched as [|c rest IH]; intros s0 Hs0; cbn [boot_run];
      [exact Hs0 |]. apply IH. now apply master_ready_step. }
  apply H. intros lm Hlm Hph. cbn in Hlm.
  apply lookup_replicate in Hlm as [-> _]. cbn in Hph. lia.
Qed.

(** Past the last barrier a step neither reads nor writes the table. *)
Lemma late_step_ignores_table (c : nat) (cs : list cpu_state)
    (l : cpu_state) (tbl1 tbl2 : list vm_assignment) :
  (7 <= phase (pc l))%nat ->
  cpu_step cfg pf c tbl1 cs l
  = (tbl1, (cpu_step cfg pf c tbl2 cs l).2).
Proof.
  intros Hph. unfold cpu_step.
  destruct (pc l); cbn in Hph; try lia;
    repeat match goal with
           | |- context [if ?b then _ else _] => destruct b
           end; reflexivity.
Qed.

(** When the table cannot be allocated, [CPU_MASTER] stops in [ERROR]. *)
Lemma master_stops_step (c : nat) tbl cs l :
  table_alloc_ok pf = false -> N <> 0%nat ->
  (c = CPU_MASTER pf -> phase (pc l) = 0%nat) ->
  c = CPU_MASTER pf -> phase (pc (cpu_step cfg pf c tbl cs l).2) = 0%nat.
Proof.
  intros Hno HN Hl Hc. specialize (Hl Hc). unfold cpu_step.
  destruct (pc l) eqn:Hpc; cbn in Hl; try discriminate; cbn [snd].
  - apply Nat.eqb_neq in HN. rewrite HN.
    apply Nat.eqb_eq in Hc. rewrite Hc, Hno. reflexivity.
  - now rewrite Hpc.
Qed.

Lemma no_table_step (c : nat) cs l :
  table_alloc_ok pf = false ->
  (cpu_step cfg pf c [] cs l).1 = [].
Proof.
  intros Hno. unfold cpu_step, pass_iter, publish.
  destruct (pc l); cbn [fst];
    repeat match goal with
           | |- context [[] !! ?i] => rewrite (lookup_nil i)
           | |- context [table_alloc_ok pf] => rewrite Hno
           | |- context [match ?x with _ => _ end] => destruct x
           end; reflexivity.
Qed.

Lemma no_table_reachable (ncpu : nat) (s : boot_state) :
  table_alloc_ok pf = false -> boot_reachable cfg pf ncpu s -> table s = [].
Proof.
  intros Hno [sched ->].
  assert (H : forall s0, table s0 = [] ->
                         table (boot_run cfg pf sched s0) = []).
  { induction sched as [|c rest IH]; intros s0 Hs0; cbn [boot_run];
      [exact Hs0 |]. apply IH. unfold boot_step.
    destruct (cpus s0 !! c) as [l|]; [| exact Hs0].
    pose proof (no_table_step c (cpus s0) l Hno) as Hst.
    rewrite Hs0.
    destruct (cpu_step cfg pf c [] (cpus s0) l) as [tbl' l']. exact Hst. }
  now apply H.
Qed.

(** A step of an assigned CPU keeps its assignment. *)
Lemma assigned_trans (c : nat) tbl cs l tbl' l' :
  boot_trans cfg pf c tbl cs l tbl' l' -> l_assigned l = true ->
  l_assigned l' = true /\ l_vm_id l' = l_vm_id l /\ l_master l' = l_master l.
Proof.
  intros Ht Ha. destruct Ht; cbn; auto; congruence.
Qed.

(** A step adds calls to the trace of a CPU, and takes none away. *)
Lemma trace_grows_trans (c : nat) tbl cs l tbl' l' :
  boot_trans cfg pf c tbl cs l tbl' l' ->
  exists evs, l_trace l' = l_trace l ++ evs.
Proof.
  intros Ht. destruct Ht; cbn; eauto; exists []; now rewrite app_nil_r.
Qed.

End BootTable.

Section BootShape.

Variable cfg : config.
Variable pf : platform.

(** No CPU joins or leaves during the boot. *)
Lemma boot_step_length (s : boot_state) (c : nat) :
  length (cpus (boot_step cfg pf c s)) = length (cpus s).
Proof.
  unfold boot_step. destruct (cpus s !! c) as [l|]; [| reflexivity].
  destruct (cpu_step cfg pf c (table s) (cpus s) l) as [tbl' l'].
  cbn [cpus]. apply length_insert.
Qed.

Lemma boot_run_length (sched : list nat) :
  forall s, length (cpus (boot_run cfg pf sched s)) = length (cpus s).
Proof.
  induction sched as [|c rest IH]; intros s; cbn [boot_run]; [reflexivity |].
  rewrite IH. apply boot_step_length.
Qed.

Lemma boot_reachable_length (ncpu : nat) (s : boot_state) :
  boot_reachable cfg pf ncpu s -> length (cpus s) = ncpu.
Proof.
  intros [sched ->]. rewrite boot_run_length. cbn. apply length_replicate.
Qed.

Lemma boot_reachable_cpu (ncpu : nat) (s : boot_state) (c : nat) :
  boot_reachable cfg pf ncpu s -> (c < ncpu)%nat ->
  exists l, cpus s !! c = Some l.
Proof.
  intros Hr Hc. apply lookup_lt_is_Some_2.
  now rewrite (boot_reachable_length ncpu s Hr).
Qed.

(** The other CPUs' steps leave a CPU as it is. *)
Lemma boot_step_other (s : boot_state) (c0 c : nat) :
  c0 <> c -> cpus (boot_step cfg pf c0 s) !! c = cpus s !! c.
Proof.
  intros Hne. unfold boot_step.
  destruct (cpus s !! c0) as [l|]; [| reflexivity].
  destruct (cpu_step cfg pf c0 (table s) (cpus s) l) as [tbl' l'].
  cbn [cpus]. now apply list_lookup_insert_ne.
Qed.

Lemma boot_step_self (s : boot_state) (c : nat) (l : cpu_state) :
  cpus s !! c = Some l ->
  cpus (boot_step cfg pf c s) !! c
  = Some (cpu_step cfg pf c (table s) (cpus s) l).2
  /\ table (boot_step cfg pf c s)
     = (cpu_step cfg pf c (table s) (cpus s) l).1.
Proof.
  intros Hc. unfold boot_step. rewrite Hc.
  destruct (cpu_step cfg pf c (table s) (cpus s) l) as [tbl' l'].
  cbn [cpus table fst snd]. split; [| reflexivity].
  eapply lookup_upd_eq; eauto.
Qed.

Lemma boot_run_app (sched1 sched2 : list nat) (s : boot_state) :
  boot_run cfg pf (sched1 ++ sched2) s
  = boot_run cfg pf sched2 (boot_run cfg pf sched1 s).
Proof.
  revert s. induction sched1 as [|c rest IH]; intros s; cbn; [reflexivity |].
  apply IH.
Qed.

Lemma boot_reachable_step (ncpu : nat) (s : boot_state) (c : nat) :
  boot_reachable cfg pf ncpu s ->
  boot_reachable cfg pf ncpu (boot_step cfg pf c s).
Proof.
  intros [sched ->]. exists (sched ++ [c]). now rewrite boot_run_app.
Qed.

Lemma boot_reachable_run (ncpu : nat) (s : boot_state) (sched : list nat) :
  boot_reachable cfg pf ncpu s ->
  boot_reachable cfg pf ncpu (boot_run cfg pf sched s).
Proof.
  intros [sched0 ->]. exists (sched0 ++ sched). now rewrite boot_run_app.
Qed.

(** In a run, the trace of a CPU grows and an assignment stays. *)
Lemma cpu_run_keeps (sched : list nat) :
  forall s c l, cpus s !! c = Some l ->
  exists l' evs,
    cpus (boot_run cfg pf sched s) !! c = Some l'
    /\ l_trace l' = l_trace l ++ evs
    /\ (l_assigned l = true ->
        l_assigned l' = true /\ l_vm_id l' = l_vm_id l
        /\ l_master l' = l_master l).
Proof.
  induction sched as [|c0 rest IH]; intros s c l Hc; cbn [boot_run].
  { exists l, []. rewrite app_nil_r. auto. }
  destruct (Nat.eq_dec c0 c) as [-> | Hne].
  - destruct (boot_step_self s c l Hc) as [Hc' _].
    pose proof (cpu_step_trans cfg pf c (table s) (cpus s) l) as Ht.
    destruct (trace_grows_trans cfg pf _ _ _ _ _ _ Ht) as [evs1 Hevs1].
    destruct (IH _ _ _ Hc') as (l' & evs & Hl' & Htr & Hkeep).
    exists l', (evs1 ++ evs). split; [exact Hl' |]. split.
    + rewrite Htr, Hevs1. now rewrite app_assoc.
    + intros Ha.
      destruct (assigned_trans cfg pf _ _ _ _ _ _ Ht Ha) as (Ha' & Hv & Hm).
      destruct (Hkeep Ha') as (H1 & H2 & H3). repeat split; congruence.
  - apply IH. now rewrite boot_step_other.
Qed.

(** Induction over the reachable states. *)
Lemma boot_reachable_induction (ncpu : nat) (Q : boot_state -> Prop) :
  Q (boot_init ncpu) ->
  (forall s c, boot_reachable cfg pf ncpu s -> Q s ->
               Q (boot_step cfg pf c s)) ->
  forall s, boot_reachable cfg pf ncpu s -> Q s.
Proof.
  intros Hinit Hstep s [sched ->].
  induction sched as [|c rest IH] using rev_ind; [exact Hinit |].
  rewrite boot_run_app. cbn [boot_run]. apply Hstep; [| exact IH].
  now exists rest.
Qed.

End BootShape.

(* ================================================================== *)
(** * 22. Properties of the boot protocol: barriers, table, assignment *)
(* ================================================================== *)

(** X1.  The barriers of [vmm_init] order the phases of the boot: in every
    reachable state of a configuration with at least one VM, a CPU that
    is past one of the four barriers finds every other CPU at that barrier
    or past it.  So no CPU is in the affinity pass while another one is in
    the fallback pass, and while a CPU bootstraps the partition (master
    path, spin or install) no CPU is still in [vmm_init]'s prologue or in
    one of the two passes. *)
Theorem barriers_order_the_boot (cfg : config) (pf : platform) (ncpu : nat)
    (s : boot_state) (c1 c2 : nat) (l1 l2 : cpu_state) :
  vmlist_size cfg <> 0%nat -> boot_reachable cfg pf ncpu s ->
  cpus s !! c1 = Some l1 -> cpus s !! c2 = Some l2 ->
  (forall k, In k barrier_phases -> (k < phase (pc l1))%nat ->
             (k <= phase (pc l2))%nat)
  /\ (forall i j, pc l1 = PcPass2 i -> pc l2 <> PcPass1 j)
  /\ (pc l1 = PcPublish \/ pc l1 = PcSpin \/ pc l1 = PcInstall ->
      pc l2 <> PcStart /\ pc l2 <> PcBarrier1 /\ pc l2 <> PcBarrier2
      /\ forall i, pc l2 <> PcPass1 i /\ pc l2 <> PcPass2 i).
Proof.
  intros HN Hr H1 H2.
  pose proof (barriers_hold_reachable cfg pf ncpu s HN Hr) as Hb.
  assert (Hord : forall k, In k barrier_phases -> (k < phase (pc l1))%nat ->
                           (k <= phase (pc l2))%nat).
  { intros k Hk Hlt.
    assert (Ha : all_arrived k (cpus s) = true).
    { apply Hb; [exact Hk |]. exists l1. split; [| exact Hlt].
      eapply lookup_In; eauto. }
    rewrite all_arrived_spec in Ha. apply Ha. eapply lookup_In; eauto. }
  split; [exact Hord |]. split.
  - intros i j Hp1 Hp2. specialize (Hord 3%nat).
    rewrite Hp1, Hp2 in Hord. cbn in Hord.
    assert (3 <= 2)%nat by (apply Hord; [tauto | lia]). lia.
  - intros Hp. specialize (Hord 5%nat).
    assert (H5 : (5 <= phase (pc l2))%nat).
    { apply Hord; [cbn; tauto |].
      destruct Hp as [-> | [-> | ->]]; cbn; lia. }
    assert (Hno : forall p, (phase p < 5)%nat -> pc l2 <> p).
    { intros p Hlt Hpc. rewrite Hpc in H5. lia. }
    split; [| split; [| split; [| intros i; split]]]; apply Hno; cbn; lia.
Qed.

Lemma barriers_order_the_boot_witness :
  let cfg := Config [VmConfig 3 2 []] in
  let pf := Platform 0 true (fun c => 4096 + Z.of_nat c) in
  let s := boot_run cfg pf (round_robin 4 7 ++ [0]%nat) (boot_init 4) in
  exists l1 l2,
    cpus s !! 0%nat = Some l1 /\ cpus s !! 3%nat = Some l2
    /\ pc l1 = PcPublish /\ pc l2 <> PcStart /\ pc l2 <> PcBarrier1.
Proof.
  cbv zeta.
  set (cfg := Config [VmConfig 3 2 []]).
  set (pf := Platform 0 true (fun c => 4096 + Z.of_nat c)).
  set (s := boot_run cfg pf (round_robin 4 7 ++ [0]%nat) (boot_init 4)).
  destruct (cpus s !! 0%nat) as [l1|] eqn:H1;
    [| vm_compute in H1; discriminate H1].
  destruct (cpus s !! 3%nat) as [l2|] eqn:H2;
    [| vm_compute in H2; discriminate H2].
  exists l1, l2. split; [reflexivity |]. split; [reflexivity |].
  assert (Hp : pc l1 = PcPublish).
  { vm_compute in H1. injection H1 as <-. reflexivity. }
  split; [exact Hp |].
  destruct (barriers_order_the_boot cfg pf 4 s 0 3 l1 l2) as (_ & _ & Hb).
  - cbn. lia.
  - now exists (round_robin 4 7 ++ [0]%nat).
  - exact H1.
  - exact H2.
  - destruct Hb as (Ha & Hb & _); [now left |]. now split.
Defined.

(** X2.  The assignment table is released once, by [CPU_MASTER], and only
    after its last use: [CPU_MASTER] has called [mem_free_vpage] by the time
    it leaves [vmm_init] for [vmm_create_vms] or [cpu_idle] (when there is
    a VM to run), no CPU calls it twice, and once the call has been made
    every CPU is past the partition bootstrap, where its steps neither read
    nor write [vm_assign]. *)
Theorem table_freed_once_after_last_use (cfg : config) (pf : platform)
    (ncpu : nat) (s : boot_state) :
  boot_reachable cfg pf ncpu s ->
  (forall c l, cpus s !! c = Some l ->
     (length (List.filter is_table_free (l_trace l)) <= 1)%nat
     /\ (In EvTableFree (l_trace l) -> c = CPU_MASTER pf)
     /\ (vmlist_size cfg <> 0%nat -> c = CPU_MASTER pf ->
         (9 <= phase (pc l))%nat -> In EvTableFree (l_trace l)))
  /\ ((exists c l, cpus s !! c = Some l /\ In EvTableFree (l_trace l)) ->
      forall c2 l2, cpus s !! c2 = Some l2 ->
        (7 <= phase (pc l2))%nat
        /\ forall tbl, cpu_step cfg pf c2 tbl (cpus s) l2
                       = (tbl, (cpu_step cfg pf c2 (table s) (cpus s) l2).2)).
Proof.
  intros Hr. split.
  - intros c l Hc.
    destruct (trace_ok_reachable cfg pf ncpu s c l Hr Hc)
      as [Hfree Honce Hfreed _ _ _ _].
    split; [exact Honce |]. split; [| exact Hfreed].
    intros Hin. now apply Hfree.
  - intros (c & l & Hc & Hin) c2 l2 Hc2.
    pose proof (boot_reachable_inv cfg pf ncpu s Hr) as Hinv.
    assert (HN : vmlist_size cfg <> 0%nat).
    { intros HN.
      destruct (ok_novms cfg pf c l (inv_cpu cfg pf s Hinv c l Hc) HN)
        as [[_ Ht] | [_ Ht]].
      - rewrite Ht in Hin. destruct Hin.
      - apply Ht in Hin as [Hin | Hin]; discriminate Hin. }
    destruct (trace_ok_reachable cfg pf ncpu s c l Hr Hc)
      as [Hfree _ _ _ _ _ _].
    destruct (Hfree Hin) as [_ H9].
    pose proof (barriers_hold_reachable cfg pf ncpu s HN Hr) as Hb.
    assert (Ha : all_arrived 7 (cpus s) = true).
    { apply Hb; [cbn; tauto |]. exists l. split; [| lia].
      eapply lookup_In; eauto. }
    rewrite all_arrived_spec in Ha.
    assert (H7 : (7 <= phase (pc l2))%nat).
    { apply Ha. eapply lookup_In; eauto. }
    split; [exact H7 |]. intros tbl. now apply late_step_ignores_table.
Qed.

Lemma table_freed_once_after_last_use_witness :
  let cfg := Config [VmConfig 3 2 []] in
  let pf := Platform 0 true (fun c => 4096 + Z.of_nat c) in
  let s := boot_run cfg pf (round_robin 4 12) (boot_init 4) in
  exists l l3,
    cpus s !! 0%nat = Some l /\ cpus s !! 3%nat = Some l3
    /\ In EvTableFree (l_trace l) /\ (7 <= phase (pc l3))%nat.
Proof.
  cbv zeta.
  set (cfg := Config [VmConfig 3 2 []]).
  set (pf := Platform 0 true (fun c => 4096 + Z.of_nat c)).
  set (s := boot_run cfg pf (round_robin 4 12) (boot_init 4)).
  destruct (cpus s !! 0%nat) as [l|] eqn:H0;
    [| vm_compute in H0; discriminate H0].
  destruct (cpus s !! 3%nat) as [l3|] eqn:H3;
    [| vm_compute in H3; discriminate H3].
  exists l, l3. split; [reflexivity |]. split; [reflexivity |].
  assert (Hr : boot_reachable cfg pf 4 s)
    by now exists (round_robin 4 12).
  destruct (table_freed_once_after_last_use cfg pf 4 s Hr) as [Hall Hlate].
  assert (Hin : In EvTableFree (l_trace l)).
  { apply (Hall 0%nat l H0); [cbn; lia | reflexivity |].
    vm_compute in H0. injection H0 as <-. cbn. lia. }
  split; [exact Hin |].
  apply (Hlate (ex_intro _ 0%nat (ex_intro _ l (conj H0 Hin))) 3%nat l3 H3).
Defined.

(** X3.  When [mem_alloc_page] returns no assignment table, the boot stops
    at the first barrier: [CPU_MASTER] is in [ERROR] (or still on its way
    there), every other CPU is before or at the first barrier, the table is
    never written, no CPU gets an assignment and no partition is
    initialised, no page-table entry installed and no VM created. *)
Theorem allocation_failure_stops_the_boot (cfg : config) (pf : platform)
    (ncpu : nat) (s : boot_state) (c : nat) (l : cpu_state) :
  table_alloc_ok pf = false -> vmlist_size cfg <> 0%nat ->
  (CPU_MASTER pf < ncpu)%nat ->
  boot_reachable cfg pf ncpu s -> cpus s !! c = Some l ->
  table s = []
  /\ (pc l = PcStart \/ pc l = PcBarrier1
      \/ (pc l = PcError /\ c = CPU_MASTER pf))
  /\ (c = CPU_MASTER pf -> pc l <> PcBarrier1)
  /\ l_assigned l = false
  /\ (forall ev, In ev (l_trace l) -> ~ boot_activity ev).
Proof.
  intros Hno HN Hm Hr Hc.
  pose proof (boot_reachable_inv cfg pf ncpu s Hr) as Hinv.
  pose proof (inv_cpu cfg pf s Hinv c l Hc) as Hok.
  assert (Hstop : forall c0 l0, cpus s !! c0 = Some l0 ->
                    c0 = CPU_MASTER pf -> phase (pc l0) = 0%nat).
  { apply (local_inv_reachable cfg pf
             (fun c0 l0 => c0 = CPU_MASTER pf -> phase (pc l0) = 0%nat))
      with (ncpu := ncpu); [reflexivity | | exact Hr].
    intros c0 tbl cs l0 Hl0 Hc0. now apply master_stops_step. }
  destruct (boot_reachable_cpu cfg pf ncpu s (CPU_MASTER pf) Hr Hm)
    as [lm Hlm].
  pose proof (Hstop _ _ Hlm eq_refl) as Hlm0.
  assert (Hph : (phase (pc l) <= 1)%nat).
  { destruct (le_lt_dec (phase (pc l)) 1) as [Hle | Hgt]; [exact Hle |].
    pose proof (barriers_hold_reachable cfg pf ncpu s HN Hr) as Hb.
    assert (Ha : all_arrived 1 (cpus s) = true).
    { apply Hb; [cbn; tauto |]. exists l. split; [| exact Hgt].
      eapply lookup_In; eauto. }
    rewrite all_arrived_spec in Ha.
    specialize (Ha lm (lookup_In _ _ _ Hlm)). lia. }
  assert (Hna : l_assigned l = false).
  { destruct (l_assigned l) eqn:Ha; [| reflexivity].
    destruct (ok_claimed cfg pf c l Hok Ha) as [H2 _]. lia. }
  split; [now apply (no_table_reachable cfg pf ncpu) |].
  split; [| split; [| split; [exact Hna |]]].
  - destruct (pc l) eqn:Hpc; cbn in Hph; try lia; auto.
    right; right. split; [reflexivity |].
    now destruct (ok_error cfg pf c l Hok Hpc).
  - intros -> Hpc. specialize (Hstop _ _ Hc eq_refl).
    rewrite Hpc in Hstop. discriminate Hstop.
  - intros ev Hin Hact.
    pose proof (ok_trace cfg pf c l Hok ev Hin Hact). congruence.
Qed.

Lemma allocation_failure_stops_the_boot_witness :
  let cfg := Config [VmConfig 3 2 []] in
  let pf := Platform 0 false (fun c => 4096 + Z.of_nat c) in
  let s := boot_run cfg pf (round_robin 4 12) (boot_init 4) in
  table s = []
  /\ exists l, cpus s !! 2%nat = Some l /\ pc l = PcBarrier1
               /\ l_assigned l = false.
Proof.
  cbv zeta.
  set (cfg := Config [VmConfig 3 2 []]).
  set (pf := Platform 0 false (fun c => 4096 + Z.of_nat c)).
  set (s := boot_run cfg pf (round_robin 4 12) (boot_init 4)).
  destruct (cpus s !! 2%nat) as [l|] eqn:H2;
    [| vm_compute in H2; discriminate H2].
  destruct (allocation_failure_stops_the_boot cfg pf 4 s 2 l)
    as (Ht & _ & _ & Hna & _).
  - reflexivity.
  - cbn. lia.
  - cbn. lia.
  - now exists (round_robin 4 12).
  - exact H2.
  - split; [exact Ht |]. exists l. split; [reflexivity |].
    split; [| exact Hna].
    vm_compute in H2. injection H2 as <-. reflexivity.
Defined.

(** X4.  An assignment is final: once a CPU has claimed a slot, no step of
    any CPU changes its [assigned], [master] or [vm_id]; in particular a
    CPU claims at most one slot and a master stays the master of its VM. *)
Theorem assignment_is_final (cfg : config) (pf : platform)
    (sched : list nat) (s : boot_state) (c : nat) (l : cpu_state) :
  cpus s !! c = Some l -> l_assigned l = true ->
  exists l', cpus (boot_run cfg pf sched s) !! c = Some l'
             /\ l_assigned l' = true /\ l_vm_id l' = l_vm_id l
             /\ l_master l' = l_master l.
Proof.
  intros Hc Ha.
  destruct (cpu_run_keeps cfg pf sched s c l Hc) as (l' & evs & Hl' & _ & Hk).
  exists l'. split; [exact Hl' |]. now apply Hk.
Qed.

Lemma assignment_is_final_witness :
  let cfg := Config [VmConfig 3 2 []] in
  let pf := Platform 0 true (fun c => 4096 + Z.of_nat c) in
  let s := boot_run cfg pf (round_robin 4 4) (boot_init 4) in
  exists l', cpus (boot_run cfg pf (round_robin 4 8) s) !! 1%nat = Some l'
             /\ l_assigned l' = true /\ l_vm_id l' = 0%nat
             /\ l_master l' = false.
Proof.
  cbv zeta.
  set (cfg := Config [VmConfig 3 2 []]).
  set (pf := Platform 0 true (fun c => 4096 + Z.of_nat c)).
  set (s := boot_run cfg pf (round_robin 4 4) (boot_init 4)).
  destruct (cpus s !! 1%nat) as [l|] eqn:H1;
    [| vm_compute in H1; discriminate H1].
  assert (Hl : l_assigned l = true /\ l_vm_id l = 0%nat
               /\ l_master l = false).
  { vm_compute in H1. injection H1 as <-. repeat split. }
  destruct Hl as (Ha & Hv & Hm).
  destruct (assignment_is_final cfg pf (round_robin 4 8) s 1 l H1 Ha)
    as (l' & Hl' & Ha' & Hv' & Hm').
  exists l'. repeat split; congruence.
Defined.

(* ================================================================== *)
(** * 23. The counters and CPU masks of the assignment table *)
(* ================================================================== *)

(** CPU state [l] holds a slot of entry [i]. *)
Definition assigned_to (i : nat) (l : cpu_state) : bool :=
  l_assigned l && (l_vm_id l =? i)%nat.

(** Number of CPUs that hold a slot of entry [i]. *)
Definition count_assigned (cs : list cpu_state) (i : nat) : nat :=
  length (List.filter (assigned_to i) cs).

Section FilterInsert.

Context {A : Type}.
Variable f : A -> bool.

Lemma filter_insert_count (l : list A) (i : nat) (x y : A) :
  l !! i = Some x ->
  (length (List.filter f (<[i := y]> l)) + (if f x then 1 else 0)
   = length (List.filter f l) + (if f y then 1 else 0))%nat.
Proof.
  revert i. induction l as [|a l IH]; intros i Hi; [discriminate Hi |].
  destruct i as [|i]; simpl in Hi |- *.
  - injection Hi as ->. destruct (f x), (f y); simpl; lia.
  - specialize (IH i Hi). destruct (f a); simpl; lia.
Qed.

Lemma filter_insert_same (l : list A) (i : nat) (x y : A) :
  l !! i = Some x -> f y = f x ->
  length (List.filter f (<[i := y]> l)) = length (List.filter f l).
Proof.
  intros Hi Hf. pose proof (filter_insert_count l i x y Hi) as H.
  rewrite Hf in H. lia.
Qed.

Lemma filter_count_none (l : list A) :
  (forall x, In x l -> f x = false) -> length (List.filter f l) = 0%nat.
Proof.
  induction l as [|a l IH]; intros H; [reflexivity |].
  cbn. rewrite (H a) by now left. apply IH. intros x Hx. apply H. now right.
Qed.

End FilterInsert.

Section BootCounts.

Variable cfg : config.
Variable pf : platform.

Local Abbreviation N := (vmlist_size cfg).

(** [platform.cpu_num] is a [size_t]. *)
Hypothesis cpu_num_size : forall i vc,
  vmlist cfg !! i = Some vc -> cpu_num vc < U64.

(** Each entry counts the CPUs that hold one of its slots, and has their
    bits in its mask. *)
Definition counts_ok (s : boot_state) : Prop :=
  forall i e, table s !! i = Some e ->
    va_ncpus e = Z.of_nat (count_assigned (cpus s) i)
    /\ forall c, Z.testbit (va_cpus e) (Z.of_nat c) = true
                 <-> exists l, cpus s !! c = Some l
                               /\ assigned_to i l = true.

Lemma cpu_bit_testbit (c d : nat) :
  Z.testbit (cpu_bit c) (Z.of_nat d) = (c =? d)%nat.
Proof.
  unfold cpu_bit. rewrite Z.shiftl_1_l, Z.pow2_bits_eqb by lia.
  destruct (Nat.eqb_spec c d) as [-> | Hne].
  - apply Z.eqb_refl.
  - apply Z.eqb_neq. lia.
Qed.

Lemma incr64_small_entry (n : Z) : 0 <= n -> n + 1 < U64 -> incr64 n = n + 1.
Proof. intros H0 H1. unfold incr64. apply Z.mod_small. lia. Qed.

(** A step that leaves the table and the locals as they are. *)
Lemma counts_ok_keep (s : boot_state) (c : nat) (l l' : cpu_state)
    (tbl' : list vm_assignment) :
  counts_ok s -> cpus s !! c = Some l ->
  l_assigned l' = l_assigned l -> l_vm_id l' = l_vm_id l ->
  (forall i e', tbl' !! i = Some e' ->
     exists e, table s !! i = Some e /\ va_ncpus e' = va_ncpus e
               /\ va_cpus e' = va_cpus e) ->
  counts_ok (BootState tbl' (<[c := l']> (cpus s))).
Proof.
  intros Hs Hc Ha Hv Htbl i e' He'. cbn [table cpus] in *.
  destruct (Htbl i e' He') as (e & He & Hn & Hm).
  destruct (Hs i e He) as [Hcount Hmask].
  assert (Hf : forall j, assigned_to j l' = assigned_to j l).
  { intros j. unfold assigned_to. now rewrite Ha, Hv. }
  split.
  - rewrite Hn, Hcount. unfold count_assigned.
    now rewrite (filter_insert_same (assigned_to i) (cpus s) c l l' Hc (Hf i)).
  - intros d. rewrite Hm, Hmask. split; intros (x & Hx & Hax).
    + destruct (Nat.eq_dec d c) as [-> | Hne].
      * exists l'. split; [eapply lookup_upd_eq; eauto |].
        rewrite Hf. congruence.
      * exists x. split; [| exact Hax].
        now rewrite list_lookup_insert_ne by congruence.
    + apply lookup_upd in Hx as [[-> ->] | [_ Hx]].
      * exists l. split; [exact Hc |]. now rewrite <- Hf.
      * now exists x.
Qed.

(** A step that claims a slot of entry [i0]. *)
Lemma counts_ok_claim (s : boot_state) (c i0 : nat) (l l' : cpu_state)
    (e0 : vm_assignment) (m : bool) :
  counts_ok s -> cpus s !! c = Some l -> table s !! i0 = Some e0 ->
  l_assigned l = false -> l_assigned l' = true -> l_vm_id l' = i0 ->
  va_ncpus e0 + 1 < U64 ->
  counts_ok (BootState (<[i0 := va_claim m c e0]> (table s))
                       (<[c := l']> (cpus s))).
Proof.
  intros Hs Hc He0 Hna Ha Hv Hsmall i e' He'. cbn [table cpus] in *.
  assert (Hfl : forall j, assigned_to j l = false).
  { intros j. unfold assigned_to. now rewrite Hna. }
  assert (Hfl' : forall j, assigned_to j l' = (i0 =? j)%nat).
  { intros j. unfold assigned_to. now rewrite Ha, Hv. }
  pose proof (filter_insert_count (assigned_to i) (cpus s) c l l' Hc) as Hcnt.
  rewrite Hfl, Hfl' in Hcnt.
  apply lookup_upd in He' as [[-> ->] | [Hne He']].
  - destruct (Hs i0 e0 He0) as [Hcount Hmask].
    rewrite Nat.eqb_refl in Hcnt. split.
    + cbn [va_claim va_ncpus]. rewrite incr64_small_entry by lia.
      unfold count_assigned in *. lia.
    + intros d. cbn [va_claim va_cpus].
      rewrite Z.lor_spec, cpu_bit_testbit, orb_true_iff, Hmask.
      split.
      * intros [(x & Hx & Hax) | Hd].
        -- destruct (Nat.eq_dec d c) as [-> | Hnd].
           ++ rewrite Hc in Hx. injection Hx as <-. now rewrite Hfl in Hax.
           ++ exists x. split; [| exact Hax].
              now rewrite list_lookup_insert_ne by congruence.
        -- apply Nat.eqb_eq in Hd as <-. exists l'.
           split; [eapply lookup_upd_eq; eauto |].
           rewrite Hfl'. apply Nat.eqb_refl.
      * intros (x & Hx & Hax).
        apply lookup_upd in Hx as [[-> ->] | [_ Hx]].
        -- right. apply Nat.eqb_refl.
        -- left. now exists x.
  - destruct (Hs i e' He') as [Hcount Hmask].
    assert (Hf : (i0 =? i)%nat = false) by (apply Nat.eqb_neq; congruence).
    rewrite Hf in Hcnt. split.
    + rewrite Hcount. unfold count_assigned. lia.
    + intros d. rewrite Hmask. split; intros (x & Hx & Hax).
      * destruct (Nat.eq_dec d c) as [-> | Hnd].
        -- rewrite Hc in Hx. injection Hx as <-. now rewrite Hfl in Hax.
        -- exists x. split; [| exact Hax].
           now rewrite list_lookup_insert_ne by congruence.
      * apply lookup_upd in Hx as [[-> ->] | [_ Hx]].
        -- rewrite Hfl', Hf in Hax. discriminate Hax.
        -- now exists x.
Qed.

Lemma counts_ok_step (s : boot_state) (c : nat) :
  boot_inv cfg pf s -> counts_ok s -> counts_ok (boot_step cfg pf c s).
Proof.
  intros Hinv Hs. unfold boot_step.
  destruct (cpus s !! c) as [l|] eqn:Hc; [| exact Hs].
  pose proof (cpu_step_trans cfg pf c (table s) (cpus s) l) as Ht.
  destruct (cpu_step cfg pf c (table s) (cpus s) l) as [tbl' l'].
  cbn [fst snd] in Ht.
  destruct Ht as [| p pte evs Hm | Hpc _ Hcm | vc e here Hh Hna Hvc He Hma
                  | vc e here Hh Hna Hvc He Hma Hcap | e Hpc He].
  - apply (counts_ok_keep s c l l); eauto.
  - apply (counts_ok_keep s c l); eauto.
  - (* the table is allocated: nobody holds a slot yet *)
    assert (Hnone : forall x, In x (<[c := moved l PcBarrier1 (l_pte l)
                                   [EvArchInit; EvIommuInit]]> (cpus s)) ->
                      l_assigned x = false).
    { intros x Hx.
      assert (Hempty : table s = []).
      { apply (inv_start cfg pf s Hinv l); [congruence | exact Hpc]. }
      apply In_insert in Hx as [-> | Hx].
      - cbn. apply (inv_empty cfg pf s Hinv Hempty c l Hc).
      - apply list_elem_of_In, list_elem_of_lookup_1 in Hx as [j Hj].
        apply (inv_empty cfg pf s Hinv Hempty j x Hj). }
    intros i e He. cbn [table cpus] in *.
    apply lookup_replicate in He as [-> _]. cbn [va_zero va_ncpus va_cpus].
    split.
    + unfold count_assigned. rewrite filter_count_none; [reflexivity |].
      intros x Hx. unfold assigned_to. now rewrite (Hnone x Hx).
    + intros d. rewrite Z.bits_0. split; [discriminate |].
      intros (x & Hx & Hax). unfold assigned_to in Hax.
      rewrite (Hnone x) in Hax; [discriminate Hax |].
      eapply lookup_In; eauto.
  - apply (counts_ok_claim s c _ l); auto.
    destruct (inv_entry cfg pf s Hinv _ e vc He Hvc) as (_ & Hz & _).
    rewrite (Hz Hma). unfold U64. lia.
  - apply (counts_ok_claim s c _ l); auto.
    pose proof (cpu_num_size _ vc Hvc). lia.
  - apply (counts_ok_keep s c l); eauto.
    intros i e' He'. apply lookup_upd in He' as [[-> ->] | [_ He']]; eauto.
Qed.

Lemma counts_ok_reachable (ncpu : nat) (s : boot_state) :
  boot_reachable cfg pf ncpu s -> counts_ok s.
Proof.
  revert s. apply boot_reachable_induction.
  - intros i e He. cbn in He. now rewrite lookup_nil in He.
  - intros s c Hr Hs. apply counts_ok_step; [| exact Hs].
    now apply (boot_reachable_inv cfg pf ncpu).
Qed.

End BootCounts.

(* ================================================================== *)
(** * 24. The count a partition is initialised with *)
(* ================================================================== *)

Section PartitionSync.

Variable cfg : config.
Variable pf : platform.
Variable ncpu : nat.

Local Abbreviation N := (vmlist_size cfg).

(** The count given to [cpu_sync_init] is the counter of the master's
    entry. *)
Definition sync_ok (s : boot_state) : Prop :=
  forall m lm n, cpus s !! m = Some lm ->
    In (EvPartitionInit n) (l_trace lm) ->
    l_master lm = true
    /\ exists e, table s !! l_vm_id lm = Some e /\ va_ncpus e = n.

Lemma late_cpu_closes_passes (s : boot_state) (c m : nat)
    (l lm : cpu_state) :
  boot_reachable cfg pf ncpu s -> N <> 0%nat ->
  cpus s !! c = Some l -> cpus s !! m = Some lm ->
  (7 <= phase (pc lm))%nat -> (5 <= phase (pc l))%nat.
Proof.
  intros Hr HN Hc Hm H7.
  pose proof (barriers_hold_reachable cfg pf ncpu s HN Hr) as Hb.
  assert (Ha : all_arrived 5 (cpus s) = true).
  { apply Hb; [cbn; tauto |]. exists lm. split; [| lia].
    eapply lookup_In; eauto. }
  rewrite all_arrived_spec in Ha. apply Ha. eapply lookup_In; eauto.
Qed.

Lemma sync_ok_step (s : boot_state) (c : nat) :
  boot_reachable cfg pf ncpu s -> sync_ok s ->
  sync_ok (boot_step cfg pf c s).
Proof.
  intros Hr Hs. unfold boot_step.
  destruct (cpus s !! c) as [l|] eqn:Hc; [| exact Hs].
  pose proof (cpu_step_trans cfg pf c (table s) (cpus s) l) as Ht.
  destruct (cpu_step cfg pf c (table s) (cpus s) l) as [tbl' l'].
  cbn [fst snd] in Ht.
  pose proof (boot_reachable_inv cfg pf ncpu s Hr) as Hinv.
  pose proof (trace_ok_reachable cfg pf ncpu s c l Hr Hc) as Htr.
  assert (Hearly : (phase (pc l) < 5)%nat ->
            forall m lm n, cpus s !! m = Some lm ->
              ~ In (EvPartitionInit n) (l_trace lm)).
  { intros Hlt m lm n Hm Hin.
    pose proof (trace_ok_reachable cfg pf ncpu s m lm Hr Hm) as Htm.
    pose proof (tr_part cfg pf m lm Htm n Hin) as H7.
    assert (HN : N <> 0%nat).
    { intros HN.
      destruct (ok_novms cfg pf m lm (inv_cpu cfg pf s Hinv m lm Hm) HN)
        as [[_ Hnil] | [_ Hev]].
      - rewrite Hnil in Hin. destruct Hin.
      - apply Hev in Hin as [Hin | Hin]; discriminate Hin. }
    pose proof (late_cpu_closes_passes s c m l lm Hr HN Hc Hm H7). lia. }
  assert (Hexcl : (phase (pc l) < 5)%nat -> l_trace l' = l_trace l ->
            sync_ok (BootState tbl' (<[c := l']> (cpus s)))).
  { intros Hlt Hsame m lm n Hm Hin. cbn [cpus table] in *. exfalso.
    apply lookup_upd in Hm as [[-> ->] | [_ Hm]].
    - rewrite Hsame in Hin. now apply (Hearly Hlt c l n Hc).
    - now apply (Hearly Hlt m lm n Hm). }
  destruct Ht as [| p pte evs Hmv | Hpc _ _ | vc e here Hh Hna Hvc He Hma
                  | vc e here Hh Hna Hvc He Hma Hcap | e Hpc He].
  - rewrite (list_insert_id _ _ _ Hc). now destruct s.
  - intros m lm n Hm Hin. cbn [cpus table] in *.
    apply lookup_upd in Hm as [[-> ->] | [_ Hm]]; [| now apply (Hs m)].
    cbn [moved l_vm_id l_trace l_master] in *.
    apply (Hs c l n Hc).
    apply in_app_or in Hin as [Hin | Hin]; [exact Hin |]. exfalso.
    destruct Hmv; try destruct (c =? CPU_MASTER pf)%nat; cbn in Hin;
      intuition discriminate.
  - intros m lm n Hm Hin. cbn [cpus table] in *. exfalso.
    assert (Hlt : (phase (pc l) < 5)%nat) by (rewrite Hpc; cbn; lia).
    apply lookup_upd in Hm as [[-> ->] | [_ Hm]].
    + cbn in Hin. apply in_app_or in Hin as [Hin | Hin].
      * now apply (Hearly Hlt c l n Hc).
      * cbn in Hin. intuition discriminate.
    + now apply (Hearly Hlt m lm n Hm).
  - apply Hexcl; [| reflexivity]. inversion Hh; cbn; lia.
  - apply Hexcl; [| reflexivity].
    destruct Hh as [[Hp _] | [Hp _]]; rewrite Hp; cbn; lia.
  - intros m lm n Hm Hin. cbn [cpus table] in *.
    assert (Hsame : forall j ej, table s !! j = Some ej ->
              exists ej', <[l_vm_id l := VmAssign (va_master e) (va_ncpus e)
                              (va_cpus e) (mapped_pte pf c)]> (table s) !! j
                          = Some ej' /\ va_ncpus ej' = va_ncpus ej).
    { intros j ej Hj. destruct (Nat.eq_dec j (l_vm_id l)) as [-> | Hne].
      - eexists. split; [eapply lookup_upd_eq; eauto |].
        cbn. congruence.
      - exists ej. split; [| reflexivity].
        now rewrite list_lookup_insert_ne by congruence. }
    apply lookup_upd in Hm as [[-> ->] | [_ Hm]].
    + cbn [moved l_vm_id l_trace l_master] in *.
      apply in_app_or in Hin as [Hin | Hin].
      * destruct (Hs c l n Hc Hin) as (Hmst & e1 & He1 & Hn1).
        destruct (Hsame _ _ He1) as (e2 & He2 & Hn2).
        split; [exact Hmst |]. exists e2. split; [exact He2 | congruence].
      * cbn in Hin. destruct Hin as [Hin | []]. injection Hin as <-.
        destruct (Hsame _ _ He) as (e2 & He2 & Hn2).
        split; [| eauto].
        now destruct (ok_publish cfg pf c l (inv_cpu cfg pf s Hinv c l Hc) Hpc).
    + destruct (Hs m lm n Hm Hin) as (Hmst & e1 & He1 & Hn1).
      destruct (Hsame _ _ He1) as (e2 & He2 & Hn2).
      split; [exact Hmst |]. exists e2. split; [exact He2 | congruence].
Qed.

Lemma sync_ok_reachable (s : boot_state) :
  boot_reachable cfg pf ncpu s -> sync_ok s.
Proof.
  revert s. apply boot_reachable_induction.
  - intros m lm n Hm Hin. cbn in Hm.
    apply lookup_replicate in Hm as [-> _]. destruct Hin.
  - intros s c Hr Hs. now apply sync_ok_step.
Qed.

End PartitionSync.

(* ================================================================== *)
(** * 25. Properties of the assignment table *)
(* ================================================================== *)

Lemma assigned_to_spec (s : boot_state) (c i : nat) :
  (exists l, cpus s !! c = Some l /\ assigned_to i l = true)
  <-> is_assigned_to s c i.
Proof.
  unfold is_assigned_to, assigned_to.
  split; intros (l & Hl & H); exists l; (split; [exact Hl |]).
  - apply andb_prop in H as [Ha Hv]. apply Nat.eqb_eq in Hv. auto.
  - destruct H as [-> ->]. now rewrite Nat.eqb_refl.
Qed.

Lemma count_assigned_pos (cs : list cpu_state) (c i : nat) (l : cpu_state) :
  cs !! c = Some l -> assigned_to i l = true ->
  (1 <= count_assigned cs i)%nat.
Proof.
  intros Hc Ha. unfold count_assigned.
  assert (Hin : In l (List.filter (assigned_to i) cs)).
  { apply List.filter_In. split; [| exact Ha]. eapply lookup_In; eauto. }
  destruct (List.filter (assigned_to i) cs); [destruct Hin | cbn; lia].
Qed.

(** X5.  No CPU uses the assignment table before [CPU_MASTER] has
    allocated and zeroed it: whenever a CPU is past the first barrier, the
    table has one entry for each VM of the configuration, so every access
    [vm_assign[i]] of the two passes and every access [vm_assign[vm_id]],
    [vmlist[vm_id]] of an assigned CPU is in bounds. *)
Theorem table_ready_before_use (cfg : config) (pf : platform) (ncpu : nat)
    (s : boot_state) (c : nat) (l : cpu_state) :
  vmlist_size cfg <> 0%nat -> (CPU_MASTER pf < ncpu)%nat ->
  boot_reachable cfg pf ncpu s -> cpus s !! c = Some l ->
  (2 <= phase (pc l))%nat ->
  length (table s) = vmlist_size cfg
  /\ (forall i, (i < vmlist_size cfg)%nat ->
        exists vc e, vmlist cfg !! i = Some vc /\ table s !! i = Some e)
  /\ (l_assigned l = true ->
        exists vc e, vmlist cfg !! l_vm_id l = Some vc
                     /\ table s !! l_vm_id l = Some e
                     /\ va_master e = true).
Proof.
  intros HN Hm Hr Hc Hph.
  destruct (boot_reachable_cpu cfg pf ncpu s (CPU_MASTER pf) Hr Hm)
    as [lm Hlm].
  pose proof (barriers_hold_reachable cfg pf ncpu s HN Hr) as Hb.
  assert (Ha : all_arrived 1 (cpus s) = true).
  { apply Hb; [cbn; tauto |]. exists l. split; [| lia].
    eapply lookup_In; eauto. }
  rewrite all_arrived_spec in Ha.
  specialize (Ha lm (lookup_In _ _ _ Hlm)).
  pose proof (master_ready_reachable cfg pf ncpu s HN Hr lm Hlm Ha) as Hlen.
  assert (Hall : forall i, (i < vmlist_size cfg)%nat ->
            exists vc e, vmlist cfg !! i = Some vc /\ table s !! i = Some e).
  { intros i Hi.
    destruct (lookup_lt_is_Some_2 (vmlist cfg) i Hi) as [vc Hvc].
    destruct (lookup_lt_is_Some_2 (table s) i) as [e He]; [lia |].
    eauto. }
  split; [exact Hlen |]. split; [exact Hall |].
  intros Hasg.
  pose proof (boot_reachable_inv cfg pf ncpu s Hr) as Hinv.
  destruct (ok_claimed cfg pf c l (inv_cpu cfg pf s Hinv c l Hc) Hasg)
    as [_ Hlt].
  destruct (Hall _ Hlt) as (vc & e & Hvc & He).
  exists vc, e. split; [exact Hvc |]. split; [exact He |].
  pose proof (inv_claimed cfg pf s Hinv c l Hc Hasg) as Hma.
  unfold master_at in Hma. now rewrite He in Hma.
Qed.

Lemma table_ready_before_use_witness :
  let cfg := Config [VmConfig 3 2 []; VmConfig 0 1 []] in
  let pf := Platform 0 true (fun c => 4096 + Z.of_nat c) in
  let s := boot_run cfg pf (round_robin 4 3) (boot_init 4) in
  length (table s) = 2%nat.
Proof.
  cbv zeta.
  set (cfg := Config [VmConfig 3 2 []; VmConfig 0 1 []]).
  set (pf := Platform 0 true (fun c => 4096 + Z.of_nat c)).
  set (s := boot_run cfg pf (round_robin 4 3) (boot_init 4)).
  destruct (cpus s !! 2%nat) as [l|] eqn:H2;
    [| vm_compute in H2; discriminate H2].
  apply (table_ready_before_use cfg pf 4 s 2 l).
  - cbn. lia.
  - cbn. lia.
  - now exists (round_robin 4 3).
  - exact H2.
  - vm_compute in H2. injection H2 as <-. cbn. lia.
Defined.

(** A number whose bits are all below position [k] fits [k] bits. *)
Lemma mask_fits (x : Z) (k : nat) :
  (forall c : nat, Z.testbit x (Z.of_nat c) = true -> (c < k)%nat) ->
  0 <= x < 2 ^ Z.of_nat k.
Proof.
  intros Hbits.
  assert (Hnn : 0 <= x).
  { destruct (Z.lt_ge_cases x 0) as [Hneg | Hge]; [exfalso | exact Hge].
    set (n := Z.max (Z.log2 (Z.abs x) + 1) (Z.of_nat k)).
    assert (Hn : Z.testbit x n = true).
    { apply Z.bits_iff_neg; [subst n; lia | exact Hneg]. }
    assert (H0 : 0 <= n) by (subst n; lia).
    rewrite <- (Z2Nat.id n H0) in Hn. apply Hbits in Hn. subst n. lia. }
  split; [exact Hnn |].
  destruct (Z.eq_dec x 0) as [-> | Hne].
  - apply Z.pow_pos_nonneg; lia.
  - assert (Hpos : 0 < x) by lia.
    apply Z.log2_lt_pow2; [exact Hpos |].
    pose proof (Z.bit_log2 x Hpos) as Hb.
    pose proof (Z.log2_nonneg x) as H0.
    rewrite <- (Z2Nat.id (Z.log2 x) H0) in Hb. apply Hbits in Hb. lia.
Qed.

(** X6.  Each entry of the assignment table describes the CPUs that hold
    its slots: on a machine with at most 64 CPUs (the bits of a
    [cpumap_t]), in every reachable state [ncpus] is the number of CPUs
    assigned to the VM, the mask [cpus] has the bit of a CPU exactly when
    that CPU is assigned to the VM and fits the 64 bits, and an entry
    without a master has no CPU.  ([platform.cpu_num] is a [size_t].) *)
Theorem entry_describes_its_cpus (cfg : config) (pf : platform)
    (ncpu : nat) (s : boot_state) (i : nat) (e : vm_assignment) :
  (ncpu <= 64)%nat ->
  (forall j vc, vmlist cfg !! j = Some vc -> cpu_num vc < U64) ->
  boot_reachable cfg pf ncpu s -> table s !! i = Some e ->
  va_ncpus e = Z.of_nat (count_assigned (cpus s) i)
  /\ (forall c, Z.testbit (va_cpus e) (Z.of_nat c) = true
                <-> is_assigned_to s c i)
  /\ 0 <= va_cpus e < U64
  /\ (forall c, is_assigned_to s c i ->
                (c < 64)%nat /\ Z.land (va_cpus e) (cpu_bit c) = cpu_bit c
                /\ 0 < cpu_bit c < U64)
  /\ (count_assigned (cpus s) i <= ncpu)%nat
  /\ (va_master e = false -> forall c, ~ is_assigned_to s c i).
Proof.
  intros H64 Hsz Hr He.
  destruct (counts_ok_reachable cfg pf Hsz ncpu s Hr i e He) as [Hn Hmask].
  assert (Hlt : forall c, is_assigned_to s c i -> (c < ncpu)%nat).
  { intros c (l & Hl & _).
    rewrite <- (boot_reachable_length cfg pf ncpu s Hr).
    eapply lookup_lt_Some; eauto. }
  assert (Hbits : forall c, Z.testbit (va_cpus e) (Z.of_nat c) = true
                            <-> is_assigned_to s c i).
  { intros c. rewrite Hmask. apply assigned_to_spec. }
  split; [exact Hn |]. split; [exact Hbits |]. split; [| split; [| split]].
  - destruct (mask_fits (va_cpus e) 64) as [H0 H1].
    { intros c Hc. apply Hbits, Hlt in Hc. lia. }
    split; [exact H0 | exact H1].
  - intros c Hc. pose proof (Hlt c Hc) as Hc64.
    split; [lia |]. split.
    + apply Z.bits_inj'. intros n Hn0.
      rewrite Z.land_spec. rewrite <- (Z2Nat.id n Hn0).
      rewrite cpu_bit_testbit.
      destruct (Nat.eqb_spec c (Z.to_nat n)) as [<- | Hne].
      * apply Hbits in Hc. now rewrite Hc.
      * apply andb_false_r.
    + unfold cpu_bit, U64. rewrite Z.shiftl_1_l. split.
      * apply Z.pow_pos_nonneg; lia.
      * apply Z.pow_lt_mono_r; lia.
  - unfold count_assigned.
    rewrite <- (boot_reachable_length cfg pf ncpu s Hr).
    apply filter_length_le.
  - intros Hma c (l & Hl & Ha & Hv).
    pose proof (boot_reachable_inv cfg pf ncpu s Hr) as Hinv.
    pose proof (inv_claimed cfg pf s Hinv c l Hl Ha) as Hm.
    unfold master_at in Hm. rewrite Hv, He in Hm. congruence.
Qed.

Lemma entry_describes_its_cpus_witness :
  let cfg := Config [VmConfig 6 2 []; VmConfig 0 1 []] in
  let pf := Platform 0 true (fun c => 4096 + Z.of_nat c) in
  let s := boot_run cfg pf (round_robin 4 12) (boot_init 4) in
  exists e, table s !! 0%nat = Some e
            /\ va_ncpus e = 2 /\ count_assigned (cpus s) 0 = 2%nat
            /\ va_cpus e = 6.
Proof.
  cbv zeta.
  set (cfg := Config [VmConfig 6 2 []; VmConfig 0 1 []]).
  set (pf := Platform 0 true (fun c => 4096 + Z.of_nat c)).
  set (s := boot_run cfg pf (round_robin 4 12) (boot_init 4)).
  destruct (table s !! 0%nat) as [e|] eqn:He;
    [| vm_compute in He; discriminate He].
  exists e. split; [reflexivity |].
  destruct (entry_describes_its_cpus cfg pf 4 s 0 e) as (Hn & _).
  - lia.
  - intros j vc Hvc. destruct j as [|[|j]]; cbn in Hvc;
      try discriminate Hvc; injection Hvc as <-; reflexivity.
  - now exists (round_robin 4 12).
  - exact He.
  - assert (H2 : va_ncpus e = 2 /\ va_cpus e = 6).
    { vm_compute in He. injection He as <-. split; reflexivity. }
    destruct H2 as [H2 H6]. split; [exact H2 |]. split; [lia | exact H6].
Defined.

(** X7.  A partition is initialised for the CPUs that will use it: the
    count a master passes to [cpu_sync_init(&partition->sync, ...)] is the
    number of CPUs assigned to its VM, and that number is final: it
    is the same in every later state, the master itself is one of them,
    and only a master makes the call. *)
Theorem partition_sync_counts_its_cpus (cfg : config) (pf : platform)
    (ncpu : nat) (s : boot_state) (m : nat) (lm : cpu_state) (n : Z) :
  (forall j vc, vmlist cfg !! j = Some vc -> cpu_num vc < U64) ->
  boot_reachable cfg pf ncpu s -> cpus s !! m = Some lm ->
  In (EvPartitionInit n) (l_trace lm) ->
  l_master lm = true /\ l_assigned lm = true
  /\ n = Z.of_nat (count_assigned (cpus s) (l_vm_id lm))
  /\ 1 <= n <= Z.of_nat ncpu
  /\ forall sched,
       count_assigned (cpus (boot_run cfg pf sched s)) (l_vm_id lm)
       = count_assigned (cpus s) (l_vm_id lm).
Proof.
  intros Hsz Hr Hm Hin.
  assert (Hnow : forall s' lm', boot_reachable cfg pf ncpu s' ->
            cpus s' !! m = Some lm' -> In (EvPartitionInit n) (l_trace lm') ->
            l_master lm' = true /\ l_assigned lm' = true
            /\ n = Z.of_nat (count_assigned (cpus s') (l_vm_id lm'))
            /\ 1 <= n <= Z.of_nat ncpu).
  { intros s' lm' Hr' Hm' Hin'.
    destruct (sync_ok_reachable cfg pf ncpu s' Hr' m lm' n Hm' Hin')
      as (Hmst & e & He & Hn).
    pose proof (boot_reachable_inv cfg pf ncpu s' Hr') as Hinv.
    pose proof (ok_master cfg pf m lm' (inv_cpu cfg pf s' Hinv m lm' Hm') Hmst)
      as Hasg.
    destruct (counts_ok_reachable cfg pf Hsz ncpu s' Hr' _ e He) as [Hcnt _].
    assert (Hpos : (1 <= count_assigned (cpus s') (l_vm_id lm'))%nat).
    { apply (count_assigned_pos (cpus s') m _ lm' Hm').
      unfold assigned_to. now rewrite Hasg, Nat.eqb_refl. }
    assert (Hle : (count_assigned (cpus s') (l_vm_id lm') <= ncpu)%nat).
    { unfold count_assigned.
      rewrite <- (boot_reachable_length cfg pf ncpu s' Hr').
      apply filter_length_le. }
    repeat split; try assumption; lia. }
  destruct (Hnow s lm Hr Hm Hin) as (Hmst & Hasg & Hn & Hrange).
  repeat split; try assumption; try lia.
  intros sched.
  destruct (cpu_run_keeps cfg pf sched s m lm Hm)
    as (lm' & evs & Hm' & Htr & Hkeep).
  destruct (Hkeep Hasg) as (_ & Hv & _).
  destruct (Hnow (boot_run cfg pf sched s) lm') as (_ & _ & Hn' & _).
  - now apply boot_reachable_run.
  - exact Hm'.
  - rewrite Htr. apply in_or_app. now left.
  - rewrite Hv in Hn'. lia.
Qed.

Lemma partition_sync_counts_its_cpus_witness :
  let cfg := Config [VmConfig 6 2 []; VmConfig 0 1 []] in
  let pf := Platform 0 true (fun c => 4096 + Z.of_nat c) in
  let s := boot_run cfg pf (round_robin 4 12) (boot_init 4) in
  exists lm, cpus s !! 1%nat = Some lm
             /\ In (EvPartitionInit 2) (l_trace lm)
             /\ count_assigned (cpus s) 0 = 2%nat.
Proof.
  cbv zeta.
  set (cfg := Config [VmConfig 6 2 []; VmConfig 0 1 []]).
  set (pf := Platform 0 true (fun c => 4096 + Z.of_nat c)).
  set (s := boot_run cfg pf (round_robin 4 12) (boot_init 4)).
  destruct (cpus s !! 1%nat) as [lm|] eqn:H1;
    [| vm_compute in H1; discriminate H1].
  exists lm. split; [reflexivity |].
  assert (Hlm : In (EvPartitionInit 2) (l_trace lm) /\ l_vm_id lm = 0%nat).
  { vm_compute in H1. injection H1 as <-. cbn. tauto. }
  destruct Hlm as [Hin Hv]. split; [exact Hin |].
  destruct (partition_sync_counts_its_cpus cfg pf 4 s 1 lm 2)
    as (_ & _ & Hn & _).
  - intros j vc Hvc. destruct j as [|[|j]]; cbn in Hvc;
      try discriminate Hvc; injection Hvc as <-; reflexivity.
  - now exists (round_robin 4 12).
  - exact H1.
  - exact Hin.
  - rewrite Hv in Hn. lia.
Defined.

(* ================================================================== *)
(** * 26. Progress of the boot protocol *)
(* ================================================================== *)

(** A CPU that has left the boot protocol: it is in [vcpu_run] or in
    [cpu_idle]. *)
Definition is_final (p : pc_t) : bool :=
  match p with PcRun | PcIdle => true | _ => false end.

Definition all_final (cs : list cpu_state) : bool :=
  forallb (fun l => is_final (pc l)) cs.

(** A CPU that is through the assignment protocol of [vmm_init]: it is
    at the call of [vmm_create_vms] (line 290) or past it, or in
    [cpu_idle]. *)
Definition has_left (p : pc_t) : bool :=
  match p with PcCreateVms | PcRun | PcIdle => true | _ => false end.

(** A CPU whose next step changes nothing: it waits at a closed barrier,
    spins on a page-table entry that is not published yet, or has left
    the protocol. *)
Definition blocked (tbl : list vm_assignment) (cs : list cpu_state)
    (l : cpu_state) : bool :=
  match pc l with
  | PcBarrier1 => negb (all_arrived 1 cs)
  | PcBarrier2 => negb (all_arrived 3 cs)
  | PcBarrier3 => negb (all_arrived 5 cs)
  | PcBarrier4 => negb (all_arrived 7 cs)
  | PcSpin => shared_table tbl (l_vm_id l) =? 0
  | PcRun | PcIdle | PcError => true
  | _ => false
  end.

(** A bound on the number of steps a CPU at program point [p] can still
    take, with [n] entries in the configuration. *)
Definition pot (n : nat) (p : pc_t) : nat :=
  match p with
  | PcStart => 11 + 2 * n
  | PcBarrier1 => 10 + 2 * n
  | PcPass1 i => 9 + n + (n - i)
  | PcBarrier2 => 8 + n
  | PcPass2 i => 7 + (n - i)
  | PcBarrier3 => 6
  | PcSpin => 5
  | PcPublish => 4
  | PcInstall => 4
  | PcBarrier4 => 3
  | PcTail => 2
  | PcCreateVms => 1
  | PcRun => 0
  | PcIdle => 0
  | PcError => 0
  end.

Definition boot_potential (n : nat) (cs : list cpu_state) : nat :=
  list_sum (map (fun l => pot n (pc l)) cs).

Section BootProgress.

Variable cfg : config.
Variable pf : platform.

Local Abbreviation N := (vmlist_size cfg).

Lemma blocked_stays (c : nat) tbl cs l :
  blocked tbl cs l = true -> cpu_step cfg pf c tbl cs l = (tbl, l).
Proof.
  unfold blocked, cpu_step. destruct (pc l); try discriminate;
    try reflexivity; intros H.
  - apply negb_true_iff in H. now rewrite H.
  - apply negb_true_iff in H. now rewrite H.
  - apply negb_true_iff in H. now rewrite H.
  - now rewrite H.
  - apply negb_true_iff in H. now rewrite H.
Qed.

Lemma unblocked_moves (c : nat) tbl cs l :
  blocked tbl cs l = false ->
  (pot N (pc (cpu_step cfg pf c tbl cs l).2) < pot N (pc l))%nat.
Proof.
  unfold blocked, cpu_step. destruct (pc l) eqn:Hpc; try discriminate;
    intros H; try apply negb_false_iff in H; rewrite ?H; cbn [snd].
  - destruct (N =? 0)%nat; [cbn; lia |].
    destruct (c =? CPU_MASTER pf)%nat; [| cbn; lia].
    destruct (table_alloc_ok pf); cbn; lia.
  - cbn. lia.
  - unfold pass_iter.
    destruct ((i <? N)%nat && negb (l_assigned l)) eqn:Hi; [| cbn; lia].
    apply andb_prop in Hi as [Hi _]. apply Nat.ltb_lt in Hi.
    destruct (vmlist cfg !! i), (tbl !! i); cbn; try lia.
    destruct (affine v c); cbn; try lia.
    destruct (pass1_section v c i v0 l). cbn. lia.
  - destruct (l_assigned l); cbn; lia.
  - unfold pass_iter.
    destruct ((i <? N)%nat && negb (l_assigned l)) eqn:Hi; [| cbn; lia].
    apply andb_prop in Hi as [Hi _]. apply Nat.ltb_lt in Hi.
    destruct (vmlist cfg !! i), (tbl !! i); cbn; try lia.
    destruct (pass2_section v c i v0 l). cbn. lia.
  - destruct (l_assigned l); [destruct (l_master l) |]; cbn; lia.
  - unfold publish. destruct (tbl !! l_vm_id l); cbn; lia.
  - cbn. lia.
  - cbn. lia.
  - cbn. lia.
  - destruct (l_assigned l); cbn; lia.
  - cbn. lia.
Qed.

Lemma potential_insert (cs : list cpu_state) (c : nat) (l l' : cpu_state) :
  cs !! c = Some l ->
  (boot_potential N (<[c := l']> cs) + pot N (pc l)
   = boot_potential N cs + pot N (pc l'))%nat.
Proof.
  unfold boot_potential. revert c.
  induction cs as [|a cs IH]; intros c Hc; [discriminate Hc |].
  destruct c as [|c]; simpl in Hc |- *.
  - injection Hc as ->. lia.
  - specialize (IH c Hc). lia.
Qed.

(** A step either changes nothing or uses up potential. *)
Lemma boot_step_potential (s : boot_state) (c : nat) :
  boot_step cfg pf c s = s
  \/ (boot_potential N (cpus (boot_step cfg pf c s))
      < boot_potential N (cpus s))%nat.
Proof.
  unfold boot_step. destruct (cpus s !! c) as [l|] eqn:Hc; [| now left].
  destruct (blocked (table s) (cpus s) l) eqn:Hb.
  - left. rewrite (blocked_stays c _ _ _ Hb).
    rewrite (list_insert_id _ _ _ Hc). now destruct s.
  - right. pose proof (unblocked_moves c _ _ _ Hb) as Hlt.
    destruct (cpu_step cfg pf c (table s) (cpus s) l) as [tbl' l'].
    cbn [snd cpus] in *.
    pose proof (potential_insert (cpus s) c l l' Hc). lia.
Qed.

Lemma boot_run_potential (sched : list nat) :
  forall s, boot_run cfg pf sched s = s
            \/ (boot_potential N (cpus (boot_run cfg pf sched s))
                < boot_potential N (cpus s))%nat.
Proof.
  induction sched as [|c rest IH]; intros s; cbn [boot_run]; [now left |].
  destruct (boot_step_potential s c) as [Hs | Hs].
  - rewrite Hs. apply IH.
  - right. destruct (IH (boot_step cfg pf c s)) as [Hr | Hr].
    + now rewrite Hr.
    + lia.
Qed.

Lemma boot_run_potential_le (sched : list nat) (s : boot_state) :
  (boot_potential N (cpus (boot_run cfg pf sched s))
   <= boot_potential N (cpus s))%nat.
Proof.
  destruct (boot_run_potential sched s) as [-> | H]; lia.
Qed.

Lemma forallb_false_lookup {A : Type} (f : A -> bool) (l : list A) :
  forallb f l = false -> exists i x, l !! i = Some x /\ f x = false.
Proof.
  induction l as [|a l IH]; [discriminate |]. cbn.
  destruct (f a) eqn:Ha; cbn.
  - intros H. destruct (IH H) as (i & x & Hi & Hx). now exists (S i), x.
  - intros _. now exists 0%nat, a.
Qed.

Lemma min_phase_cpu (cs : list cpu_state) :
  cs <> [] ->
  exists c l, cs !! c = Some l
              /\ forall l', In l' cs -> (phase (pc l) <= phase (pc l'))%nat.
Proof.
  induction cs as [|a cs IH]; [congruence |]. intros _.
  destruct cs as [|b cs].
  - exists 0%nat, a. split; [reflexivity |].
    intros l' [<- | []]. lia.
  - destruct IH as (c & l & Hc & Hmin); [discriminate |].
    destruct (le_lt_dec (phase (pc a)) (phase (pc l))) as [Hle | Hgt].
    + exists 0%nat, a. split; [reflexivity |].
      intros l' [<- | Hin]; [lia |]. specialize (Hmin l' Hin). lia.
    + exists (S c), l. split; [exact Hc |].
      intros l' [<- | Hin]; [lia |]. now apply Hmin.
Qed.

(** Deadlock freedom: while some CPU is still in the assignment protocol,
    some such CPU can take a step. *)
Lemma exists_unblocked_early (ncpu : nat) (s : boot_state) :
  table_alloc_ok pf = true -> (forall m, mapped_pte pf m <> 0) ->
  boot_reachable cfg pf ncpu s ->
  (exists c0 l0, cpus s !! c0 = Some l0 /\ has_left (pc l0) = false) ->
  exists c l, cpus s !! c = Some l
              /\ has_left (pc l) = false
              /\ blocked (table s) (cpus s) l = false.
Proof.
  intros Hok Hpte Hr (c0 & l0 & Hc0 & Hf0).
  pose proof (boot_reachable_inv cfg pf ncpu s Hr) as Hinv.
  destruct (Nat.eq_dec N 0%nat) as [HN | HN].
  { exists c0, l0. split; [exact Hc0 |]. split; [exact Hf0 |].
    destruct (ok_novms cfg pf c0 l0 (inv_cpu cfg pf s Hinv c0 l0 Hc0) HN)
      as [[Hpc _] | [Hpc _]]; unfold blocked; rewrite Hpc in *;
      [reflexivity | discriminate Hf0]. }
  assert (Hne : cpus s <> []).
  { intros Hnil. rewrite Hnil in Hc0. discriminate Hc0. }
  destruct (min_phase_cpu (cpus s) Hne) as (c & l & Hc & Hmin).
  pose proof (inv_cpu cfg pf s Hinv c l Hc) as Hokc.
  assert (Hopen : forall k, (k <= phase (pc l))%nat ->
                            all_arrived k (cpus s) = true).
  { intros k Hk. apply all_arrived_spec. intros l' Hl'.
    specialize (Hmin l' Hl'). lia. }
  assert (Hlast : (9 <= phase (pc l))%nat -> False).
  { intros H9. specialize (Hmin l0 (lookup_In _ _ _ Hc0)).
    destruct (pc l0); cbn in Hmin, Hf0; try lia; discriminate Hf0. }
  destruct (pc l) eqn:Hpc;
    try (exists c, l; split; [exact Hc |]; rewrite Hpc;
         split; [reflexivity |]; unfold blocked; rewrite Hpc;
         try reflexivity; rewrite Hopen by (cbn; lia); reflexivity);
    try (exfalso; apply Hlast; cbn; lia).
  - (* the follower spins: its master publishes or has published *)
    destruct (ok_follow cfg pf c l Hokc (or_introl Hpc)) as [Ha Hm].
    pose proof (inv_claimed cfg pf s Hinv c l Hc Ha) as Hma.
    destruct (inv_elected cfg pf s Hinv _ Hma) as (m & lm & Hlm & Hmm & Hv).
    pose proof (inv_cpu cfg pf s Hinv m lm Hlm) as Hokm.
    pose proof (Hmin lm (lookup_In _ _ _ Hlm)) as Hph. cbn in Hph.
    destruct (le_lt_dec 7 (phase (pc lm))) as [H7 | H6].
    + exists c, l. split; [exact Hc |]. rewrite Hpc.
      split; [reflexivity |]. unfold blocked. rewrite Hpc.
      apply Z.eqb_neq. rewrite <- Hv.
      rewrite (inv_published cfg pf s Hinv m lm Hlm Hmm H7). apply Hpte.
    + exists m, lm. split; [exact Hlm |]. unfold blocked.
      destruct (pc lm) eqn:Hpm; cbn in Hph, H6; try lia;
        try (split; reflexivity).
      * destruct (ok_follow cfg pf m lm Hokm (or_introl Hpm)); congruence.
  - destruct (ok_error cfg pf c l Hokc Hpc) as (_ & Hno & _). congruence.
Qed.

(** While some CPU has not reached [vcpu_run] or [cpu_idle], some CPU can
    take a step. *)
Lemma exists_unblocked (ncpu : nat) (s : boot_state) :
  table_alloc_ok pf = true -> (forall m, mapped_pte pf m <> 0) ->
  boot_reachable cfg pf ncpu s -> all_final (cpus s) = false ->
  exists c l, cpus s !! c = Some l
              /\ blocked (table s) (cpus s) l = false.
Proof.
  intros Hok Hpte Hr Hnf.
  destruct (forallb_false_lookup _ _ Hnf) as (c0 & l0 & Hc0 & Hf0).
  destruct (has_left (pc l0)) eqn:Hl0.
  - exists c0, l0. split; [exact Hc0 |]. unfold blocked.
    destruct (pc l0); try discriminate Hl0; try discriminate Hf0.
    reflexivity.
  - destruct (exists_unblocked_early ncpu s Hok Hpte Hr) as (c & l & Hc & _ & Hb).
    { now exists c0, l0. }
    now exists c, l.
Qed.

End BootProgress.

(** A round of a schedule in which each of the [ncpu] CPUs takes at least
    one step. *)
Definition fair_round (ncpu : nat) (r : list nat) : Prop :=
  forall c, (c < ncpu)%nat -> In c r.

Section BootCompletion.

Variable cfg : config.
Variable pf : platform.
Variable ncpu : nat.

Local Abbreviation N := (vmlist_size cfg).

Hypothesis alloc_ok : table_alloc_ok pf = true.
Hypothesis pte_valid : forall m, mapped_pte pf m <> 0.

Lemma pot_bound (p : pc_t) : (pot N p <= 11 + 2 * N)%nat.
Proof. destruct p; cbn; lia. Qed.

Lemma potential_bound (cs : list cpu_state) :
  (boot_potential N cs <= length cs * (11 + 2 * N))%nat.
Proof.
  unfold boot_potential. induction cs as [|a cs IH]; [cbn; lia |].
  pose proof (pot_bound (pc a)). simpl map. simpl list_sum. simpl length.
  lia.
Qed.

Lemma final_no_potential (cs : list cpu_state) :
  all_final cs = true -> boot_potential N cs = 0%nat.
Proof.
  unfold all_final, boot_potential.
  induction cs as [|a cs IH]; [reflexivity |]. cbn [forallb].
  intros H. apply andb_prop in H as [Ha Hcs].
  simpl map. simpl list_sum. rewrite (IH Hcs).
  destruct (pc a); try discriminate Ha; reflexivity.
Qed.

Lemma no_potential_final (s : boot_state) :
  boot_reachable cfg pf ncpu s ->
  boot_potential N (cpus s) = 0%nat -> all_final (cpus s) = true.
Proof.
  intros Hr H0.
  destruct (all_final (cpus s)) eqn:Hf; [reflexivity |].
  destruct (exists_unblocked cfg pf ncpu s alloc_ok pte_valid Hr Hf)
    as (c & l & Hc & Hb).
  pose proof (unblocked_moves cfg pf c _ _ _ Hb) as Hlt.
  pose proof (potential_insert cfg (cpus s) c l l Hc) as Hins.
  rewrite (list_insert_id _ _ _ Hc) in Hins.
  assert (Hle : (pot N (pc l) <= boot_potential N (cpus s))%nat).
  { clear -Hc. unfold boot_potential. revert c Hc.
    induction (cpus s) as [|a cs IH]; intros c Hc; [discriminate Hc |].
    destruct c as [|c]; simpl in Hc |- *.
    - injection Hc as ->. lia.
    - specialize (IH c Hc). lia. }
  lia.
Qed.

Lemma final_fixed (sched : list nat) (s : boot_state) :
  all_final (cpus s) = true -> boot_run cfg pf sched s = s.
Proof.
  intros Hf. destruct (boot_run_potential cfg pf sched s) as [H | H];
    [exact H |].
  rewrite (final_no_potential _ Hf) in H. lia.
Qed.

(** A fair round makes progress. *)
Lemma round_progress (s : boot_state) (r : list nat) :
  boot_reachable cfg pf ncpu s -> all_final (cpus s) = false ->
  fair_round ncpu r ->
  (boot_potential N (cpus (boot_run cfg pf r s))
   < boot_potential N (cpus s))%nat.
Proof.
  intros Hr Hf Hfair.
  destruct (exists_unblocked cfg pf ncpu s alloc_ok pte_valid Hr Hf)
    as (c & l & Hc & Hb).
  assert (Hlt : (c < ncpu)%nat).
  { rewrite <- (boot_reachable_length cfg pf ncpu s Hr).
    now apply lookup_lt_Some in Hc. }
  destruct (in_split c r (Hfair c Hlt)) as (r1 & r2 & ->).
  rewrite boot_run_app.
  destruct (boot_run_potential cfg pf r1 s) as [Hsame | Hless].
  - rewrite Hsame. cbn [boot_run].
    pose proof (boot_run_potential_le cfg pf r2 (boot_step cfg pf c s)).
    destruct (boot_step_self cfg pf s c l Hc) as [Hc' _].
    pose proof (unblocked_moves cfg pf c _ _ _ Hb) as Hmv.
    pose proof (potential_insert cfg (cpus s) c l
                  (cpu_step cfg pf c (table s) (cpus s) l).2 Hc) as Hins.
    assert (Hstep : cpus (boot_step cfg pf c s)
                    = <[c := (cpu_step cfg pf c (table s) (cpus s) l).2]>
                        (cpus s)).
    { unfold boot_step. rewrite Hc.
      now destruct (cpu_step cfg pf c (table s) (cpus s) l). }
    rewrite Hstep in *. lia.
  - pose proof (boot_run_potential_le cfg pf (c :: r2)
                  (boot_run cfg pf r1 s)). lia.
Qed.

Lemma fair_rounds_complete (rounds : list (list nat)) :
  forall s, boot_reachable cfg pf ncpu s ->
  Forall (fair_round ncpu) rounds ->
  (boot_potential N (cpus s) <= length rounds)%nat ->
  all_final (cpus (boot_run cfg pf (concat rounds) s)) = true.
Proof.
  induction rounds as [|r rest IH]; intros s Hr Hfair Hpot.
  - cbn. apply no_potential_final; [exact Hr |]. cbn in Hpot. lia.
  - destruct (all_final (cpus s)) eqn:Hf.
    + now rewrite final_fixed.
    + apply List.Forall_cons_iff in Hfair as [Hfr Hfrest].
      cbn [concat]. rewrite boot_run_app. apply IH.
      * now apply boot_reachable_run.
      * exact Hfrest.
      * pose proof (round_progress s r Hr Hf Hfr). cbn in Hpot. lia.
Qed.

End BootCompletion.

(* ================================================================== *)
(** * 27. Properties of the boot protocol: progress *)
(* ================================================================== *)

(** X8.  The assignment protocol of [vmm_init] has no deadlock: when the
    assignment table can be allocated and the partition's page-table entry
    is valid (not 0), then in every reachable state in which some CPU has
    not yet reached the call of [vmm_create_vms] (line 290) or
    [cpu_idle], one of these CPUs can take a step that changes the state:
    a barrier it waits at is open, or it is a master about to publish what
    its followers spin on. *)
Theorem boot_never_deadlocks (cfg : config) (pf : platform) (ncpu : nat)
    (s : boot_state) :
  table_alloc_ok pf = true -> (forall m, mapped_pte pf m <> 0) ->
  boot_reachable cfg pf ncpu s ->
  (exists c l, cpus s !! c = Some l /\ has_left (pc l) = false) ->
  exists c l, (c < ncpu)%nat /\ cpus s !! c = Some l
              /\ has_left (pc l) = false
              /\ boot_step cfg pf c s <> s.
Proof.
  intros Hok Hpte Hr Hsome.
  destruct (exists_unblocked_early cfg pf ncpu s Hok Hpte Hr Hsome)
    as (c & l & Hc & Hleft & Hb).
  exists c, l. split; [| split; [exact Hc | split; [exact Hleft |]]].
  - rewrite <- (boot_reachable_length cfg pf ncpu s Hr).
    now apply lookup_lt_Some in Hc.
  - intros Heq.
    destruct (boot_step_self cfg pf s c l Hc) as [Hc' _].
    rewrite Heq, Hc in Hc'. injection Hc' as Hl.
    pose proof (unblocked_moves cfg pf c _ _ _ Hb) as Hlt.
    rewrite <- Hl in Hlt. lia.
Qed.

Lemma boot_never_deadlocks_witness :
  let cfg := Config [VmConfig 3 2 []] in
  let pf := Platform 0 true (fun c => 4096 + Z.of_nat c) in
  let s := boot_run cfg pf (round_robin 4 7) (boot_init 4) in
  exists c l, (c < 4)%nat /\ cpus s !! c = Some l
              /\ has_left (pc l) = false
              /\ boot_step cfg pf c s <> s.
Proof.
  cbv zeta.
  set (cfg := Config [VmConfig 3 2 []]).
  set (pf := Platform 0 true (fun c => 4096 + Z.of_nat c)).
  set (s := boot_run cfg pf (round_robin 4 7) (boot_init 4)).
  apply (boot_never_deadlocks cfg pf 4 s).
  - reflexivity.
  - intros m. cbn. lia.
  - now exists (round_robin 4 7).
  - destruct (cpus s !! 1%nat) as [l|] eqn:H1;
      [| vm_compute in H1; discriminate H1].
    exists 1%nat, l. split; [exact H1 |].
    vm_compute in H1. injection H1 as <-. reflexivity.
Defined.

(** X9.  Every fair schedule takes every CPU through the assignment
    protocol: when the assignment table can be allocated and the
    partition's page-table entry is valid, then from every reachable
    state, after [ncpu * (11 + 2 * vmlist_size)] rounds in each of which
    every CPU takes at least one step (in any order, with any
    repetitions), every CPU with an assignment has reached the call of
    [vmm_create_vms] (line 290), every other CPU is in [cpu_idle], and it
    stays so under every further step. *)
Theorem fair_schedule_completes_boot (cfg : config) (pf : platform)
    (ncpu : nat) (s : boot_state) (rounds : list (list nat)) :
  table_alloc_ok pf = true -> (forall m, mapped_pte pf m <> 0) ->
  boot_reachable cfg pf ncpu s ->
  Forall (fair_round ncpu) rounds ->
  (ncpu * (11 + 2 * vmlist_size cfg) <= length rounds)%nat ->
  forall sched,
    let s' := boot_run cfg pf (concat rounds ++ sched) s in
    forall c l, cpus s' !! c = Some l ->
      has_left (pc l) = true
      /\ (pc l = PcIdle <-> l_assigned l = false).
Proof.
  intros Hok Hpte Hr Hfair Hlen sched s' c l Hc.
  set (s1 := boot_run cfg pf (concat rounds) s).
  assert (Hf : all_final (cpus s1) = true).
  { apply (fair_rounds_complete cfg pf ncpu Hok Hpte); auto.
    pose proof (potential_bound cfg (cpus s)) as Hb.
    rewrite (boot_reachable_length cfg pf ncpu s Hr) in Hb. lia. }
  assert (Hs' : s' = s1).
  { subst s' s1. rewrite boot_run_app. now apply final_fixed. }
  rewrite Hs' in Hc.
  assert (Hr' : boot_reachable cfg pf ncpu s1)
    by now apply boot_reachable_run.
  pose proof (boot_reachable_inv cfg pf ncpu s1 Hr') as Hinv.
  pose proof (inv_cpu cfg pf s1 Hinv c l Hc) as Hokc.
  unfold all_final in Hf. rewrite forallb_forall in Hf.
  specialize (Hf l (lookup_In _ _ _ Hc)).
  destruct (pc l) eqn:Hpc; try discriminate Hf.
  - split; [reflexivity |].
    rewrite (ok_run cfg pf c l Hokc (or_intror Hpc)).
    split; discriminate.
  - split; [reflexivity |]. split; [| reflexivity]. intros _.
    destruct (l_assigned l) eqn:Ha; [| reflexivity].
    destruct (ok_claimed cfg pf c l Hokc Ha) as [_ Hlt].
    destruct (ok_idle cfg pf c l Hokc Hpc) as [HN | Hna];
      [lia | congruence].
Qed.

Lemma fair_schedule_completes_boot_witness :
  let cfg := Config [VmConfig 1 1 []] in
  let pf := Platform 0 true (fun c => 4096 + Z.of_nat c) in
  let s' := boot_run cfg pf (concat (repeat [1; 0; 1]%nat 26) ++ [0; 1]%nat)
              (boot_init 2) in
  exists l0 l1,
    cpus s' !! 0%nat = Some l0 /\ cpus s' !! 1%nat = Some l1
    /\ l_assigned l0 = true /\ has_left (pc l0) = true
    /\ l_assigned l1 = false /\ pc l1 = PcIdle.
Proof.
  cbv zeta.
  set (cfg := Config [VmConfig 1 1 []]).
  set (pf := Platform 0 true (fun c => 4096 + Z.of_nat c)).
  set (s' := boot_run cfg pf (concat (repeat [1; 0; 1]%nat 26) ++ [0; 1]%nat)
               (boot_init 2)).
  assert (Hall : forall c l, cpus s' !! c = Some l ->
            has_left (pc l) = true
            /\ (pc l = PcIdle <-> l_assigned l = false)).
  { apply (fair_schedule_completes_boot cfg pf 2 (boot_init 2)
             (repeat [1; 0; 1]%nat 26)).
    - reflexivity.
    - intros m. cbn. lia.
    - now exists [].
    - apply Forall_forall. intros r Hr. apply list_elem_of_In in Hr.
      apply repeat_spec in Hr. subst r.
      intros c Hc. destruct c as [|[|c]]; cbn; [tauto | tauto | lia].
    - cbn. lia. }
  destruct (cpus s' !! 0%nat) as [l0|] eqn:H0;
    [| vm_compute in H0; discriminate H0].
  destruct (cpus s' !! 1%nat) as [l1|] eqn:H1;
    [| vm_compute in H1; discriminate H1].
  exists l0, l1. split; [reflexivity |]. split; [reflexivity |].
  assert (Ha0 : l_assigned l0 = true).
  { vm_compute in H0. injection H0 as <-. reflexivity. }
  assert (Ha1 : l_assigned l1 = false).
  { vm_compute in H1. injection H1 as <-. reflexivity. }
  destruct (Hall 0%nat l0 H0) as [Hl0 _].
  destruct (Hall 1%nat l1 H1) as [_ Hl1].
  split; [exact Ha0 |]. split; [exact Hl0 |]. split; [exact Ha1 |].
  now apply Hl1.
Defined.


(* ================================================================== *)
(** * 28. How many CPUs a level of the tree builder takes, and which *)
(* ================================================================== *)

(** X10.  A level of the tree builder takes as many CPUs as it can, as
    long as the counter is not reset while the level is claiming: as when
    the VM has no child, when the partition master is not in the cohort,
    or when it does not run ahead of the fallback pass.  Then, when the
    CPUs of a cohort run the two claiming passes from the reset counter,
    each taking the lock once per pass in any order, the counter ends at
    the smaller of the cohort's size and [platform.cpu_num], the CPUs that
    claimed a slot are that many and all belong to the cohort, and a CPU
    stays without a slot only when the VM is full. *)
Theorem level_takes_min_of_cohort_and_cpu_num (env : environment)
    (vc : vm_config) (pm : nat) (cohort : list nat) (t : nat) :
  (forall t l, Permutation (lock_order env t l) l) ->
  List.NoDup cohort -> 0 <= cpu_num vc < U64 ->
  children vc = [] \/ ~ In pm cohort \/ reset_at env (S t) cohort = None ->
  let out := level_claim env vc pm cohort t 0 in
  let n := out.1.1 in
  let ks := out.1.2 in
  out.2 = false
  /\ n = Z.min (Z.of_nat (length cohort)) (cpu_num vc)
  /\ Z.of_nat (length (List.filter (fun c => assigned (ks c)) cohort)) = n
  /\ (forall c, assigned (ks c) = true -> In c cohort)
  /\ (forall c, In c cohort -> assigned (ks c) = false -> n = cpu_num vc).
Proof.
  intros Hfair Hnd Hsz Hcalm out n ks. subst out n ks.
  rewrite (level_claim_undisturbed env vc pm cohort t 0 Hcalm).
  cbn [fst snd]. split; [reflexivity |].
  set (n := (claim_passes env vc cohort t 0).1).
  set (ks := (claim_passes env vc cohort t 0).2).
  destruct (claim_passes_capped vc cohort Hnd Hsz env Hfair t)
    as ((Hn & Hle & Hin) & Hall & _).
  fold n ks in Hn, Hle, Hin, Hall. unfold nassigned in Hn.
  assert (Hfull : forall c, In c cohort -> assigned (ks c) = false ->
                            n = cpu_num vc).
  { intros c Hc Hu. destruct (Hall c Hc) as [Ha | Hk]; congruence. }
  split; [| split; [clearbody n ks; lia | split; [exact Hin | exact Hfull]]].
  pose proof (filter_length_le (fun c => assigned (ks c)) cohort) as Hlen.
  destruct (Z.eq_dec n (cpu_num vc)) as [Heq | Hne];
    [clearbody n ks; lia |].
  assert (Hteam : List.filter (fun c => assigned (ks c)) cohort = cohort).
  { apply filter_all. intros c Hc.
    destruct (Hall c Hc) as [Ha | Hk]; [exact Ha | contradiction]. }
  rewrite Hteam in Hn. clearbody n ks. lia.
Qed.

Lemma level_takes_min_of_cohort_and_cpu_num_witness :
  let out := level_claim env_ahead (VmConfig 0 2 []) 0 [0; 1; 2]%nat 0 0 in
  out.1.1 = 2 /\ assigned (out.1.2 2%nat) = false.
Proof.
  cbv zeta.
  destruct (level_takes_min_of_cohort_and_cpu_num env_ahead
              (VmConfig 0 2 []) 0%nat [0; 1; 2]%nat 0%nat) as (_ & Hn & _).
  - intros t l. reflexivity.
  - repeat constructor; cbn; intuition discriminate.
  - cbn. unfold U64. lia.
  - now left.
  - split; [| reflexivity]. rewrite Hn. reflexivity.
Defined.

(** X11.  Affinity has priority at a level of the tree builder, as long
    as the counter is not reset while the level is claiming (the VM has no
    child, the partition master is not in the cohort, or it does not run
    ahead of the fallback pass): a CPU without affinity to the VM gets a
    slot only if every CPU of the cohort with affinity has one, and when
    the cohort has no more CPUs with affinity than [platform.cpu_num],
    each of them gets a slot. *)
Theorem affinity_has_priority (env : environment) (vc : vm_config)
    (pm : nat) (cohort : list nat) (t : nat) :
  (forall t l, Permutation (lock_order env t l) l) ->
  List.NoDup cohort -> 0 <= cpu_num vc < U64 ->
  children vc = [] \/ ~ In pm cohort \/ reset_at env (S t) cohort = None ->
  let ks := (level_claim env vc pm cohort t 0).1.2 in
  ((exists c, In c cohort /\ affine vc c = true /\ assigned (ks c) = false) ->
   forall c, assigned (ks c) = true -> affine vc c = true)
  /\ (Z.of_nat (length (List.filter (affine vc) cohort)) <= cpu_num vc ->
      forall c, In c cohort -> affine vc c = true -> assigned (ks c) = true).
Proof.
  intros Hfair Hnd Hsz Hcalm ks. subst ks.
  rewrite (level_claim_undisturbed env vc pm cohort t 0 Hcalm).
  cbn [fst snd].
  set (ks := (claim_passes env vc cohort t 0).2).
  destruct (claim_passes_capped vc cohort Hnd Hsz env Hfair t)
    as ((Hn & Hle & Hin) & Hall & Hprio).
  fold ks in Hn, Hle, Hin, Hall, Hprio. unfold nassigned in Hn.
  split; [exact Hprio |].
  intros Hfew c Hc Hca.
  destruct (assigned (ks c)) eqn:Hu; [reflexivity | exfalso].
  assert (Hsub : forall x, assigned (ks x) = true -> affine vc x = true).
  { apply Hprio. now exists c. }
  pose proof (filter_length_sub_lt (fun x => assigned (ks x)) (affine vc)
                cohort c (fun x _ => Hsub x) Hc Hca Hu) as Hlt.
  destruct (Hall c Hc) as [Ha | Hk]; [congruence |].
  clearbody ks. lia.
Qed.

Lemma affinity_has_priority_witness :
  let vc := VmConfig 4 1 [] in
  let ks := (level_claim env_ahead vc 0 [0; 1; 2]%nat 0 0).1.2 in
  assigned (ks 2%nat) = true /\ assigned (ks 0%nat) = false.
Proof.
  cbv zeta.
  destruct (affinity_has_priority env_ahead (VmConfig 4 1 [])
              0%nat [0; 1; 2]%nat 0%nat) as (_ & Hall).
  - intros t l. reflexivity.
  - repeat constructor; cbn; intuition discriminate.
  - cbn. unfold U64. lia.
  - now left.
  - split; [| reflexivity]. apply Hall.
    + vm_compute. discriminate.
    + cbn. tauto.
    + reflexivity.
Defined.

(* ================================================================== *)
(** * 29. The tree builder: what every run preserves *)
(* ================================================================== *)

Section TreeBuilderRuns.

Variable env : environment.

(** A property of cohorts that the CPUs with a slot inherit. *)
Variable C : list nat -> Prop.

Hypothesis C_team : forall (f : nat -> bool) cohort,
  C cohort -> C (List.filter f cohort).

(** A relation between the state before and the state after that the steps
    of a level establish and that composes. *)
Variable R : hyp_state -> hyp_state -> Prop.

Hypothesis R_refl : forall st, R st st.
Hypothesis R_trans : forall st1 st2 st3, R st1 st2 -> R st2 st3 -> R st1 st3.
Hypothesis R_enter : forall vc nested cohort st,
  C cohort -> R st (level_enter env vc nested cohort st).
Hypothesis R_ncpus : forall n ahead dt st, R st (set_ncpus n ahead dt st).
Hypothesis R_vm_init : forall vc ks team st,
  R st (level_vm_init vc (curr_vm (part st)) ks team st).
Hypothesis R_record : forall vm rs lists st lists' st',
  record_children vm rs lists st = Some (lists', st') -> R st st'.

Definition run_relates (kid : vm_config) : Prop :=
  forall nested cohort st rs st',
    C cohort ->
    vmm_create_vms env kid nested cohort st = Some (rs, st') -> R st st'.

Lemma children_loop_relates (vm : nat) (team : list nat)
    (kids : list vm_config) :
  C team -> List.Forall run_relates kids ->
  forall lists st lists' st',
    children_loop (vmm_create_vms env) vm team kids lists st
    = Some (lists', st') ->
    R st st'.
Proof.
  intros Hteam.
  induction 1 as [|kid rest Hkid _ IH]; intros lists st lists' st' Hrun;
    cbn [children_loop] in Hrun.
  - inversion Hrun; subst. apply R_refl.
  - destruct (vmm_create_vms env kid true team st) as [[rs st1]|] eqn:Hk;
      [| discriminate].
    destruct (record_children vm rs lists st1) as [[lists1 st2]|] eqn:Hrec;
      [| discriminate].
    eapply R_trans; [eapply Hkid; eauto |].
    eapply R_trans; [eapply R_record; eauto |].
    eapply IH; eauto.
Qed.

Lemma vmm_create_vms_relates (config : vm_config) : run_relates config.
Proof.
  induction config as [a n kids IHkids] using vm_config_tree_ind.
  intros nested cohort st rs st' Hco Hrun. cbn [vmm_create_vms] in Hrun.
  set (config := VmConfig a n kids) in *.
  set (st1 := level_enter env config nested cohort st) in *.
  destruct (level_claim env config (part_master (part st1)) cohort (ticks st1)
              (init_ncpus (part st1))) as [[n' ks] ahead].
  set (team := List.filter (fun c => assigned (ks c)) cohort) in *.
  destruct (children_loop (vmm_create_vms env) (curr_vm (part st1)) team kids
              (fun _ => [])
              (level_vm_init config (curr_vm (part st1)) ks team
                 (set_ncpus n' ahead 2 st1)))
    as [[lists st4]|] eqn:Hloop; [| discriminate].
  inversion Hrun; subst rs st'; clear Hrun.
  eapply R_trans; [apply R_enter; exact Hco |]. fold st1.
  eapply R_trans; [apply (R_ncpus n' ahead 2) |].
  eapply R_trans; [apply (R_vm_init config ks team) |].
  eapply children_loop_relates; [| exact IHkids | exact Hloop].
  now apply C_team.
Qed.

End TreeBuilderRuns.

(* ================================================================== *)
(** * 30. The tree builder: where the nodes of the pool go *)
(* ================================================================== *)

(** Number of child-relationship nodes in a list and below it. *)
Definition list_nodes (l : list node_data) : nat :=
  list_sum (map (fun n => S (vcpu_nodes (snd n))) l).

(** Number of nodes in the lists of the CPUs of [team]. *)
Definition lists_nodes (team : list nat) (lists : nat -> list node_data)
    : nat :=
  list_sum (map (fun c => list_nodes (lists c)) team).

(** Number of nodes below the virtual CPUs a run returns. *)
Definition result_nodes (rs : list (nat * option vcpu)) : nat :=
  list_sum (map (fun r => match snd r with
                          | Some v => vcpu_nodes v
                          | None => 0%nat
                          end) rs).

Section TreeBuilderPool.

Variable env : environment.

Lemma list_nodes_push (l : list node_data) (nd : node_data) :
  list_nodes (list_push l nd) = (list_nodes l + S (vcpu_nodes (snd nd)))%nat.
Proof.
  unfold list_nodes, list_push. rewrite map_app, list_sum_app. simpl.
  now rewrite Nat.add_0_r.
Qed.

Lemma lists_nodes_other (team : list nat) (lists : nat -> list node_data)
    (c : nat) (l : list node_data) :
  ~ In c team -> lists_nodes team (upd lists c l) = lists_nodes team lists.
Proof.
  unfold lists_nodes. induction team as [|a team IH]; intros Hn;
    [reflexivity |].
  simpl. rewrite upd_other by (intros ->; apply Hn; now left).
  rewrite IH; [reflexivity |]. intros H. apply Hn. now right.
Qed.

Lemma lists_nodes_push (team : list nat) (lists : nat -> list node_data)
    (c : nat) (nd : node_data) :
  List.NoDup team -> In c team ->
  lists_nodes team (upd lists c (list_push (lists c) nd))
  = (lists_nodes team lists + S (vcpu_nodes (snd nd)))%nat.
Proof.
  induction team as [|a team IH]; intros Hnd Hin; [destruct Hin |].
  inversion Hnd as [| ? ? Hnin Hnd']; subst.
  change (lists_nodes (a :: team) ?f)
    with (list_nodes (f a) + lists_nodes team f)%nat.
  destruct (Nat.eq_dec a c) as [-> | Hne].
  - rewrite upd_same, list_nodes_push, lists_nodes_other by exact Hnin. lia.
  - destruct Hin as [Heq | Hin]; [congruence |].
    rewrite upd_other by exact Hne. rewrite IH by assumption. lia.
Qed.

(** The nodes taken from the pool after a child's construction are in the
    lists of the team, with what the child's virtual CPUs carry. *)
Lemma record_children_pool (vm : nat) (team : list nat)
    (rs : list (nat * option vcpu)) :
  List.NoDup team -> (forall c r, In (c, r) rs -> In c team) ->
  forall lists st lists' st',
    record_children vm rs lists st = Some (lists', st') ->
    (free_slots (nodes (part st')) + lists_nodes team lists'
     = free_slots (nodes (part st)) + lists_nodes team lists
       + result_nodes rs)%nat.
Proof.
  intros Hnd. induction rs as [|[c [child|]] rest IH];
    intros Hteam lists st lists' st' H; cbn [record_children] in H.
  - inversion H; subst. unfold result_nodes. cbn. lia.
  - unfold objcache_alloc in H.
    destruct (oc_free (nodes (part st))) as [|slot free] eqn:Hfree;
      [discriminate |].
    apply IH in H; [| intros c' r' Hin; apply (Hteam c' r'); now right].
    cbn [log set_part part nodes] in H.
    rewrite lists_nodes_push in H
      by (auto; apply (Hteam c (Some child)); now left).
    unfold free_slots in *. rewrite Hfree. cbn [oc_free length snd] in *.
    change (result_nodes ((c, Some child) :: rest))
      with (vcpu_nodes child + result_nodes rest)%nat.
    lia.
  - apply IH in H; [| intros c' r' Hin; apply (Hteam c' r'); now right].
    change (result_nodes ((c, None) :: rest)) with (result_nodes rest).
    exact H.
Qed.

Definition pool_accounted (kid : vm_config) : Prop :=
  forall nested cohort st rs st',
    List.NoDup cohort ->
    vmm_create_vms env kid nested cohort st = Some (rs, st') ->
    map fst rs = cohort
    /\ (free_slots (nodes (part st')) + result_nodes rs
        = free_slots (nodes (part st)))%nat.

Lemma children_loop_pool (vm : nat) (team : list nat)
    (kids : list vm_config) :
  List.NoDup team -> List.Forall pool_accounted kids ->
  forall lists st lists' st',
    children_loop (vmm_create_vms env) vm team kids lists st
    = Some (lists', st') ->
    (free_slots (nodes (part st')) + lists_nodes team lists'
     = free_slots (nodes (part st)) + lists_nodes team lists)%nat.
Proof.
  intros Hnd. induction 1 as [|kid rest Hkid _ IH];
    intros lists st lists' st' Hrun; cbn [children_loop] in Hrun.
  - now inversion Hrun; subst.
  - destruct (vmm_create_vms env kid true team st) as [[rs st1]|] eqn:Hk;
      [| discriminate].
    destruct (record_children vm rs lists st1) as [[lists1 st2]|] eqn:Hrec;
      [| discriminate].
    destruct (Hkid _ _ _ _ _ Hnd Hk) as [Hcpus Hfree].
    pose proof (record_children_pool vm team rs Hnd) as Hr.
    specialize (Hr (fun c r Hin =>
      eq_ind _ (fun l => In c l) (in_map fst rs (c, r) Hin) _ Hcpus)
      _ _ _ _ Hrec).
    specialize (IH _ _ _ _ Hrun). lia.
Qed.

Lemma result_nodes_team (vm : nat) (ks : nat -> claim)
    (lists : nat -> list node_data) (cohort : list nat) :
  result_nodes (map (fun c => (c, if assigned (ks c)
                                  then Some (Vcpu vm c (lists c))
                                  else None)) cohort)
  = lists_nodes (List.filter (fun c => assigned (ks c)) cohort) lists.
Proof.
  unfold result_nodes, lists_nodes.
  induction cohort as [|c cohort IH]; [reflexivity |].
  simpl. destruct (assigned (ks c)); simpl; rewrite IH; reflexivity.
Qed.

Lemma vmm_create_vms_pool (config : vm_config) : pool_accounted config.
Proof.
  induction config as [a n kids IHkids] using vm_config_tree_ind.
  intros nested cohort st rs st' Hnd Hrun. cbn [vmm_create_vms] in Hrun.
  set (config := VmConfig a n kids) in *.
  set (st1 := level_enter env config nested cohort st) in *.
  destruct (level_enter_events env config nested cohort st)
    as (_ & _ & Hn1 & _). fold st1 in Hn1.
  set (vm := curr_vm (part st1)) in *.
  destruct (level_claim env config (part_master (part st1)) cohort (ticks st1)
              (init_ncpus (part st1))) as [[n' ks] ahead].
  set (team := List.filter (fun c => assigned (ks c)) cohort) in *.
  destruct (level_vm_init_events config vm ks team (set_ncpus n' ahead 2 st1))
    as (e2 & _ & Hp2 & _).
  destruct (children_loop (vmm_create_vms env) vm team kids (fun _ => [])
              (level_vm_init config vm ks team (set_ncpus n' ahead 2 st1)))
    as [[lists st4]|] eqn:Hloop; [| discriminate].
  inversion Hrun; subst rs st'; clear Hrun.
  split.
  - rewrite map_map. cbn. apply map_id.
  - assert (Hteam : List.NoDup team) by now apply List.NoDup_filter.
    pose proof (children_loop_pool vm team kids Hteam IHkids _ _ _ _ Hloop)
      as Hpool.
    rewrite Hp2 in Hpool. cbn [set_ncpus part nodes] in Hpool.
    rewrite Hn1 in Hpool. rewrite result_nodes_team. fold team.
    unfold lists_nodes at 2 in Hpool.
    assert (Hz : list_sum (map (fun c : nat => list_nodes []) team) = 0%nat).
    { clear. induction team as [|c t IH]; [reflexivity | exact IH]. }
    rewrite Hz in Hpool. lia.
Qed.

End TreeBuilderPool.

(* ================================================================== *)
(** * 31. The tree builder: the identifiers it hands out *)
(* ================================================================== *)

(** The CPUs that obtained a VMID for a VM of the tree, in the order of
    their calls, and the VMIDs they passed to [vm_init]. *)
Definition id_callers (evs : list hyp_event) : list nat :=
  flat_map (fun ev => match ev with
                      | EvVmInit c _ _ true _ => [c]
                      | _ => []
                      end) evs.

Definition issued_ids (evs : list hyp_event) : list Z :=
  flat_map (fun ev => match ev with
                      | EvVmInit _ _ _ true id => [id]
                      | _ => []
                      end) evs.

(** A call of [vm_init]. *)
Definition passes_id (ev : hyp_event) : bool :=
  match ev with
  | EvVmInit _ _ _ _ _ => true
  | _ => false
  end.

(** From [st] to [st'] the VMIDs passed on were obtained from
    [vmm_alloc_vmid], one call for each VM, and a CPU that is not the
    master of its VM passed [(size_t)-1]. *)
Definition vmids_rel (st st' : hyp_state) : Prop :=
  exists evs,
    events st' = events st ++ evs
    /\ vmid_calls (id_callers evs) (vmid_counter st)
       = (issued_ids evs, vmid_counter st')
    /\ forall c vm cfg id, In (EvVmInit c vm cfg false id) evs ->
                           id = NO_VMID.

Section TreeBuilderVmids.

Variable env : environment.

Lemma vmid_calls_app (l1 l2 : list nat) (id : Z) :
  vmid_calls (l1 ++ l2) id
  = ((vmid_calls l1 id).1 ++ (vmid_calls l2 (vmid_calls l1 id).2).1,
     (vmid_calls l2 (vmid_calls l1 id).2).2).
Proof.
  revert id. induction l1 as [|c l1 IH]; intros id.
  - cbn. now destruct (vmid_calls l2 id).
  - cbn [app vmid_calls]. unfold vmm_alloc_vmid. rewrite IH.
    destruct (vmid_calls l1 (incr64 id)) as [ids1 id1]. cbn [fst snd].
    now destruct (vmid_calls l2 id1).
Qed.

Lemma no_ids (evs : list hyp_event) :
  (forall ev, In ev evs -> passes_id ev = false) ->
  id_callers evs = [] /\ issued_ids evs = []
  /\ forall c vm cfg id, ~ In (EvVmInit c vm cfg false id) evs.
Proof.
  intros H. repeat split.
  - unfold id_callers. induction evs as [|ev evs IH]; [reflexivity |].
    cbn [flat_map]. rewrite IH by (intros; apply H; now right).
    specialize (H ev (or_introl eq_refl)).
    destruct ev; try discriminate H; reflexivity.
  - unfold issued_ids. induction evs as [|ev evs IH]; [reflexivity |].
    cbn [flat_map]. rewrite IH by (intros; apply H; now right).
    specialize (H ev (or_introl eq_refl)).
    destruct ev; try discriminate H; reflexivity.
  - intros c vm cfg id Hin. apply H in Hin. discriminate Hin.
Qed.

Lemma vmids_rel_silent (st st' : hyp_state) (evs : list hyp_event) :
  events st' = events st ++ evs -> vmid_counter st' = vmid_counter st ->
  (forall ev, In ev evs -> passes_id ev = false) ->
  vmids_rel st st'.
Proof.
  intros He Hc Hno. destruct (no_ids evs Hno) as (H1 & H2 & H3).
  exists evs. rewrite H1, H2, Hc. repeat split; auto.
  intros c vm cfg id Hin. now apply H3 in Hin.
Qed.

Lemma vmids_rel_refl (st : hyp_state) : vmids_rel st st.
Proof.
  apply (vmids_rel_silent st st []); [| reflexivity | intros ev []].
  now rewrite app_nil_r.
Qed.

Lemma vmids_rel_trans (st1 st2 st3 : hyp_state) :
  vmids_rel st1 st2 -> vmids_rel st2 st3 -> vmids_rel st1 st3.
Proof.
  intros (e1 & He1 & Hc1 & Hn1) (e2 & He2 & Hc2 & Hn2).
  exists (e1 ++ e2). split; [| split].
  - rewrite He2, He1. now rewrite app_assoc.
  - unfold id_callers, issued_ids in *. rewrite !flat_map_app.
    rewrite vmid_calls_app, Hc1. cbn [fst snd]. now rewrite Hc2.
  - intros c vm cfg id Hin. apply in_app_or in Hin as [Hin | Hin]; eauto.
Qed.

Lemma vmids_rel_enter (vc : vm_config) (nested : bool) (cohort : list nat)
    (st : hyp_state) :
  vmids_rel st (level_enter env vc nested cohort st).
Proof.
  destruct (level_enter_events env vc nested cohort st) as (He & _).
  eapply vmids_rel_silent; [exact He | |].
  - unfold level_enter, vmm_alloc_vm_struct, set_part, log.
    cbn [part events part_master]. now destruct (existsb _ cohort).
  - intros ev Hin. apply in_app_or in Hin as [Hin | Hin].
    + apply in_map_iff in Hin as (c & <- & _). reflexivity.
    + destruct (existsb _ cohort); [| destruct Hin].
      destruct Hin as [<- | []]. reflexivity.
Qed.

Lemma vmids_rel_ncpus (n : Z) (ahead : bool) (dt : nat) (st : hyp_state) :
  vmids_rel st (set_ncpus n ahead dt st).
Proof.
  apply (vmids_rel_silent _ _ []); [| reflexivity | intros ev []].
  cbn. now rewrite app_nil_r.
Qed.

Lemma vmids_rel_vm_init (vc : vm_config) (vm : nat) (ks : nat -> claim)
    (team : list nat) :
  forall st, vmids_rel st (level_vm_init vc vm ks team st).
Proof.
  induction team as [|c rest IH]; intros st; cbn [level_vm_init];
    [apply vmids_rel_refl |].
  destruct (master (ks c)); unfold vmm_alloc_vmid.
  - eapply vmids_rel_trans; [| apply IH].
    exists [EvVmInit c vm vc true (incr64 (vmid_counter st))].
    split; [reflexivity |]. split; [reflexivity |].
    intros c' vm' cfg id [Heq | []]. discriminate Heq.
  - eapply vmids_rel_trans; [| apply IH].
    exists [EvVmInit c vm vc false NO_VMID].
    split; [reflexivity |]. split; [reflexivity |].
    intros c' vm' cfg id [Heq | []]. now injection Heq.
Qed.

Lemma record_children_counter (vm : nat) (rs : list (nat * option vcpu)) :
  forall lists st lists' st',
    record_children vm rs lists st = Some (lists', st') ->
    vmid_counter st' = vmid_counter st.
Proof.
  induction rs as [|[c [child|]] rest IH]; intros lists st lists' st' H;
    cbn [record_children] in H.
  - now inversion H.
  - destruct (objcache_alloc (nodes (part st))) as [[slot oc]|];
      [| discriminate].
    apply IH in H. exact H.
  - eapply IH; eauto.
Qed.

Lemma vmids_rel_record (vm : nat) (rs : list (nat * option vcpu))
    lists st lists' st' :
  record_children vm rs lists st = Some (lists', st') -> vmids_rel st st'.
Proof.
  intros H.
  destruct (record_children_events vm rs _ _ _ _ H) as (evs & He & _ & Hin & _).
  eapply vmids_rel_silent; [exact He | |].
  - eapply record_children_counter; eauto.
  - intros ev Hev. destruct (Hin ev Hev) as (c & ch & sl & _ & ->).
    reflexivity.
Qed.

Lemma vmm_create_vms_vmids (config : vm_config) (nested : bool)
    (cohort : list nat) (st : hyp_state) rs st' :
  vmm_create_vms env config nested cohort st = Some (rs, st') ->
  vmids_rel st st'.
Proof.
  apply (vmm_create_vms_relates env (fun _ => True) (fun _ _ _ => I)
           vmids_rel vmids_rel_refl vmids_rel_trans
           (fun vc nst co s _ => vmids_rel_enter vc nst co s)
           vmids_rel_ncpus
           (fun vc ks team s => vmids_rel_vm_init vc _ ks team s)
           vmids_rel_record config nested cohort st rs st' I).
Qed.

Lemma part_master_kept (config : vm_config) (nested : bool)
    (cohort : list nat) (st : hyp_state) rs st' :
  vmm_create_vms env config nested cohort st = Some (rs, st') ->
  part_master (part st') = part_master (part st).
Proof.
  apply (vmm_create_vms_relates env (fun _ => True) (fun _ _ _ => I)
           (fun s s' => part_master (part s') = part_master (part s)));
    [| | | | | | exact I].
  - reflexivity.
  - intros s1 s2 s3 H1 H2. congruence.
  - intros vc nst co s _.
    now destruct (level_enter_events env vc nst co s) as (_ & H & _).
  - reflexivity.
  - intros vc ks team s.
    destruct (level_vm_init_events vc (curr_vm (part s)) ks team s)
      as (evs & _ & Hp & _).
    now rewrite Hp.
  - intros vm rs0 lists s lists' s' H.
    now destruct (record_children_events vm rs0 _ _ _ _ H)
      as (evs & _ & Hp & _).
Qed.

Lemma issued_ids_length (evs : list hyp_event) :
  length (issued_ids evs) = length (id_callers evs).
Proof.
  unfold issued_ids, id_callers.
  induction evs as [|ev evs IH]; [reflexivity |].
  cbn [flat_map]. rewrite !length_app, IH.
  destruct ev as [| | ? ? ? [|] ? | | | | |]; reflexivity.
Qed.

(** Identifiers obtained from consecutive calls are fresh. *)
Lemma vmids_fresh (st st' : hyp_state) (evs : list hyp_event) :
  vmid_calls (id_callers evs) (vmid_counter st)
  = (issued_ids evs, vmid_counter st') ->
  0 <= vmid_counter st ->
  vmid_counter st + Z.of_nat (length (issued_ids evs)) < U64 ->
  List.NoDup (issued_ids evs)
  /\ increasing (issued_ids evs)
  /\ Forall (fun id => vmid_counter st < id <= vmid_counter st')
            (issued_ids evs)
  /\ vmid_counter st' = vmid_counter st + Z.of_nat (length (issued_ids evs)).
Proof.
  intros Hcalls H0 Hlen. rewrite issued_ids_length in *.
  destruct (vmid_calls_range (id_callers evs) (vmid_counter st) H0 Hlen)
    as (Hall & Hinc & Hsnd).
  rewrite Hcalls in Hall, Hinc, Hsnd. cbn [fst snd] in *.
  split; [now apply increasing_NoDup |]. split; [exact Hinc |].
  split; [| exact Hsnd].
  eapply List.Forall_impl; [| exact Hall]. cbn beta. intros v Hv. lia.
Qed.

End TreeBuilderVmids.

(* ================================================================== *)
(** * 32. Properties of the tree builder: pool and identifiers *)
(* ================================================================== *)

(** X12.  The tree builder loses no node of the pool: in every run of
    [vmm_create_vms] by distinct CPUs that returns, the nodes taken from
    the pool are exactly the child-relationship nodes below the virtual
    CPUs the run returns (each in one list), every CPU of the cohort gets
    its result, and [partition->master] is left as it was. *)
Theorem tree_builder_accounts_for_nodes (env : environment)
    (config : vm_config) (nested : bool) (cohort : list nat)
    (st st' : hyp_state) (rs : list (nat * option vcpu)) :
  List.NoDup cohort ->
  vmm_create_vms env config nested cohort st = Some (rs, st') ->
  (free_slots (nodes (part st')) + result_nodes rs
   = free_slots (nodes (part st)))%nat
  /\ map fst rs = cohort
  /\ part_master (part st') = part_master (part st).
Proof.
  intros Hnd Hrun.
  destruct (vmm_create_vms_pool env config nested cohort st rs st' Hnd Hrun)
    as [Hcpus Hfree].
  split; [exact Hfree |]. split; [exact Hcpus |].
  eapply part_master_kept; eauto.
Qed.

Lemma tree_builder_accounts_for_nodes_witness :
  let config := VmConfig 3 2 [VmConfig 1 1 []; VmConfig 2 1 []] in
  let st := hyp_init 0 [10; 11; 12; 13; 14]%nat in
  exists rs st',
    vmm_create_vms env_in_order config false [0; 1]%nat st = Some (rs, st')
    /\ (free_slots (nodes (part st')) + result_nodes rs = 5)%nat
    /\ result_nodes rs = 2%nat.
Proof.
  cbv zeta.
  set (config := VmConfig 3 2 [VmConfig 1 1 []; VmConfig 2 1 []]).
  set (st := hyp_init 0 [10; 11; 12; 13; 14]%nat).
  destruct (vmm_create_vms env_in_order config false [0; 1]%nat st)
    as [[rs st']|] eqn:Hrun; [| vm_compute in Hrun; discriminate Hrun].
  exists rs, st'. split; [reflexivity |].
  destruct (tree_builder_accounts_for_nodes env_in_order config false
              [0; 1]%nat st st' rs) as (Hfree & _).
  - repeat constructor; cbn; intuition discriminate.
  - exact Hrun.
  - split; [exact Hfree |].
    vm_compute in Hrun. injection Hrun as <- _. reflexivity.
Defined.




(* ================================================================== *)
(** * 33. Properties of the dynamic VM manager *)
(* ================================================================== *)

(** X14.  [vmm_destroy_dynamic] looks for the VM's node in the list of the
    calling CPU only: when a VM created on CPU [c] is destroyed on another
    CPU [c'], the VM struct is zeroed and freed, but the node stays on the
    list of [c], still referring to the VM, and is not given back to the
    pool. *)
Theorem destroy_on_other_cpu_leaves_node (env : environment) (c c' : nat)
    (st st1 : hyp_state) (vm : nat) :
  (forall l, ~ In (vm_page env l) l) ->
  Forall (fun n => In (vcpu_vm (snd n)) (vm_structs st)) (cpu_children st c) ->
  Forall (fun n => In (vcpu_vm (snd n)) (vm_structs st))
         (cpu_children st c') ->
  c' <> c ->
  vmm_init_dynamic env c st = Some (vm, st1) ->
  let st2 := vmm_destroy_dynamic c' vm st1 in
  cpu_children st2 c = cpu_children st1 c
  /\ refs_to vm (cpu_children st2 c) = 1%nat
  /\ cpu_children st2 c' = cpu_children st c'
  /\ ~ In vm (vm_structs st2)
  /\ (free_slots (nodes (part st2)) + 1)%nat = free_slots (nodes (part st)).
Proof.
  intros Hfresh Hlive Hlive' Hne Hcreate st2.
  unfold vmm_init_dynamic, vmm_alloc_vm_struct in Hcreate.
  cbn [part vmid_counter vm_structs cpu_children events ticks] in Hcreate.
  unfold objcache_alloc in Hcreate.
  destruct (oc_free (nodes (part st))) as [|slot rest] eqn:Hpool;
    [discriminate |].
  inversion Hcreate; subst vm st1; clear Hcreate.
  set (vm := vm_page env (vm_structs st)) in *.
  assert (Hold : forall x,
            Forall (fun n => In (vcpu_vm (snd n)) (vm_structs st))
                   (cpu_children st x) ->
            refs_to vm (cpu_children st x) = 0%nat).
  { intros x Hx. unfold refs_to. rewrite List.Forall_forall in Hx.
    rewrite filter_none; [reflexivity |].
    intros n Hn. apply Nat.eqb_neq. intros E.
    apply (Hfresh (vm_structs st)). fold vm. rewrite <- E. now apply Hx. }
  assert (Hscan : forall todo l oc,
            refs_to vm todo = 0%nat -> destroy_scan vm todo l oc = (l, oc)).
  { induction todo as [|n todo IH]; intros l oc Hz; [reflexivity |].
    unfold refs_to in Hz. cbn [List.filter] in Hz. cbn [destroy_scan].
    destruct (vcpu_vm (snd n) =? vm)%nat; [discriminate Hz |].
    now apply IH. }
  subst st2. unfold vmm_destroy_dynamic, vmm_free_vm_struct.
  cbn [part vmid_counter vm_structs cpu_children events ticks nodes
       part_master curr_vm init_ncpus].
  rewrite (upd_other _ c c') by exact Hne.
  rewrite (Hscan _ _ _ (Hold c' Hlive')).
  cbn [cpu_children part nodes vm_structs].
  repeat (rewrite upd_same || rewrite upd_other by congruence).
  split; [reflexivity |]. split; [| split; [reflexivity | split]].
  - unfold list_push. rewrite refs_to_app, (Hold c Hlive). unfold refs_to.
    cbn. now rewrite Nat.eqb_refl.
  - intros Hin. apply List.filter_In in Hin as [_ Hneq].
    now rewrite Nat.eqb_refl in Hneq.
  - unfold free_slots. rewrite Hpool. cbn. lia.
Qed.

Lemma destroy_on_other_cpu_leaves_node_witness :
  let st := hyp_init 0 [10; 11]%nat in
  exists vm st1,
    vmm_init_dynamic env_in_order 0 st = Some (vm, st1)
    /\ refs_to vm (cpu_children (vmm_destroy_dynamic 1 vm st1) 0) = 1%nat
    /\ ~ In vm (vm_structs (vmm_destroy_dynamic 1 vm st1)).
Proof.
  cbv zeta.
  set (st := hyp_init 0 [10; 11]%nat).
  destruct (vmm_init_dynamic env_in_order 0 st) as [[vm st1]|] eqn:Hc;
    [| vm_compute in Hc; discriminate Hc].
  exists vm, st1. split; [reflexivity |].
  destruct (destroy_on_other_cpu_leaves_node env_in_order 0 1 st st1 vm)
    as (_ & Hrefs & _ & Hfreed & _).
  - intros l Hin. cbn in Hin.
    pose proof (proj1 (List.list_max_le l (list_max l)) (Nat.le_refl _)) as H.
    rewrite List.Forall_forall in H. apply H in Hin. lia.
  - constructor.
  - constructor.
  - discriminate.
  - exact Hc.
  - split; assumption.
Defined.

(* ================================================================== *)
(** * 34. The tree builder returns when the pool is large enough *)
(* ================================================================== *)

Section TreeBuilderReturns.

Variable env : environment.

Lemma record_children_enough (vm : nat) (rs : list (nat * option vcpu)) :
  forall lists st,
    (length rs <= free_slots (nodes (part st)))%nat ->
    exists lists' st',
      record_children vm rs lists st = Some (lists', st')
      /\ (free_slots (nodes (part st))
          <= free_slots (nodes (part st')) + length rs)%nat.
Proof.
  induction rs as [|[c [child|]] rest IH]; intros lists st Hpool;
    cbn [record_children].
  - exists lists, st. split; [reflexivity | lia].
  - unfold objcache_alloc.
    destruct (oc_free (nodes (part st))) as [|slot free] eqn:Hfree.
    { unfold free_slots in Hpool. rewrite Hfree in Hpool. cbn in Hpool. lia. }
    edestruct IH as (lists' & st' & Hrun & Hle);
      [| exists lists', st'; split; [exact Hrun |]].
    + cbn [log set_part part nodes]. unfold free_slots in *.
      rewrite Hfree in Hpool. cbn in *. lia.
    + cbn [log set_part part nodes] in Hle. unfold free_slots in *.
      rewrite Hfree. cbn in *. lia.
  - destruct (IH lists st) as (lists' & st' & Hrun & Hle); [cbn in Hpool; lia |].
    exists lists', st'. split; [exact Hrun | cbn; lia].
Qed.

Definition enough_holds (kid : vm_config) : Prop :=
  forall nested cohort st,
    (length cohort * config_edges kid <= free_slots (nodes (part st)))%nat ->
    exists rs st',
      vmm_create_vms env kid nested cohort st = Some (rs, st')
      /\ length rs = length cohort
      /\ (free_slots (nodes (part st))
          <= free_slots (nodes (part st'))
             + length cohort * config_edges kid)%nat.

Lemma children_loop_enough (vm : nat) (team : list nat)
    (kids : list vm_config) :
  List.Forall enough_holds kids ->
  forall lists st,
    (length team * kids_nodes kids <= free_slots (nodes (part st)))%nat ->
    exists lists' st',
      children_loop (vmm_create_vms env) vm team kids lists st
      = Some (lists', st')
      /\ (free_slots (nodes (part st))
          <= free_slots (nodes (part st'))
             + length team * kids_nodes kids)%nat.
Proof.
  induction 1 as [|kid rest Hkid _ IH]; intros lists st Hpool;
    cbn [children_loop].
  - exists lists, st. split; [reflexivity | lia].
  - assert (Hk : kids_nodes (kid :: rest)
                 = (S (config_edges kid) + kids_nodes rest)%nat).
    { unfold kids_nodes. cbn [map]. rewrite config_nodes_edges. reflexivity. }
    rewrite Hk in *. clear Hk.
    destruct (Hkid true team st) as (rs & st1 & Hrun & Hlen & Hle1); [nia |].
    rewrite Hrun.
    destruct (record_children_enough vm rs lists st1)
      as (lists1 & st2 & Hrec & Hle2); [nia |].
    rewrite Hrec.
    destruct (IH lists1 st2) as (lists' & st' & Hloop & Hle3); [nia |].
    exists lists', st'. split; [exact Hloop | nia].
Qed.

Lemma vmm_create_vms_enough (config : vm_config) : enough_holds config.
Proof.
  induction config as [a n kids IHkids] using vm_config_tree_ind.
  intros nested cohort st Hpool. cbn [vmm_create_vms].
  set (config := VmConfig a n kids) in *.
  assert (Hedges : config_edges config = kids_nodes kids) by reflexivity.
  rewrite Hedges in *.
  set (st1 := level_enter env config nested cohort st) in *.
  destruct (level_enter_events env config nested cohort st)
    as (_ & _ & Hn1 & _). fold st1 in Hn1.
  set (vm := curr_vm (part st1)) in *.
  destruct (level_claim env config (part_master (part st1)) cohort (ticks st1)
              (init_ncpus (part st1))) as [[n' ks] ahead].
  set (team := List.filter (fun c => assigned (ks c)) cohort) in *.
  destruct (level_vm_init_events config vm ks team (set_ncpus n' ahead 2 st1))
    as (e2 & _ & Hp2 & _).
  pose proof (filter_length_le (fun c => assigned (ks c)) cohort) as Hteam.
  fold team in Hteam.
  destruct (children_loop_enough vm team kids IHkids (fun _ => [])
              (level_vm_init config vm ks team (set_ncpus n' ahead 2 st1)))
    as (lists & st4 & Hloop & Hle).
  { rewrite Hp2. cbn [set_ncpus part nodes]. rewrite Hn1. nia. }
  rewrite Hloop. eexists _, st4. split; [reflexivity |].
  split; [now rewrite length_map |].
  rewrite Hp2 in Hle. cbn [set_ncpus part nodes] in Hle.
  rewrite Hn1 in Hle. nia.
Qed.

End TreeBuilderReturns.

(** X15.  With enough nodes in the pool the tree builder returns: when
    the pool has a node for each CPU of the cohort and each edge of the
    configuration tree, [vmm_create_vms] never gets a null node from
    [objcache_alloc] (which it would write through), whatever the
    affinities, the required CPU counts and the order in which the CPUs
    take the lock; it returns a result for every CPU of the cohort and
    takes at most that many nodes. *)
Theorem tree_builder_returns_with_enough_nodes (env : environment)
    (config : vm_config) (nested : bool) (cohort : list nat)
    (st : hyp_state) :
  (length cohort * config_edges config <= free_slots (nodes (part st)))%nat ->
  exists rs st',
    vmm_create_vms env config nested cohort st = Some (rs, st')
    /\ map fst rs = cohort
    /\ (free_slots (nodes (part st))
        <= free_slots (nodes (part st'))
           + length cohort * config_edges config)%nat.
Proof.
  intros Hpool.
  destruct (vmm_create_vms_enough env config nested cohort st Hpool)
    as (rs & st' & Hrun & _ & Hle).
  exists rs, st'. split; [exact Hrun |]. split; [| exact Hle].
  destruct (vmm_create_vms_roles env config nested cohort st rs st' Hrun)
    as (evs & _ & R).
  now destruct R.
Qed.

Lemma tree_builder_returns_with_enough_nodes_witness :
  let config := VmConfig 1 1 [VmConfig 2 3 []; VmConfig 0 0 []] in
  let st := hyp_init 0 [10; 11; 12; 13; 14; 15]%nat in
  exists rs st',
    vmm_create_vms env_in_order config true [2; 0; 1]%nat st = Some (rs, st')
    /\ map fst rs = [2; 0; 1]%nat.
Proof.
  cbv zeta.
  destruct (tree_builder_returns_with_enough_nodes env_in_order
              (VmConfig 1 1 [VmConfig 2 3 []; VmConfig 0 0 []]) true
              [2; 0; 1]%nat (hyp_init 0 [10; 11; 12; 13; 14; 15]%nat))
    as (rs & st' & Hrun & Hcpus & _).
  - cbn. lia.
  - exists rs, st'. split; assumption.
Defined.

(* ================================================================== *)
(** * 35. A CPU is left without a VM only when every VM is full *)
(* ================================================================== *)

(** The entries of the table that a CPU without assignment has found full
    in the fallback pass, at program point [p]: those below the index of
    its loop, and all [n] once the pass is over. *)
Definition seen_full (n : nat) (p : pc_t) : nat :=
  match p with
  | PcPass2 j => j
  | PcStart | PcError | PcBarrier1 | PcPass1 _ | PcBarrier2 => 0
  | _ => n
  end.

Section BootWorkConserving.

Variable cfg : config.
Variable pf : platform.
Variable ncpu : nat.

Local Abbreviation N := (vmlist_size cfg).

Hypothesis cpu_num_size : forall i vc,
  vmlist cfg !! i = Some vc -> cpu_num vc < U64.

Definition entry_full (tbl : list vm_assignment) (i : nat) : Prop :=
  forall vc e, vmlist cfg !! i = Some vc -> tbl !! i = Some e ->
               cpu_num vc <= va_ncpus e.

Definition full_seen (s : boot_state) : Prop :=
  forall c l, cpus s !! c = Some l -> l_assigned l = false ->
  forall i, (i < seen_full N (pc l))%nat -> entry_full (table s) i.

(** An iteration of the fallback pass that leaves the CPU without
    assignment found the entry full. *)
Lemma pass2_skips_full (c : nat) tbl cs l (j : nat) :
  pc l = PcPass2 j ->
  l_assigned (cpu_step cfg pf c tbl cs l).2 = false ->
  (cpu_step cfg pf c tbl cs l).1 = tbl
  /\ ((pc (cpu_step cfg pf c tbl cs l).2 = PcPass2 (S j)
       /\ entry_full tbl j)
      \/ (pc (cpu_step cfg pf c tbl cs l).2 = PcBarrier3 /\ (N <= j)%nat)).
Proof.
  intros Hpc. unfold cpu_step, pass_iter. rewrite Hpc.
  destruct (j <? N)%nat eqn:Hj; cbn [andb].
  2:{ cbn. intros _. split; [reflexivity |]. right.
      apply Nat.ltb_ge in Hj. auto. }
  destruct (l_assigned l) eqn:Ha; cbn [negb].
  { cbn. intros H. congruence. }
  unfold entry_full.
  destruct (vmlist cfg !! j) as [vc|] eqn:Hvc;
    [| cbn; intros _; split; [reflexivity | left; split;
                                            [reflexivity | discriminate]]].
  destruct (tbl !! j) as [e|] eqn:He;
    [| cbn; intros _; split; [reflexivity | left; split;
                                            [reflexivity | discriminate]]].
  unfold pass2_section.
  destruct (va_ncpus e <? cpu_num vc) eqn:Hcap.
  - destruct (negb (va_master e)); cbn; discriminate.
  - cbn. intros _. apply Z.ltb_ge in Hcap.
    split; [now apply list_insert_id |]. left. split; [reflexivity |].
    intros vc' e' Hvc' He'. congruence.
Qed.

(** Outside the fallback pass a step of a CPU without assignment does not
    add to what it has seen. *)
Lemma seen_full_step (c : nat) tbl cs l :
  (forall j, pc l <> PcPass2 j) -> l_assigned l = false ->
  (seen_full N (pc (cpu_step cfg pf c tbl cs l).2)
   <= seen_full N (pc l))%nat.
Proof.
  intros Hp Ha. unfold cpu_step.
  destruct (pc l) eqn:Hpc; try (exfalso; eapply Hp; reflexivity);
    rewrite ?Ha; cbn [snd].
  - destruct (N =? 0)%nat eqn:HN.
    + apply Nat.eqb_eq in HN. cbn. lia.
    + destruct (c =? CPU_MASTER pf)%nat; [| cbn; lia].
      destruct (table_alloc_ok pf); cbn; lia.
  - destruct (all_arrived 1 cs); cbn; rewrite ?Hpc; cbn; lia.
  - unfold pass_iter.
    destruct ((i <? N)%nat && negb (l_assigned l)); [| cbn; lia].
    destruct (vmlist cfg !! i), (tbl !! i); cbn; try lia.
    destruct (affine v c); cbn; try lia.
    destruct (pass1_section v c i v0 l). cbn. lia.
  - destruct (all_arrived 3 cs); cbn; rewrite ?Hpc; cbn; lia.
  - destruct (all_arrived 5 cs); cbn; rewrite ?Hpc; cbn; lia.
  - unfold publish. destruct (tbl !! l_vm_id l); cbn; lia.
  - destruct (shared_table tbl (l_vm_id l) =? 0); cbn; rewrite ?Hpc; cbn; lia.
  - cbn. lia.
  - destruct (all_arrived 7 cs); cbn; rewrite ?Hpc; cbn; lia.
  - cbn. lia.
  - cbn. lia.
  - rewrite Hpc. cbn. lia.
  - rewrite Hpc. cbn. lia.
  - rewrite Hpc. cbn. lia.
Qed.

(** A step resets the table, or leaves every counter at least as large
    as it was and every master flag set. *)
Lemma trans_table_mono (s : boot_state) (c : nat) l tbl' l' :
  boot_inv cfg pf s ->
  boot_trans cfg pf c (table s) (cpus s) l tbl' l' ->
  (pc l = PcStart /\ c = CPU_MASTER pf /\ pc l' = PcBarrier1)
  \/ forall i e', tbl' !! i = Some e' ->
       exists e, table s !! i = Some e /\ va_ncpus e <= va_ncpus e'
                 /\ (va_master e = true -> va_master e' = true).
Proof.
  intros Hinv Ht.
  destruct Ht as [| p pte evs Hm | Hpc _ Hcm | vc e here Hh Hna Hvc He Hma
                  | vc e here Hh Hna Hvc He Hma Hcap | e Hpc He].
  - right. intros i e' H. exists e'. split; [exact H |]. split; [lia | auto].
  - right. intros i e' H. exists e'. split; [exact H |]. split; [lia | auto].
  - left. auto.
  - right. intros i e' H.
    apply lookup_upd in H as [[-> ->] | [_ H]];
      [| exists e'; split; [exact H |]; split; [lia | auto]].
    exists e. split; [exact He |]. cbn [va_claim va_ncpus va_master].
    split; [| reflexivity].
    destruct (inv_entry cfg pf s Hinv _ e vc He Hvc) as (_ & Hz & _).
    rewrite (Hz Hma). rewrite incr64_small; unfold U64; lia.
  - right. intros i e' H.
    apply lookup_upd in H as [[-> ->] | [_ H]];
      [| exists e'; split; [exact H |]; split; [lia | auto]].
    exists e. split; [exact He |]. cbn [va_claim va_ncpus va_master].
    split; [| reflexivity].
    destruct (inv_entry cfg pf s Hinv _ e vc He Hvc) as (H0 & _ & _).
    pose proof (cpu_num_size _ vc Hvc).
    rewrite incr64_small by lia. lia.
  - right. intros i e' H.
    apply lookup_upd in H as [[-> ->] | [_ H]];
      [| exists e'; split; [exact H |]; split; [lia | auto]].
    exists e. split; [exact He |]. cbn. split; [lia | auto].
Qed.

Lemma full_seen_step (s : boot_state) (c0 : nat) :
  boot_reachable cfg pf ncpu s -> full_seen s ->
  full_seen (boot_step cfg pf c0 s).
Proof.
  intros Hr Hs.
  pose proof (boot_reachable_inv cfg pf ncpu s Hr) as Hinv.
  destruct (cpus s !! c0) as [l0|] eqn:Hc0;
    [| unfold boot_step; now rewrite Hc0].
  destruct (boot_step_self cfg pf s c0 l0 Hc0) as [Hself Htbl].
  pose proof (cpu_step_trans cfg pf c0 (table s) (cpus s) l0) as Ht.
  intros c l Hc Ha i Hi vc e' Hvc He'.
  assert (HN : N <> 0%nat).
  { apply lookup_lt_Some in Hvc. unfold vmlist_size. lia. }
  rewrite Htbl in He'.
  destruct (trans_table_mono s c0 l0 _ _ Hinv Ht)
    as [(Hstart & Hcm & Hb1) | Hmono].
  { (* the table is allocated: no CPU is in the fallback pass yet *)
    exfalso.
    destruct (Nat.eq_dec c c0) as [-> | Hne].
    - rewrite Hself in Hc. injection Hc as <-. rewrite Hb1 in Hi.
      cbn in Hi. lia.
    - rewrite boot_step_other in Hc by congruence.
      pose proof (barriers_hold_reachable cfg pf ncpu s HN Hr) as Hb.
      destruct (le_lt_dec (phase (pc l)) 1) as [Hle | Hgt].
      + destruct (pc l); cbn in Hle, Hi; lia.
      + assert (Harr : all_arrived 1 (cpus s) = true).
        { apply Hb; [cbn; tauto |]. exists l. split; [| exact Hgt].
          eapply lookup_In; eauto. }
        rewrite all_arrived_spec in Harr.
        specialize (Harr l0 (lookup_In _ _ _ Hc0)).
        rewrite Hstart in Harr. cbn in Harr. lia. }
  destruct (Hmono i e' He') as (e & He & Hle & _).
  destruct (Nat.eq_dec c c0) as [-> | Hne].
  2:{ rewrite boot_step_other in Hc by congruence.
      pose proof (Hs c l Hc Ha i Hi vc e Hvc He). lia. }
  rewrite Hself in Hc. injection Hc as <-.
  assert (Ha0 : l_assigned l0 = false).
  { destruct (l_assigned l0) eqn:E; [| reflexivity].
    destruct (assigned_trans cfg pf _ _ _ _ _ _ Ht E) as (E' & _).
    congruence. }
  destruct (pc l0) eqn:Hpc0;
    try (pose proof (seen_full_step c0 (table s) (cpus s) l0) as Hseen;
         rewrite Hpc0 in Hseen;
         assert (Hold : (i < seen_full N (pc l0))%nat)
           by (rewrite Hpc0;
               specialize (Hseen ltac:(intros; discriminate) Ha0); lia);
         pose proof (Hs c0 l0 Hc0 Ha0 i Hold vc e Hvc He); lia).
  destruct (pass2_skips_full c0 (table s) (cpus s) l0 i0 Hpc0 Ha)
    as (Hsame & [[Hnext Hfull] | [Hdone Hlast]]).
  - rewrite Hnext in Hi. cbn in Hi.
    destruct (Nat.eq_dec i i0) as [-> | Hlt].
    + pose proof (Hfull vc e Hvc He). lia.
    + assert (Hold : (i < seen_full N (pc l0))%nat)
        by (rewrite Hpc0; cbn; lia).
      pose proof (Hs c0 l0 Hc0 Ha0 i Hold vc e Hvc He). lia.
  - assert (Hold : (i < seen_full N (pc l0))%nat).
    { rewrite Hpc0. cbn. apply lookup_lt_Some in Hvc.
      unfold vmlist_size in Hlast. lia. }
    pose proof (Hs c0 l0 Hc0 Ha0 i Hold vc e Hvc He). lia.
Qed.

Lemma full_seen_reachable (s : boot_state) :
  boot_reachable cfg pf ncpu s -> full_seen s.
Proof.
  revert s. apply boot_reachable_induction.
  - intros c l Hc _ i Hi. cbn in Hc.
    apply lookup_replicate in Hc as [-> _]. cbn in Hi. lia.
  - intros s c Hr Hs. now apply full_seen_step.
Qed.

End BootWorkConserving.

(** X16.  The assignment is work-conserving: a CPU comes out of the two
    passes without an assignment only when no VM has room for it.  In
    every reachable state in which some CPU is past the fallback pass and
    unassigned (it will call [cpu_idle]), every entry of the table has at
    least [platform.cpu_num] CPUs, and every VM that requires at least
    one CPU has exactly that many and has a master. *)
Theorem no_cpu_idles_while_a_vm_has_room (cfg : config) (pf : platform)
    (ncpu : nat) (s : boot_state) (c : nat) (l : cpu_state) (i : nat)
    (vc : vm_config) (e : vm_assignment) :
  (forall j vc', vmlist cfg !! j = Some vc' -> cpu_num vc' < U64) ->
  boot_reachable cfg pf ncpu s ->
  cpus s !! c = Some l -> l_assigned l = false ->
  (5 <= phase (pc l))%nat ->
  vmlist cfg !! i = Some vc -> table s !! i = Some e ->
  cpu_num vc <= va_ncpus e
  /\ (1 <= cpu_num vc -> va_ncpus e = cpu_num vc /\ va_master e = true).
Proof.
  intros Hsz Hr Hc Ha Hph Hvc He.
  assert (Hfull : cpu_num vc <= va_ncpus e).
  { apply (full_seen_reachable cfg pf ncpu Hsz s Hr c l Hc Ha i); auto.
    apply lookup_lt_Some in Hvc. fold (vmlist_size cfg) in Hvc.
    destruct (pc l); cbn in Hph |- *; lia. }
  split; [exact Hfull |]. intros Hpos.
  pose proof (boot_reachable_inv cfg pf ncpu s Hr) as Hinv.
  destruct (inv_entry cfg pf s Hinv i e vc He Hvc) as (H0 & Hz & Hmax).
  split; [lia |].
  destruct (va_master e) eqn:Hm; [reflexivity |].
  specialize (Hz eq_refl). lia.
Qed.

Lemma no_cpu_idles_while_a_vm_has_room_witness :
  let cfg := Config [VmConfig 3 2 []; VmConfig 0 1 []] in
  let pf := Platform 0 true (fun c => 4096 + Z.of_nat c) in
  let s := boot_run cfg pf (round_robin 4 14) (boot_init 4) in
  exists l e, cpus s !! 3%nat = Some l /\ pc l = PcIdle
              /\ table s !! 1%nat = Some e
              /\ va_ncpus e = 1 /\ va_master e = true.
Proof.
  cbv zeta.
  set (cfg := Config [VmConfig 3 2 []; VmConfig 0 1 []]).
  set (pf := Platform 0 true (fun c => 4096 + Z.of_nat c)).
  set (s := boot_run cfg pf (round_robin 4 14) (boot_init 4)).
  destruct (cpus s !! 3%nat) as [l|] eqn:H3;
    [| vm_compute in H3; discriminate H3].
  destruct (table s !! 1%nat) as [e|] eqn:H1;
    [| vm_compute in H1; discriminate H1].
  exists l, e. split; [reflexivity |].
  assert (Hl : pc l = PcIdle /\ l_assigned l = false).
  { vm_compute in H3. injection H3 as <-. split; reflexivity. }
  destruct Hl as [Hpc Ha]. split; [exact Hpc |]. split; [reflexivity |].
  destruct (no_cpu_idles_while_a_vm_has_room cfg pf 4 s 3 l 1
              (VmConfig 0 1 []) e) as (_ & Hexact).
  - intros j vc Hvc. destruct j as [|[|j]]; cbn in Hvc;
      try discriminate Hvc; injection Hvc as <-; reflexivity.
  - now exists (round_robin 4 14).
  - exact H3.
  - exact Ha.
  - rewrite Hpc. cbn. lia.
  - reflexivity.
  - exact H1.
  - apply Hexact. cbn. lia.
Defined.

(* ================================================================== *)
(** * 36. From the partition bootstrap to the tree builder *)
(* ================================================================== *)

Section BootHandover.

Variable cfg : config.
Variable pf : platform.
Variable ncpu : nat.

Local Abbreviation N := (vmlist_size cfg).

(** Past the last barrier a master has initialised its partition and a
    follower has installed the page-table entry it holds. *)
Definition handed_over (s : boot_state) : Prop :=
  forall c l, cpus s !! c = Some l -> l_assigned l = true ->
    (7 <= phase (pc l))%nat ->
    if l_master l then exists n, In (EvPartitionInit n) (l_trace l)
    else In (EvPteInstall (l_pte l)) (l_trace l).

Lemma handed_over_step (s : boot_state) (c0 : nat) :
  boot_inv cfg pf s -> handed_over s ->
  handed_over (boot_step cfg pf c0 s).
Proof.
  intros Hinv Hs. unfold boot_step.
  destruct (cpus s !! c0) as [l0|] eqn:Hc0; [| exact Hs].
  pose proof (cpu_step_trans cfg pf c0 (table s) (cpus s) l0) as Ht.
  destruct (cpu_step cfg pf c0 (table s) (cpus s) l0) as [tbl' l0'].
  cbn [fst snd] in Ht.
  pose proof (inv_cpu cfg pf s Hinv c0 l0 Hc0) as Hok.
  intros c l Hc Ha H7. cbn [cpus] in Hc.
  apply lookup_upd in Hc as [[-> ->] | [_ Hc]]; [| now apply (Hs c)].
  specialize (Hs c0 l0 Hc0).
  destruct Ht as [| p pte evs Hm | Hpc _ _ | vc e here Hh Hna Hvc He Hma
                  | vc e here Hh Hna Hvc He Hma Hcap | e Hpc He].
  - now apply Hs.
  - cbn [moved l_assigned l_master l_pte l_trace pc] in *.
    assert (Hold : (7 <= phase (pc l0))%nat -> pte = l_pte l0 ->
              if l_master l0
              then exists n, In (EvPartitionInit n) (l_trace l0 ++ evs)
              else In (EvPteInstall pte) (l_trace l0 ++ evs)).
    { intros H7' ->. specialize (Hs Ha H7').
      destruct (l_master l0).
      - destruct Hs as [n Hn]. exists n. apply in_or_app. now left.
      - apply in_or_app. now left. }
    destruct (ok_claimed cfg pf c0 l0 Hok Ha) as [Hc2 _].
    destruct Hm;
      match goal with H : pc l0 = _ |- _ => rewrite H in * end;
      cbn [phase] in *;
      try (apply Hold; [lia | reflexivity]);
      try (rewrite Ha in H7; destruct (l_master l0); cbn in H7; lia);
      try lia.
    + (* the entry of an assigned CPU exists *)
      destruct (assigned_in_table cfg pf s c0 l0 Hinv Hc0 Ha) as [e He].
      congruence.
    + destruct (ok_follow cfg pf c0 l0 Hok) as [_ Hm]; [now right |].
      rewrite Hm. apply in_or_app. right. now left.
  - cbn in H7. lia.
  - exfalso. inversion Hh; match goal with H : _ = here |- _ =>
      rewrite <- H in H7 end; cbn in H7; lia.
  - exfalso. destruct Hh as [[_ ->] | [_ ->]]; cbn in H7; lia.
  - cbn [moved l_assigned l_master l_pte l_trace pc] in *.
    destruct (ok_publish cfg pf c0 l0 Hok Hpc) as [_ Hm]. rewrite Hm.
    exists (va_ncpus e). apply in_or_app. right. now left.
Qed.

Lemma handed_over_reachable (s : boot_state) :
  boot_reachable cfg pf ncpu s -> handed_over s.
Proof.
  revert s. apply boot_reachable_induction.
  - intros c l Hc Ha. cbn in Hc.
    apply lookup_replicate in Hc as [-> _]. discriminate Ha.
  - intros s c Hr Hs. apply handed_over_step; [| exact Hs].
    now apply (boot_reachable_inv cfg pf ncpu).
Qed.

End BootHandover.

(** X17.  The tree builder starts on an initialised partition: when a CPU
    has called [vmm_create_vms] for a VM, it is assigned to that VM, the
    master of the VM has initialised the partition, with the number of
    CPUs assigned to the VM as the count of [partition->sync], and the
    CPU is that master or has installed the page-table entry the master
    published. *)
Theorem partition_ready_before_create_vms (cfg : config) (pf : platform)
    (ncpu : nat) (s : boot_state) (c : nat) (l : cpu_state) (i : nat) :
  (forall j vc, vmlist cfg !! j = Some vc -> cpu_num vc < U64) ->
  boot_reachable cfg pf ncpu s -> cpus s !! c = Some l ->
  In (EvCreateVms i) (l_trace l) ->
  is_assigned_to s c i
  /\ exists m lm,
       cpus s !! m = Some lm /\ l_master lm = true /\ l_vm_id lm = i
       /\ In (EvPartitionInit (Z.of_nat (count_assigned (cpus s) i)))
             (l_trace lm)
       /\ (l_master l = true -> m = c)
       /\ (l_master l = false ->
           In (EvPteInstall (mapped_pte pf m)) (l_trace l)
           /\ l_pte l = mapped_pte pf m).
Proof.
  intros Hsz Hr Hc Hin.
  pose proof (boot_reachable_inv cfg pf ncpu s Hr) as Hinv.
  pose proof (inv_cpu cfg pf s Hinv c l Hc) as Hok.
  destruct (tr_create cfg pf c l (trace_ok_reachable cfg pf ncpu s c l Hr Hc)
              i Hin) as [Hpc ->].
  pose proof (ok_run cfg pf c l Hok (or_intror Hpc)) as Ha.
  destruct (ok_claimed cfg pf c l Hok Ha) as [_ Hlt].
  assert (HN : vmlist_size cfg <> 0%nat) by lia.
  split; [now exists l |].
  pose proof (inv_claimed cfg pf s Hinv c l Hc Ha) as Hma.
  destruct (inv_elected cfg pf s Hinv _ Hma) as (m & lm & Hlm & Hmm & Hv).
  assert (H7 : (7 <= phase (pc lm))%nat).
  { pose proof (barriers_hold_reachable cfg pf ncpu s HN Hr) as Hb.
    assert (Harr : all_arrived 7 (cpus s) = true).
    { apply Hb; [cbn; tauto |]. exists l. split; [eapply lookup_In; eauto |].
      rewrite Hpc. cbn. lia. }
    rewrite all_arrived_spec in Harr. apply Harr. eapply lookup_In; eauto. }
  pose proof (ok_master cfg pf m lm (inv_cpu cfg pf s Hinv m lm Hlm) Hmm)
    as Hasg.
  pose proof (handed_over_reachable cfg pf ncpu s Hr m lm Hlm Hasg H7) as Hpart.
  rewrite Hmm in Hpart. destruct Hpart as [n Hn].
  destruct (sync_ok_reachable cfg pf ncpu s Hr m lm n Hlm Hn)
    as (_ & e & He & Hne).
  destruct (counts_ok_reachable cfg pf Hsz ncpu s Hr _ e He) as [Hcnt _].
  rewrite Hv in Hcnt.
  exists m, lm. split; [exact Hlm |]. split; [exact Hmm |].
  split; [exact Hv |]. split; [| split].
  - rewrite <- Hcnt, Hne. exact Hn.
  - intros Hml. apply (inv_unique cfg pf s Hinv m c lm l); auto.
  - intros Hml.
    assert (H7l : (7 <= phase (pc l))%nat) by (rewrite Hpc; cbn; lia).
    pose proof (handed_over_reachable cfg pf ncpu s Hr c l Hc Ha H7l) as Hi.
    rewrite Hml in Hi.
    destruct (inv_follower cfg pf s Hinv c l Hc Ha Hml H7l) as [Hpte _].
    pose proof (inv_published cfg pf s Hinv m lm Hlm Hmm H7) as Hpub.
    rewrite Hv in Hpub. rewrite Hpub in Hpte. rewrite <- Hpte.
    split; [exact Hi | reflexivity].
Qed.

Lemma partition_ready_before_create_vms_witness :
  let cfg := Config [VmConfig 6 2 []; VmConfig 0 1 []] in
  let pf := Platform 0 true (fun c => 4096 + Z.of_nat c) in
  let s := boot_run cfg pf (round_robin 4 15) (boot_init 4) in
  exists l lm,
    cpus s !! 2%nat = Some l /\ cpus s !! 1%nat = Some lm
    /\ In (EvCreateVms 0) (l_trace l)
    /\ In (EvPartitionInit 2) (l_trace lm)
    /\ In (EvPteInstall 4097) (l_trace l).
Proof.
  cbv zeta.
  set (cfg := Config [VmConfig 6 2 []; VmConfig 0 1 []]).
  set (pf := Platform 0 true (fun c => 4096 + Z.of_nat c)).
  set (s := boot_run cfg pf (round_robin 4 15) (boot_init 4)).
  destruct (cpus s !! 2%nat) as [l|] eqn:H2;
    [| vm_compute in H2; discriminate H2].
  destruct (cpus s !! 1%nat) as [lm1|] eqn:H1;
    [| vm_compute in H1; discriminate H1].
  exists l, lm1. split; [reflexivity |]. split; [reflexivity |].
  assert (Hl : In (EvCreateVms 0) (l_trace l) /\ l_master l = false).
  { vm_compute in H2. injection H2 as <-. cbn. tauto. }
  destruct Hl as [Hin Hfol]. split; [exact Hin |].
  destruct (partition_ready_before_create_vms cfg pf 4 s 2 l 0)
    as (_ & m & lm & Hlm & Hmm & Hv & Hpart & _ & Hinst).
  - intros j vc Hvc. destruct j as [|[|j]]; cbn in Hvc;
      try discriminate Hvc; injection Hvc as <-; reflexivity.
  - now exists (round_robin 4 15).
  - exact H2.
  - exact Hin.
  - assert (m = 1%nat) as ->.
    { assert (Hr : boot_reachable cfg pf 4 s)
        by now exists (round_robin 4 15).
      apply (inv_unique cfg pf s (boot_reachable_inv cfg pf 4 s Hr)
               m 1%nat lm lm1 Hlm H1 Hmm).
      - vm_compute in H1. injection H1 as <-. reflexivity.
      - rewrite Hv. vm_compute in H1. injection H1 as <-. reflexivity. }
    rewrite H1 in Hlm. injection Hlm as <-.
    assert (Hcount : count_assigned (cpus s) 0 = 2%nat)
      by (vm_compute; reflexivity).
    rewrite Hcount in Hpart. split; [exact Hpart |].
    now destruct (Hinst Hfol).
Defined.

(* ================================================================== *)
(** * 37. Creating and destroying a dynamic VM *)
(* ================================================================== *)

(** X18.  Creating a dynamic VM and destroying it on the same CPU is a
    round trip for everything but the VMID counter: the allocated VM
    structs, the child list of the CPU (and of every other CPU) and the
    partition with its pool are as before, while the counter has advanced,
    so the identifier of the destroyed VM is not issued again. *)
Theorem create_destroy_round_trip (env : environment) (c : nat)
    (st st1 : hyp_state) (vm : nat) :
  (forall l, ~ In (vm_page env l) l) ->
  Forall (fun n => In (vcpu_vm (snd n)) (vm_structs st)) (cpu_children st c) ->
  (forall slot, In slot (oc_free (nodes (part st))) ->
                ~ In slot (map fst (cpu_children st c))) ->
  vmm_init_dynamic env c st = Some (vm, st1) ->
  let st2 := vmm_destroy_dynamic c vm st1 in
  vm_structs st2 = vm_structs st
  /\ (forall x, cpu_children st2 x = cpu_children st x)
  /\ part st2 = part st
  /\ vmid_counter st2 = incr64 (vmid_counter st)
  /\ events st2
     = events st ++ [EvAllocVm c vm;
                     EvVmInitDynamic c vm (incr64 (vmid_counter st));
                     EvVmDestroyDynamic vm; EvZeroVm vm; EvFreeVm vm].
Proof.
  intros Hfresh Hlive Hslots Hcreate st2.
  unfold vmm_init_dynamic, vmm_alloc_vm_struct in Hcreate.
  cbn [part vmid_counter vm_structs cpu_children events ticks] in Hcreate.
  unfold objcache_alloc in Hcreate.
  destruct (oc_free (nodes (part st))) as [|slot rest] eqn:Hpool;
    [discriminate |].
  inversion Hcreate; subst vm st1; clear Hcreate.
  set (vm := vm_page env (vm_structs st)) in *.
  assert (Hold : refs_to vm (cpu_children st c) = 0%nat).
  { unfold refs_to. rewrite List.Forall_forall in Hlive.
    rewrite filter_none; [reflexivity |].
    intros x Hx. apply Nat.eqb_neq. intros E.
    apply (Hfresh (vm_structs st)). fold vm. rewrite <- E. now apply Hlive. }
  assert (Hscan : destroy_scan vm
            (list_push (cpu_children st c) (slot, Vcpu vm c []))
            (list_push (cpu_children st c) (slot, Vcpu vm c []))
            (ObjCache rest)
          = (list_rm (list_push (cpu_children st c) (slot, Vcpu vm c [])) slot,
             ObjCache (slot :: rest))).
  { unfold list_push at 1. now apply destroy_scan_fresh. }
  assert (Hrm : forall l : list node_data, ~ In slot (map fst l) ->
            list_rm (list_push l (slot, Vcpu vm c [])) slot = l).
  { unfold list_push. induction l as [|n l IH]; intros Hn; cbn.
    - now rewrite Nat.eqb_refl.
    - destruct (fst n =? slot)%nat eqn:E.
      + apply Nat.eqb_eq in E. exfalso. apply Hn. now left.
      + f_equal. apply IH. intros H. apply Hn. now right. }
  subst st2. unfold vmm_destroy_dynamic, vmm_free_vm_struct.
  cbn [part vmid_counter vm_structs cpu_children events ticks nodes
       part_master curr_vm init_ncpus].
  rewrite upd_same, Hscan.
  cbn [part vmid_counter vm_structs cpu_children events ticks nodes
       part_master curr_vm init_ncpus].
  rewrite Hrm by (apply Hslots; now left).
  split; [| split; [| split; [| split]]].
  - cbn [List.filter]. rewrite Nat.eqb_refl. cbn [negb].
    apply filter_all. intros x Hx. apply negb_true_iff, Nat.eqb_neq.
    intros ->. now apply (Hfresh (vm_structs st)).
  - intros x. destruct (Nat.eq_dec x c) as [-> | Hne].
    + now rewrite upd_same.
    + now rewrite !upd_other by exact Hne.
  - destruct (part st) as [pm cv n [fr] ra]. cbn in Hpool |- *. now subst fr.
  - reflexivity.
  - rewrite <- !app_assoc. reflexivity.
Qed.

Lemma create_destroy_round_trip_witness :
  let st := hyp_init 0 [10; 11]%nat in
  exists vm st1,
    vmm_init_dynamic env_in_order 0 st = Some (vm, st1)
    /\ vm_structs (vmm_destroy_dynamic 0 vm st1) = []
    /\ part (vmm_destroy_dynamic 0 vm st1) = part st
    /\ vmid_counter (vmm_destroy_dynamic 0 vm st1) = 1.
Proof.
  cbv zeta.
  set (st := hyp_init 0 [10; 11]%nat).
  destruct (vmm_init_dynamic env_in_order 0 st) as [[vm st1]|] eqn:Hc;
    [| vm_compute in Hc; discriminate Hc].
  exists vm, st1. split; [reflexivity |].
  destruct (create_destroy_round_trip env_in_order 0 st st1 vm)
    as (Hvs & _ & Hpart & Hid & _).
  - intros l Hin. cbn in Hin.
    pose proof (proj1 (List.list_max_le l (list_max l)) (Nat.le_refl _)) as H.
    rewrite List.Forall_forall in H. apply H in Hin. lia.
  - constructor.
  - intros slot _ [].
  - exact Hc.
  - repeat split; assumption.
Defined.

(* ================================================================== *)
(** * 38. Affinity in the boot assignment *)
(* ================================================================== *)

(** The entries of the table that a CPU has passed in the affinity pass,
    at program point [p]. *)
Definition seen_affine (n : nat) (p : pc_t) : nat :=
  match p with
  | PcStart | PcError | PcBarrier1 => 0
  | PcPass1 j => j
  | _ => n
  end.

Section BootAffinity.

Variable cfg : config.
Variable pf : platform.
Variable ncpu : nat.

Local Abbreviation N := (vmlist_size cfg).

Hypothesis cpu_num_size : forall i vc,
  vmlist cfg !! i = Some vc -> cpu_num vc < U64.

(** CPU [c] has no slot, or the slot of a VM it has no affinity to. *)
Definition outside (c : nat) (l : cpu_state) : Prop :=
  l_assigned l = false
  \/ exists vc0, vmlist cfg !! l_vm_id l = Some vc0 /\ affine vc0 c = false.

(** If CPU [c] has affinity to entry [i], the entry has its master and
    all the CPUs the VM requires. *)
Definition entry_taken (tbl : list vm_assignment) (c i : nat) : Prop :=
  forall vc e, vmlist cfg !! i = Some vc -> affine vc c = true ->
               tbl !! i = Some e ->
               va_master e = true /\ cpu_num vc <= va_ncpus e.

Record affinity_inv (s : boot_state) : Prop := AffinityInv {
  ai_early : forall c l, cpus s !! c = Some l -> (phase (pc l) <= 3)%nat ->
             l_assigned l = true ->
             exists vc0, vmlist cfg !! l_vm_id l = Some vc0
                         /\ affine vc0 c = true;
  ai_seen : forall c l, cpus s !! c = Some l -> outside c l ->
            forall j, (j < seen_affine N (pc l))%nat ->
                      entry_taken (table s) c j
}.

Ltac locals_kept :=
  cbn; split; [first [reflexivity | assumption] |];
  split; [reflexivity |]; split; [cbn; lia |].

(** What a step does to the locals of the CPU that takes it. *)
Lemma step_local (c : nat) tbl cs l :
  (l_assigned l = false
   /\ l_assigned (cpu_step cfg pf c tbl cs l).2 = true
   /\ ((exists vc, vmlist cfg !! l_vm_id (cpu_step cfg pf c tbl cs l).2
                   = Some vc
                   /\ affine vc c = true)
       \/ (exists j, pc l = PcPass2 j
                     /\ phase (pc (cpu_step cfg pf c tbl cs l).2) = 4%nat)))
  \/ (l_assigned (cpu_step cfg pf c tbl cs l).2 = l_assigned l
      /\ l_vm_id (cpu_step cfg pf c tbl cs l).2 = l_vm_id l
      /\ ((phase (pc (cpu_step cfg pf c tbl cs l).2) <= 3)%nat ->
          (phase (pc l) <= 3)%nat)
      /\ ((l_assigned l = true /\ (phase (pc l) <= 3)%nat)
          \/ forall i,
               (i < seen_affine N (pc (cpu_step cfg pf c tbl cs l).2))%nat ->
               (i < seen_affine N (pc l))%nat
               \/ ((cpu_step cfg pf c tbl cs l).1 = tbl
                   /\ entry_taken tbl c i))).
Proof.
  assert (Hkeep : forall p : pc_t,
            (phase (pc l) <= phase p)%nat ->
            (forall i, (i < seen_affine N p)%nat ->
                       (i < seen_affine N (pc l))%nat) ->
            forall evs pte,
            l_assigned (moved l p pte evs) = l_assigned l
            /\ l_vm_id (moved l p pte evs) = l_vm_id l
            /\ ((phase (pc (moved l p pte evs)) <= 3)%nat ->
                (phase (pc l) <= 3)%nat)
            /\ ((l_assigned l = true /\ (phase (pc l) <= 3)%nat)
                \/ forall i,
                     (i < seen_affine N (pc (moved l p pte evs)))%nat ->
                     (i < seen_affine N (pc l))%nat
                     \/ (tbl = tbl /\ entry_taken tbl c i))).
  { intros p Hph Hseen evs pte. locals_kept.
    right. intros i Hi. left. now apply Hseen. }
  assert (Hstay : l_assigned l = l_assigned l /\ l_vm_id l = l_vm_id l
            /\ ((phase (pc l) <= 3)%nat -> (phase (pc l) <= 3)%nat)
            /\ ((l_assigned l = true /\ (phase (pc l) <= 3)%nat)
                \/ forall i, (i < seen_affine N (pc l))%nat ->
                     (i < seen_affine N (pc l))%nat
                     \/ (tbl = tbl /\ entry_taken tbl c i))).
  { split; [reflexivity |]. split; [reflexivity |]. split; [auto |].
    right. intros i Hi. now left. }
  unfold cpu_step. destruct (pc l) eqn:Hpc.
  - (* PcStart *)
    right. destruct (N =? 0)%nat eqn:HN.
    + apply Nat.eqb_eq in HN. rewrite moved_emit. cbn [fst snd].
      apply Hkeep; cbn; lia.
    + destruct (c =? CPU_MASTER pf)%nat;
        [destruct (table_alloc_ok pf) |]; rewrite moved_emit; cbn [fst snd].
      * locals_kept. right. intros i Hi. cbn in Hi. lia.
      * apply Hkeep; cbn; lia.
      * apply Hkeep; cbn; lia.
  - right. destruct (all_arrived 1 cs); cbn [fst snd];
      [| rewrite Hpc; exact Hstay].
    rewrite moved_nil. apply Hkeep; cbn; lia.
  - (* PcPass1 *)
    unfold pass_iter.
    destruct (i <? N)%nat eqn:Hi; cbn [andb].
    2:{ right. apply Nat.ltb_ge in Hi. cbn [fst snd].
        rewrite moved_nil. apply Hkeep; cbn; lia. }
    destruct (l_assigned l) eqn:Ha; cbn [negb].
    { right. locals_kept. left. split; [reflexivity | cbn; lia]. }
    assert (Hnext : forall taken : entry_taken tbl c i,
              l_assigned (set_pc (PcPass1 (S i)) l) = false
              /\ l_vm_id (set_pc (PcPass1 (S i)) l) = l_vm_id l
              /\ ((phase (pc (set_pc (PcPass1 (S i)) l)) <= 3)%nat ->
                  (2 <= 3)%nat)
              /\ ((false = true /\ (2 <= 3)%nat)
                  \/ forall i0,
                       (i0 < seen_affine N (pc (set_pc (PcPass1 (S i)) l)))%nat ->
                       (i0 < seen_affine N (PcPass1 i))%nat
                       \/ (tbl = tbl /\ entry_taken tbl c i0))).
    { intros taken. locals_kept. right. intros i0 Hi0. cbn in Hi0 |- *.
      destruct (Nat.eq_dec i0 i) as [-> | Hne]; [right; auto | left; lia]. }
    destruct (vmlist cfg !! i) as [vc|] eqn:Hvc.
    2:{ right. cbn [fst snd]. apply Hnext. intros vc e Hv. congruence. }
    destruct (tbl !! i) as [e|] eqn:He.
    2:{ right. cbn [fst snd]. apply Hnext. intros vc' e' _ _ He'. congruence. }
    destruct (affine vc c) eqn:Haff.
    2:{ right. cbn [fst snd]. apply Hnext.
        intros vc' e' Hv Hav. congruence. }
    unfold pass1_section.
    destruct (va_master e) eqn:Hm; cbn [negb].
    + destruct (va_ncpus e <? cpu_num vc) eqn:Hcap.
      * left. cbn. split; [reflexivity |]. split; [reflexivity |].
        left. eauto.
      * right. cbn [fst snd]. rewrite (list_insert_id _ _ _ He).
        apply Hnext. intros vc' e' Hv _ He'.
        apply Z.ltb_ge in Hcap. split; congruence.
    + left. cbn. split; [reflexivity |]. split; [reflexivity |].
      left. eauto.
  - right. destruct (all_arrived 3 cs); cbn [fst snd];
      [| rewrite Hpc; exact Hstay].
    rewrite moved_nil.
    apply Hkeep; destruct (l_assigned l); cbn; lia.
  - (* PcPass2 *)
    unfold pass_iter.
    destruct ((i <? N)%nat && negb (l_assigned l)) eqn:Hloop.
    2:{ right. cbn [fst snd]. rewrite moved_nil.
        apply Hkeep; cbn; lia. }
    apply andb_prop in Hloop as [_ Hna]. apply negb_true_iff in Hna.
    assert (Hnext : l_assigned (set_pc (PcPass2 (S i)) l) = l_assigned l
              /\ l_vm_id (set_pc (PcPass2 (S i)) l) = l_vm_id l
              /\ ((phase (pc (set_pc (PcPass2 (S i)) l)) <= 3)%nat ->
                  (4 <= 3)%nat)
              /\ ((l_assigned l = true /\ (4 <= 3)%nat)
                  \/ forall i0,
                       (i0 < seen_affine N (pc (set_pc (PcPass2 (S i)) l)))%nat ->
                       (i0 < seen_affine N (PcPass2 i))%nat
                       \/ (tbl = tbl /\ entry_taken tbl c i0))).
    { locals_kept. right. intros i0 Hi0. now left. }
    destruct (vmlist cfg !! i) as [vc|]; [| right; cbn [fst snd]; exact Hnext].
    destruct (tbl !! i) as [e|] eqn:He; [| right; cbn [fst snd]; exact Hnext].
    unfold pass2_section.
    destruct (va_ncpus e <? cpu_num vc).
    + left. split; [exact Hna |].
      destruct (negb (va_master e)); cbn; (split; [reflexivity |]);
        right; exists i; auto.
    + right. cbn [fst snd]. rewrite (list_insert_id _ _ _ He). exact Hnext.
  - right. destruct (all_arrived 5 cs); cbn [fst snd];
      [| rewrite Hpc; exact Hstay].
    rewrite moved_nil.
    apply Hkeep;
      destruct (l_assigned l); try destruct (l_master l); cbn; lia.
  - right. unfold publish. destruct (tbl !! l_vm_id l) as [e|] eqn:He;
      cbn [fst snd].
    + locals_kept. right. intros i Hi. now left.
    + rewrite moved_nil. apply Hkeep; cbn; lia.
  - right. destruct (shared_table tbl (l_vm_id l) =? 0); cbn [fst snd];
      [rewrite Hpc; exact Hstay |].
    rewrite moved_nil. apply Hkeep; cbn; lia.
  - right. locals_kept. right. intros i Hi. now left.
  - right. destruct (all_arrived 7 cs); cbn [fst snd];
      [| rewrite Hpc; exact Hstay].
    rewrite moved_nil. apply Hkeep; cbn; lia.
  - right. destruct (l_assigned l) eqn:Ha; rewrite moved_emit; cbn [fst snd].
    + locals_kept. right. intros i Hi. now left.
    + locals_kept. right. intros i Hi. now left.
  - right. rewrite moved_emit. locals_kept. right. intros i Hi. now left.
  - right. cbn [fst snd]. rewrite Hpc. exact Hstay.
  - right. cbn [fst snd]. rewrite Hpc. exact Hstay.
  - right. cbn [fst snd]. rewrite Hpc. exact Hstay.
Qed.

Lemma affinity_inv_step (s : boot_state) (c0 : nat) :
  boot_reachable cfg pf ncpu s -> affinity_inv s ->
  affinity_inv (boot_step cfg pf c0 s).
Proof.
  intros Hr [Hearly Hseen].
  pose proof (boot_reachable_inv cfg pf ncpu s Hr) as Hinv.
  destruct (cpus s !! c0) as [l0|] eqn:Hc0;
    [| unfold boot_step; rewrite Hc0; now split].
  destruct (boot_step_self cfg pf s c0 l0 Hc0) as [Hself Htbl].
  pose proof (cpu_step_trans cfg pf c0 (table s) (cpus s) l0) as Ht.
  pose proof (step_local c0 (table s) (cpus s) l0) as Hloc.
  split.
  - intros c l Hc Hph Ha.
    destruct (Nat.eq_dec c c0) as [-> | Hne];
      [| rewrite boot_step_other in Hc by congruence; eauto].
    rewrite Hself in Hc. injection Hc as <-.
    destruct Hloc as [(_ & _ & [Hvc | (j & _ & H4)]) | (Hsa & Hsv & Hp & _)].
    + exact Hvc.
    + lia.
    + rewrite Hsv. apply (Hearly c0 l0 Hc0); [auto | congruence].
  - intros c l Hc Hout j Hj vc e' Hvc Haff He'.
    assert (HN : N <> 0%nat).
    { apply lookup_lt_Some in Hvc. unfold vmlist_size. lia. }
    rewrite Htbl in He'.
    destruct (trans_table_mono cfg pf cpu_num_size s c0 l0 _ _ Hinv Ht)
      as [(Hstart & Hcm & Hb1) | Hmono].
    { exfalso.
      destruct (Nat.eq_dec c c0) as [-> | Hne].
      - rewrite Hself in Hc. injection Hc as <-. rewrite Hb1 in Hj.
        cbn in Hj. lia.
      - rewrite boot_step_other in Hc by congruence.
        pose proof (barriers_hold_reachable cfg pf ncpu s HN Hr) as Hb.
        destruct (le_lt_dec (phase (pc l)) 1) as [Hle | Hgt].
        + destruct (pc l); cbn in Hle, Hj; lia.
        + assert (Harr : all_arrived 1 (cpus s) = true).
          { apply Hb; [cbn; tauto |]. exists l. split; [| exact Hgt].
            eapply lookup_In; eauto. }
          rewrite all_arrived_spec in Harr.
          specialize (Harr l0 (lookup_In _ _ _ Hc0)).
          rewrite Hstart in Harr. cbn in Harr. lia. }
    destruct (Hmono j e' He') as (e & He & Hle & Hma).
    assert (Hup : va_master e = true /\ cpu_num vc <= va_ncpus e ->
                  va_master e' = true /\ cpu_num vc <= va_ncpus e').
    { intros [H1 H2]. split; [auto | lia]. }
    destruct (Nat.eq_dec c c0) as [-> | Hne].
    2:{ rewrite boot_step_other in Hc by congruence.
        apply Hup. now apply (Hseen c l Hc Hout j Hj vc e). }
    rewrite Hself in Hc. injection Hc as <-.
    destruct Hloc as [(Hna & Ha' & [(vc1 & Hvc1 & Haff1) | (j0 & Hp2 & H4)])
                      | (Hsa & Hsv & Hp & Hcase)].
    + exfalso. destruct Hout as [Hu | (vc0 & Hvc0 & Hn0)]; congruence.
    + apply Hup. apply (Hseen c0 l0 Hc0 (or_introl Hna) j); auto.
      rewrite Hp2. cbn.
      apply lookup_lt_Some in Hvc. exact Hvc.
    + assert (Hout0 : outside c0 l0).
      { destruct Hout as [Hu | (vc0 & Hvc0 & Hn0)].
        - left. congruence.
        - right. exists vc0. split; [congruence | exact Hn0]. }
      destruct Hcase as [[Ha0 Hph0] | Hcase].
      * exfalso. destruct (Hearly c0 l0 Hc0 Hph0 Ha0) as (vc1 & Hvc1 & Haff1).
        destruct Hout0 as [Hu | (vc0 & Hvc0 & Hn0)]; congruence.
      * destruct (Hcase j Hj) as [Hold | [Hsame Htaken]].
        -- apply Hup. now apply (Hseen c0 l0 Hc0 Hout0 j Hold vc e).
        -- rewrite Hsame in He'. now apply (Htaken vc e').
Qed.

Lemma affinity_inv_reachable (s : boot_state) :
  boot_reachable cfg pf ncpu s -> affinity_inv s.
Proof.
  revert s. apply boot_reachable_induction.
  - split.
    + intros c l Hc _ Ha. cbn in Hc.
      apply lookup_replicate in Hc as [-> _]. discriminate Ha.
    + intros c l Hc _ j Hj. cbn in Hc.
      apply lookup_replicate in Hc as [-> _]. cbn in Hj. lia.
  - intros s c Hr Hs. now apply affinity_inv_step.
Qed.

End BootAffinity.

(** X19.  The boot assignment honours affinity whenever it can: a CPU that
    gets its slot in the affinity pass has affinity to its VM, and a CPU
    that comes out of the affinity pass without a slot, or ends up in a VM
    it has no affinity to, does so only because every VM it has affinity
    to already had a master and all the CPUs it requires. *)
Theorem affinity_honoured_when_possible (cfg : config) (pf : platform)
    (ncpu : nat) (s : boot_state) (c : nat) (l : cpu_state) :
  (forall j vc, vmlist cfg !! j = Some vc -> cpu_num vc < U64) ->
  boot_reachable cfg pf ncpu s -> cpus s !! c = Some l ->
  (l_assigned l = true -> (phase (pc l) <= 3)%nat ->
   exists vc0, vmlist cfg !! l_vm_id l = Some vc0 /\ affine vc0 c = true)
  /\ ((3 <= phase (pc l))%nat ->
      l_assigned l = false
      \/ (exists vc0, vmlist cfg !! l_vm_id l = Some vc0
                      /\ affine vc0 c = false) ->
      forall j vc e,
        vmlist cfg !! j = Some vc -> affine vc c = true ->
        table s !! j = Some e ->
        va_master e = true /\ cpu_num vc <= va_ncpus e).
Proof.
  intros Hsz Hr Hc.
  destruct (affinity_inv_reachable cfg pf ncpu Hsz s Hr) as [Hearly Hseen].
  split.
  - intros Ha Hph. now apply (Hearly c l Hc).
  - intros Hph Hout j vc e Hvc Haff He.
    apply (Hseen c l Hc Hout j); auto.
    apply lookup_lt_Some in Hvc. fold (vmlist_size cfg) in Hvc.
    destruct (pc l); cbn in Hph |- *; lia.
Qed.

Lemma affinity_honoured_when_possible_witness :
  let cfg := Config [VmConfig 3 1 []; VmConfig 0 2 []] in
  let pf := Platform 0 true (fun c => 4096 + Z.of_nat c) in
  let s := boot_run cfg pf (round_robin 3 15) (boot_init 3) in
  exists l e,
    cpus s !! 1%nat = Some l /\ l_vm_id l = 1%nat /\ l_assigned l = true
    /\ table s !! 0%nat = Some e
    /\ va_master e = true /\ 1 <= va_ncpus e.
Proof.
  cbv zeta.
  set (cfg := Config [VmConfig 3 1 []; VmConfig 0 2 []]).
  set (pf := Platform 0 true (fun c => 4096 + Z.of_nat c)).
  set (s := boot_run cfg pf (round_robin 3 15) (boot_init 3)).
  destruct (cpus s !! 1%nat) as [l|] eqn:H1;
    [| vm_compute in H1; discriminate H1].
  destruct (table s !! 0%nat) as [e|] eqn:H0;
    [| vm_compute in H0; discriminate H0].
  exists l, e. split; [reflexivity |].
  assert (Hl : l_vm_id l = 1%nat /\ l_assigned l = true /\ pc l = PcRun).
  { vm_compute in H1. injection H1 as <-. repeat split. }
  destruct Hl as (Hv & Ha & Hpc).
  split; [exact Hv |]. split; [exact Ha |]. split; [reflexivity |].
  destruct (affinity_honoured_when_possible cfg pf 3 s 1 l) as (_ & Hout).
  - intros j vc Hvc. destruct j as [|[|j]]; cbn in Hvc;
      try discriminate Hvc; injection Hvc as <-; reflexivity.
  - now exists (round_robin 3 15).
  - exact H1.
  - apply (Hout ltac:(rewrite Hpc; cbn; lia)) with (j := 0%nat)
      (vc := VmConfig 3 1 []).
    + right. exists (VmConfig 0 2 []). rewrite Hv. split; reflexivity.
    + reflexivity.
    + reflexivity.
    + exact H0.
Defined.

(* ================================================================== *)
(** * 39. A cohort without the partition master *)
(* ================================================================== *)

Section StaleLevel.

Variable env : environment.
Variable m : nat.
Variable v : nat.

(** From a state with [partition->master = m] and
    [partition->init.curr_vm = v]: no VM struct is allocated, and every
    [vm_init] gets the struct at [v]. *)
Definition stale_rel (st st' : hyp_state) : Prop :=
  part_master (part st) = m -> curr_vm (part st) = v ->
  part_master (part st') = m /\ curr_vm (part st') = v
  /\ vm_structs st' = vm_structs st
  /\ exists evs,
       events st' = events st ++ evs
       /\ (forall ev, In ev evs -> is_alloc ev = false)
       /\ (forall c vm cfg mm id, In (EvVmInit c vm cfg mm id) evs -> vm = v).

Lemma stale_rel_refl (st : hyp_state) : stale_rel st st.
Proof.
  intros Hm Hv. repeat split; auto. exists []. rewrite app_nil_r.
  repeat split; auto; intros; contradiction.
Qed.

Lemma stale_rel_trans (st1 st2 st3 : hyp_state) :
  stale_rel st1 st2 -> stale_rel st2 st3 -> stale_rel st1 st3.
Proof.
  intros H12 H23 Hm Hv.
  destruct (H12 Hm Hv) as (Hm2 & Hv2 & Hs2 & e1 & He1 & Ha1 & Hi1).
  destruct (H23 Hm2 Hv2) as (Hm3 & Hv3 & Hs3 & e2 & He2 & Ha2 & Hi2).
  split; [exact Hm3 |]. split; [exact Hv3 |]. split; [congruence |].
  exists (e1 ++ e2). split; [rewrite He2, He1; now rewrite app_assoc |].
  split.
  - intros ev Hin. apply in_app_or in Hin as [Hin | Hin]; auto.
  - intros c vm cfg mm id Hin. apply in_app_or in Hin as [Hin | Hin]; eauto.
Qed.

Lemma stale_rel_enter (vc : vm_config) (nested : bool) (cohort : list nat)
    (st : hyp_state) :
  ~ In m cohort -> stale_rel st (level_enter env vc nested cohort st).
Proof.
  intros Hnot Hm Hv. unfold level_enter. cbn [log part].
  assert (Hex : existsb (fun c => (c =? part_master (part st))%nat) cohort
                = false).
  { destruct (existsb _ cohort) eqn:Hex; [| reflexivity].
    apply existsb_exists in Hex as (c & Hc & Heq).
    apply Nat.eqb_eq in Heq. exfalso. apply Hnot. congruence. }
  rewrite Hex. cbn [log part vm_structs events].
  repeat split; auto.
  exists (map (fun c => EvEnter c vc nested) cohort).
  split; [reflexivity |]. split.
  - intros ev Hin. apply in_map_iff in Hin as (c & <- & _). reflexivity.
  - intros c vm cfg mm id Hin. apply in_map_iff in Hin as (c' & Heq & _).
    discriminate Heq.
Qed.

Lemma stale_rel_ncpus (n : Z) (ahead : bool) (dt : nat) (st : hyp_state) :
  stale_rel st (set_ncpus n ahead dt st).
Proof.
  intros Hm Hv. cbn. repeat split; auto. exists []. rewrite app_nil_r.
  repeat split; auto; intros; contradiction.
Qed.

Lemma level_vm_init_structs (vc : vm_config) (vm : nat) (ks : nat -> claim)
    (team : list nat) :
  forall st, vm_structs (level_vm_init vc vm ks team st) = vm_structs st.
Proof.
  induction team as [|c rest IH]; intros st; cbn [level_vm_init];
    [reflexivity |].
  destruct (master (ks c)); unfold vmm_alloc_vmid; now rewrite IH.
Qed.

Lemma stale_rel_vm_init (vc : vm_config) (ks : nat -> claim)
    (team : list nat) (st : hyp_state) :
  stale_rel st (level_vm_init vc (curr_vm (part st)) ks team st).
Proof.
  intros Hm Hv.
  destruct (level_vm_init_events vc (curr_vm (part st)) ks team st)
    as (evs & He & Hp & Hin & _).
  rewrite Hp, level_vm_init_structs. repeat split; auto.
  exists evs. split; [exact He |]. split.
  - intros ev Hev. destruct (Hin ev Hev) as (c & id & _ & ->). reflexivity.
  - intros c vm cfg mm id Hev.
    destruct (Hin _ Hev) as (c' & id' & _ & Heq). injection Heq.
    intros; congruence.
Qed.

Lemma record_children_frame (vm : nat) (rs : list (nat * option vcpu)) :
  forall lists st lists' st',
    record_children vm rs lists st = Some (lists', st') ->
    curr_vm (part st') = curr_vm (part st)
    /\ vm_structs st' = vm_structs st.
Proof.
  induction rs as [|[c [child|]] rest IH]; intros lists st lists' st' H;
    cbn [record_children] in H.
  - inversion H; subst. auto.
  - destruct (objcache_alloc (nodes (part st))) as [[slot oc]|];
      [| discriminate].
    apply IH in H. exact H.
  - eapply IH; eauto.
Qed.

Lemma stale_rel_record (vm : nat) (rs : list (nat * option vcpu))
    lists st lists' st' :
  record_children vm rs lists st = Some (lists', st') -> stale_rel st st'.
Proof.
  intros H Hm Hv.
  destruct (record_children_events vm rs _ _ _ _ H) as (evs & He & Hp & Hin & _).
  destruct (record_children_frame vm rs _ _ _ _ H) as [Hc Hs].
  split; [congruence |]. split; [congruence |]. split; [exact Hs |].
  exists evs. split; [exact He |]. split.
  - intros ev Hev. destruct (Hin ev Hev) as (c & ch & sl & _ & ->).
    reflexivity.
  - intros c vm' cfg mm id Hev.
    destruct (Hin _ Hev) as (c' & ch & sl & _ & Heq). discriminate Heq.
Qed.

Lemma vmm_create_vms_stale (config : vm_config) (nested : bool)
    (cohort : list nat) (st : hyp_state) rs st' :
  ~ In m cohort ->
  vmm_create_vms env config nested cohort st = Some (rs, st') ->
  stale_rel st st'.
Proof.
  intros Hnot.
  apply (vmm_create_vms_relates env (fun co => ~ In m co)); auto.
  - intros f co Hco Hin. apply List.filter_In in Hin as [Hin _]. auto.
  - apply stale_rel_refl.
  - apply stale_rel_trans.
  - intros vc nst co s Hco. now apply stale_rel_enter.
  - apply stale_rel_ncpus.
  - apply stale_rel_vm_init.
  - apply stale_rel_record.
Qed.

(** With the counter at the required count or above, a pass changes
    nothing. *)
Lemma claim_pass_full (section : vm_config -> nat -> Z -> claim -> Z * claim)
    (vc : vm_config) (order : list nat) :
  guarded vc section ->
  forall n ks, cpu_num vc <= n ->
    (claim_pass section vc order n ks).1 = n
    /\ forall c, (claim_pass section vc order n ks).2 c = ks c.
Proof.
  intros Hg. induction order as [|c rest IH]; intros n ks Hn;
    cbn [claim_pass]; [auto |].
  destruct (Hg c n (ks c)) as [E | [Hlt _]]; [| lia].
  rewrite E. destruct (IH n (upd ks c (ks c)) Hn) as [H1 H2].
  split; [exact H1 |]. intros x. rewrite H2. apply upd_id.
Qed.

End StaleLevel.

(** X20.  [vmm_create_vms] allocates the VM struct and resets the counter
    on the partition master only: when the CPUs that call it do not
    include the partition master, no VM struct is allocated anywhere in
    the subtree, [partition->init.curr_vm] stays as it was, and every
    [vm_init] of the run, for whichever VM of the subtree, is given that
    same struct; the claiming passes start from the counter as it was, so
    with [platform.cpu_num] at or below it no CPU gets a slot and every
    CPU gets NULL. *)
Theorem cohort_without_partition_master (env : environment)
    (config : vm_config) (nested : bool) (cohort : list nat)
    (st st' : hyp_state) (rs : list (nat * option vcpu)) :
  ~ In (part_master (part st)) cohort ->
  vmm_create_vms env config nested cohort st = Some (rs, st') ->
  (exists evs,
     events st' = events st ++ evs
     /\ count_events is_alloc evs = 0%nat
     /\ forall c vm cfg mm id, In (EvVmInit c vm cfg mm id) evs ->
                               vm = curr_vm (part st))
  /\ vm_structs st' = vm_structs st
  /\ curr_vm (part st') = curr_vm (part st)
  /\ (forall c vc, In (c, Some vc) rs -> vcpu_vm vc = curr_vm (part st))
  /\ (cpu_num config <= init_ncpus (part st) ->
      forall c r, In (c, r) rs -> r = None).
Proof.
  intros Hnot Hrun.
  destruct (vmm_create_vms_stale env (part_master (part st))
              (curr_vm (part st)) config nested cohort st rs st' Hnot Hrun
              eq_refl eq_refl)
    as (_ & Hcv & Hvs & evs & He & Hna & Hinit).
  split; [| split; [exact Hvs | split; [exact Hcv | split]]].
  - exists evs. split; [exact He |]. split; [| exact Hinit].
    unfold count_events. rewrite filter_none; [reflexivity | exact Hna].
  - intros c vc Hin.
    destruct (vmm_create_vms_roles env config nested cohort st rs st' Hrun)
      as (evs' & He' & R).
    assert (evs' = evs) as ->
      by (rewrite He in He'; now apply app_inv_head in He').
    destruct R. destruct (rr_vcpu0 c vc Hin) as (_ & mm & id & Hev).
    eapply Hinit; eauto.
  - intros Hfull c r Hin. destruct config as [a n kids].
    cbn [vmm_create_vms] in Hrun.
    set (config := VmConfig a n kids) in *.
    set (st1 := level_enter env config nested cohort st) in *.
    assert (Hn1 : init_ncpus (part st1) = init_ncpus (part st)).
    { subst st1. unfold level_enter. cbn [log part].
      destruct (existsb _ cohort) eqn:Hex; [| reflexivity].
      apply existsb_exists in Hex as (x & Hx & Heq).
      apply Nat.eqb_eq in Heq. exfalso. apply Hnot. congruence. }
    assert (Hp1 : part_master (part st1) = part_master (part st)).
    { subst st1. now destruct (level_enter_events env config nested cohort st)
        as (_ & H & _). }
    rewrite (level_claim_calm env config (part_master (part st1)) cohort
               (ticks st1) (init_ncpus (part st1))) in Hrun
      by (right; now rewrite Hp1).
    assert (Hks : forall x,
              assigned ((claim_passes env config cohort (ticks st1)
                           (init_ncpus (part st1))).2 x) = false).
    { intros x. unfold claim_passes.
      destruct (claim_pass_full claim_affinity config
                  (lock_order env (ticks st1) cohort)
                  (claim_affinity_guarded config)
                  (init_ncpus (part st1)) (fun _ => claim_init))
        as [H1 H2]; [rewrite Hn1; exact Hfull |].
      destruct (claim_pass claim_affinity config
                  (lock_order env (ticks st1) cohort)
                  (init_ncpus (part st1)) (fun _ => claim_init))
        as [n1 ks1].
      cbn [fst snd] in H1, H2. subst n1.
      destruct (claim_pass_full claim_fallback config
                  (lock_order env (S (ticks st1)) cohort)
                  (claim_fallback_guarded config)
                  (init_ncpus (part st1)) ks1) as [_ H3];
        [rewrite Hn1; exact Hfull |].
      rewrite H3, H2. reflexivity. }
    destruct (claim_passes env config cohort (ticks st1)
                (init_ncpus (part st1))) as [n' ks].
    cbn [snd] in Hks.
    destruct (children_loop _ _ _ _ _ _) as [[lists st4]|]; [| discriminate].
    inversion Hrun; subst rs st'; clear Hrun.
    apply in_map_iff in Hin as (x & Heq & _).
    rewrite Hks in Heq. now inversion Heq.
Qed.

(** The state in which the CPUs of a level start the loop over the
    children: lines 66-110 are behind them.  With it, the CPUs that have a
    slot. *)
Definition level_start (env : environment) (config : vm_config)
    (nested : bool) (cohort : list nat) (st : hyp_state)
    : list nat * hyp_state :=
  let st1 := level_enter env config nested cohort st in
  let '(n, ks, ahead) :=
    level_claim env config (part_master (part st1)) cohort (ticks st1)
                (init_ncpus (part st1)) in
  let team := List.filter (fun c => assigned (ks c)) cohort in
  (team,
   level_vm_init config (curr_vm (part st1)) ks team
                 (set_ncpus n ahead 2 st1)).

(** A run of [vmm_create_vms] is the loop over the children from that
    state, run by those CPUs; the loop starts with the call for the first
    child. *)
Lemma level_start_loop (env : environment) (config : vm_config)
    (nested : bool) (cohort : list nat) (st st' : hyp_state)
    (rs : list (nat * option vcpu)) :
  vmm_create_vms env config nested cohort st = Some (rs, st') ->
  let s := level_start env config nested cohort st in
  exists vm lists,
    children_loop (vmm_create_vms env) vm s.1 (children config)
                  (fun _ => []) s.2 = Some (lists, st').
Proof.
  destruct config as [a n kids]. cbn [vmm_create_vms children].
  unfold level_start.
  set (st1 := level_enter env (VmConfig a n kids) nested cohort st).
  destruct (level_claim env (VmConfig a n kids) (part_master (part st1))
              cohort (ticks st1) (init_ncpus (part st1))) as [[n' ks] ahead].
  cbn [fst snd].
  destruct (children_loop (vmm_create_vms env) (curr_vm (part st1))
              (List.filter (fun c => assigned (ks c)) cohort) kids
              (fun _ => [])
              (level_vm_init (VmConfig a n kids) (curr_vm (part st1)) ks
                 (List.filter (fun c => assigned (ks c)) cohort)
                 (set_ncpus n' ahead 2 st1))) as [[lists st4]|] eqn:Hloop;
    [| discriminate].
  intros H. inversion H; subst. eauto.
Qed.

(** A VM with three CPUs, whose child takes CPU 1 alone and has a child
    of its own. *)
Definition lone_grandchild : vm_config := VmConfig 6 2 [].
Definition lone_child : vm_config := VmConfig 6 1 [lone_grandchild].
Definition lone_parent : vm_config := VmConfig 7 3 [lone_child].

Lemma cohort_without_partition_master_witness :
  let sp := level_start env_in_order lone_parent false [0; 1; 2]%nat
              (hyp_init 0 [10; 11; 12]%nat) in
  let sk := level_start env_in_order lone_child true sp.1 sp.2 in
  sp.1 = [0; 1; 2]%nat
  /\ sk.1 = [1%nat]
  /\ part_master (part sk.2) = 0%nat
  /\ curr_vm (part sk.2) = 2%nat
  /\ init_ncpus (part sk.2) = 1
  /\ vm_structs sk.2 = [2; 1]%nat
  /\ exists rs st',
       vmm_create_vms env_in_order lone_grandchild true [1]%nat sk.2
       = Some (rs, st')
       /\ rs = [(1%nat, Some (Vcpu 2 1 []))]
       /\ vm_structs st' = [2; 1]%nat
       /\ In (EvVmInit 1 2 lone_child true 2) (events st')
       /\ In (EvVmInit 1 2 lone_grandchild false NO_VMID) (events st')
       /\ (forall c vc, In (c, Some vc) rs -> vcpu_vm vc = 2%nat)
       /\ (exists evs, events st' = events sk.2 ++ evs
                       /\ count_events is_alloc evs = 0%nat).
Proof.
  cbv zeta.
  set (sp := level_start env_in_order lone_parent false [0; 1; 2]%nat
               (hyp_init 0 [10; 11; 12]%nat)).
  set (sk := level_start env_in_order lone_child true sp.1 sp.2).
  assert (Hsk : sk.1 = [1%nat] /\ part_master (part sk.2) = 0%nat
                /\ curr_vm (part sk.2) = 2%nat
                /\ init_ncpus (part sk.2) = 1
                /\ vm_structs sk.2 = [2; 1]%nat).
  { vm_compute. repeat split. }
  destruct Hsk as (Hteam & Hpm & Hcv & Hn & Hvs).
  split; [reflexivity |]. split; [exact Hteam |]. split; [exact Hpm |].
  split; [exact Hcv |]. split; [exact Hn |]. split; [exact Hvs |].
  destruct (vmm_create_vms env_in_order lone_grandchild true [1]%nat sk.2)
    as [[rs st']|] eqn:Hrun; [| vm_compute in Hrun; discriminate Hrun].
  exists rs, st'. split; [reflexivity |].
  destruct (cohort_without_partition_master env_in_order lone_grandchild true
              [1]%nat sk.2 st' rs)
    as ((evs & He & Ha & _) & Hvs' & _ & Hres & _).
  - rewrite Hpm. intros [H | []]. discriminate H.
  - exact Hrun.
  - rewrite Hvs in Hvs'. rewrite Hcv in Hres.
    split; [vm_compute in Hrun; now injection Hrun as <- _ |].
    split; [exact Hvs' |].
    split; [vm_compute in Hrun; injection Hrun as _ <-; cbn; tauto |].
    split; [vm_compute in Hrun; injection Hrun as _ <-; cbn; tauto |].
    split; [exact Hres |]. exists evs. split; [exact He | exact Ha].
Defined.

